(* ===== verification/_CoqProject ===== *)
-Q . S2P
Prelude.v
GoStd.v
Errors.v
FunctionalOptions.v
Effects.v
KubeObjects.v
Constants.v
Config.v
GoHeap.v
DeepCopy.v
DeepCopyProps.v
MemoryProps.v
Registration.v
External.v
Interfaces.v
Secrets.v
Manifests.v
Deployer.v
DeployerProps.v
EnvoyProxyGuard.v
GatewayGuard.v
OrphanSweep.v
NetpolDeployer.v
DataPlanePolicies.v
DataplaneNetpol.v
Actuator.v
Process.v
Mgr.v
Heartbeat.v
Controller.v
NetpolManager.v
Commands.v
Cli.v
FlagTables.v
EntryPoint.v
Codec.v
ActuatorSpecs.v
Validator.v
ActuatorLemmas.v
MetricsRegistry.v
ActuatorProps.v
ErrorClasses.v
FailurePhases.v
GuardProps.v
SweepProps.v
NetpolController.v
ManifestProps.v
ControllerSystem.v
ControllerConvergence.v
ControllerExecution.v
ControllerLiveness.v
ConstructorProps.v
ProcessProps.v
CliProps.v
MainProps.v
Landscape.v
NetpolLifecycle.v
ProcessWitnesses.v
Scripts.v
ExtensionWorld.v
ExtensionSpec.v
ExtensionActions.v
ExtensionLifecycle.v
ExtensionProps.v
ExtensionProgress.v
ExtensionAdmission.v
ExtensionNeighbours.v
ExtensionConfined.v
ExtensionSystem.v
ExtensionMigration.v
ExtensionDemo.v
ExtensionWitnesses.v
ExtensionConcurrency.v
ExtensionController.v
Witnesses.v
