(* ===== verification/Prelude.v ===== *)
(** * gardener-extension-envoy-gateway: a verification development

    ** The program

    gardener-extension-envoy-gateway is a Gardener extension that runs Envoy
    Gateway in shoot clusters.  Its parts, and where they are modelled:

    - The actuator (pkg/actuator/actuator.go) handles the lifecycle of an
      Extension resource: it decodes the provider configuration, has the TLS
      secrets generated, ships the manifests in a ManagedResource, and deploys,
      scales or removes the per-shoot NetworkPolicy controller; before it removes
      anything it refuses while user Gateways exist, or drains them when the whole
      shoot is deleted.  [Actuator.v]; its components, each behind a Go interface:
      [GatewayGuard.v] (gateway_guard.go), [OrphanSweep.v] (orphan_sweep.go),
      [NetpolDeployer.v] (netpol_deployer.go), [DataplaneNetpol.v]
      (dataplane_netpol.go).  The interfaces are records in [Interfaces.v], and
      what the actuator relies on of each is a class in [ActuatorSpecs.v], with
      instances for the production implementations.
    - The manifests and the deployer (pkg/envoygateway): [Constants.v],
      [Secrets.v] (secrets.go), [Manifests.v] and [Deployer.v] (deployer.go),
      [DataPlanePolicies.v] (netpol.go); the scheme and codec that encode them in
      [Codec.v] (init of deployer.go).  The metric vectors (pkg/metrics):
      [MetricsRegistry.v].
    - The provider configuration (pkg/apis/config, v1alpha1): types, defaulting
      and conversion in [Config.v]; the generated deep copies, and conversions and
      defaults through pointers, in [DeepCopy.v] on the memory of [GoHeap.v]; its
      registration with a scheme in [Registration.v].
    - Admission of Shoots (pkg/admission/validator/shoot.go): [Validator.v].
    - The NetworkPolicy controller (pkg/netpolcontroller): the reconciler and its
      watches in [NetpolController.v], the system they run in - API objects,
      caches, event streams, queue, worker and users - in [ControllerSystem.v].
    - Process start-up: the manager builder (pkg/mgr) in [Mgr.v], the controller
      and heartbeat wrappers (pkg/controller, pkg/heartbeat) in [Controller.v]
      and [Heartbeat.v], the NetworkPolicy controller's manager and command in
      [NetpolManager.v], the manager and webhook commands in [Commands.v].  Their
      command-line tables are in [FlagTables.v], over the types of [Cli.v]; main,
      the version and the embedded image vector in [EntryPoint.v].

    ** How it is modelled

    - Handlers are programs of the free monad of [Effects.v] over a signature of
      the calls they make: [External.v] for the running extension (two API
      servers, Gardener's libraries, clock and metrics), [Process.v] for
      start-up.  A Go function that returns [(T, error)] is a program of
      [outcome T]: a value, an error or a panic.  [runs p t r] says that [p] can
      issue the calls of the trace [t], with the answers recorded there, and end
      in [r]; the answers are unconstrained, so a theorem about all [t] covers
      every failure of the outside world.  Documented behaviour of that world is
      a hypothesis where a theorem needs it: [lists_selected] (the API server
      honours list options), [DocumentedClient] (what the shoot API server and
      the informers do) and [HealthyClient] (it also answers), [DocumentedSeed]
      (what the seed API server does, failures included), [DocumentedWorld] (what
      the calls of the actuator do to the seed and the shoot, failures included),
      [PromptTermination] (pods stop with their Deployment, which Kubernetes does
      not promise), [SelectorSemantics]
      (label selectors), [RangeOrder] (iteration over Go maps),
      [DocumentedCommandLine] (how the CLI library reads arguments, environment
      and defaults), [DocumentedConstants] (the flag values the libraries name),
      [imagevector.DocumentedLibrary] (the image-vector library),
      [DocumentedCoreV1] (Kubernetes's own deep copies).
    - The parts meet in the world of one Extension ([ExtensionWorld.v]): the seed
      and the shoot as records, [documented_effect] for what each call does to
      them when it succeeds or fails, and the relation [env] for what
      gardener-resource-manager, the NetworkPolicy controller and the users do
      between any two calls.  Shipped objects in the shoot are changed by
      gardener-resource-manager only; [contents], a parameter, says which objects
      serialized data describes.  A [history] is a sequence of operations with
      their results.  [ExtensionSpec.v] is its abstract counterpart: plans and
      scripts of atomic actions on three components of the seed.
      [Scripts.v] is the program logic between the two.
      Many Extensions at once are the [system] of [ExtensionSystem.v]: one seed,
      a shoot and a worker for each Extension (the work queue never runs two
      operations of one Extension at the same time), and turns of one call.
    - Errors ([Errors.v]) keep their wrapping chain and their text, since the
      code inspects both.  Strings are [string]; the Go string and fmt functions
      the code uses are in [GoStd.v].  Kubernetes and Gardener objects
      ([KubeObjects.v]) are records with the fields the program reads or writes;
      maps are [gmap].  Functional options are in [FunctionalOptions.v].
    - Pure functions and constants outside src/ - encoders, version comparison,
      the embedded CRD bundles - are the fields of the class [Libraries], a
      parameter of every definition that uses them.
    - Objects are values wherever sharing cannot be observed.  Where it is the
      point - deep copies against conversions - objects live in a [heap] of typed
      cells, pointers are locations, and dereferencing nil or a dangling pointer
      is stuck.
    - Deadlines are numbers of polling intervals: [drainTicks] is two minutes in
      intervals of two seconds.  The polling loop recurses on it, so it needs no
      other fuel; every other loop recurses on the list it ranges over.

    ** What is shown

    - Safety of the lifecycle ([ActuatorProps.v], [GuardProps.v],
      [SweepProps.v]): nothing is removed before the guard saw no Gateway;
      teardown precedes pruning and pruning precedes removal; a deleted shoot is
      only drained and a hibernated one only scaled down; leaving a seed keeps the
      shoot's objects; draining never blocks on an unreachable shoot; the sweep
      deletes only orphans and never decides the outcome of a reconcile; a
      successful reconcile shipped what the configuration asks for; which
      executions panic; what the metrics record.  [ErrorClasses.v],
      [FailurePhases.v]: the substring-based class of an operation's error says
      which phase of it failed, for every execution of the five operations.
    - The life cycle of an Extension ([ExtensionActions.v],
      [ExtensionLifecycle.v]): every history of operations implements the abstract
      life cycle, whichever calls fail.  [ExtensionProps.v]: a deletion leaves
      nothing behind, and switching the feature off leaves no policies.  [ExtensionMigration.v]: a migration removes nothing from
      the shoot.  [ExtensionProgress.v]: where every call is answered, every
      operation succeeds.  [ExtensionAdmission.v]: the Shoots the webhook admits are
      those whose Reconcile succeeds, and for the others nothing is done.
      [ExtensionNeighbours.v], [ExtensionConfined.v], [ExtensionSystem.v]: the
      operations of an Extension keep to its own part of the seed, so that under
      every interleaving each Extension fares as if it were alone
      ([ExtensionConcurrency.v] runs two).  [ExtensionController.v]: the NetworkPolicy controller does only
      what the world lets it do.  [ExtensionWitnesses.v]: without
      [PromptTermination], a controller that outlives its Deployment can recreate
      the policies that a deletion prunes.
    - The NetworkPolicy controller ([ControllerConvergence.v],
      [ControllerExecution.v]): in every reachable state of the system in which
      nothing is in flight, the policies of a namespace are those its Gateways
      call for; one reconcile settles a namespace and touches nothing else; and
      the two user actions the watches do not observe.  [ControllerLiveness.v]:
      under a fair schedule that state is reached.  [NetpolLifecycle.v]: the
      deployer of its Deployment implements a machine of three states.
    - The manifests ([DeployerProps.v], [ManifestProps.v], [EnvoyProxyGuard.v],
      [DataPlanePolicies.v], [Secrets.v]): exactly the expected resources are
      shipped, and each can be encoded ([Codec.v]); selectors, ports, volumes, roles and accounts fit together; the
      policies admit exactly the intended traffic, under the rules of Kubernetes for
      policy types, peers and ports, xDS on both sides included; the admission guard's
      variables and expressions, evaluated on any object, say that a field is absent.
    - Configuration ([Config.v], [Validator.v]): defaulting and conversion;
      which Shoots are admitted; admission and actuator accept the same
      configurations.  In memory ([DeepCopyProps.v], [MemoryProps.v]): a deep copy
      shares nothing with the original, a conversion shares every pointer, and
      the defaults on memory are those on values.  [Registration.v]: what a
      scheme gets, in any order of the init functions.
    - Start-up ([ConstructorProps.v], [ProcessProps.v], [CliProps.v],
      [MainProps.v]): constructors validate and default; every command starts its
      manager last, created with the options its flags describe, with its APIs on the
      scheme and everything it needs registered, or not at all; for every
      command line, main panics nowhere, starts only validated commands and exits with
      the code of the outcome (the CLI library ends the process itself where an
      error carries a code); names
      and flags are unambiguous; the shipped Deployment's arguments start the
      NetworkPolicy controller; the embedded images suffice.
      [MetricsRegistry.v]: every metric update fits a registered vector.

    [Landscape.v] is a concrete instance of the parameters of the running
    extension and [Witnesses.v] applies the theorems to executions in it;
    [ProcessWitnesses.v] does the same for the process, and [ExtensionDemo.v] and
    [ExtensionWitnesses.v] for the life cycle, in a world that reacts to every
    call.

    ** What is not modelled

    Log output (building a logger, which can panic, is modelled; what is written
    to it is not).  The CLI library's parsing, the encoding of objects, the
    parsing of the CRD bundles, the scheme, the Prometheus registry and the
    image-vector library, which are parameters.  Concurrency between the
    extension's own reconciles, which the controller library serialises per
    object; the concurrency of the NetworkPolicy controller with users and
    informers is modelled.  Changes that users make to shipped objects, which
    gardener-resource-manager reverts.  Contexts are not cancelled except by the deadlines
    the code sets.  Go declarations without behaviour of their own (accessors of
    constants, interface assertions, build tags) have no counterpart. *)

From Stdlib Require Export ZArith Lia.
From stdpp Require Export base list gmap sets strings numbers.
Export stdpp.list_relations.list.

#[export] Set Default Proof Using "Type".

(** ** Ordering of events in a list

    [before P Q l]: every element satisfying [Q] is preceded in [l] by one
    satisfying [P]. *)
Definition before {A} (P Q : A -> Prop) (l : list A) : Prop :=
  forall l1 x l2, l = l1 ++ x :: l2 -> Q x -> Exists P l1.

(** ** Generic tactics *)

(** Case analysis on an innermost [match] of the goal, or of a hypothesis. *)
Ltac case_goal :=
  match goal with
  | |- context [match ?x with _ => _ end] =>
      lazymatch x with
      | context [match _ with _ => _ end] => fail
      | _ => destruct x eqn:?
      end
  end.

Ltac case_hyp :=
  match goal with
  | H : context [match ?x with _ => _ end] |- _ =>
      lazymatch x with
      | context [match _ with _ => _ end] => fail
      | _ => destruct x eqn:?
      end
  end.

(** Break the existentials and conjunctions of the context. *)
Ltac deex :=
  repeat match goal with
         | H : exists _, _ |- _ => destruct H
         | H : _ /\ _ |- _ => destruct H
         end.

(** ** Record update

    [r <| f := v |>] is the record [r] with field [f] assigned, as the Go
    statement [r.f = v] on a copy of [r].  A record type opts in with an [Eta]
    instance that rebuilds it from its fields; the setters are derived. *)
Class Eta (R : Type) := eta : R -> R.
Class Setter {R T : Type} (proj : R -> T) := update : (T -> T) -> R -> R.

Ltac derive_setter :=
  lazymatch goal with
  | |- @Setter ?R ?T ?proj =>
      let e := constr:(_ : Eta R) in
      let e := eval hnf in e in
      let f := fresh "f" in
      let r := fresh "r" in
      intros f r;
      let body := eval cbv beta in (e r) in
      let b := eval pattern (proj r) in body in
      lazymatch b with ?g _ => exact (g (f (proj r))) end
  end.

#[export] Hint Extern 0 (Setter _) => derive_setter : typeclass_instances.

Declare Scope record_scope.
Delimit Scope record_scope with record.
Notation "r <| f := v |>" := (update (proj := f) (fun _ => v) r)
  (at level 1, left associativity, f at level 50, v at level 200) : record_scope.
Global Open Scope record_scope.

(** ** Lemmas *)

Section before_lemmas.
Context {A : Type}.
Implicit Types (P Q : A -> Prop) (l : list A).

Lemma before_nil P Q : before P Q [].
Proof. intros l1 x l2 H. by destruct l1. Qed.

Lemma before_none P Q l : Forall (fun x => ~ Q x) l -> before P Q l.
Proof. intros H l1 x l2 -> HQ. apply Forall_app in H as [_ H]. by inv H. Qed.

Lemma before_app P Q l1 l2 : before P Q l1 -> before P Q l2 -> before P Q (l1 ++ l2).
Proof.
  intros H1 H2 k1 x k2 Heq HQ. symmetry in Heq.
  apply app_eq_inv in Heq as [(k & -> & Hk)|(k & -> & Hk)].
  - apply Exists_app. right. by eapply H2.
  - destruct k as [|y k]; simplify_eq/=.
    + by eapply (H2 []), Exists_nil in HQ.
    + by eapply H1.
Qed.

(** After a [P], any event may follow. *)
Lemma before_app_est P Q l1 l2 : before P Q l1 -> Exists P l1 -> before P Q (l1 ++ l2).
Proof.
  intros H1 H2 k1 x k2 Heq HQ. symmetry in Heq.
  apply app_eq_inv in Heq as [(k & -> & Hk)|(k & -> & Hk)].
  - apply Exists_app. by left.
  - destruct k as [|y k]; simplify_eq/=.
    + by rewrite app_nil_r in H2.
    + by eapply H1.
Qed.
End before_lemmas.

(** ** Maps *)

Lemma subseteq_insert (m ls : gmap string string) k v :
  m !! k = None -> <[k := v]> m ⊆ ls <-> ls !! k = Some v /\ m ⊆ ls.
Proof.
  intros Hk. rewrite !map_subseteq_spec. split.
  - intros H. split; [apply H, lookup_insert_eq|]. intros i x Hi. apply H.
    rewrite lookup_insert_ne; [done|]. intros ->. congruence.
  - intros [H1 H2] i x. rewrite lookup_insert. case_decide as Hd.
    + intros [= <-]. by rewrite <- Hd.
    + apply H2.
Qed.

Lemma subseteq_singleton (k v : string) (ls : gmap string string) :
  {[ k := v ]} ⊆ ls <-> ls !! k = Some v.
Proof. apply map_singleton_subseteq_l. Qed.

Lemma subseteq_empty (ls : gmap string string) : ∅ ⊆ ls <-> True.
Proof. split; [done|]. intros _. apply map_empty_subseteq. Qed.
