(* ===== verification/GoStd.v ===== *)
(** * Go's standard library, as far as the program uses it

    Strings are byte sequences ([string]), as in Go.  The functions below are
    [strings.Contains], [strings.Split] and [bytes.Join] with their one-byte or
    literal separators, [strings.TrimRight(s, newline)], [strings.Repeat], and
    the verbs of [fmt.Sprintf] that the program uses ([%d], [%q], [%v] of a
    string slice). *)

From Stdlib Require Import Ascii DecimalString.
From stdpp Require Import strings pretty.
From S2P Require Import Prelude.

Local Open Scope string_scope.

Definition newline : ascii := "010"%char.
Definition nl : string := String newline "".
Definition dquote : ascii := "034"%char.

(** [strings.Contains(s, substr)]. *)
Fixpoint Contains (s substr : string) : bool :=
  String.prefix substr s ||
  match s with
  | "" => false
  | String _ s' => Contains s' substr
  end.

(** [strings.Split(s, sep)] for a one-byte separator. *)
Fixpoint Split (s : string) (sep : ascii) : list string :=
  match s with
  | "" => [""]
  | String c s' =>
      if Ascii.eqb c sep then "" :: Split s' sep
      else match Split s' sep with
           | x :: xs => String c x :: xs
           | [] => [String c ""]
           end
  end.

(** [strings.Join(elems, sep)]. *)
Fixpoint Join (elems : list string) (sep : string) : string :=
  match elems with
  | [] => ""
  | [x] => x
  | x :: xs => x +:+ sep +:+ Join xs sep
  end.

(** [strings.Repeat(s, n)]. *)
Fixpoint Repeat (s : string) (n : nat) : string :=
  match n with
  | O => ""
  | S n => s +:+ Repeat s n
  end.

(** [strings.TrimRight(s, "\n")]: drop every trailing newline. *)
Fixpoint TrimRightNl (s : string) : string :=
  match s with
  | "" => ""
  | String c s' =>
      match TrimRightNl s' with
      | "" => if Ascii.eqb c newline then "" else String c ""
      | t => String c t
      end
  end.

(** The bytes [bytes.TrimSpace] removes from ASCII text. *)
Definition is_space (c : ascii) : bool :=
  bool_decide (c ∈ [" "; "009"; "010"; "011"; "012"; "013"]%char).

Fixpoint all_space (s : string) : bool :=
  match s with
  | "" => true
  | String c s' => is_space c && all_space s'
  end.

(** [fmt.Sprintf("%d", z)]. *)
Definition fmt_d (z : Z) : string := NilEmpty.string_of_int (Z.to_int z).

Definition hex_digit (n : N) : ascii :=
  if (n <? 10)%N then ascii_of_N (48 + n) else ascii_of_N (87 + n).

(** One byte of [strconv.Quote]; bytes above the ASCII range are kept, as
    [Quote] does for printable UTF-8 text. *)
Definition quote_byte (c : ascii) : string :=
  let n := N_of_ascii c in
  let esc (d : ascii) := String "\" (String d "") in
  if Ascii.eqb c dquote then String "\" (String dquote "")
  else if Ascii.eqb c "\" then esc "\"%char
  else if (n =? 7)%N then esc "a"%char
  else if (n =? 8)%N then esc "b"%char
  else if (n =? 9)%N then esc "t"%char
  else if (n =? 10)%N then esc "n"%char
  else if (n =? 11)%N then esc "v"%char
  else if (n =? 12)%N then esc "f"%char
  else if (n =? 13)%N then esc "r"%char
  else if ((n <? 32) || (n =? 127))%N
  then String "\" (String "x" (String (hex_digit (N.div n 16)) (String (hex_digit (N.modulo n 16)) "")))
  else String c "".

Fixpoint quote_body (s : string) : string :=
  match s with
  | "" => ""
  | String c s' => quote_byte c +:+ quote_body s'
  end.

(** [fmt.Sprintf("%q", s)]. *)
Definition fmt_q (s : string) : string :=
  String dquote (quote_body s +:+ String dquote "").

(** [fmt.Sprintf("%v", l)] of a string slice. *)
Definition fmt_v (l : list string) : string := "[" +:+ Join l " " +:+ "]".

(** [strconv.ParseBool]: the texts of the two booleans; any other is an error. *)
Definition ParseBool (str : string) : option bool :=
  if decide (str ∈ ["1"; "t"; "T"; "true"; "TRUE"; "True"]) then Some true
  else if decide (str ∈ ["0"; "f"; "F"; "false"; "FALSE"; "False"]) then Some false
  else None.

(** Some nonempty suffix of [p] starts the pattern [sub]: a match of [sub] in
    [p] followed by more text may then straddle the boundary. *)
Fixpoint overlaps (p sub : string) : bool :=
  match p with
  | "" => false
  | String _ p' => String.prefix p sub || overlaps p' sub
  end.

(** ** Lemmas *)

Lemma string_app_cons c s t : String c s +:+ t = String c (s +:+ t).
Proof. done. Qed.

Lemma string_app_nil_l s : "" +:+ s = s.
Proof. done. Qed.

Lemma string_app_nil_r s : s +:+ "" = s.
Proof. induction s as [|c s IH]; [done|]. by rewrite string_app_cons, IH. Qed.

Lemma string_app_assoc s1 s2 s3 : (s1 +:+ s2) +:+ s3 = s1 +:+ (s2 +:+ s3).
Proof. induction s1 as [|c s IH]; [done|]. by rewrite !string_app_cons, IH. Qed.

Lemma prefix_app s t : String.prefix s (s +:+ t) = true.
Proof.
  induction s as [|c s IH]; [by destruct t|]. rewrite string_app_cons. simpl.
  by destruct (ascii_dec c c).
Qed.

Lemma prefix_mono m s t : String.prefix m s = true -> String.prefix m (s +:+ t) = true.
Proof.
  revert s. induction m as [|c m IH]; intros s Hm; [by destruct (s +:+ t)|].
  destruct s as [|d s]; [done|]. rewrite string_app_cons. simpl in *.
  destruct (ascii_dec c d); [by apply IH|done].
Qed.

Lemma Contains_nil s : Contains s "" = true.
Proof. by destruct s. Qed.

Lemma Contains_of_prefix s sub : String.prefix sub s = true -> Contains s sub = true.
Proof. intros H. destruct s; cbn [Contains]; by rewrite H. Qed.

(** A string contains each of its infixes. *)
Lemma Contains_infix a s b : Contains (a +:+ s +:+ b) s = true.
Proof.
  induction a as [|c a IH].
  - rewrite string_app_nil_l. apply Contains_of_prefix, prefix_app.
  - rewrite string_app_cons. simpl. apply orb_true_iff. by right.
Qed.

Lemma Contains_prefix s b : Contains (s +:+ b) s = true.
Proof. apply (Contains_infix ""). Qed.

Lemma Contains_app_r a s sub : Contains s sub = true -> Contains (a +:+ s) sub = true.
Proof.
  intros H. induction a as [|c a IH]; [done|].
  rewrite string_app_cons. simpl. rewrite IH. apply orb_true_r.
Qed.

Lemma prefix_app_long p x sub :
  String.prefix p sub = false -> String.prefix sub (p +:+ x) = String.prefix sub p.
Proof.
  revert sub. induction p as [|c p IH]; intros sub H; [by destruct sub|].
  destruct sub as [|d sub]; [done|]. rewrite string_app_cons. simpl in *.
  destruct (ascii_dec c d) as [->|Hne]; [|by destruct (ascii_dec d c)].
  destruct (ascii_dec d d); [by apply IH|done].
Qed.

(** Without an overlap, a pattern occurs in a concatenation iff it occurs in
    one of the parts. *)
Lemma Contains_app p x sub :
  overlaps p sub = false -> Contains (p +:+ x) sub = Contains p sub || Contains x sub.
Proof.
  induction p as [|c p IH]; intros H.
  - destruct sub; [by rewrite !Contains_nil|done].
  - simpl in H. apply orb_false_iff in H as [H1 H2].
    rewrite string_app_cons.
    simpl Contains. rewrite (IH H2), orb_assoc. do 2 f_equal.
    by apply (prefix_app_long (String c p)).
Qed.

Lemma Contains_app_l s t m : Contains s m = true -> Contains (s +:+ t) m = true.
Proof.
  induction s as [|c s IH]; intros Hm; [destruct m; [by rewrite Contains_nil|done]|].
  rewrite string_app_cons. cbn [Contains] in *.
  apply orb_true_iff in Hm as [Hm|Hm]; apply orb_true_iff; [left|right; auto].
  by apply (prefix_mono _ (String c s)).
Qed.

(** ** Splitting and joining *)

Fixpoint no_char (sep : ascii) (s : string) : bool :=
  match s with
  | "" => true
  | String c s => negb (Ascii.eqb c sep) && no_char sep s
  end.

Lemma Split_no_char s sep : no_char sep s = true -> Split s sep = [s].
Proof.
  induction s as [|c s IH]; simpl; [done|].
  rewrite andb_true_iff, negb_true_iff. intros [-> Hs]. by rewrite IH.
Qed.

Lemma Split_app_sep s t sep :
  no_char sep s = true -> Split (s +:+ String sep t) sep = s :: Split t sep.
Proof.
  induction s as [|c s IH]; [intros _; change ("" +:+ String sep t) with (String sep t); cbn [Split]; by rewrite Ascii.eqb_refl|].
  rewrite string_app_cons. simpl. rewrite andb_true_iff, negb_true_iff. intros [-> Hs]. by rewrite IH.
Qed.

(** Splitting undoes joining, for parts without the separator. *)
Lemma Split_Join parts sep :
  parts <> [] -> Forall (fun p => no_char sep p = true) parts -> Split (Join parts (String sep "")) sep = parts.
Proof.
  intros Hne Hf. induction Hf as [|p parts Hp Hf IH]; [done|].
  destruct parts as [|q parts]; [by apply Split_no_char|].
  change (Join (p :: q :: parts) (String sep "")) with (p +:+ String sep "" +:+ Join (q :: parts) (String sep "")).
  change (String sep "" +:+ Join (q :: parts) (String sep "")) with (String sep (Join (q :: parts) (String sep ""))).
  rewrite Split_app_sep by done. by rewrite IH.
Qed.
