(* ===== verification/Errors.v ===== *)
(** * Go error values and the outcome of a call

    An [error] keeps the chain of [fmt.Errorf("...%w...", err)] wrappers, so
    that [errors.Is], [errors.AsType] and [err.Error()] can all be computed. *)

From S2P Require Import Prelude GoStd.

Local Open Scope string_scope.

(** What the API machinery's predicates distinguish. *)
Inductive StatusReason := ReasonNotFound | ReasonNoMatch | ReasonUnknown.

Inductive error :=
  | errorsNew (msg : string)  (** a package-level sentinel of [errors.New] *)
  | errorString (msg : string)  (** [fmt.Errorf] without [%w] *)
  | wrapError (pre : string) (inner : error) (post : string)
      (** [fmt.Errorf] with [%w] between [pre] and [post] *)
  | gatewaysInUseError (names : list string)
      (** the typed error of pkg/actuator/gateway_guard.go *)
  | apiError (reason : StatusReason) (msg : string).
      (** an error made outside the repository *)

(** [gatewaysInUseError.Error]: at most [maxPreview] names are shown. *)
Definition maxPreview : nat := 5.

Definition gatewaysInUseError_Error (names : list string) : string :=
  let '(preview, more) :=
    if decide (maxPreview < length names)
    then (take maxPreview names,
          " (and " +:+ fmt_d (Z.of_nat (length names) - Z.of_nat maxPreview) +:+ " more)")
    else (names, "") in
  "envoy-gateway extension cannot be removed while " +:+ fmt_d (Z.of_nat (length names)) +:+
  " user Gateway object(s) still exist in the shoot. " +:+
  "Delete the following Gateways first and try again: " +:+ fmt_v preview +:+ more.

(** [err.Error()]. *)
Fixpoint Error (e : error) : string :=
  match e with
  | errorsNew msg | errorString msg | apiError _ msg => msg
  | wrapError pre e post => pre +:+ Error e +:+ post
  | gatewaysInUseError names => gatewaysInUseError_Error names
  end.

(** The chain of wrapped errors, outermost first. *)
Fixpoint chain (e : error) : list error :=
  e :: match e with wrapError _ e _ => chain e | _ => [] end.

#[export] Instance StatusReason_eq_dec : EqDecision StatusReason.
Proof. solve_decision. Defined.

#[export] Instance error_eq_dec : EqDecision error.
Proof. solve_decision. Defined.

(** [errors.Is(e, target)] for a sentinel target. *)
Definition errorsIs (e target : error) : bool := bool_decide (target ∈ chain e).

(** [errors.AsType[*gatewaysInUseError](e)]. *)
Fixpoint asGatewaysInUse (e : error) : option (list string) :=
  match e with
  | gatewaysInUseError names => Some names
  | wrapError _ e _ => asGatewaysInUse e
  | _ => None
  end.

Definition hasReason (r : StatusReason) (e : error) : bool :=
  existsb (fun e => match e with apiError r' _ => bool_decide (r = r') | _ => false end) (chain e).

(** [apierrors.IsNotFound] and [meta.IsNoMatchError]. *)
Definition IsNotFound : error -> bool := hasReason ReasonNotFound.
Definition IsNoMatchError : error -> bool := hasReason ReasonNoMatch.

(** ** Outcomes

    A Go call returns a value, returns an error, or panics. *)
Inductive outcome (A : Type) : Type :=
  | Ok (a : A)
  | Err (e : error)
  | Panic (why : string).
Arguments Ok {A} a.
Arguments Err {A} e.
Arguments Panic {A} why.

(** The error a deferred function sees: a panic leaves it nil. *)
Definition errOf {A} (r : outcome A) : option error :=
  match r with Err e => Some e | _ => None end.

#[export] Instance outcome_ret : MRet outcome := fun A a => Ok a.
#[export] Instance outcome_bind : MBind outcome := fun A B f r =>
  match r with Ok a => f a | Err e => Err e | Panic w => Panic w end.

(** ** Lemmas *)

Lemma Error_wrap pre e post : Error (wrapError pre e post) = pre +:+ Error e +:+ post.
Proof. done. Qed.

Lemma errorsIs_wrap pre e post target :
  errorsIs e target = true -> errorsIs (wrapError pre e post) target = true.
Proof.
  unfold errorsIs. rewrite !bool_decide_eq_true. simpl. by right.
Qed.

Lemma IsNotFound_not_IsNoMatch msg : IsNoMatchError (apiError ReasonNotFound msg) = false.
Proof. done. Qed.

(** Results that are not panics. *)
Definition not_panic {A} (r : outcome A) : Prop := forall w, r <> Panic w.

Lemma not_panic_bind {A B} (r : outcome A) (f : A -> outcome B) :
  not_panic r -> (forall a, not_panic (f a)) -> not_panic (r ≫= f).
Proof. intros Hr Hf. destruct r as [a|e|w]; [apply Hf|done|by destruct (Hr w)]. Qed.

Lemma outcome_bind_Ok {A B} (r : outcome A) (f : A -> outcome B) b :
  r ≫= f = Ok b <-> exists a, r = Ok a /\ f a = Ok b.
Proof. destruct r; naive_solver. Qed.
