(* ===== verification/FunctionalOptions.v ===== *)
(** * Functional options

    The constructors of pkg/actuator, pkg/controller, pkg/heartbeat and pkg/mgr
    take [opts ...Option], where an Option assigns a field of the value under
    construction and may fail. *)

From S2P Require Import Prelude Errors.

Section options.
Context {X : Type}.

(** [type Option func(x *X) error]. *)
Definition OptionFunc := X -> outcome X.

(** [for _, opt := range opts { if err := opt(x); err != nil { return nil, err } }]. *)
Fixpoint applyOptions (opts : list OptionFunc) (x : X) : outcome X :=
  match opts with
  | [] => Ok x
  | opt :: opts => x ← opt x; applyOptions opts x
  end.

(** An option that cannot fail. *)
Definition assigns (f : X -> X) : OptionFunc := fun x => Ok (f x).

Lemma applyOptions_app opts opts' x :
  applyOptions (opts ++ opts') x = (x ← applyOptions opts x; applyOptions opts' x).
Proof.
  revert x. induction opts as [|opt opts IH]; intros x; [done|].
  cbn [applyOptions app]. change (opt x ≫= applyOptions (opts ++ opts') = (opt x ≫= applyOptions opts) ≫= applyOptions opts').
  destruct (opt x); [apply IH|done..].
Qed.

(** Options that cannot fail are applied in order. *)
Lemma applyOptions_assigns fs x :
  applyOptions (assigns <$> fs) x = Ok (fold_left (fun x f => f x) fs x).
Proof. revert x. induction fs as [|f fs IH]; intros x; [done|]. apply IH. Qed.

(** A property every option preserves holds of the result. *)
Lemma applyOptions_inv (P : X -> Prop) opts x y :
  Forall (fun opt => forall x y, P x -> opt x = Ok y -> P y) opts ->
  P x -> applyOptions opts x = Ok y -> P y.
Proof.
  intros Hopts. revert x. induction Hopts as [|opt opts Hopt _ IH]; intros x Hx H.
  - by injection H as <-.
  - cbn [applyOptions] in H. change (opt x ≫= applyOptions opts = Ok y) in H.
    destruct (opt x) eqn:E; [|done..]. eapply IH; [|done]. by eapply Hopt.
Qed.
End options.

Arguments OptionFunc : clear implicits.
