(* ===== verification/Effects.v ===== *)
(** * Programs that call the outside world

    The program's handlers talk to two API servers, to Gardener's libraries and
    to the metrics registry.  A handler is a value of the free monad [prog]
    over a signature of calls; [ans c] is the type of the response to [c].
    [runs p t a] says that [p] can issue exactly the calls of the trace [t],
    receive the responses recorded there, and return [a]: a statement about all
    [t] and [a] is a statement about every behaviour of the outside world. *)

From S2P Require Import Prelude Errors.

Section prog.
Context {C : Type} {ans : C -> Type}.

Inductive prog (A : Type) : Type :=
  | Ret (a : A)
  | Call (c : C) (k : ans c -> prog A).

(** A call with its response. *)
Definition event : Type := {c : C & ans c}.

Definition ev (c : C) (r : ans c) : event := existT c r.
End prog.

Arguments prog {C} ans A.
Arguments Ret {C ans A} a.
Arguments Call {C ans A} c k.
Arguments event {C} ans.

Section monad.
Context {C : Type} {ans : C -> Type}.

Fixpoint pbind {A B} (p : prog ans A) (f : A -> prog ans B) : prog ans B :=
  match p with
  | Ret a => f a
  | Call c k => Call c (fun r => pbind (k r) f)
  end.

(** Programs that can fail: Go's [(A, error)] results, and panics. *)
Definition M (A : Type) : Type := prog ans (outcome A).

#[global] Instance M_ret : MRet M := fun A a => Ret (Ok a).
#[global] Instance M_bind : MBind M := fun A B f m =>
  pbind m (fun r => match r with
                    | Ok a => f a
                    | Err e => Ret (Err e)
                    | Panic w => Ret (Panic w)
                    end).

Definition throw {A} (e : error) : M A := Ret (Err e).
Definition panic {A} (why : string) : M A := Ret (Panic why).
Definition lift {A} (p : prog ans A) : M A := pbind p (fun a => Ret (Ok a)).

(** A call whose response may be an error, and one whose response is not. *)
Definition do_call (c : C) : prog ans (ans c) := Call c Ret.

(** [if err != nil { return fmt.Errorf("<pre>%w", err) }]. *)
Definition wrapf {A} (pre : string) (m : M A) : M A :=
  pbind m (fun r => match r with
                    | Err e => Ret (Err (wrapError pre e ""))
                    | r => Ret r
                    end).

(** Inspect the error instead of returning it. *)
Definition attempt {A} (m : M A) : M (A + error) :=
  pbind m (fun r => match r with
                    | Ok a => Ret (Ok (inl a))
                    | Err e => Ret (Ok (inr e))
                    | Panic w => Ret (Panic w)
                    end).

(** [client.IgnoreNotFound]. *)
Definition ignoreNotFound (m : M unit) : M unit :=
  pbind m (fun r => match r with
                    | Err e => if IsNotFound e then Ret (Ok tt) else Ret (Err e)
                    | r => Ret r
                    end).

(** [defer func() { f(retErr) }()] around a body. *)
Definition deferred {A} (f : option error -> prog ans unit) (m : M A) : M A :=
  pbind m (fun r => pbind (f (errOf r)) (fun _ => Ret r)).

(** [for _, x := range l { if err := f(x); err != nil { return err } }]. *)
Fixpoint for_each {A} (l : list A) (f : A -> M unit) : M unit :=
  match l with
  | [] => mret tt
  | x :: l => f x ;; for_each l f
  end.

(** The same loop over a state that each step changes. *)
Fixpoint threading {A S} (l : list A) (f : A -> S -> M S) (s : S) : M S :=
  match l with
  | [] => mret s
  | x :: l => s ← f x s; threading l f s
  end.
End monad.

(** ** Executions *)

Section runs.
Context {C : Type} {ans : C -> Type}.

Fixpoint runs {A} (p : prog ans A) (t : list (event ans)) (a : A) : Prop :=
  match p with
  | Ret b => t = [] /\ a = b
  | Call c k => exists r t', t = ev c r :: t' /\ runs (k r) t' a
  end.

(** *** Properties of all executions *)

(** Every event satisfies [P]. *)
Definition emits {A} (P : event ans -> Prop) (p : prog ans A) : Prop :=
  forall t a, runs p t a -> Forall P t.

(** A successful execution contains an event satisfying [P]. *)
Definition establishes {A} (P : event ans -> Prop) (p : prog ans (outcome A)) : Prop :=
  forall t a, runs p t (Ok a) -> Exists P t.

(** No [Q] before a [P]. *)
Definition ordered {A} (P Q : event ans -> Prop) (p : prog ans A) : Prop :=
  forall t a, runs p t a -> before P Q t.

(** Every result satisfies [R]. *)
Definition returns {A} (R : A -> Prop) (p : prog ans A) : Prop :=
  forall t a, runs p t a -> R a.

(** *** Executions against a world

    [step w c r w'] says that in the world [w] the call [c] may be answered
    [r], leaving the world [w']. *)
Section world.
Context {W : Type} (step : W -> forall c, ans c -> W -> Prop).

Fixpoint runs_in {A} (p : prog ans A) (w : W) (a : A) (w' : W) : Prop :=
  match p with
  | Ret b => w' = w /\ a = b
  | Call c k => exists r w1, step w c r w1 /\ runs_in (k r) w1 a w'
  end.
End world.

(** A deterministic world runs programs. *)
Fixpoint exec {W A} (h : W -> forall c, ans c * W) (p : prog ans A) (w : W) : A * W :=
  match p with
  | Ret a => (a, w)
  | Call c k => let '(r, w') := h w c in exec h (k r) w'
  end.
End runs.

(** ** Lemmas *)

Section runs_lemmas.
Context {C : Type} {ans : C -> Type}.
Implicit Types (t : list (event ans)).

Lemma runs_pbind {A B} (p : prog ans A) (f : A -> prog ans B) t b :
  runs (pbind p f) t b <->
  exists t1 a t2, t = t1 ++ t2 /\ runs p t1 a /\ runs (f a) t2 b.
Proof.
  revert t. induction p as [a|c k IH]; intros t; simpl.
  - split; [by exists [], a, t|]. intros (t1&a'&t2&->&[-> ->]&H). done.
  - split.
    + intros (r&t'&->&H). apply IH in H as (t1&a&t2&->&H1&H2).
      exists (ev c r :: t1), a, t2. naive_solver.
    + intros (t1&a&t2&->&(r&t1'&->&H1)&H2). exists r, (t1' ++ t2).
      split; [done|]. apply IH. by exists t1', a, t2.
Qed.

(** Inversion of a bind in [M]. *)
Lemma runs_bind {A B} (m : @M C ans A) (f : A -> @M C ans B) t r :
  runs (m ≫= f) t r <->
  (exists t1 a t2, t = t1 ++ t2 /\ runs m t1 (Ok a) /\ runs (f a) t2 r) \/
  (exists e, r = Err e /\ runs m t (Err e)) \/
  (exists w, r = Panic w /\ runs m t (Panic w)).
Proof.
  unfold mbind, M_bind. rewrite runs_pbind. split.
  - intros (t1&[a|e|w]&t2&->&H1&H2).
    + left. eauto 10.
    + simpl in H2. destruct H2 as [-> ->]. rewrite app_nil_r. eauto.
    + simpl in H2. destruct H2 as [-> ->]. rewrite app_nil_r. eauto 10.
  - intros [(t1&a&t2&->&H1&H2)|[(e&->&H)|(w&->&H)]].
    + by exists t1, (Ok a), t2.
    + exists t, (Err e), []. by rewrite app_nil_r.
    + exists t, (Panic w), []. by rewrite app_nil_r.
Qed.

Lemma runs_in_pbind {W} (step : W -> forall c, ans c -> W -> Prop) {A B}
    (p : prog ans A) (f : A -> prog ans B) w b w' :
  runs_in step (pbind p f) w b w' <->
  exists a w1, runs_in step p w a w1 /\ runs_in step (f a) w1 b w'.
Proof.
  revert w. induction p as [a|c k IH]; intros w; simpl.
  - naive_solver.
  - split.
    + intros (r&w1&Hs&H). apply IH in H. naive_solver.
    + intros (a&w1&(r&w2&Hs&H1)&H2). exists r, w2. split; [done|]. apply IH. eauto.
Qed.

Lemma runs_in_bind {W} (step : W -> forall c, ans c -> W -> Prop) {A B}
    (m : @M C ans A) (f : A -> @M C ans B) w r w' :
  runs_in step (m ≫= f) w r w' <->
  (exists a w1, runs_in step m w (Ok a) w1 /\ runs_in step (f a) w1 r w') \/
  (exists e, r = Err e /\ runs_in step m w (Err e) w') \/
  (exists x, r = Panic x /\ runs_in step m w (Panic x) w').
Proof.
  unfold mbind, M_bind. rewrite runs_in_pbind. split.
  - intros ([a|e|x]&w1&H1&H2); simpl in H2; naive_solver.
  - intros [(a&w1&H1&H2)|[(e&->&H)|(x&->&H)]].
    + by exists (Ok a), w1.
    + by exists (Err e), w'.
    + by exists (Panic x), w'.
Qed.

(** Running against a deterministic world is an execution. *)
Lemma exec_runs_in {W A} (h : W -> forall c, ans c * W) (p : prog ans A) w a w' :
  exec h p w = (a, w') <->
  runs_in (fun w c r w' => h w c = (r, w')) p w a w'.
Proof.
  revert w. induction p as [b|c k IH]; intros w; simpl.
  - naive_solver.
  - destruct (h w c) as [r w1] eqn:E. rewrite IH. naive_solver.
Qed.

(** An execution against a world is an execution. *)
Lemma runs_in_runs {W} (step : W -> forall c, ans c -> W -> Prop) {A} (p : prog ans A) w a w' :
  runs_in step p w a w' -> exists t, runs p t a.
Proof.
  revert w. induction p as [b|c k IH]; intros w; simpl.
  - intros [-> ->]. by exists [].
  - intros (r&w1&_&[t Ht]%IH). exists (ev c r :: t). eauto.
Qed.
End runs_lemmas.

(** ** Compositional rules *)

Section rules.
Context {C : Type} {ans : C -> Type}.
Implicit Types (P Q : event ans -> Prop).

Lemma emits_Ret {A} P (a : A) : emits (ans:=ans) P (Ret a).
Proof. by intros t b [-> ->]. Qed.

Lemma emits_Call {A} P c (k : ans c -> prog ans A) :
  (forall r, P (ev c r)) -> (forall r, emits P (k r)) -> emits P (Call c k).
Proof. intros HP Hk t a (r&t'&->&H). constructor; [apply HP|by eapply Hk]. Qed.

Lemma emits_pbind {A B} P (p : prog ans A) (f : A -> prog ans B) :
  emits P p -> (forall a, emits P (f a)) -> emits P (pbind p f).
Proof.
  intros Hp Hf t b (t1&a&t2&->&H1&H2)%runs_pbind.
  apply Forall_app. split; [by eapply Hp|by eapply Hf].
Qed.

Lemma emits_bind {A B} P (m : @M C ans A) (f : A -> @M C ans B) :
  emits P m -> (forall a, emits P (f a)) -> emits P (m ≫= f).
Proof. intros Hm Hf. apply emits_pbind; [done|]. intros [a|e|w]; auto using @emits_Ret. Qed.

Lemma emits_mret {A} P (a : A) : emits P (mret a : @M C ans A).
Proof. apply emits_Ret. Qed.

Lemma emits_throw {A} P e : emits P (throw e : @M C ans A).
Proof. apply emits_Ret. Qed.

Lemma emits_panic {A} P e : emits P (panic e : @M C ans A).
Proof. apply emits_Ret. Qed.

Lemma emits_wrapf {A} P pre (m : @M C ans A) : emits P m -> emits P (wrapf pre m).
Proof. intros H. apply emits_pbind; [done|]. intros [a|e|w]; apply emits_Ret. Qed.

Lemma emits_attempt {A} P (m : @M C ans A) : emits P m -> emits P (attempt m).
Proof. intros H. apply emits_pbind; [done|]. intros [a|e|w]; apply emits_Ret. Qed.

Lemma emits_lift {A} P (p : prog ans A) : emits P p -> emits P (lift p).
Proof. intros H. apply emits_pbind; [done|]. intros a; apply emits_Ret. Qed.

Lemma emits_do_call P c : (forall r, P (ev c r)) -> emits P (do_call (ans:=ans) c).
Proof. intros H. apply emits_Call; [done|]. intros; apply emits_Ret. Qed.

Lemma emits_ignoreNotFound P (m : @M C ans unit) : emits P m -> emits P (ignoreNotFound m).
Proof.
  intros H. apply emits_pbind; [done|].
  intros [a|e|w]; [apply emits_Ret|destruct (IsNotFound e)|]; apply emits_Ret.
Qed.

Lemma emits_deferred {A} P (f : option error -> prog ans unit) (m : @M C ans A) :
  emits P m -> (forall e, emits P (f e)) -> emits P (deferred f m).
Proof.
  intros Hm Hf. apply emits_pbind; [done|]. intros r.
  apply emits_pbind; [done|]. intros ?; apply emits_Ret.
Qed.

Lemma emits_for_each {A} P (l : list A) (f : A -> @M C ans unit) :
  (forall x, x ∈ l -> emits P (f x)) -> emits P (for_each l f).
Proof.
  induction l as [|x l IH]; intros H; simpl; [apply emits_mret|].
  apply emits_bind; [apply H; left|]. intros _. apply IH. intros y Hy. apply H. by right.
Qed.

Lemma emits_threading {A S} P (l : list A) (f : A -> S -> @M C ans S) s :
  (forall x s, x ∈ l -> emits P (f x s)) -> emits P (threading l f s).
Proof.
  revert s. induction l as [|x l IH]; intros s H; simpl; [apply emits_mret|].
  apply emits_bind; [apply H; left|]. intros s'. apply IH. intros y s'' Hy. apply H. by right.
Qed.

Lemma emits_impl {A} P Q (p : prog ans A) :
  (forall e, P e -> Q e) -> emits P p -> emits Q p.
Proof. intros HPQ H t a Hr. exact (Forall_impl P Q t (H t a Hr) HPQ). Qed.

(** *** Ordering *)

Lemma ordered_emits {A} P Q (p : prog ans A) :
  emits (fun e => ~ Q e) p -> ordered P Q p.
Proof. intros H t a Hr. apply before_none. by eapply H. Qed.

Lemma ordered_pbind {A B} P Q (p : prog ans A) (f : A -> prog ans B) :
  ordered P Q p -> (forall a, ordered P Q (f a)) -> ordered P Q (pbind p f).
Proof.
  intros Hp Hf t b (t1&a&t2&->&H1&H2)%runs_pbind.
  apply before_app; [by eapply Hp|by eapply Hf].
Qed.

Lemma ordered_bind {A B} P Q (m : @M C ans A) (f : A -> @M C ans B) :
  ordered P Q m -> (forall a, ordered P Q (f a)) -> ordered P Q (m ≫= f).
Proof.
  intros Hm Hf. apply ordered_pbind; [done|].
  intros [a|e|w]; [done|..]; apply ordered_emits, emits_Ret.
Qed.

(** Once [m] has established [P], nothing after it can violate the order. *)
Lemma ordered_bind_est {A B} P Q (m : @M C ans A) (f : A -> @M C ans B) :
  ordered P Q m -> establishes P m -> ordered P Q (m ≫= f).
Proof.
  intros Hm He t b [(t1&a&t2&->&H1&H2)|[(e&->&H)|(w&->&H)]]%runs_bind.
  - apply before_app_est; [by eapply Hm|by eapply He].
  - by eapply Hm.
  - by eapply Hm.
Qed.

Lemma ordered_wrapf {A} P Q pre (m : @M C ans A) : ordered P Q m -> ordered P Q (wrapf pre m).
Proof.
  intros H. apply ordered_pbind; [done|].
  intros [a|e|w]; apply ordered_emits, emits_Ret.
Qed.

Lemma ordered_deferred {A} P Q (f : option error -> prog ans unit) (m : @M C ans A) :
  ordered P Q m -> (forall e, emits (fun e => ~ Q e) (f e)) -> ordered P Q (deferred f m).
Proof.
  intros Hm Hf. apply ordered_pbind; [done|]. intros r.
  apply ordered_emits, emits_pbind; [done|]. intros ?; apply emits_Ret.
Qed.

Lemma establishes_bind_l {A B} P (m : @M C ans A) (f : A -> @M C ans B) :
  establishes P m -> establishes P (m ≫= f).
Proof.
  intros H t b [(t1&a&t2&->&H1&H2)|[(e&?&?)|(w&?&?)]]%runs_bind; [|done|done].
  apply Exists_app. left. by eapply H.
Qed.

Lemma establishes_bind_r {A B} P (m : @M C ans A) (f : A -> @M C ans B) :
  (forall a, establishes P (f a)) -> establishes P (m ≫= f).
Proof.
  intros H t b [(t1&a&t2&->&H1&H2)|[(e&?&?)|(w&?&?)]]%runs_bind; [|done|done].
  apply Exists_app. right. by eapply H.
Qed.

Lemma runs_wrapf_Ok {A} pre (m : @M C ans A) t a :
  runs (wrapf pre m) t (Ok a) <-> runs m t (Ok a).
Proof.
  unfold wrapf. rewrite runs_pbind. split.
  - intros (t1&[b|e|w]&t2&->&H1&[-> ?]); simplify_eq. by rewrite app_nil_r.
  - intros H. exists t, (Ok a), []. by rewrite app_nil_r.
Qed.

Lemma runs_wrapf_Err {A} pre (m : @M C ans A) t e :
  runs (wrapf pre m) t (Err e) <-> exists e', e = wrapError pre e' "" /\ runs m t (Err e').
Proof.
  unfold wrapf. rewrite runs_pbind. split.
  - intros (t1&[b|e'|w]&t2&->&H1&[-> ?]); simplify_eq. rewrite app_nil_r. eauto.
  - intros (e'&->&H). exists t, (Err e'), []. by rewrite app_nil_r.
Qed.

Lemma establishes_wrapf {A} P pre (m : @M C ans A) :
  establishes P m -> establishes P (wrapf pre m).
Proof. intros H t a Hr%runs_wrapf_Ok. by eapply H. Qed.
End rules.

(** The rules as automation: [effects] decomposes a program along its binds. *)
Create HintDb effects discriminated.
#[export] Hint Resolve emits_Ret emits_mret emits_throw emits_panic emits_bind emits_pbind
  emits_wrapf emits_attempt emits_lift emits_do_call emits_Call emits_ignoreNotFound
  emits_deferred emits_for_each emits_threading : effects.

(** [emits_auto] walks a program, splitting on the tests it meets and leaving
    one obligation per call. *)
Ltac emits_step :=
  lazymatch goal with
  | |- forall _, _ => intro
  | |- emits _ (match ?x with _ => _ end) => destruct x eqn:?
  | |- emits _ (Ret _) => apply emits_Ret
  | |- emits _ (mret _) => apply emits_mret
  | |- emits _ (throw _) => apply emits_throw
  | |- emits _ (panic _) => apply emits_panic
  | |- emits _ (wrapf _ _) => apply emits_wrapf
  | |- emits _ (attempt _) => apply emits_attempt
  | |- emits _ (lift _) => apply emits_lift
  | |- emits ?P (do_call ?c) => refine (emits_do_call P c _)
  | |- emits _ (ignoreNotFound _) => apply emits_ignoreNotFound
  | |- emits _ (deferred _ _) => apply emits_deferred
  | |- emits _ (for_each _ _) => apply emits_for_each
  | |- emits _ (threading _ _ _) => apply emits_threading
  | |- emits _ (mbind _ _) => apply emits_bind
  | |- emits _ (pbind _ _) => apply emits_pbind
  | |- emits _ (Call _ _) => apply emits_Call
  | |- emits _ _ => solve [eauto 3 with effects]
  end.

Ltac emits_auto := repeat emits_step.

(** ** Panics *)

Section no_panic.
Context {C : Type} {ans : C -> Type}.

(** No execution panics. *)
Definition no_panic {A} (m : @M C ans A) : Prop := forall t w, ~ runs m t (Panic w).

Lemma no_panic_mret {A} (a : A) : no_panic (mret a).
Proof. by intros t w [_ ?]. Qed.

Lemma no_panic_throw {A} e : no_panic (throw e : @M C ans A).
Proof. by intros t w [_ ?]. Qed.

Lemma no_panic_Call {A} c (k : ans c -> @M C ans A) : (forall r, no_panic (k r)) -> no_panic (Call c k).
Proof. intros Hk t w (r&t'&->&H). by eapply Hk. Qed.

Lemma no_panic_Ret {A} (r : outcome A) : (forall w, r <> Panic w) -> no_panic (Ret r).
Proof. intros Hr t w [_ ?]. by eapply Hr. Qed.

Lemma no_panic_bind {A B} (m : @M C ans A) (f : A -> @M C ans B) :
  no_panic m -> (forall a, no_panic (f a)) -> no_panic (m ≫= f).
Proof.
  intros Hm Hf t w [(t1&a&t2&->&H1&H2)|[(e&?&?)|(w'&?&H)]]%runs_bind; [|done|];
    [by eapply Hf|by eapply Hm].
Qed.

Lemma no_panic_wrapf {A} pre (m : @M C ans A) : no_panic m -> no_panic (wrapf pre m).
Proof.
  intros Hm t w (t1&[a|e|w']&t2&->&H1&[_ ?])%runs_pbind; [done..|]. by eapply Hm.
Qed.

Lemma no_panic_attempt {A} (m : @M C ans A) : no_panic m -> no_panic (attempt m).
Proof.
  intros Hm t w (t1&[a|e|w']&t2&->&H1&[_ ?])%runs_pbind; [done..|]. by eapply Hm.
Qed.

Lemma no_panic_ignoreNotFound (m : @M C ans unit) : no_panic m -> no_panic (ignoreNotFound m).
Proof.
  intros Hm t w (t1&[a|e|w']&t2&->&H1&H2)%runs_pbind.
  - by destruct H2.
  - destruct (IsNotFound e); by destruct H2.
  - by eapply Hm.
Qed.

Lemma no_panic_lift {A} (p : prog ans A) : no_panic (lift p).
Proof. by intros t w (t1&a&t2&->&H1&[_ ?])%runs_pbind. Qed.

Lemma no_panic_deferred {A} f (m : @M C ans A) : no_panic m -> no_panic (deferred f m).
Proof.
  intros Hm t w (t1&r&t2&->&H1&H2)%runs_pbind.
  apply runs_pbind in H2 as (t3&[]&t4&->&_&[_ <-]). by eapply Hm.
Qed.

Lemma no_panic_for_each {A} (l : list A) (f : A -> @M C ans unit) :
  (forall x, x ∈ l -> no_panic (f x)) -> no_panic (for_each l f).
Proof.
  induction l as [|x l IH]; intros H; simpl; [apply no_panic_mret|].
  apply no_panic_bind; [apply H; left|]. intros _. apply IH. intros y Hy. apply H. by right.
Qed.

Lemma no_panic_threading {A S} (l : list A) (f : A -> S -> @M C ans S) s :
  (forall x s, x ∈ l -> no_panic (f x s)) -> no_panic (threading l f s).
Proof.
  revert s. induction l as [|x l IH]; intros s H; simpl; [apply no_panic_mret|].
  apply no_panic_bind; [apply H; left|]. intros s'. apply IH. intros y s'' Hy. apply H. by right.
Qed.
End no_panic.

#[export] Hint Resolve no_panic_mret no_panic_throw no_panic_lift : effects.

(** An inspected error does not end the execution. *)
Lemma runs_bind_attempt {C} {ans : C -> Type} {A B} (m : @M C ans A) (f : A + error -> @M C ans B) t r :
  no_panic m -> runs (attempt m ≫= f) t r ->
  exists t1 x t2, t = t1 ++ t2 /\ runs (f x) t2 r /\
    match x with inl v => runs m t1 (Ok v) | inr e => runs m t1 (Err e) end.
Proof.
  intros Hnp Hr. apply runs_pbind in Hr as (t1&r1&t2&->&H1&H2).
  apply runs_pbind in H1 as (t3&[v|e|w]&t4&->&H3&[-> ->]); rewrite app_nil_r.
  - by exists t3, (inl v), t2.
  - by exists t3, (inr e), t2.
  - by destruct (Hnp t3 w).
Qed.

Ltac no_panic_step :=
  lazymatch goal with
  | |- forall _, _ => intro
  | |- no_panic (match ?x with _ => _ end) => destruct x eqn:?
  | |- no_panic (mret _) => apply no_panic_mret
  | |- no_panic (throw _) => apply no_panic_throw
  | |- no_panic (lift _) => apply no_panic_lift
  | |- no_panic (wrapf _ _) => apply no_panic_wrapf
  | |- no_panic (attempt _) => apply no_panic_attempt
  | |- no_panic (ignoreNotFound _) => apply no_panic_ignoreNotFound
  | |- no_panic (deferred _ _) => apply no_panic_deferred
  | |- no_panic (for_each _ _) => apply no_panic_for_each
  | |- no_panic (threading _ _ _) => apply no_panic_threading
  | |- no_panic (mbind _ _) => apply no_panic_bind
  | |- no_panic (Call _ _) => apply no_panic_Call
  | |- no_panic (Ret _) => apply no_panic_Ret
  | |- no_panic _ => solve [eauto 3 with effects]
  end.

Ltac no_panic_auto := repeat no_panic_step.

Lemma ordered_bind_emits {C} {ans : C -> Type} {A B} (P Q : event ans -> Prop)
    (m : @M C ans A) (f : A -> @M C ans B) :
  emits (fun e => ~ Q e) m -> (forall a, ordered P Q (f a)) -> ordered P Q (m ≫= f).
Proof. intros Hm Hf. apply ordered_bind; [by apply ordered_emits|done]. Qed.

(** ** Executions with calls left out

    Every execution of [m] is, up to calls left out, one of [m']. *)
Definition simulated_by {C} {ans : C -> Type} {A} (m m' : prog ans A) : Prop :=
  forall t r, runs m t r -> exists t', t' `sublist_of` t /\ runs m' t' r.

Section simulated.
Context {C : Type} {ans : C -> Type}.

Lemma simulated_refl {A} (m : prog ans A) : simulated_by m m.
Proof. intros t r Hr. by exists t. Qed.

Lemma simulated_pbind {A B} (m m' : prog ans A) (f f' : A -> prog ans B) :
  simulated_by m m' -> (forall a, simulated_by (f a) (f' a)) -> simulated_by (pbind m f) (pbind m' f').
Proof.
  intros Hm Hf t r (t1&a&t2&->&H1&H2)%runs_pbind.
  destruct (Hm _ _ H1) as (t1'&Hs1&H1'), (Hf _ _ _ H2) as (t2'&Hs2&H2').
  exists (t1' ++ t2'). split; [by apply sublist_app|]. apply runs_pbind. eauto 10.
Qed.

Lemma simulated_bind {A B} (m m' : @M C ans A) (f f' : A -> @M C ans B) :
  simulated_by m m' -> (forall a, simulated_by (f a) (f' a)) -> simulated_by (m ≫= f) (m' ≫= f').
Proof.
  intros Hm Hf. apply simulated_pbind; [done|]. intros [a|e|w]; [apply Hf|apply simulated_refl..].
Qed.

(** A step whose error is inspected and dropped can be left out. *)
Lemma simulated_skip {A B} (m : @M C ans A) (k : @M C ans B) :
  no_panic m -> simulated_by (attempt m ;; k) k.
Proof.
  intros Hnp t r Hr. apply runs_bind_attempt in Hr as (t1&x&t2&->&Hr&_); [|done].
  exists t2. split; [by apply sublist_inserts_l|done].
Qed.
End simulated.

(** Every element of a completed loop was processed successfully. *)
Lemma runs_for_each_Ok {C} {ans : C -> Type} {A} (l : list A) (f : A -> @M C ans unit) t x :
  runs (for_each l f) t (Ok tt) -> x ∈ l ->
  exists t1 t2 t3, t = t1 ++ t2 ++ t3 /\ runs (f x) t2 (Ok tt).
Proof.
  revert t. induction l as [|y l IH]; intros t Hr Hx; [by apply not_elem_of_nil in Hx|].
  cbn [for_each] in Hr. apply runs_bind in Hr as [(t1&[]&t2&->&H1&H2)|[(?&?&?)|(?&?&?)]]; [|done..].
  apply elem_of_cons in Hx as [->|Hx]; [by exists [], t1, t2|].
  destruct (IH _ H2 Hx) as (t3&t4&t5&->&H3). exists (t1 ++ t3), t4, t5. by rewrite <- app_assoc.
Qed.
