(* ===== verification/KubeObjects.v ===== *)
(** * The Kubernetes, Gateway API and Gardener objects the program handles

    One record per API type, with the fields the program sets or reads.  Labels
    and selectors are finite maps, pointers to optional fields are options,
    quantities are the strings given to [resource.MustParse]. *)

From S2P Require Import Prelude.

Abbreviation labels := (gmap string string).

(** The object key [namespace/name]. *)
Record NamespacedName := mkKey { key_Namespace : string; key_Name : string }.

(** ** Selectors, ports, network policies *)

Inductive LabelSelectorOperator := OpIn | OpNotIn | OpExists | OpDoesNotExist.

Record LabelSelectorRequirement := {
  lsr_Key : string;
  lsr_Operator : LabelSelectorOperator;
  lsr_Values : list string;
}.

Record LabelSelector := mkSelector {
  MatchLabels : labels;
  MatchExpressions : list LabelSelectorRequirement;
}.

Inductive IntOrString := FromInt (z : Z) | FromString (s : string).

Inductive Protocol := ProtocolTCP | ProtocolUDP.

Record NetworkPolicyPort := mkPort { npp_Protocol : Protocol; npp_Port : IntOrString }.

Record NetworkPolicyPeer := mkPeer {
  peer_NamespaceSelector : option LabelSelector;
  peer_PodSelector : option LabelSelector;
}.

(** An ingress rule ([From]) or an egress rule ([To]). *)
Record NetworkPolicyRule := mkRule {
  rule_Peers : list NetworkPolicyPeer;
  rule_Ports : list NetworkPolicyPort;
}.

Inductive PolicyType := PolicyTypeIngress | PolicyTypeEgress.

Record NetworkPolicySpec := {
  nps_PodSelector : LabelSelector;
  nps_PolicyTypes : list PolicyType;
  nps_Ingress : list NetworkPolicyRule;
  nps_Egress : list NetworkPolicyRule;
}.

Record NetworkPolicy := mkNetworkPolicy {
  np_Name : string;
  np_Namespace : string;
  np_Labels : labels;
  np_Spec : NetworkPolicySpec;
}.

(** ** Gateway API *)

Record Gateway := mkGateway {
  gw_Namespace : string;
  gw_Name : string;
  gw_DeletionTimestamp : option Z;
  gw_GatewayClassName : string;
}.

Record ParametersReference := {
  pr_Group : string;
  pr_Kind : string;
  pr_Name : string;
  pr_Namespace : option string;
}.

Record GatewayClass := {
  gc_Name : string;
  gc_Labels : labels;
  gc_Finalizers : list string;
  gc_ControllerName : string;
  gc_ParametersRef : option ParametersReference;
}.

(** Metadata of any listed object. *)
Record ObjectMeta := mkMeta {
  om_Namespace : string;
  om_Name : string;
  om_Labels : labels;
}.

(** ** Pods and Deployments *)

Record PodSecurityContext := {
  psc_RunAsNonRoot : bool;
  psc_RunAsUser : Z;
  psc_RunAsGroup : Z;
  psc_FSGroup : Z;
}.

Record SecurityContext := {
  sc_AllowPrivilegeEscalation : bool;
  sc_ReadOnlyRootFilesystem : bool;
  sc_Drop : list string;
}.

Record ResourceRequirements := {
  rr_Requests : list (string * string);
  rr_Limits : list (string * string);
}.

Record EnvVar := { env_Name : string; env_FieldPath : string }.

Record VolumeMount := mkMount { vm_Name : string; vm_MountPath : string; vm_ReadOnly : bool }.

Record ContainerPort := mkContainerPort {
  cp_Name : string;
  cp_ContainerPort : Z;
  cp_Protocol : Protocol;
}.

Record HTTPProbe := {
  probe_Path : string;
  probe_Port : IntOrString;
  probe_InitialDelaySeconds : Z;
  probe_PeriodSeconds : Z;
}.

Inductive VolumeSource :=
  | ConfigMapVolume (name : string)
  | SecretVolume (secretName : string)
  | EmptyDirVolume (sizeLimit : string).

Record Volume := mkVolume { vol_Name : string; vol_Source : VolumeSource }.

Record Container := {
  c_Name : string;
  c_Image : string;
  c_Args : list string;
  c_Env : list EnvVar;
  c_VolumeMounts : list VolumeMount;
  c_Ports : list ContainerPort;
  c_LivenessProbe : option HTTPProbe;
  c_ReadinessProbe : option HTTPProbe;
  c_Resources : ResourceRequirements;
  c_SecurityContext : SecurityContext;
}.

Record PodAffinityTerm := {
  pat_Weight : Z;
  pat_TopologyKey : string;
  pat_LabelSelector : LabelSelector;
}.

Inductive UnsatisfiableConstraintAction := DoNotSchedule | ScheduleAnyway.

Record TopologySpreadConstraint := {
  tsc_MaxSkew : Z;
  tsc_TopologyKey : string;
  tsc_WhenUnsatisfiable : UnsatisfiableConstraintAction;
  tsc_LabelSelector : LabelSelector;
}.

Record PodSpec := {
  ps_ServiceAccountName : string;
  ps_PodAntiAffinity : list PodAffinityTerm;
  ps_TopologySpreadConstraints : list TopologySpreadConstraint;
  ps_SecurityContext : PodSecurityContext;
  ps_Volumes : list Volume;
  ps_Containers : list Container;
}.

Record DeploymentSpec := mkDeploymentSpec {
  ds_Replicas : option Z;
  ds_Selector : LabelSelector;
  ds_TemplateLabels : labels;
  ds_TemplateSpec : PodSpec;
}.

Record Deployment := mkDeployment {
  dep_Name : string;
  dep_Namespace : string;
  dep_Labels : labels;
  dep_Spec : DeploymentSpec;
}.

(** ** Other core, RBAC, policy and admission objects *)

Record ServiceAccount := { sa_Name : string; sa_Namespace : string; sa_Labels : labels }.

Record ConfigMap := {
  cm_Name : string;
  cm_Namespace : string;
  cm_Labels : labels;
  cm_Data : gmap string string;
}.

Inductive SecretType := SecretTypeTLS | SecretTypeOpaque.

Record Secret := {
  sec_Name : string;
  sec_Namespace : string;
  sec_Labels : labels;
  sec_Type : SecretType;
  sec_Data : gmap string string;
}.

Record PolicyRule := mkPolicyRule {
  APIGroups : list string;
  Resources : list string;
  Verbs : list string;
}.

(** A [ClusterRole] ([role_Namespace = None]) or a [Role]. *)
Record Role := {
  role_Name : string;
  role_Namespace : option string;
  role_Labels : labels;
  role_Rules : list PolicyRule;
}.

Record Subject := { subj_Kind : string; subj_Name : string; subj_Namespace : string }.

Record RoleRef := { ref_APIGroup : string; ref_Kind : string; ref_Name : string }.

(** A [ClusterRoleBinding] ([rb_Namespace = None]) or a [RoleBinding]. *)
Record RoleBinding := {
  rb_Name : string;
  rb_Namespace : option string;
  rb_Labels : labels;
  rb_RoleRef : RoleRef;
  rb_Subjects : list Subject;
}.

Record ServicePort := mkServicePort {
  sp_Name : string;
  sp_Port : Z;
  sp_TargetPort : IntOrString;
  sp_Protocol : Protocol;
}.

Record Service := {
  svc_Name : string;
  svc_Namespace : string;
  svc_Labels : labels;
  svc_Type : string;
  svc_Selector : labels;
  svc_Ports : list ServicePort;
}.

Record PodDisruptionBudget := {
  pdb_Name : string;
  pdb_Namespace : string;
  pdb_Labels : labels;
  pdb_MinAvailable : IntOrString;
  pdb_Selector : LabelSelector;
  pdb_UnhealthyPodEvictionPolicy : string;
}.

Inductive FailurePolicyType := Ignore | Fail_.

Record Validation := {
  val_Expression : string;
  val_Reason : string;
  val_Message : string;
}.

Record RuleWithOperations := {
  rwo_Operations : list string;
  rwo_APIGroups : list string;
  rwo_APIVersions : list string;
  rwo_Resources : list string;
}.

Record Variable_ := { var_Name : string; var_Expression : string }.

Record ValidatingAdmissionPolicy := {
  vap_Name : string;
  vap_Labels : labels;
  vap_FailurePolicy : FailurePolicyType;
  vap_ResourceRules : list RuleWithOperations;
  vap_Variables : list Variable_;
  vap_Validations : list Validation;
}.

Record ValidatingAdmissionPolicyBinding := {
  vapb_Name : string;
  vapb_Labels : labels;
  vapb_PolicyName : string;
  vapb_ValidationActions : list string;
  vapb_NamespaceSelector : LabelSelector;
}.

(** [runtime.Object]: the typed objects handed to the shoot codec. *)
Inductive Object :=
  | ObjServiceAccount (o : ServiceAccount)
  | ObjConfigMap (o : ConfigMap)
  | ObjSecret (o : Secret)
  | ObjRole (o : Role)
  | ObjRoleBinding (o : RoleBinding)
  | ObjDeployment (o : Deployment)
  | ObjService (o : Service)
  | ObjPodDisruptionBudget (o : PodDisruptionBudget)
  | ObjNetworkPolicy (o : NetworkPolicy)
  | ObjGatewayClass (o : GatewayClass)
  | ObjValidatingAdmissionPolicy (o : ValidatingAdmissionPolicy)
  | ObjValidatingAdmissionPolicyBinding (o : ValidatingAdmissionPolicyBinding).

(** ** API machinery *)

(** [schema.GroupVersion], [schema.GroupResource], and a Go type by its package. *)
Record GroupVersion := mkGroupVersion { gv_Group : string; gv_Version : string }.
Record GroupResource := mkGroupResource { gr_Group : string; gr_Resource : string }.
Record GoType := mkGoType { gt_Package : string; gt_Name : string }.

#[export] Instance GroupVersion_eq_dec : EqDecision GroupVersion.
Proof. solve_decision. Defined.
#[export] Instance GoType_eq_dec : EqDecision GoType.
Proof. solve_decision. Defined.

(** ** Gardener *)

(** An entry of [shoot.spec.extensions]. *)
Record ShootExtension := mkShootExtension {
  ext_Type : string;
  ext_ProviderConfig : option string;  (** the raw bytes *)
  ext_Disabled : option bool;
}.

Record Shoot := mkShoot {
  sh_DeletionTimestamp : option Z;
  sh_KubernetesVersion : string;
  sh_HibernationEnabled : option (option bool);  (** [spec.hibernation.enabled] *)
  sh_Purpose : option string;
  sh_Extensions : list ShootExtension;
}.

Record Cluster := mkCluster { cl_Name : string; cl_Shoot : option Shoot }.

(** The Extension resource the actuator reconciles. *)
Record Extension := mkExtension {
  ex_Name : string;
  ex_Namespace : string;
  ex_ProviderConfig : option string;  (** the raw bytes *)
}.

(** *** Secrets-manager configurations *)

Inductive CertType := CACert | ServerCert | ClientCert.

Inductive SecretConfig :=
  | CertificateSecretConfig (Name CommonName : string) (DNSNames : list string)
      (certType : CertType) (SkipPublishingCACertificate : bool)
  | HMACSecretConfig (Name : string).

Inductive GenerateOption := Persist | SignedByCA (name : string).

Record SecretConfigWithOptions := mkSecretConfig {
  sco_Config : SecretConfig;
  sco_Options : list GenerateOption;
}.

(** ** Decidable equality *)

#[export] Instance NamespacedName_eq_dec : EqDecision NamespacedName.
Proof. solve_decision. Defined.

#[export] Instance NamespacedName_countable : Countable NamespacedName.
Proof.
  apply (inj_countable' (fun k => (key_Namespace k, key_Name k))
                        (fun p => mkKey p.1 p.2)).
  by intros [].
Defined.

#[export] Instance LabelSelectorOperator_eq_dec : EqDecision LabelSelectorOperator.
Proof. solve_decision. Defined.
#[export] Instance LabelSelectorRequirement_eq_dec : EqDecision LabelSelectorRequirement.
Proof. solve_decision. Defined.
#[export] Instance LabelSelector_eq_dec : EqDecision LabelSelector.
Proof. solve_decision. Defined.
#[export] Instance IntOrString_eq_dec : EqDecision IntOrString.
Proof. solve_decision. Defined.
#[export] Instance Protocol_eq_dec : EqDecision Protocol.
Proof. solve_decision. Defined.
#[export] Instance NetworkPolicyPort_eq_dec : EqDecision NetworkPolicyPort.
Proof. solve_decision. Defined.
#[export] Instance NetworkPolicyPeer_eq_dec : EqDecision NetworkPolicyPeer.
Proof. solve_decision. Defined.
#[export] Instance NetworkPolicyRule_eq_dec : EqDecision NetworkPolicyRule.
Proof. solve_decision. Defined.
#[export] Instance PolicyType_eq_dec : EqDecision PolicyType.
Proof. solve_decision. Defined.
#[export] Instance NetworkPolicySpec_eq_dec : EqDecision NetworkPolicySpec.
Proof. solve_decision. Defined.
#[export] Instance NetworkPolicy_eq_dec : EqDecision NetworkPolicy.
Proof. solve_decision. Defined.
#[export] Instance Gateway_eq_dec : EqDecision Gateway.
Proof. solve_decision. Defined.
