(* ===== verification/Constants.v ===== *)
(** * Constants of the envoygateway package

    pkg/envoygateway/constants.go, the names of pkg/envoygateway/secrets.go and
    the constants of pkg/actuator, pkg/metrics and pkg/admission/validator.  The
    names are the source's. *)

From S2P Require Import Prelude.

Local Open Scope string_scope.

(** ** pkg/envoygateway/constants.go *)

Definition Namespace : string := "kube-system".
Definition DeploymentName : string := "envoy-gateway".
Definition ServiceAccountName : string := "envoy-gateway".
Definition ConfigMapName : string := "envoy-gateway-config".
Definition ConfigFileName : string := "envoy-gateway.yaml".
Definition ConfigMountPath : string := "/config".
Definition ManagedResourceName : string := "extension-envoy-gateway".
Definition ImageName : string := "envoy-gateway".
Definition ExtensionImageName : string := "gardener-extension-envoy-gateway".
Definition GatewayClassName : string := "gardener-envoy-gateway".
Definition EnvoyProxyDefaultsName : string := "envoy-gateway-defaults".
Definition GatewayClassControllerName : string := "gateway.envoyproxy.io/gatewayclass-controller".
Definition DeployModeGatewayNamespace : string := "GatewayNamespace".
Definition EnvoyProxyGuardPolicyName : string := "envoyproxy-deploy-guard.gardener.cloud".
Definition DataPlaneNetworkPolicyName : string := "envoy-gateway-proxies".
Definition ProxyEgressNetworkPolicyName : string := "envoy-gateway-proxies-egress".
Definition LabelHop : string := "envoy-gateway.extensions.gardener.cloud/hop".
Definition DataPlaneDNSServicePort : Z := 53%Z.
Definition DataPlaneDNSServerPort : Z := 8053%Z.
Definition XDSPort : Z := 18000%Z.
Definition MetadataNameLabel : string := "kubernetes.io/metadata.name".
Definition DataPlaneHTTPPort : Z := 10080%Z.
Definition DataPlaneHTTPSPort : Z := 10443%Z.
Definition DataPlaneReadyPort : Z := 19003%Z.
Definition ClusterRoleName : string := "envoy-gateway".
Definition LeaderElectionRoleName : string := "envoy-gateway-leader-election".
Definition LogLevelInfo : string := "info".
Definition LabelName : string := "app.kubernetes.io/name".
Definition LabelInstance : string := "app.kubernetes.io/instance".
Definition LabelComponent : string := "app.kubernetes.io/component".
Definition LabelManagedBy : string := "app.kubernetes.io/managed-by".
Definition LabelComponentValue : string := "gateway-controller".
Definition LabelManagedByValue : string := "gardener".
Definition kindServiceAccount : string := "ServiceAccount".
Definition kindSecret : string := "Secret".
Definition apiVersionRBAC : string := "rbac.authorization.k8s.io/v1".
Definition apiGroupRBAC : string := "rbac.authorization.k8s.io".
Definition kindClusterRole : string := "ClusterRole".
Definition kindClusterRoleBinding : string := "ClusterRoleBinding".
Definition APIGroupGatewayAPI : string := "gateway.networking.k8s.io".
Definition apiGroupEnvoyGateway : string := "gateway.envoyproxy.io".
Definition OwningGatewayNameLabel : string := "gateway.envoyproxy.io/owning-gateway-name".
Definition OwningGatewayNamespaceLabel : string := "gateway.envoyproxy.io/owning-gateway-namespace".
Definition labelValueAllowed : string := "allowed".
Definition NetpolControllerName : string := "envoy-gateway-netpol-controller".
Definition NetpolControllerShootAccessSecretName : string := "envoy-gateway-netpol".
Definition NetpolControllerServiceAccountName : string := "envoy-gateway-netpol-controller".
Definition NetpolControllerClusterRoleName : string := "envoy-gateway-netpol-controller".
Definition LabelToAllShootsKubeAPIServer : string := "networking.resources.gardener.cloud/to-all-shoots-kube-apiserver-tcp-443".
Definition LabelToDNS : string := "networking.gardener.cloud/to-dns".
Definition LabelToRuntimeAPIServer : string := "networking.gardener.cloud/to-runtime-apiserver".
Definition EnvoyProxyManagedByValue : string := "envoy-gateway".
Definition EnvoyProxyNameValue : string := "envoy".
Definition verbGet : string := "get".
Definition verbList : string := "list".
Definition verbWatch : string := "watch".
Definition verbCreate : string := "create".
Definition verbUpdate : string := "update".
Definition verbPatch : string := "patch".
Definition verbDelete : string := "delete".
Definition verbDeleteCollection : string := "deletecollection".
Definition HopProxyIngress : string := "proxy-ingress".
Definition HopProxyEgress : string := "proxy-egress".

(** [ValidLogLevels] and [ValidChannels]: the accepted enumerations. *)
Definition ValidLogLevels : gset string := {[ "debug"; LogLevelInfo; "warn"; "error" ]}.
Definition ValidChannels : gset string := {[ "standard"; "experimental" ]}.

(** ** pkg/envoygateway/secrets.go *)

Definition CASecretName : string := "ca-envoy-gateway".
Definition XDSServerCertSecretName : string := "envoy-gateway-xds".
Definition EnvoyClientCertSecretName : string := "envoy-client".
Definition TLSSecretName : string := "envoy-gateway".
Definition EnvoySecretName : string := "envoy".
Definition HMACSecretName : string := "envoy-oidc-hmac".
Definition HMACSecretKey : string := "hmac-secret".
Definition hmacSecretLength : nat := 32.

(** ** pkg/metrics/metrics.go *)

Definition ReasonGatewaysInUse : string := "gateways_in_use".
Definition ReasonInvalidProviderConfig : string := "invalid_provider_config".
Definition ReasonSecrets : string := "secrets".
Definition ReasonManagedResource : string := "managed_resource".
Definition ReasonClusterLookup : string := "cluster_lookup".
Definition ReasonOther : string := "other".

(** The metric vectors, by the name they are registered under. *)
Definition ActuatorOperationTotal : string := "actuator_operation_total".
Definition ActuatorOperationDurationSeconds : string := "actuator_operation_duration_seconds".
Definition ActuatorOperationErrorsTotal : string := "actuator_operation_errors_total".
Definition DeleteGuardRejectionsTotal : string := "delete_guard_rejections_total".

(** ** pkg/actuator *)

Definition Name : string := "envoy-gateway".
Definition ExtensionType : string := "envoy-gateway".
Definition FinalizerSuffix : string := "gardener-extension-envoy-gateway".
Definition gatewayExistsFinalizer : string := "gateway-exists-finalizer.gateway.networking.k8s.io".

(** Durations are in nanoseconds, as [time.Duration]. *)
Definition Second : Z := 1000000000%Z.
Definition Minute : Z := (60 * Second)%Z.
Definition gatewayDeletionPollInterval : Z := (2 * Second)%Z.
Definition GatewayDeletionTimeout : Z := (2 * Minute)%Z.
Definition ManagedResourceDeletionTimeout : Z := (2 * Minute)%Z.

(** ** pkg/admission/validator/shoot.go *)

Definition TraefikExtensionType : string := "shoot-traefik".

(** ** pkg/apis/config/types.go *)

Definition ChannelStandard : string := "standard".
Definition ChannelExperimental : string := "experimental".
