(* ===== verification/Config.v ===== *)
(** * The providerConfig API (pkg/apis/config)

    The internal types, the v1alpha1 types, the conversions between them and the
    v1alpha1 defaults.  Pointers to optional fields are options; [int32] values
    are [Z]. *)

From S2P Require Import Prelude Errors KubeObjects Constants.

Record TypeMeta := mkTypeMeta { tm_Kind : string; tm_APIVersion : string }.

(** ** types.go: the internal version *)

Module config.

Record ControlPlaneConfig := mkControlPlaneConfig {
  cp_Replicas : option Z;
  cp_LogLevel : string;
}.

Record DataPlaneConfig := mkDataPlaneConfig {
  dp_Replicas : option Z;
  dp_LogLevel : string;
}.

Record EnvoyProxyDefaults := mkEnvoyProxyDefaults {
  epd_Resources : option ResourceRequirements;
  epd_AccessLogging : bool;
}.

Record EnvoyGatewayConfig := mkEnvoyGatewayConfig {
  cfg_TypeMeta : TypeMeta;
  cfg_ControlPlane : option ControlPlaneConfig;
  cfg_DataPlane : option DataPlaneConfig;
  cfg_Channel : string;
  cfg_ManageCRDs : option bool;
  cfg_EnvoyProxyDefaults : option EnvoyProxyDefaults;
  cfg_ManageDataPlaneNetworkPolicies : option bool;
}.

(** The zero value. *)
Definition emptyConfig : EnvoyGatewayConfig :=
  mkEnvoyGatewayConfig (mkTypeMeta "" "") None None "" None None None.

End config.

(** ** v1alpha1/types.go *)

Module v1alpha1.

Record ControlPlaneConfig := mkControlPlaneConfig {
  v_cp_Replicas : option Z;
  v_cp_LogLevel : string;
}.

Record DataPlaneConfig := mkDataPlaneConfig {
  v_dp_Replicas : option Z;
  v_dp_LogLevel : string;
}.

Record EnvoyProxyDefaults := mkEnvoyProxyDefaults {
  v_epd_Resources : option ResourceRequirements;
  v_epd_AccessLogging : bool;
}.

Record EnvoyGatewayConfig := mkEnvoyGatewayConfig {
  v_cfg_TypeMeta : TypeMeta;
  v_cfg_ControlPlane : option ControlPlaneConfig;
  v_cfg_DataPlane : option DataPlaneConfig;
  v_cfg_Channel : string;
  v_cfg_ManageCRDs : option bool;
  v_cfg_EnvoyProxyDefaults : option EnvoyProxyDefaults;
  v_cfg_ManageDataPlaneNetworkPolicies : option bool;
}.

(** *** v1alpha1/defaults.go *)

Definition SetDefaults_EnvoyGatewayConfig (obj : EnvoyGatewayConfig) : EnvoyGatewayConfig :=
  mkEnvoyGatewayConfig (v_cfg_TypeMeta obj)
    (match v_cfg_ControlPlane obj with
     | None => Some (mkControlPlaneConfig None "")
     | c => c
     end)
    (match v_cfg_DataPlane obj with
     | None => Some (mkDataPlaneConfig None "")
     | c => c
     end)
    (if decide (v_cfg_Channel obj = "") then ChannelStandard else v_cfg_Channel obj)
    (match v_cfg_ManageCRDs obj with None => Some true | b => b end)
    (v_cfg_EnvoyProxyDefaults obj)
    (v_cfg_ManageDataPlaneNetworkPolicies obj).

Definition SetDefaults_ControlPlaneConfig (obj : ControlPlaneConfig) : ControlPlaneConfig :=
  mkControlPlaneConfig
    (match v_cp_Replicas obj with None => Some 2%Z | r => r end)
    (if decide (v_cp_LogLevel obj = "") then LogLevelInfo else v_cp_LogLevel obj).

Definition SetDefaults_DataPlaneConfig (obj : DataPlaneConfig) : DataPlaneConfig :=
  mkDataPlaneConfig
    (match v_dp_Replicas obj with None => Some 2%Z | r => r end)
    (if decide (v_dp_LogLevel obj = "") then LogLevelInfo else v_dp_LogLevel obj).

(** generated.defaults.go. *)
Definition SetObjectDefaults_EnvoyGatewayConfig (obj : EnvoyGatewayConfig) : EnvoyGatewayConfig :=
  let obj := SetDefaults_EnvoyGatewayConfig obj in
  mkEnvoyGatewayConfig (v_cfg_TypeMeta obj)
    (SetDefaults_ControlPlaneConfig <$> v_cfg_ControlPlane obj)
    (SetDefaults_DataPlaneConfig <$> v_cfg_DataPlane obj)
    (v_cfg_Channel obj) (v_cfg_ManageCRDs obj) (v_cfg_EnvoyProxyDefaults obj)
    (v_cfg_ManageDataPlaneNetworkPolicies obj).

End v1alpha1.

(** ** generated.conversion.go

    A conversion writes into [out]; the [TypeMeta] of [out] is kept. *)

Definition Convert_v1alpha1_ControlPlaneConfig_To_config_ControlPlaneConfig
    (c : v1alpha1.ControlPlaneConfig) : config.ControlPlaneConfig :=
  config.mkControlPlaneConfig (v1alpha1.v_cp_Replicas c) (v1alpha1.v_cp_LogLevel c).

Definition Convert_config_ControlPlaneConfig_To_v1alpha1_ControlPlaneConfig
    (c : config.ControlPlaneConfig) : v1alpha1.ControlPlaneConfig :=
  v1alpha1.mkControlPlaneConfig (config.cp_Replicas c) (config.cp_LogLevel c).

Definition Convert_v1alpha1_DataPlaneConfig_To_config_DataPlaneConfig
    (c : v1alpha1.DataPlaneConfig) : config.DataPlaneConfig :=
  config.mkDataPlaneConfig (v1alpha1.v_dp_Replicas c) (v1alpha1.v_dp_LogLevel c).

Definition Convert_config_DataPlaneConfig_To_v1alpha1_DataPlaneConfig
    (c : config.DataPlaneConfig) : v1alpha1.DataPlaneConfig :=
  v1alpha1.mkDataPlaneConfig (config.dp_Replicas c) (config.dp_LogLevel c).

Definition Convert_v1alpha1_EnvoyProxyDefaults_To_config_EnvoyProxyDefaults
    (c : v1alpha1.EnvoyProxyDefaults) : config.EnvoyProxyDefaults :=
  config.mkEnvoyProxyDefaults (v1alpha1.v_epd_Resources c) (v1alpha1.v_epd_AccessLogging c).

Definition Convert_config_EnvoyProxyDefaults_To_v1alpha1_EnvoyProxyDefaults
    (c : config.EnvoyProxyDefaults) : v1alpha1.EnvoyProxyDefaults :=
  v1alpha1.mkEnvoyProxyDefaults (config.epd_Resources c) (config.epd_AccessLogging c).

Definition Convert_v1alpha1_EnvoyGatewayConfig_To_config_EnvoyGatewayConfig
    (in_ : v1alpha1.EnvoyGatewayConfig) (out : config.EnvoyGatewayConfig) : config.EnvoyGatewayConfig :=
  config.mkEnvoyGatewayConfig (config.cfg_TypeMeta out)
    (Convert_v1alpha1_ControlPlaneConfig_To_config_ControlPlaneConfig <$> v1alpha1.v_cfg_ControlPlane in_)
    (Convert_v1alpha1_DataPlaneConfig_To_config_DataPlaneConfig <$> v1alpha1.v_cfg_DataPlane in_)
    (v1alpha1.v_cfg_Channel in_)
    (v1alpha1.v_cfg_ManageCRDs in_)
    (Convert_v1alpha1_EnvoyProxyDefaults_To_config_EnvoyProxyDefaults <$> v1alpha1.v_cfg_EnvoyProxyDefaults in_)
    (v1alpha1.v_cfg_ManageDataPlaneNetworkPolicies in_).

Definition Convert_config_EnvoyGatewayConfig_To_v1alpha1_EnvoyGatewayConfig
    (in_ : config.EnvoyGatewayConfig) (out : v1alpha1.EnvoyGatewayConfig) : v1alpha1.EnvoyGatewayConfig :=
  v1alpha1.mkEnvoyGatewayConfig (v1alpha1.v_cfg_TypeMeta out)
    (Convert_config_ControlPlaneConfig_To_v1alpha1_ControlPlaneConfig <$> config.cfg_ControlPlane in_)
    (Convert_config_DataPlaneConfig_To_v1alpha1_DataPlaneConfig <$> config.cfg_DataPlane in_)
    (config.cfg_Channel in_)
    (config.cfg_ManageCRDs in_)
    (Convert_config_EnvoyProxyDefaults_To_v1alpha1_EnvoyProxyDefaults <$> config.cfg_EnvoyProxyDefaults in_)
    (config.cfg_ManageDataPlaneNetworkPolicies in_).

(** ** The decoder

    [runtime.DecodeInto] with the scheme's strict [UniversalDecoder]: a
    parameter.  Its documented behaviour for a v1alpha1 document: strict
    unmarshalling, the registered defaults, the registered conversion. *)
Class ConfigDecoder := DecodeInto : string -> config.EnvoyGatewayConfig + error.

(** The decoder built from an unmarshaller of v1alpha1 documents. *)
Definition universalDecoder (unmarshal : string -> v1alpha1.EnvoyGatewayConfig + error) : ConfigDecoder :=
  fun raw =>
    match unmarshal raw with
    | inl obj =>
        inl (Convert_v1alpha1_EnvoyGatewayConfig_To_config_EnvoyGatewayConfig
               (v1alpha1.SetObjectDefaults_EnvoyGatewayConfig obj) config.emptyConfig)
    | inr e => inr e
    end.

(** ** Well-formed configurations *)

(** The enumerated fields hold a valid value, or are unset. *)
Definition valid_level (l : string) : Prop := l = "" \/ l ∈ ValidLogLevels.
Definition valid_channel (c : string) : Prop := c = "" \/ c ∈ ValidChannels.

Definition config_valid (c : config.EnvoyGatewayConfig) : Prop :=
  valid_channel (config.cfg_Channel c) /\
  (forall cp, config.cfg_ControlPlane c = Some cp -> valid_level (config.cp_LogLevel cp)) /\
  (forall dp, config.cfg_DataPlane c = Some dp -> valid_level (config.dp_LogLevel dp)).

(** Every field with a default is set. *)
Definition defaulted (c : v1alpha1.EnvoyGatewayConfig) : Prop :=
  v1alpha1.v_cfg_Channel c <> "" /\ is_Some (v1alpha1.v_cfg_ManageCRDs c) /\
  (exists cp, v1alpha1.v_cfg_ControlPlane c = Some cp /\
     is_Some (v1alpha1.v_cp_Replicas cp) /\ v1alpha1.v_cp_LogLevel cp <> "") /\
  (exists dp, v1alpha1.v_cfg_DataPlane c = Some dp /\
     is_Some (v1alpha1.v_dp_Replicas dp) /\ v1alpha1.v_dp_LogLevel dp <> "").

(** ** Properties *)

(** C40: converting to the internal version and back loses nothing but the
    [TypeMeta], which the target keeps. *)
Theorem conversion_round_trip v out out' :
  Convert_config_EnvoyGatewayConfig_To_v1alpha1_EnvoyGatewayConfig
    (Convert_v1alpha1_EnvoyGatewayConfig_To_config_EnvoyGatewayConfig v out) out' =
  v1alpha1.mkEnvoyGatewayConfig (v1alpha1.v_cfg_TypeMeta out') (v1alpha1.v_cfg_ControlPlane v)
    (v1alpha1.v_cfg_DataPlane v) (v1alpha1.v_cfg_Channel v) (v1alpha1.v_cfg_ManageCRDs v)
    (v1alpha1.v_cfg_EnvoyProxyDefaults v) (v1alpha1.v_cfg_ManageDataPlaneNetworkPolicies v).
Proof.
  unfold Convert_config_EnvoyGatewayConfig_To_v1alpha1_EnvoyGatewayConfig,
    Convert_v1alpha1_EnvoyGatewayConfig_To_config_EnvoyGatewayConfig. simpl.
  by destruct v as [? [[]|] [[]|] ? ? [[]|] ?].
Qed.

(** [d] is the default of a field of the type, [x] its value before defaulting,
    [y] the value after: what is set is kept, what is not gets the default. *)
Definition defaults_to {A} (d : A) (x y : option A) : Prop :=
  match x with Some a => y = Some a | None => y = Some d end.

Definition text_defaults_to (d x y : string) : Prop := if decide (x = "") then y = d else y = x.

(** C39: the registered defaults, field by field.  Afterwards every field that has
    a default is set; whatever the user set - channel, CRD management, replicas and
    log level of either plane, each on its own, and everything without a default -
    is as the user set it, and what was unset has the documented default (standard
    channel, CRDs managed, two replicas, log level info); and applying the defaults
    again, or to a complete configuration, changes nothing. *)
Theorem defaults_complete_and_conservative obj :
  let d := v1alpha1.SetObjectDefaults_EnvoyGatewayConfig obj in
  defaulted d /\ v1alpha1.SetObjectDefaults_EnvoyGatewayConfig d = d /\ (defaulted obj -> d = obj) /\
  text_defaults_to "standard" (v1alpha1.v_cfg_Channel obj) (v1alpha1.v_cfg_Channel d) /\
  defaults_to true (v1alpha1.v_cfg_ManageCRDs obj) (v1alpha1.v_cfg_ManageCRDs d) /\
  (exists cp', v1alpha1.v_cfg_ControlPlane d = Some cp' /\
     match v1alpha1.v_cfg_ControlPlane obj with
     | Some cp => defaults_to 2%Z (v1alpha1.v_cp_Replicas cp) (v1alpha1.v_cp_Replicas cp') /\
                  text_defaults_to "info" (v1alpha1.v_cp_LogLevel cp) (v1alpha1.v_cp_LogLevel cp')
     | None => cp' = v1alpha1.mkControlPlaneConfig (Some 2%Z) "info"
     end) /\
  (exists dp', v1alpha1.v_cfg_DataPlane d = Some dp' /\
     match v1alpha1.v_cfg_DataPlane obj with
     | Some dp => defaults_to 2%Z (v1alpha1.v_dp_Replicas dp) (v1alpha1.v_dp_Replicas dp') /\
                  text_defaults_to "info" (v1alpha1.v_dp_LogLevel dp) (v1alpha1.v_dp_LogLevel dp')
     | None => dp' = v1alpha1.mkDataPlaneConfig (Some 2%Z) "info"
     end) /\
  v1alpha1.v_cfg_TypeMeta d = v1alpha1.v_cfg_TypeMeta obj /\
  v1alpha1.v_cfg_EnvoyProxyDefaults d = v1alpha1.v_cfg_EnvoyProxyDefaults obj /\
  v1alpha1.v_cfg_ManageDataPlaneNetworkPolicies d = v1alpha1.v_cfg_ManageDataPlaneNetworkPolicies obj.
Proof.
  destruct obj as [tm cp dp ch crds epd np]. simpl. unfold text_defaults_to.
  split_and!; [..|done|done|done].
  - unfold defaulted. simpl. split_and!.
    + by destruct (decide (ch = "")).
    + by destruct crds.
    + destruct cp as [[[r|] l]|]; simpl; eexists; (split; [done|]); simpl; (split; [done|]);
        try destruct (decide (l = "")); done.
    + destruct dp as [[[r|] l]|]; simpl; eexists; (split; [done|]); simpl; (split; [done|]);
        try destruct (decide (l = "")); done.
  - unfold v1alpha1.SetObjectDefaults_EnvoyGatewayConfig, v1alpha1.SetDefaults_EnvoyGatewayConfig,
      v1alpha1.SetDefaults_ControlPlaneConfig, v1alpha1.SetDefaults_DataPlaneConfig.
    destruct cp as [[[?|] l]|], dp as [[[?|] l']|], crds; simpl;
      try destruct (decide (ch = "")); try destruct (decide (l = "")); try destruct (decide (l' = ""));
      simpl; rewrite ?decide_False by done; done.
  - intros (Hch&[b Hb]&(c&Hc&[rc Hrc]&Hlc)&(d&Hd&[rd Hrd]&Hld)). simpl in *. subst.
    destruct c, d. simpl in *. subst.
    unfold v1alpha1.SetObjectDefaults_EnvoyGatewayConfig, v1alpha1.SetDefaults_EnvoyGatewayConfig,
      v1alpha1.SetDefaults_ControlPlaneConfig, v1alpha1.SetDefaults_DataPlaneConfig. simpl.
    by rewrite !decide_False.
  - by destruct (decide (ch = "")).
  - by destruct crds.
  - destruct cp as [[[r|] l]|]; simpl; (eexists; split; [reflexivity|]); simpl; [..|done];
      (split; [done|]); by destruct (decide (l = "")).
  - destruct dp as [[[r|] l]|]; simpl; (eexists; split; [reflexivity|]); simpl; [..|done];
      (split; [done|]); by destruct (decide (l = "")).
Qed.
