(* ===== verification/GoHeap.v ===== *)
(** * Go's memory, as far as the configuration API uses it

    The optional fields of the configuration types are pointers, and the
    generated code copies some of them and shares others.  A [heap] maps
    locations to typed cells; a computation of [ST] gets stuck on a nil or
    dangling pointer and on a cell of another type, as Go panics or rules out
    statically. *)

From S2P Require Import Prelude KubeObjects Config.
From stdpp Require Import gmap.

Definition loc := positive.

(** ** The memory layout of the configuration types

    pkg/apis/config/types.go and v1alpha1/types.go declare the same fields in
    the same order, so that their structs have one layout: the generated
    conversions rely on it when they cast with [unsafe.Pointer]. *)

Module memory.

Record ControlPlaneConfig := mkControlPlaneConfig { cp_Replicas : option loc; cp_LogLevel : string }.
Record DataPlaneConfig := mkDataPlaneConfig { dp_Replicas : option loc; dp_LogLevel : string }.

Record EnvoyProxyDefaults := mkEnvoyProxyDefaults {
  epd_Resources : option loc;
  epd_AccessLogging : bool;
}.

Record EnvoyGatewayConfig := mkEnvoyGatewayConfig {
  cfg_TypeMeta : TypeMeta;
  cfg_ControlPlane : option loc;
  cfg_DataPlane : option loc;
  cfg_Channel : string;
  cfg_ManageCRDs : option loc;
  cfg_EnvoyProxyDefaults : option loc;
  cfg_ManageDataPlaneNetworkPolicies : option loc;
}.

(** [corev1.ResourceRequirements] without the claims of dynamic resource
    allocation: two maps, which Go keeps by reference. *)
Record ResourceRequirements := mkResourceRequirements { rr_Requests : option loc; rr_Limits : option loc }.

End memory.

Inductive cell :=
  | CInt32 (z : Z)
  | CBool (b : bool)
  | CControlPlaneConfig (c : memory.ControlPlaneConfig)
  | CDataPlaneConfig (c : memory.DataPlaneConfig)
  | CEnvoyProxyDefaults (c : memory.EnvoyProxyDefaults)
  | CEnvoyGatewayConfig (c : memory.EnvoyGatewayConfig)
  | CResourceRequirements (c : memory.ResourceRequirements)
  | CResourceList (l : list (string * string)).

Abbreviation heap := (gmap loc cell).

(** A Go type that is stored in cells of its own. *)
Class Cell (T : Type) := {
  to_cell : T -> cell;
  of_cell : cell -> option T;
  of_to_cell x : of_cell (to_cell x) = Some x;
  to_of_cell c x : of_cell c = Some x -> c = to_cell x;
}.


#[export, refine] Instance Cell_int32 : Cell Z :=
  {| to_cell := CInt32; of_cell c := match c with CInt32 x => Some x | _ => None end; of_to_cell := _; to_of_cell := _ |}.
Proof. - done. - by intros [] ? [= <-]. Defined.

#[export, refine] Instance Cell_bool : Cell bool :=
  {| to_cell := CBool; of_cell c := match c with CBool x => Some x | _ => None end; of_to_cell := _; to_of_cell := _ |}.
Proof. - done. - by intros [] ? [= <-]. Defined.

#[export, refine] Instance Cell_ControlPlaneConfig : Cell memory.ControlPlaneConfig :=
  {| to_cell := CControlPlaneConfig;
     of_cell c := match c with CControlPlaneConfig x => Some x | _ => None end; of_to_cell := _; to_of_cell := _ |}.
Proof. - done. - by intros [] ? [= <-]. Defined.

#[export, refine] Instance Cell_DataPlaneConfig : Cell memory.DataPlaneConfig :=
  {| to_cell := CDataPlaneConfig;
     of_cell c := match c with CDataPlaneConfig x => Some x | _ => None end; of_to_cell := _; to_of_cell := _ |}.
Proof. - done. - by intros [] ? [= <-]. Defined.

#[export, refine] Instance Cell_EnvoyProxyDefaults : Cell memory.EnvoyProxyDefaults :=
  {| to_cell := CEnvoyProxyDefaults;
     of_cell c := match c with CEnvoyProxyDefaults x => Some x | _ => None end; of_to_cell := _; to_of_cell := _ |}.
Proof. - done. - by intros [] ? [= <-]. Defined.

#[export, refine] Instance Cell_EnvoyGatewayConfig : Cell memory.EnvoyGatewayConfig :=
  {| to_cell := CEnvoyGatewayConfig;
     of_cell c := match c with CEnvoyGatewayConfig x => Some x | _ => None end; of_to_cell := _; to_of_cell := _ |}.
Proof. - done. - by intros [] ? [= <-]. Defined.

#[export, refine] Instance Cell_ResourceRequirements : Cell memory.ResourceRequirements :=
  {| to_cell := CResourceRequirements;
     of_cell c := match c with CResourceRequirements x => Some x | _ => None end; of_to_cell := _; to_of_cell := _ |}.
Proof. - done. - by intros [] ? [= <-]. Defined.

#[export, refine] Instance Cell_ResourceList : Cell (list (string * string)) :=
  {| to_cell := CResourceList; of_cell c := match c with CResourceList x => Some x | _ => None end; of_to_cell := _; to_of_cell := _ |}.
Proof. - done. - by intros [] ? [= <-]. Defined.

(** ** Computations over the memory *)

Definition ST (A : Type) : Type := heap -> option (A * heap).

#[export] Instance ST_ret : MRet ST := fun A a h => Some (a, h).
#[export] Instance ST_bind : MBind ST := fun A B f m h =>
  match m h with Some (a, h) => f a h | None => None end.

(** What a location holds, at its type. *)
Definition peek {T} `{Cell T} (h : heap) (l : loc) : option T := h !! l ≫= of_cell.

(** [*l], [*l = x] and [new(T)]. *)
Definition load {T} `{Cell T} (l : loc) : ST T := fun h => x ← peek h l; Some (x, h).

Definition store {T} `{Cell T} (l : loc) (x : T) : ST unit := fun h =>
  match peek (T := T) h l with
  | Some _ => Some (tt, <[l := to_cell x]> h)
  | None => None
  end.

Definition new {T} `{Cell T} (x : T) : ST loc := fun h =>
  let l := fresh (dom h) in Some (l, <[l := to_cell x]> h).

(** [l.f = v]: a struct assigned in one field. *)
Definition modify {T} `{Cell T} (l : loc) (f : T -> T) : ST unit := x ← load l; store l (f x).

(** ** Lemmas *)

Lemma ST_bind_Some {A B} (m : ST A) (f : A -> ST B) h a h1 :
  m h = Some (a, h1) -> (m ≫= f) h = f a h1.
Proof. unfold mbind, ST_bind. by intros ->. Qed.

Section cells.
Context {T : Type} `{Cell T}.
Implicit Types (h : heap) (l : loc) (x : T).

Lemma peek_lookup h l x : peek h l = Some x <-> h !! l = Some (to_cell x).
Proof.
  unfold peek. rewrite bind_Some. split.
  - intros (c&Hc&Hx). by rewrite Hc, (to_of_cell c x).
  - intros ->. eexists. split; [done|]. apply of_to_cell.
Qed.

Lemma peek_dom h l x : peek h l = Some x -> l ∈ dom h.
Proof. rewrite peek_lookup. apply elem_of_dom_2. Qed.

Lemma peek_insert h l x : peek (<[l := to_cell x]> h) l = Some x.
Proof. rewrite peek_lookup. by rewrite lookup_insert_eq. Qed.

Lemma peek_local h h' l x : h' !! l = h !! l -> peek h l = Some x -> peek h' l = Some x.
Proof. rewrite !peek_lookup. by intros ->. Qed.

Lemma load_run h l x : peek h l = Some x -> load l h = Some (x, h).
Proof. unfold load. by intros ->. Qed.

Lemma store_run h l x y : peek h l = Some y -> store l x h = Some (tt, <[l := to_cell x]> h).
Proof. unfold store. by intros ->. Qed.

Lemma modify_run h l x f :
  peek h l = Some x -> modify l f h = Some (tt, <[l := to_cell (f x)]> h).
Proof.
  intros Hx. unfold modify. rewrite (ST_bind_Some _ _ _ _ _ (load_run _ _ _ Hx)).
  by eapply store_run.
Qed.

Lemma fresh_not_in_dom h : fresh (dom h) ∉ dom h.
Proof. apply is_fresh. Qed.
End cells.

(** ** Objects in memory

    An object is read with the set of the locations it occupies. *)
Class Readable (V : Type) := {
  read : heap -> loc -> option (V * gset loc);
  read_local h h' l v s :
    read h l = Some (v, s) -> (forall x, x ∈ s -> h' !! x = h !! x) -> read h' l = Some (v, s);
  read_root h l v s : read h l = Some (v, s) -> l ∈ s;
  read_dom h l v s : read h l = Some (v, s) -> s ⊆ dom h;
}.

(** A pointer that may be nil. *)
Definition read_ptr {V} `{Readable V} (h : heap) (p : option loc) : option (option V * gset loc) :=
  match p with
  | None => Some (None, ∅)
  | Some l => '(v, s) ← read h l; Some (Some v, s)
  end.

(** Memory [h'] keeps everything of [h] except what [o] holds. *)
Definition keeps_but (o : loc) (h h' : heap) : Prop :=
  forall x, x ∈ dom h -> x <> o -> h' !! x = h !! x.

(** Memory [h'] keeps everything of [h]. *)
Definition keeps (h h' : heap) : Prop := forall x, x ∈ dom h -> h' !! x = h !! x.

Section readable.
Context {V : Type} `{Readable V}.

Lemma read_ptr_local h h' p (v : option V) s :
  read_ptr h p = Some (v, s) -> (forall x, x ∈ s -> h' !! x = h !! x) -> read_ptr h' p = Some (v, s).
Proof.
  destruct p as [l|]; [|done]. simpl. rewrite bind_Some. intros ([w t]&Hr&[= <- <-]) Hl.
  by rewrite (read_local _ _ _ _ _ Hr Hl).
Qed.

Lemma read_ptr_dom h p (v : option V) s : read_ptr h p = Some (v, s) -> s ⊆ dom h.
Proof.
  destruct p as [l|]; simpl; [|intros [= <- <-]; set_solver].
  rewrite bind_Some. intros ([w t]&Hr&[= <- <-]). by eapply read_dom.
Qed.
End readable.

#[export] Instance keeps_but_preorder o : PreOrder (keeps_but o).
Proof.
  split; [by intros h x|]. intros h1 h2 h3 H12 H23 x Hx Hne.
  assert (x ∈ dom h2) by (rewrite elem_of_dom, H12 by done; by apply elem_of_dom).
  by rewrite H23, H12.
Qed.

Lemma keeps_but_insert o h c : keeps_but o h (<[o := c]> h).
Proof. intros x _ Hne. by rewrite lookup_insert_ne. Qed.

Lemma keeps_but_fresh o h l c : l ∉ dom h -> keeps_but o h (<[l := c]> h).
Proof. intros Hl x Hx _. rewrite lookup_insert_ne; [done|]. by intros ->. Qed.

Lemma keeps_but_dom o h h' : keeps_but o h h' -> o ∈ dom h' -> dom h ⊆ dom h'.
Proof.
  intros Hk Ho x Hx. destruct (decide (x = o)) as [->|Hne]; [done|].
  rewrite elem_of_dom, Hk by done. by apply elem_of_dom.
Qed.

Lemma keeps_but_read_ptr {V} `{Readable V} o h h' p (v : option V) s :
  keeps_but o h h' -> o ∉ s -> read_ptr h p = Some (v, s) -> read_ptr h' p = Some (v, s).
Proof.
  intros Hk Ho Hr. eapply read_ptr_local; [done|]. intros x Hx.
  apply Hk; [by eapply read_ptr_dom|]. by intros ->.
Qed.
