(* ===== verification/DeepCopy.v ===== *)
(** * Deep copies, conversions and defaults in memory

    generated.deepcopy.go of pkg/apis/config and of v1alpha1, and the conversions
    and defaults of Config.v as the code performs them: on objects in memory,
    through pointers.  A copy shares no memory with the original; a conversion
    shares all of it. *)

From S2P Require Import Prelude KubeObjects Constants Config GoHeap.
From stdpp Require Import gmap.

(** ** Copying *)

(** [*out = *in]. *)
Definition assign {T} `{Cell T} (in_ out : loc) : ST unit := x ← load (T := T) in_; store out x.

(** The block deepcopy-gen writes for a pointer field [F]:
    [if in.F != nil { in, out := &in.F, &out.F; *out = new(U); ... }], where the
    dots copy [**in] to [**out]. *)
Definition copyPtr {T U} `{Cell T} `{Cell U} (get : T -> option loc) (set : option loc -> T -> T)
    (zero : U) (copy : loc -> loc -> ST unit) (in_ out : loc) : ST unit :=
  i ← load in_;
  match get i with
  | None => mret tt
  | Some p =>
      q ← new zero;
      modify out (set (Some q)) ;;
      copy p q
  end.

(** [func (in *T) DeepCopy() *T]. *)
Definition copyNew {T} `{Cell T} (zero : T) (into : loc -> loc -> ST unit) (in_ : option loc) : ST (option loc) :=
  match in_ with
  | None => mret None
  | Some i =>
      out ← new zero;
      into i out ;;
      mret (Some out)
  end.

(** *** Fields and zero values *)

Definition set_cp_Replicas p (c : memory.ControlPlaneConfig) :=
  memory.mkControlPlaneConfig p (memory.cp_LogLevel c).
Definition set_dp_Replicas p (c : memory.DataPlaneConfig) :=
  memory.mkDataPlaneConfig p (memory.dp_LogLevel c).
Definition set_epd_Resources p (c : memory.EnvoyProxyDefaults) :=
  memory.mkEnvoyProxyDefaults p (memory.epd_AccessLogging c).

Section config_fields.
Import memory.
Implicit Types c : memory.EnvoyGatewayConfig.

Definition set_TypeMeta tm c :=
  mkEnvoyGatewayConfig tm (cfg_ControlPlane c) (cfg_DataPlane c) (cfg_Channel c) (cfg_ManageCRDs c)
    (cfg_EnvoyProxyDefaults c) (cfg_ManageDataPlaneNetworkPolicies c).
Definition set_ControlPlane p c :=
  mkEnvoyGatewayConfig (cfg_TypeMeta c) p (cfg_DataPlane c) (cfg_Channel c) (cfg_ManageCRDs c)
    (cfg_EnvoyProxyDefaults c) (cfg_ManageDataPlaneNetworkPolicies c).
Definition set_DataPlane p c :=
  mkEnvoyGatewayConfig (cfg_TypeMeta c) (cfg_ControlPlane c) p (cfg_Channel c) (cfg_ManageCRDs c)
    (cfg_EnvoyProxyDefaults c) (cfg_ManageDataPlaneNetworkPolicies c).
Definition set_Channel ch c :=
  mkEnvoyGatewayConfig (cfg_TypeMeta c) (cfg_ControlPlane c) (cfg_DataPlane c) ch (cfg_ManageCRDs c)
    (cfg_EnvoyProxyDefaults c) (cfg_ManageDataPlaneNetworkPolicies c).
Definition set_ManageCRDs p c :=
  mkEnvoyGatewayConfig (cfg_TypeMeta c) (cfg_ControlPlane c) (cfg_DataPlane c) (cfg_Channel c) p
    (cfg_EnvoyProxyDefaults c) (cfg_ManageDataPlaneNetworkPolicies c).
Definition set_EnvoyProxyDefaults p c :=
  mkEnvoyGatewayConfig (cfg_TypeMeta c) (cfg_ControlPlane c) (cfg_DataPlane c) (cfg_Channel c)
    (cfg_ManageCRDs c) p (cfg_ManageDataPlaneNetworkPolicies c).
Definition set_ManageDataPlaneNetworkPolicies p c :=
  mkEnvoyGatewayConfig (cfg_TypeMeta c) (cfg_ControlPlane c) (cfg_DataPlane c) (cfg_Channel c)
    (cfg_ManageCRDs c) (cfg_EnvoyProxyDefaults c) p.

Definition zeroControlPlaneConfig := mkControlPlaneConfig None "".
Definition zeroDataPlaneConfig := mkDataPlaneConfig None "".
Definition zeroEnvoyProxyDefaults := mkEnvoyProxyDefaults None false.
Definition zeroEnvoyGatewayConfig := mkEnvoyGatewayConfig (mkTypeMeta "" "") None None "" None None None.
Definition zeroResourceRequirements := mkResourceRequirements None None.
End config_fields.

(** [corev1.ResourceRequirements.DeepCopyInto] is Kubernetes's: a parameter. *)
Class CoreV1 := ResourceRequirements_DeepCopyInto : loc -> loc -> ST unit.

(** *** pkg/apis/config/generated.deepcopy.go *)

Module deepcopy.
Section deepcopy.
Context `{CoreV1}.

Definition ControlPlaneConfig_DeepCopyInto (in_ out : loc) : ST unit :=
  assign (T := memory.ControlPlaneConfig) in_ out ;;
  copyPtr memory.cp_Replicas set_cp_Replicas 0%Z (assign (T := Z)) in_ out.

Definition ControlPlaneConfig_DeepCopy : option loc -> ST (option loc) :=
  copyNew zeroControlPlaneConfig ControlPlaneConfig_DeepCopyInto.

Definition DataPlaneConfig_DeepCopyInto (in_ out : loc) : ST unit :=
  assign (T := memory.DataPlaneConfig) in_ out ;;
  copyPtr memory.dp_Replicas set_dp_Replicas 0%Z (assign (T := Z)) in_ out.

Definition DataPlaneConfig_DeepCopy : option loc -> ST (option loc) :=
  copyNew zeroDataPlaneConfig DataPlaneConfig_DeepCopyInto.

Definition EnvoyProxyDefaults_DeepCopyInto (in_ out : loc) : ST unit :=
  assign (T := memory.EnvoyProxyDefaults) in_ out ;;
  copyPtr memory.epd_Resources set_epd_Resources zeroResourceRequirements
    ResourceRequirements_DeepCopyInto in_ out.

Definition EnvoyProxyDefaults_DeepCopy : option loc -> ST (option loc) :=
  copyNew zeroEnvoyProxyDefaults EnvoyProxyDefaults_DeepCopyInto.

Definition EnvoyGatewayConfig_DeepCopyInto (in_ out : loc) : ST unit :=
  assign (T := memory.EnvoyGatewayConfig) in_ out ;;
  i ← load (T := memory.EnvoyGatewayConfig) in_;
  modify out (set_TypeMeta (memory.cfg_TypeMeta i)) ;;
  copyPtr memory.cfg_ControlPlane set_ControlPlane zeroControlPlaneConfig
    ControlPlaneConfig_DeepCopyInto in_ out ;;
  copyPtr memory.cfg_DataPlane set_DataPlane zeroDataPlaneConfig
    DataPlaneConfig_DeepCopyInto in_ out ;;
  copyPtr memory.cfg_ManageCRDs set_ManageCRDs false (assign (T := bool)) in_ out ;;
  copyPtr memory.cfg_EnvoyProxyDefaults set_EnvoyProxyDefaults zeroEnvoyProxyDefaults
    EnvoyProxyDefaults_DeepCopyInto in_ out ;;
  copyPtr memory.cfg_ManageDataPlaneNetworkPolicies set_ManageDataPlaneNetworkPolicies false
    (assign (T := bool)) in_ out.

Definition EnvoyGatewayConfig_DeepCopy : option loc -> ST (option loc) :=
  copyNew zeroEnvoyGatewayConfig EnvoyGatewayConfig_DeepCopyInto.

(** The [runtime.Object] is nil or the copy. *)
Definition EnvoyGatewayConfig_DeepCopyObject (in_ : option loc) : ST (option loc) :=
  c ← EnvoyGatewayConfig_DeepCopy in_;
  match c with
  | Some c => mret (Some c)
  | None => mret None
  end.

End deepcopy.
End deepcopy.

(** *** pkg/apis/config/v1alpha1/generated.deepcopy.go

    Generated from the other version of the types; the text is the same. *)

Module v1alpha1_deepcopy.
Section deepcopy.
Context `{CoreV1}.

Definition ControlPlaneConfig_DeepCopyInto (in_ out : loc) : ST unit :=
  assign (T := memory.ControlPlaneConfig) in_ out ;;
  copyPtr memory.cp_Replicas set_cp_Replicas 0%Z (assign (T := Z)) in_ out.

Definition ControlPlaneConfig_DeepCopy : option loc -> ST (option loc) :=
  copyNew zeroControlPlaneConfig ControlPlaneConfig_DeepCopyInto.

Definition DataPlaneConfig_DeepCopyInto (in_ out : loc) : ST unit :=
  assign (T := memory.DataPlaneConfig) in_ out ;;
  copyPtr memory.dp_Replicas set_dp_Replicas 0%Z (assign (T := Z)) in_ out.

Definition DataPlaneConfig_DeepCopy : option loc -> ST (option loc) :=
  copyNew zeroDataPlaneConfig DataPlaneConfig_DeepCopyInto.

Definition EnvoyProxyDefaults_DeepCopyInto (in_ out : loc) : ST unit :=
  assign (T := memory.EnvoyProxyDefaults) in_ out ;;
  copyPtr memory.epd_Resources set_epd_Resources zeroResourceRequirements
    ResourceRequirements_DeepCopyInto in_ out.

Definition EnvoyProxyDefaults_DeepCopy : option loc -> ST (option loc) :=
  copyNew zeroEnvoyProxyDefaults EnvoyProxyDefaults_DeepCopyInto.

Definition EnvoyGatewayConfig_DeepCopyInto (in_ out : loc) : ST unit :=
  assign (T := memory.EnvoyGatewayConfig) in_ out ;;
  i ← load (T := memory.EnvoyGatewayConfig) in_;
  modify out (set_TypeMeta (memory.cfg_TypeMeta i)) ;;
  copyPtr memory.cfg_ControlPlane set_ControlPlane zeroControlPlaneConfig
    ControlPlaneConfig_DeepCopyInto in_ out ;;
  copyPtr memory.cfg_DataPlane set_DataPlane zeroDataPlaneConfig
    DataPlaneConfig_DeepCopyInto in_ out ;;
  copyPtr memory.cfg_ManageCRDs set_ManageCRDs false (assign (T := bool)) in_ out ;;
  copyPtr memory.cfg_EnvoyProxyDefaults set_EnvoyProxyDefaults zeroEnvoyProxyDefaults
    EnvoyProxyDefaults_DeepCopyInto in_ out ;;
  copyPtr memory.cfg_ManageDataPlaneNetworkPolicies set_ManageDataPlaneNetworkPolicies false
    (assign (T := bool)) in_ out.

Definition EnvoyGatewayConfig_DeepCopy : option loc -> ST (option loc) :=
  copyNew zeroEnvoyGatewayConfig EnvoyGatewayConfig_DeepCopyInto.

(** The [runtime.Object] is nil or the copy. *)
Definition EnvoyGatewayConfig_DeepCopyObject (in_ : option loc) : ST (option loc) :=
  c ← EnvoyGatewayConfig_DeepCopy in_;
  match c with
  | Some c => mret (Some c)
  | None => mret None
  end.

End deepcopy.
End v1alpha1_deepcopy.

(** ** v1alpha1/generated.conversion.go

    [*out = *( *config.T)(unsafe.Pointer(in))]: the struct is copied as it lies in
    memory, so its pointers are shared. *)

(** [out.F = (cast)(in.F)]. *)
Definition assignField {T A} `{Cell T} (get : T -> A) (set : A -> T -> T) (in_ out : loc) : ST unit :=
  i ← load (T := T) in_;
  modify out (set (get i)).

Module inmemory.

Definition Convert_v1alpha1_ControlPlaneConfig_To_config_ControlPlaneConfig (in_ out : loc) : ST unit :=
  assign (T := memory.ControlPlaneConfig) in_ out.
Definition Convert_config_ControlPlaneConfig_To_v1alpha1_ControlPlaneConfig (in_ out : loc) : ST unit :=
  assign (T := memory.ControlPlaneConfig) in_ out.
Definition Convert_v1alpha1_DataPlaneConfig_To_config_DataPlaneConfig (in_ out : loc) : ST unit :=
  assign (T := memory.DataPlaneConfig) in_ out.
Definition Convert_config_DataPlaneConfig_To_v1alpha1_DataPlaneConfig (in_ out : loc) : ST unit :=
  assign (T := memory.DataPlaneConfig) in_ out.
Definition Convert_v1alpha1_EnvoyProxyDefaults_To_config_EnvoyProxyDefaults (in_ out : loc) : ST unit :=
  assign (T := memory.EnvoyProxyDefaults) in_ out.
Definition Convert_config_EnvoyProxyDefaults_To_v1alpha1_EnvoyProxyDefaults (in_ out : loc) : ST unit :=
  assign (T := memory.EnvoyProxyDefaults) in_ out.

(** The pointers are cast one by one. *)
Definition Convert_v1alpha1_EnvoyGatewayConfig_To_config_EnvoyGatewayConfig (in_ out : loc) : ST unit :=
  assignField memory.cfg_ControlPlane set_ControlPlane in_ out ;;
  assignField memory.cfg_DataPlane set_DataPlane in_ out ;;
  assignField memory.cfg_Channel set_Channel in_ out ;;
  assignField memory.cfg_ManageCRDs set_ManageCRDs in_ out ;;
  assignField memory.cfg_EnvoyProxyDefaults set_EnvoyProxyDefaults in_ out ;;
  assignField memory.cfg_ManageDataPlaneNetworkPolicies set_ManageDataPlaneNetworkPolicies in_ out.

Definition Convert_config_EnvoyGatewayConfig_To_v1alpha1_EnvoyGatewayConfig (in_ out : loc) : ST unit :=
  assignField memory.cfg_ControlPlane set_ControlPlane in_ out ;;
  assignField memory.cfg_DataPlane set_DataPlane in_ out ;;
  assignField memory.cfg_Channel set_Channel in_ out ;;
  assignField memory.cfg_ManageCRDs set_ManageCRDs in_ out ;;
  assignField memory.cfg_EnvoyProxyDefaults set_EnvoyProxyDefaults in_ out ;;
  assignField memory.cfg_ManageDataPlaneNetworkPolicies set_ManageDataPlaneNetworkPolicies in_ out.

(** ** v1alpha1/defaults.go and generated.defaults.go *)

(** [if obj.F == nil { obj.F = new(x) }]. *)
Definition defaultPtr {T U} `{Cell T} `{Cell U} (get : T -> option loc) (set : option loc -> T -> T)
    (x : U) (obj : loc) : ST unit :=
  c ← load obj;
  match get c with
  | None => p ← new x; modify obj (set (Some p))
  | Some _ => mret tt
  end.

(** [if obj.F == "" { obj.F = x }]. *)
Definition defaultString {T} `{Cell T} (get : T -> string) (set : string -> T -> T) (x : string)
    (obj : loc) : ST unit :=
  c ← load obj;
  if decide (get c = "") then modify obj (set x) else mret tt.

Definition SetDefaults_EnvoyGatewayConfig (obj : loc) : ST unit :=
  defaultString memory.cfg_Channel set_Channel ChannelStandard obj ;;
  defaultPtr memory.cfg_ManageCRDs set_ManageCRDs true obj ;;
  defaultPtr memory.cfg_ControlPlane set_ControlPlane zeroControlPlaneConfig obj ;;
  defaultPtr memory.cfg_DataPlane set_DataPlane zeroDataPlaneConfig obj.

Definition SetDefaults_ControlPlaneConfig (obj : loc) : ST unit :=
  defaultPtr memory.cp_Replicas set_cp_Replicas 2%Z obj ;;
  defaultString memory.cp_LogLevel
    (fun l c => memory.mkControlPlaneConfig (memory.cp_Replicas c) l) LogLevelInfo obj.

Definition SetDefaults_DataPlaneConfig (obj : loc) : ST unit :=
  defaultPtr memory.dp_Replicas set_dp_Replicas 2%Z obj ;;
  defaultString memory.dp_LogLevel
    (fun l c => memory.mkDataPlaneConfig (memory.dp_Replicas c) l) LogLevelInfo obj.

Definition SetObjectDefaults_EnvoyGatewayConfig (in_ : loc) : ST unit :=
  SetDefaults_EnvoyGatewayConfig in_ ;;
  i ← load (T := memory.EnvoyGatewayConfig) in_;
  match memory.cfg_ControlPlane i with
  | Some p => SetDefaults_ControlPlaneConfig p
  | None => mret tt
  end ;;
  i ← load (T := memory.EnvoyGatewayConfig) in_;
  match memory.cfg_DataPlane i with
  | Some p => SetDefaults_DataPlaneConfig p
  | None => mret tt
  end.

End inmemory.
