(* ===== verification/DeepCopyProps.v ===== *)
(** * The configuration API in memory: what is copied and what is shared

    Objects are read with the locations they occupy.  [copies] is what a deep
    copy promises; it is the interface through which the copies of the parts give
    the copy of the whole, and through which Kubernetes's own copy is used. *)

From S2P Require Import Prelude KubeObjects Constants Config GoHeap DeepCopy.
From stdpp Require Import gmap.

(** ** Reading objects *)

(** Take a read apart, and put one together in another memory. *)
Ltac read_inv H :=
  repeat (let x := fresh "x" in let Hx := fresh "Hx" in apply bind_Some in H as (x&Hx&H);
          try match type of x with (_ * _)%type => destruct x end);
  injection H as <- <-.

Ltac read_move Hl :=
  repeat (match goal with
          | H : peek _ ?l = Some ?x |- _ =>
              rewrite (peek_local _ _ l x (Hl l ltac:(set_solver)) H); clear H
          | H : read_ptr _ ?p = Some (?v, ?s) |- _ =>
              rewrite (read_ptr_local _ _ p v s H ltac:(intros; apply Hl; set_solver)); clear H
          end; cbn);
  reflexivity.

Ltac read_in_dom :=
  repeat match goal with
         | H : peek _ _ = Some _ |- _ => apply peek_dom in H
         | H : read_ptr _ _ = Some _ |- _ => apply read_ptr_dom in H
         end; set_solver.

Section scalar.
Context {T : Type} `{Cell T}.

Definition read_cell (h : heap) (l : loc) : option (T * gset loc) :=
  x ← peek h l; Some (x, {[ l ]}).

#[refine] Instance Readable_cell : Readable T :=
  {| read := read_cell; read_local := _; read_root := _; read_dom := _ |}.
Proof using Type*.
  - unfold read_cell. intros h h' l v s Hr Hl. read_inv Hr. read_move Hl.
  - unfold read_cell. intros h l v s Hr. read_inv Hr. set_solver.
  - unfold read_cell. intros h l v s Hr. read_inv Hr. read_in_dom.
Defined.
End scalar.

#[export] Instance Readable_int32 : Readable Z := Readable_cell.
#[export] Instance Readable_bool : Readable bool := Readable_cell.
#[export] Instance Readable_ResourceList : Readable (list (string * string)) := Readable_cell.

Definition read_ResourceRequirements (h : heap) (l : loc) : option (ResourceRequirements * gset loc) :=
  c ← peek h l;
  '(req, s1) ← read_ptr h (memory.rr_Requests c);
  '(lim, s2) ← read_ptr h (memory.rr_Limits c);
  Some ({| rr_Requests := default [] req; rr_Limits := default [] lim |}, {[ l ]} ∪ s1 ∪ s2).

Definition read_ControlPlaneConfig (h : heap) (l : loc) : option (config.ControlPlaneConfig * gset loc) :=
  c ← peek h l;
  '(r, s) ← read_ptr h (memory.cp_Replicas c);
  Some (config.mkControlPlaneConfig r (memory.cp_LogLevel c), {[ l ]} ∪ s).

Definition read_DataPlaneConfig (h : heap) (l : loc) : option (config.DataPlaneConfig * gset loc) :=
  c ← peek h l;
  '(r, s) ← read_ptr h (memory.dp_Replicas c);
  Some (config.mkDataPlaneConfig r (memory.dp_LogLevel c), {[ l ]} ∪ s).

#[export, refine] Instance Readable_ResourceRequirements : Readable ResourceRequirements :=
  {| read := read_ResourceRequirements; read_local := _; read_root := _; read_dom := _ |}.
Proof.
  all: unfold read_ResourceRequirements.
  - intros h h' l v s Hr Hl. read_inv Hr. read_move Hl.
  - intros h l v s Hr. read_inv Hr. set_solver.
  - intros h l v s Hr. read_inv Hr. read_in_dom.
Defined.

#[export, refine] Instance Readable_ControlPlaneConfig : Readable config.ControlPlaneConfig :=
  {| read := read_ControlPlaneConfig; read_local := _; read_root := _; read_dom := _ |}.
Proof.
  all: unfold read_ControlPlaneConfig.
  - intros h h' l v s Hr Hl. read_inv Hr. read_move Hl.
  - intros h l v s Hr. read_inv Hr. set_solver.
  - intros h l v s Hr. read_inv Hr. read_in_dom.
Defined.

#[export, refine] Instance Readable_DataPlaneConfig : Readable config.DataPlaneConfig :=
  {| read := read_DataPlaneConfig; read_local := _; read_root := _; read_dom := _ |}.
Proof.
  all: unfold read_DataPlaneConfig.
  - intros h h' l v s Hr Hl. read_inv Hr. read_move Hl.
  - intros h l v s Hr. read_inv Hr. set_solver.
  - intros h l v s Hr. read_inv Hr. read_in_dom.
Defined.

Definition read_EnvoyProxyDefaults (h : heap) (l : loc) : option (config.EnvoyProxyDefaults * gset loc) :=
  c ← peek h l;
  '(r, s) ← read_ptr h (memory.epd_Resources c);
  Some (config.mkEnvoyProxyDefaults r (memory.epd_AccessLogging c), {[ l ]} ∪ s).

#[export, refine] Instance Readable_EnvoyProxyDefaults : Readable config.EnvoyProxyDefaults :=
  {| read := read_EnvoyProxyDefaults; read_local := _; read_root := _; read_dom := _ |}.
Proof.
  all: unfold read_EnvoyProxyDefaults.
  - intros h h' l v s Hr Hl. read_inv Hr. read_move Hl.
  - intros h l v s Hr. read_inv Hr. set_solver.
  - intros h l v s Hr. read_inv Hr. read_in_dom.
Defined.

Definition read_EnvoyGatewayConfig (h : heap) (l : loc) : option (config.EnvoyGatewayConfig * gset loc) :=
  c ← peek h l;
  '(cp, s1) ← read_ptr h (memory.cfg_ControlPlane c);
  '(dp, s2) ← read_ptr h (memory.cfg_DataPlane c);
  '(crds, s3) ← read_ptr h (memory.cfg_ManageCRDs c);
  '(epd, s4) ← read_ptr h (memory.cfg_EnvoyProxyDefaults c);
  '(np, s5) ← read_ptr h (memory.cfg_ManageDataPlaneNetworkPolicies c);
  Some (config.mkEnvoyGatewayConfig (memory.cfg_TypeMeta c) cp dp (memory.cfg_Channel c) crds epd np,
        {[ l ]} ∪ s1 ∪ s2 ∪ s3 ∪ s4 ∪ s5).

#[export, refine] Instance Readable_EnvoyGatewayConfig : Readable config.EnvoyGatewayConfig :=
  {| read := read_EnvoyGatewayConfig; read_local := _; read_root := _; read_dom := _ |}.
Proof.
  all: unfold read_EnvoyGatewayConfig.
  - intros h h' l v s Hr Hl. read_inv Hr. read_move Hl.
  - intros h l v s Hr. read_inv Hr. set_solver.
  - intros h l v s Hr. read_inv Hr. read_in_dom.
Defined.

(** ** Copies *)

(** [copy in out] leaves in [out] an object equal to [in] that shares no memory
    with anything that existed, and changes nothing but [out]. *)
Definition copies (T : Type) (V : Type) `{Cell T} `{Readable V} (copy : loc -> loc -> ST unit) : Prop :=
  forall h i o (v : V) s,
    read h i = Some (v, s) -> is_Some (peek (T := T) h o) -> o ∉ s ->
    exists h' s', copy i o h = Some (tt, h') /\ keeps_but o h h' /\
      read h' o = Some (v, s') /\ (forall x, x ∈ s' -> x = o \/ x ∉ dom h).

(** Documented behaviour of [corev1.ResourceRequirements.DeepCopyInto]. *)
Class DocumentedCoreV1 `{CoreV1} :=
  ResourceRequirements_copies :
    copies memory.ResourceRequirements ResourceRequirements ResourceRequirements_DeepCopyInto.

Lemma assign_run {T} `{Cell T} h i o (x : T) :
  peek h i = Some x -> is_Some (peek (T := T) h o) -> assign (T := T) i o h = Some (tt, <[o := to_cell x]> h).
Proof.
  intros Hi [y Ho]. unfold assign. rewrite (ST_bind_Some _ _ _ _ _ (load_run _ _ _ Hi)).
  by eapply store_run.
Qed.

(** [**out = **in] copies a scalar. *)
Lemma assign_copies {T} `{Cell T} : copies (H0 := Readable_cell) T T (assign (T := T)).
Proof.
  intros h i o v s Hr Ho _. simpl in Hr. unfold read_cell in Hr.
  apply bind_Some in Hr as (x&Hx&[= <- <-]).
  exists (<[o := to_cell x]> h), {[o]}. split_and!.
  - by apply assign_run.
  - apply keeps_but_insert.
  - simpl. unfold read_cell. by rewrite peek_insert.
  - set_solver.
Qed.

Section copyPtr.
Context {T U V : Type} `{Cell T} `{Cell U} `{Readable V}.
Context (get : T -> option loc) (set : option loc -> T -> T) (zero : U) (copy : loc -> loc -> ST unit).
Context (set_get : forall t, set (get t) t = t).
Context (Hcopy : copies U V copy).

(** One field of the struct at [o]: the target holds a fresh copy of what the
    source points to. *)
Lemma copyPtr_ok h i o ti to (w : option V) s :
  peek h i = Some ti -> peek h o = Some to -> get to = get ti ->
  read_ptr h (get ti) = Some (w, s) -> o ∉ s ->
  exists h' p s', copyPtr get set zero copy i o h = Some (tt, h') /\ keeps_but o h h' /\
    peek h' o = Some (set p to) /\ read_ptr h' p = Some (w, s') /\ (forall x, x ∈ s' -> x ∉ dom h).
Proof using Type*.
  intros Hi Ho Hget Hr Hos. unfold copyPtr.
  rewrite (ST_bind_Some _ _ _ _ _ (load_run _ _ _ Hi)).
  destruct (get ti) as [p|] eqn:Eg; cbn in Hr.
  2: { exists h, None, ∅. simplify_eq.
       assert (Hto : set None to = to) by (rewrite <- Hget; apply set_get).
       rewrite Hto. split_and!; first [done|reflexivity|set_solver]. }
  apply bind_Some in Hr as ([v g]&Hx&[= <- <-]). set (q := fresh (dom h)).
  assert (Hq : q ∉ dom h) by apply fresh_not_in_dom.
  assert (Hod := peek_dom _ _ _ Ho). assert (Hqo : q <> o) by (by intros ->).
  assert (Hs := read_dom _ _ _ _ Hx).
  unfold mbind at 1, ST_bind at 1, new. fold q. set (h1 := <[q := to_cell zero]> h).
  assert (Ho1 : peek h1 o = Some to).
  { eapply peek_local; [|done]. unfold h1. by rewrite lookup_insert_ne. }
  rewrite (ST_bind_Some _ _ _ _ _ (modify_run _ _ _ (set (Some q)) Ho1)).
  set (h2 := <[o := _]> h1).
  assert (Hk2 : keeps_but o h h2).
  { trans h1; [by apply keeps_but_fresh|apply keeps_but_insert]. }
  assert (Hx2 : read h2 p = Some (v, g)).
  { eapply read_local; [done|]. intros x Hxg. apply Hk2; set_solver. }
  destruct (Hcopy h2 p q v g) as (h3&s3&Hc&Hk3&Hr3&Hs3); [done| |set_solver|].
  { eexists. eapply peek_local, peek_insert. unfold h2, h1. by rewrite lookup_insert_ne. }
  assert (Hd : dom h ⊆ dom h2) by (unfold h2, h1; set_solver).
  exists h3, (Some q), s3. split_and!.
  - exact Hc.
  - intros x Hxd Hne. rewrite Hk3; [by apply Hk2|set_solver|]. by intros ->.
  - eapply peek_local; [apply Hk3; [unfold h2; set_solver|done]|apply peek_insert].
  - simpl. by rewrite Hr3.
  - intros x [->|Hn]%Hs3; set_solver.
Qed.
End copyPtr.

Lemma ST_seq_run {A B} (m : ST A) (k : ST B) h a h1 r :
  m h = Some (a, h1) -> k h1 = r -> (m ;; k) h = r.
Proof. intros Hm Hk. by rewrite (ST_bind_Some _ _ _ _ _ Hm). Qed.

(** A struct with one pointer field. *)
Lemma assign_copyPtr_ok {T U V} `{Cell T} `{Cell U} `{Readable V} get set (zero : U) copy
    h i o (ti : T) (w : option V) s :
  (forall t, set (get t) t = t) -> copies U V copy ->
  peek h i = Some ti -> read_ptr h (get ti) = Some (w, s) ->
  is_Some (peek (T := T) h o) -> i <> o -> o ∉ s ->
  exists h' p s', (assign (T := T) i o ;; copyPtr get set zero copy i o) h = Some (tt, h') /\
    keeps_but o h h' /\ peek h' o = Some (set p ti) /\ read_ptr h' p = Some (w, s') /\
    (forall x, x ∈ s' -> x ∉ dom h).
Proof.
  intros Hlens Hcopy Hi Hr Ho Hne Hos.
  assert (Hk1 := keeps_but_insert o h (to_cell ti)).
  destruct Ho as [to Ho]. assert (Hod := peek_dom _ _ _ Ho).
  destruct (copyPtr_ok get set zero copy Hlens Hcopy (<[o := to_cell ti]> h) i o ti ti w s)
    as (h'&p&s'&Hc&Hk&Hp&Hr'&Hs); [..|done|].
  - eapply peek_local; [|done]. by rewrite lookup_insert_ne.
  - apply peek_insert.
  - done.
  - by eapply keeps_but_read_ptr.
  - exists h', p, s'. split_and!; try done.
    + eapply ST_seq_run; [|exact Hc]. apply assign_run; [done|by eexists].
    + by trans (<[o := to_cell ti]> h).
    + intros x Hx%Hs. set_solver.
Qed.

Lemma ControlPlaneConfig_copies :
  copies memory.ControlPlaneConfig config.ControlPlaneConfig deepcopy.ControlPlaneConfig_DeepCopyInto.
Proof.
  intros h i o v s Hr Ho Hos. cbn in Hr. unfold read_ControlPlaneConfig in Hr.
  apply bind_Some in Hr as (t&Ht&Hr). apply bind_Some in Hr as ([w sw]&Hw&[= <- <-]).
  destruct (assign_copyPtr_ok memory.cp_Replicas set_cp_Replicas 0%Z (assign (T := Z)) h i o t w sw)
    as (h'&p&s'&Hc&Hk&Hp&Hr'&Hs); [by intros []|apply assign_copies|done|done|done|set_solver..|].
  exists h', ({[o]} ∪ s'). split_and!; [done|done| |set_solver].
  cbn. unfold read_ControlPlaneConfig. by rewrite Hp; cbn; rewrite Hr'.
Qed.

Lemma DataPlaneConfig_copies :
  copies memory.DataPlaneConfig config.DataPlaneConfig deepcopy.DataPlaneConfig_DeepCopyInto.
Proof.
  intros h i o v s Hr Ho Hos. cbn in Hr. unfold read_DataPlaneConfig in Hr.
  apply bind_Some in Hr as (t&Ht&Hr). apply bind_Some in Hr as ([w sw]&Hw&[= <- <-]).
  destruct (assign_copyPtr_ok memory.dp_Replicas set_dp_Replicas 0%Z (assign (T := Z)) h i o t w sw)
    as (h'&p&s'&Hc&Hk&Hp&Hr'&Hs); [by intros []|apply assign_copies|done|done|done|set_solver..|].
  exists h', ({[o]} ∪ s'). split_and!; [done|done| |set_solver].
  cbn. unfold read_DataPlaneConfig. by rewrite Hp; cbn; rewrite Hr'.
Qed.

(** One more field of the struct at [o]: [h0] is the memory at the
    start, [h] the present one. *)
Lemma copy_field {T U V} `{Cell T} `{Cell U} `{Readable V} get set (zero : U) copy h0 h i o
    (ti to : T) (w : option V) s :
  (forall t, set (get t) t = t) -> copies U V copy ->
  peek h0 i = Some ti -> read_ptr h0 (get ti) = Some (w, s) -> i <> o -> o ∉ s -> o ∈ dom h0 ->
  keeps_but o h0 h -> peek h o = Some to -> get to = get ti ->
  exists h' p s', copyPtr get set zero copy i o h = Some (tt, h') /\
    keeps_but o h0 h' /\ keeps_but o h h' /\ peek h' o = Some (set p to) /\
    read_ptr h' p = Some (w, s') /\ (forall x, x ∈ s' -> x ∉ dom h0) /\ o ∉ s'.
Proof.
  intros Hlens Hcopy Hi Hr Hne Hos Hod Hk Ho Hget.
  assert (Hi' : peek h i = Some ti).
  { eapply peek_local; [|done]. apply Hk; [by apply (peek_dom _ _ ti)|done]. }
  assert (Hr' := keeps_but_read_ptr _ _ _ _ _ _ Hk Hos Hr).
  destruct (copyPtr_ok get set zero copy Hlens Hcopy h i o ti to w s)
    as (h'&p&s'&Hc&Hk'&Hp&Hrp&Hs); [done..|].
  assert (dom h0 ⊆ dom h) by (eapply keeps_but_dom; [done|by apply (peek_dom _ _ to)]).
  exists h', p, s'. split_and!; try done; [by trans h|set_solver|].
  intros Hin. apply Hs in Hin. apply Hin. by apply (peek_dom _ _ to).
Qed.

(** Copy the next field, and read a field that was copied earlier. *)
Tactic Notation "copy_next" constr(step) "by" constr(ok) "as" ident(h) ident(p) ident(u) :=
  let R := fresh "R" in let K := fresh "K" in let L := fresh "L" in let P := fresh "P" in
  let V := fresh "V" in let F := fresh "F" in let O := fresh "O" in
  destruct step as (h&p&u&R&K&L&P&V&F&O); [by intros []|apply ok|first [done|set_solver]..|].

Ltac read_copied :=
  match goal with
  | K : keeps_but ?o ?h _, V : read_ptr ?h0 ?p = Some (?w, ?u) |- context [read_ptr ?h' ?p] =>
      rewrite (keeps_but_read_ptr o h0 h' p w u)
        by (first [done|by repeat (etrans; [eassumption|])]); cbn
  end.

Section parts.
Context `{DocumentedCoreV1}.

Lemma EnvoyProxyDefaults_copies :
  copies memory.EnvoyProxyDefaults config.EnvoyProxyDefaults deepcopy.EnvoyProxyDefaults_DeepCopyInto.
Proof using Type*.
  intros h i o v s Hr Ho Hos. cbn in Hr. unfold read_EnvoyProxyDefaults in Hr.
  apply bind_Some in Hr as (t&Ht&Hr). apply bind_Some in Hr as ([w sw]&Hw&[= <- <-]).
  destruct (assign_copyPtr_ok memory.epd_Resources set_epd_Resources zeroResourceRequirements
              ResourceRequirements_DeepCopyInto h i o t w sw)
    as (h'&p&s'&Hc&Hk&Hp&Hr'&Hs); [by intros []|apply ResourceRequirements_copies|done|done|done|set_solver..|].
  exists h', ({[o]} ∪ s'). split_and!; [done|done| |set_solver].
  cbn. unfold read_EnvoyProxyDefaults. by rewrite Hp; cbn; rewrite Hr'.
Qed.

Lemma EnvoyGatewayConfig_copies :
  copies memory.EnvoyGatewayConfig config.EnvoyGatewayConfig deepcopy.EnvoyGatewayConfig_DeepCopyInto.
Proof using Type*.
  intros h i o v s Hr Ho Hos. cbn in Hr. unfold read_EnvoyGatewayConfig in Hr.
  apply bind_Some in Hr as (t&Ht&Hr).
  apply bind_Some in Hr as ([cp s1]&H1&Hr). apply bind_Some in Hr as ([dp s2]&H2&Hr).
  apply bind_Some in Hr as ([cr s3]&H3&Hr). apply bind_Some in Hr as ([ep s4]&H4&Hr).
  apply bind_Some in Hr as ([np s5]&H5&[= <- <-]).
  assert (Hod : o ∈ dom h) by (destruct Ho as [x Hx]; by apply (peek_dom _ _ x)).
  assert (Hne : i <> o) by set_solver.
  set (ha := <[o := to_cell t]> h). set (hb := <[o := to_cell (set_TypeMeta (memory.cfg_TypeMeta t) t)]> ha).
  assert (Hk : keeps_but o h hb) by (trans ha; apply keeps_but_insert).
  assert (Hb : peek hb o = Some t).
  { unfold hb. replace (set_TypeMeta (memory.cfg_TypeMeta t) t) with t by (by destruct t). apply peek_insert. }
  copy_next (copy_field memory.cfg_ControlPlane set_ControlPlane zeroControlPlaneConfig
              deepcopy.ControlPlaneConfig_DeepCopyInto h hb i o t t cp s1) by ControlPlaneConfig_copies as h1 p1 u1.
  copy_next (copy_field memory.cfg_DataPlane set_DataPlane zeroDataPlaneConfig
              deepcopy.DataPlaneConfig_DeepCopyInto h h1 i o t (set_ControlPlane p1 t) dp s2) by DataPlaneConfig_copies as h2 p2 u2.
  copy_next (copy_field memory.cfg_ManageCRDs set_ManageCRDs false
              (assign (T := bool)) h h2 i o t (set_DataPlane p2 (set_ControlPlane p1 t)) cr s3) by (assign_copies (T := bool)) as h3 p3 u3.
  copy_next (copy_field memory.cfg_EnvoyProxyDefaults set_EnvoyProxyDefaults zeroEnvoyProxyDefaults
              deepcopy.EnvoyProxyDefaults_DeepCopyInto h h3 i o t
              (set_ManageCRDs p3 (set_DataPlane p2 (set_ControlPlane p1 t))) ep s4) by EnvoyProxyDefaults_copies as h4 p4 u4.
  copy_next (copy_field memory.cfg_ManageDataPlaneNetworkPolicies set_ManageDataPlaneNetworkPolicies false
              (assign (T := bool)) h h4 i o t
              (set_EnvoyProxyDefaults p4 (set_ManageCRDs p3 (set_DataPlane p2 (set_ControlPlane p1 t)))) np s5) by (assign_copies (T := bool)) as h5 p5 u5.
  exists h5, ({[o]} ∪ u1 ∪ u2 ∪ u3 ∪ u4 ∪ u5). split_and!; [|done| |set_solver].
  - unfold deepcopy.EnvoyGatewayConfig_DeepCopyInto.
    eapply ST_seq_run; [by apply assign_run|].
    rewrite (ST_bind_Some _ _ _ t ha); [|apply load_run; eapply peek_local; [|done]; by apply lookup_insert_ne].
    eapply ST_seq_run; [by apply modify_run, peek_insert|].
    repeat (eapply ST_seq_run; [eassumption|]). eassumption.
  - cbn. unfold read_EnvoyGatewayConfig. match goal with P : peek _ o = Some (set_ManageDataPlaneNetworkPolicies _ _) |- _ => rewrite P end.
    cbn. by repeat read_copied.
Qed.
End parts.

(** ** Properties *)

(** What [DeepCopy] promises: nil for nil; otherwise a fresh object that reads the
    same, in memory of its own, so that no later write to one is seen through
    the other. *)
Definition isolates {V} `{Readable V} (copy : option loc -> ST (option loc)) : Prop :=
  forall h p (v : option V) s, read_ptr h p = Some (v, s) ->
    exists h' q s', copy p h = Some (q, h') /\
      read_ptr h' q = Some (v, s') /\ (forall x, x ∈ s' -> x ∉ dom h) /\ keeps h h' /\
      (forall x c, x ∈ s -> read_ptr (<[x := c]> h') q = Some (v, s')) /\
      (forall x c, x ∈ s' -> read_ptr (<[x := c]> h') p = Some (v, s)).

Lemma copyNew_isolates {T V} `{Cell T} `{Readable V} (zero : T) into :
  copies T V into -> isolates (V := V) (copyNew zero into).
Proof.
  intros Hinto h [i|] v s Hr.
  2: { exists h, None, ∅. simpl in Hr. simplify_eq. split_and!; try done; set_solver. }
  assert (Hs := read_ptr_dom _ _ _ _ Hr). cbn in Hr. apply bind_Some in Hr as ([w u]&Hr&[= <- <-]).
  set (o := fresh (dom h)). assert (Ho : o ∉ dom h) by apply fresh_not_in_dom.
  set (h1 := <[o := to_cell zero]> h).
  assert (Hk1 : keeps h h1).
  { intros x Hx. unfold h1. rewrite lookup_insert_ne; [done|]. by intros ->. }
  assert (Hr1 : read h1 i = Some (w, u)).
  { eapply read_local; [done|]. intros x Hx. apply Hk1. set_solver. }
  destruct (Hinto h1 i o w u Hr1) as (h'&s'&Hc&Hk&Hr'&Hs'); [by eexists; apply peek_insert|set_solver|].
  assert (Hd : forall x, x ∈ s' -> x ∉ dom h).
  { intros x [->|Hn]%Hs'; [done|]. unfold h1 in Hn. set_solver. }
  assert (Hkeep : keeps h h').
  { intros x Hx. rewrite Hk, Hk1; [done..|unfold h1; set_solver|]. by intros ->. }
  exists h', (Some o), s'. split_and!; [|cbn; by rewrite Hr'|done|done|..].
  - cbn [copyNew]. unfold mbind at 1, ST_bind at 1, new. fold o h1. by apply (ST_seq_run _ _ _ _ _ _ Hc).
  - intros x c Hx. eapply read_ptr_local; [cbn; by rewrite Hr'|].
    intros y Hy. rewrite lookup_insert_ne; [done|]. intros ->. set_solver.
  - intros x c Hx. eapply read_ptr_local; [cbn; by rewrite Hr1|].
    intros y Hy. rewrite lookup_insert_ne; [apply Hk|]; [unfold h1; set_solver|set_solver|]. intros ->. set_solver.
Qed.

Lemma DeepCopyObject_isolates {V} `{Readable V} (copy : option loc -> ST (option loc)) :
  isolates (V := V) copy ->
  isolates (V := V) (fun p => c ← copy p; match c with Some c => mret (Some c) | None => mret None end).
Proof.
  intros Hcopy h p v s Hr. destruct (Hcopy h p v s Hr) as (h'&q&s'&Hc&Hrest).
  exists h', q, s'. split; [|done]. rewrite (ST_bind_Some _ _ _ _ _ Hc). by destruct q.
Qed.

(** C17: the deep copies generated for both versions of the configuration API
    never touch a nil or dangling pointer, change nothing that exists, and
    return an object with the same content and no memory in common with the
    original: no write to one is seen through the other. *)
Theorem deep_copies_isolate `{DocumentedCoreV1} :
  (isolates (V := config.ControlPlaneConfig) deepcopy.ControlPlaneConfig_DeepCopy /\
   isolates (V := config.DataPlaneConfig) deepcopy.DataPlaneConfig_DeepCopy /\
   isolates (V := config.EnvoyProxyDefaults) deepcopy.EnvoyProxyDefaults_DeepCopy /\
   isolates (V := config.EnvoyGatewayConfig) deepcopy.EnvoyGatewayConfig_DeepCopy /\
   isolates (V := config.EnvoyGatewayConfig) deepcopy.EnvoyGatewayConfig_DeepCopyObject) /\
  (isolates (V := config.ControlPlaneConfig) v1alpha1_deepcopy.ControlPlaneConfig_DeepCopy /\
   isolates (V := config.DataPlaneConfig) v1alpha1_deepcopy.DataPlaneConfig_DeepCopy /\
   isolates (V := config.EnvoyProxyDefaults) v1alpha1_deepcopy.EnvoyProxyDefaults_DeepCopy /\
   isolates (V := config.EnvoyGatewayConfig) v1alpha1_deepcopy.EnvoyGatewayConfig_DeepCopy /\
   isolates (V := config.EnvoyGatewayConfig) v1alpha1_deepcopy.EnvoyGatewayConfig_DeepCopyObject).
Proof.
  assert (Hcp := copyNew_isolates zeroControlPlaneConfig _ ControlPlaneConfig_copies).
  assert (Hdp := copyNew_isolates zeroDataPlaneConfig _ DataPlaneConfig_copies).
  assert (Hep := copyNew_isolates zeroEnvoyProxyDefaults _ EnvoyProxyDefaults_copies).
  assert (Heg := copyNew_isolates zeroEnvoyGatewayConfig _ EnvoyGatewayConfig_copies).
  assert (Hob := DeepCopyObject_isolates _ Heg). done.
Qed.

(** ** A concrete memory *)

Definition set_rr_Requests p (c : memory.ResourceRequirements) :=
  memory.mkResourceRequirements p (memory.rr_Limits c).
Definition set_rr_Limits p (c : memory.ResourceRequirements) :=
  memory.mkResourceRequirements (memory.rr_Requests c) p.

(** A copy of ResourceRequirements that behaves as documented. *)
Definition copyResources : CoreV1 := fun in_ out =>
  assign (T := memory.ResourceRequirements) in_ out ;;
  copyPtr memory.rr_Requests set_rr_Requests ([] : list (string * string))
    (assign (T := list (string * string))) in_ out ;;
  copyPtr memory.rr_Limits set_rr_Limits ([] : list (string * string))
    (assign (T := list (string * string))) in_ out.

Lemma copyResources_documented : DocumentedCoreV1 (H := copyResources).
Proof.
  intros h i o v s Hr [to Ho] Hos. cbn in Hr. unfold read_ResourceRequirements in Hr.
  apply bind_Some in Hr as (t&Ht&Hr). apply bind_Some in Hr as ([a s1]&H1&Hr).
  apply bind_Some in Hr as ([b s2]&H2&[= <- <-]).
  assert (Hod : o ∈ dom h) by apply (peek_dom _ _ to Ho).
  assert (Hne : i <> o) by set_solver.
  set (ha := <[o := to_cell t]> h).
  assert (Hk : keeps_but o h ha) by apply keeps_but_insert.
  assert (Hp : peek ha o = Some t) by apply peek_insert.
  copy_next (copy_field memory.rr_Requests set_rr_Requests ([] : list (string * string))
              (assign (T := list (string * string))) h ha i o t t a s1)
    by (assign_copies (T := list (string * string))) as h1 p1 u1.
  copy_next (copy_field memory.rr_Limits set_rr_Limits ([] : list (string * string))
              (assign (T := list (string * string))) h h1 i o t (set_rr_Requests p1 t) b s2)
    by (assign_copies (T := list (string * string))) as h2 p2 u2.
  exists h2, ({[o]} ∪ u1 ∪ u2). split_and!; [|done| |set_solver].
  - unfold ResourceRequirements_DeepCopyInto, copyResources.
    eapply ST_seq_run; [by apply assign_run|].
    repeat (eapply ST_seq_run; [eassumption|]). eassumption.
  - cbn. unfold read_ResourceRequirements.
    match goal with P : peek _ o = Some (set_rr_Limits _ _) |- _ => rewrite P end.
    cbn. by repeat read_copied.
Qed.

Lemma deep_copies_isolate_witness :
  isolates (V := config.EnvoyGatewayConfig) (deepcopy.EnvoyGatewayConfig_DeepCopyObject (H := copyResources)).
Proof. apply (deep_copies_isolate (H := copyResources) (H0 := copyResources_documented)). Defined.
