(* ===== verification/MemoryProps.v ===== *)
(** * Conversions and defaults in memory

    The registered conversions share what the deep copies copy.  Objects are
    separated by the types of their cells, so the defaults of one part leave the
    others alone. *)

From S2P Require Import Prelude KubeObjects Constants Config GoHeap DeepCopy DeepCopyProps.
From stdpp Require Import gmap.

(** ** Conversions share *)

Lemma assignField_run {T A} `{Cell T} (get : T -> A) set h i o ti to :
  peek h i = Some ti -> peek h o = Some to ->
  assignField get set i o h = Some (tt, <[o := to_cell (set (get ti) to)]> h).
Proof.
  intros Hi Ho. unfold assignField. rewrite (ST_bind_Some _ _ _ _ _ (load_run _ _ _ Hi)).
  by apply modify_run.
Qed.

(** The v1alpha1 view of an object: the types have one layout. *)
Definition as_v1alpha1 (c : config.EnvoyGatewayConfig) : v1alpha1.EnvoyGatewayConfig :=
  Convert_config_EnvoyGatewayConfig_To_v1alpha1_EnvoyGatewayConfig c
    (v1alpha1.mkEnvoyGatewayConfig (config.cfg_TypeMeta c) None None "" None None None).

Definition read_v1alpha1 (h : heap) (l : loc) : option (v1alpha1.EnvoyGatewayConfig * gset loc) :=
  '(c, s) ← read h l; Some (as_v1alpha1 c, s).

(** What [Convert_*_EnvoyGatewayConfig_*] leaves in [out]. *)
Definition converted (ti to : memory.EnvoyGatewayConfig) : memory.EnvoyGatewayConfig :=
  set_TypeMeta (memory.cfg_TypeMeta to) ti.

Lemma Convert_EnvoyGatewayConfig_run h i o ti to :
  peek h i = Some ti -> peek h o = Some to -> i <> o ->
  exists h', inmemory.Convert_v1alpha1_EnvoyGatewayConfig_To_config_EnvoyGatewayConfig i o h = Some (tt, h') /\
    keeps_but o h h' /\ peek h' o = Some (converted ti to).
Proof.
  intros Hi Ho Hne.
  assert (Hstep : forall A (get : memory.EnvoyGatewayConfig -> A) set h0 t0,
            keeps_but o h h0 -> peek h0 o = Some t0 ->
            exists h1, assignField get set i o h0 = Some (tt, h1) /\ keeps_but o h h1 /\
              peek h1 o = Some (set (get ti) t0)).
  { intros A get set h0 t0 Hk H0. eexists. split; [|split; [|apply peek_insert]].
    - apply assignField_run; [|done]. eapply peek_local; [|done].
      apply Hk; [by apply (peek_dom _ _ ti)|done].
    - etrans; [done|]. apply keeps_but_insert. }
  destruct (Hstep _ memory.cfg_ControlPlane set_ControlPlane h to) as (h1&R1&K1&P1); [done..|].
  destruct (Hstep _ memory.cfg_DataPlane set_DataPlane h1 _ K1 P1) as (h2&R2&K2&P2).
  destruct (Hstep _ memory.cfg_Channel set_Channel h2 _ K2 P2) as (h3&R3&K3&P3).
  destruct (Hstep _ memory.cfg_ManageCRDs set_ManageCRDs h3 _ K3 P3) as (h4&R4&K4&P4).
  destruct (Hstep _ memory.cfg_EnvoyProxyDefaults set_EnvoyProxyDefaults h4 _ K4 P4) as (h5&R5&K5&P5).
  destruct (Hstep _ memory.cfg_ManageDataPlaneNetworkPolicies set_ManageDataPlaneNetworkPolicies h5 _ K5 P5)
    as (h6&R6&K6&P6).
  exists h6. split; [|done].
  unfold inmemory.Convert_v1alpha1_EnvoyGatewayConfig_To_config_EnvoyGatewayConfig.
  repeat (eapply ST_seq_run; [eassumption|]). done.
Qed.

(** ** Separation by type *)

(** The cells an object of type [V] is made of. *)
Class Typed (V : Type) `{Readable V} := {
  fits : cell -> bool;
  read_fits h l (v : V) s x : read h l = Some (v, s) -> x ∈ s -> exists c, h !! x = Some c /\ fits c = true;
}.

Lemma read_ptr_fits {V} `{Typed V} h p (v : option V) s x :
  read_ptr h p = Some (v, s) -> x ∈ s -> exists c, h !! x = Some c /\ fits c = true.
Proof.
  destruct p as [l|]; simpl; [|intros [= <- <-]; set_solver].
  rewrite bind_Some. intros ([w t]&Hr&[= <- <-]). by eapply read_fits.
Qed.

(** A cell of another type lies outside the object. *)
Lemma fits_avoids {V U} `{Typed V} `{Cell U} h p (v : option V) s l (y : U) :
  read_ptr h p = Some (v, s) -> peek h l = Some y -> fits (to_cell y) = false -> l ∉ s.
Proof.
  intros Hr Hl Hf Hin. destruct (read_ptr_fits _ _ _ _ _ Hr Hin) as (c&Hc&Hfc).
  apply peek_lookup in Hl. congruence.
Qed.

#[refine] Instance Typed_cell {T} `{Cell T} (f : cell -> bool) (Hf : forall x : T, f (to_cell x) = true) :
  Typed T (H := Readable_cell) := {| fits := f; read_fits := _ |}.
Proof.
  intros h l v s x. simpl. unfold read_cell. intros Hr Hx.
  apply bind_Some in Hr as (y&Hy&[= <- <-]). apply peek_lookup in Hy.
  exists (to_cell y). set_solver.
Defined.

Ltac solve_typed f :=
  intros h l v s x Hr Hx; cbn in Hr; unfold f in Hr; read_inv Hr;
  rewrite ?elem_of_union, ?elem_of_singleton in Hx;
  repeat match goal with
         | Hp : peek _ _ = Some _ |- _ => apply peek_lookup in Hp
         end;
  destruct_or?; subst;
  first [eexists; split; [eassumption|reflexivity]
        |match goal with
         | Hp : read_ptr _ _ = Some (_, ?g), Hg : _ ∈ ?g |- _ =>
             destruct (read_ptr_fits _ _ _ _ _ Hp Hg) as (c&Hc&Hf); exists c; split; [done|by destruct c]
         end].

#[export] Instance Typed_int32 : Typed Z :=
  Typed_cell (T := Z) (fun c => match c with CInt32 _ => true | _ => false end) (fun _ => eq_refl).
#[export] Instance Typed_bool : Typed bool :=
  Typed_cell (T := bool) (fun c => match c with CBool _ => true | _ => false end) (fun _ => eq_refl).
#[export] Instance Typed_ResourceList : Typed (list (string * string)) :=
  Typed_cell (T := (list (string * string))) (fun c => match c with CResourceList _ => true | _ => false end) (fun _ => eq_refl).

#[export, refine] Instance Typed_ControlPlaneConfig : Typed config.ControlPlaneConfig :=
  {| fits c := match c with CControlPlaneConfig _ | CInt32 _ => true | _ => false end; read_fits := _ |}.
Proof. solve_typed read_ControlPlaneConfig. Defined.

#[export, refine] Instance Typed_DataPlaneConfig : Typed config.DataPlaneConfig :=
  {| fits c := match c with CDataPlaneConfig _ | CInt32 _ => true | _ => false end; read_fits := _ |}.
Proof. solve_typed read_DataPlaneConfig. Defined.

#[export, refine] Instance Typed_ResourceRequirements : Typed ResourceRequirements :=
  {| fits c := match c with CResourceRequirements _ | CResourceList _ => true | _ => false end;
     read_fits := _ |}.
Proof. solve_typed read_ResourceRequirements. Defined.

#[export, refine] Instance Typed_EnvoyProxyDefaults : Typed config.EnvoyProxyDefaults :=
  {| fits c := match c with
               | CEnvoyProxyDefaults _ | CResourceRequirements _ | CResourceList _ => true
               | _ => false
               end; read_fits := _ |}.
Proof. solve_typed read_EnvoyProxyDefaults. Defined.

(** ** Defaults in memory *)

(** [act], run on an object at [l] whose value satisfies [P], has the effect [R]
    on the value: it changes only cells of the object and adds only fresh ones. *)
Definition updates {V} `{Readable V} (P : V -> Prop) (R : V -> V) (act : loc -> ST unit) : Prop :=
  forall h l v s, read h l = Some (v, s) -> P v ->
    exists h' s', act l h = Some (tt, h') /\ read h' l = Some (R v, s') /\
      (forall x, x ∈ dom h -> x ∉ s -> h' !! x = h !! x) /\
      (forall x, x ∈ s' -> x ∈ s \/ x ∉ dom h).

Lemma updates_seq {V} `{Readable V} (P1 P2 : V -> Prop) (R1 R2 : V -> V) act1 act2 :
  updates P1 R1 act1 -> updates P2 R2 act2 -> (forall v, P1 v -> P2 (R1 v)) ->
  updates P1 (fun v => R2 (R1 v)) (fun l => act1 l ;; act2 l).
Proof.
  intros H1 H2 HP h l v s Hr Hv. destruct (H1 _ _ _ _ Hr Hv) as (h1&s1&R&Hr1&K1&S1).
  destruct (H2 _ _ _ _ Hr1 (HP _ Hv)) as (h2&s2&R'&Hr2&K2&S2).
  assert (Hd : forall x, x ∈ dom h -> x ∉ s -> x ∈ dom h1).
  { intros x Hx Hs. rewrite elem_of_dom, K1 by done. by apply elem_of_dom. }
  exists h2, s2. split_and!; [by eapply ST_seq_run|done|..].
  - intros x Hx Hs. rewrite K2, K1; [done..|by apply Hd|]. intros [|]%S1; done.
  - intros x Hx. destruct (decide (x ∈ s)) as [|Hs]; [by left|right]. intros Hd'.
    destruct (S2 _ Hx) as [[|]%S1|Hn]; [done..|]. by apply Hn, Hd.
Qed.

(** Only the struct at [l] changes, or a cell is added. *)
Lemma keeps_but_updates {V} `{Readable V} h h' l (v : V) s :
  read h l = Some (v, s) -> keeps_but l h h' -> forall x, x ∈ dom h -> x ∉ s -> h' !! x = h !! x.
Proof. intros Hr Hk x Hx Hs. apply Hk; [done|]. intros ->. by apply Hs, (read_root _ _ _ _ Hr). Qed.

(** [defaultPtr] on a struct: nothing, or a fresh cell and one changed field. *)
Lemma defaultPtr_run {T U} `{Cell T} `{Cell U} get set (x : U) h l (t : T) :
  peek h l = Some t -> (forall t, set (get t) t = t) ->
  exists h' q, inmemory.defaultPtr get set x l h = Some (tt, h') /\ keeps_but l h h' /\
    peek h' l = Some (set (Some q) t) /\
    match get t with Some p => q = p | None => q ∉ dom h /\ peek h' q = Some x end.
Proof.
  intros Ht Hlens. unfold inmemory.defaultPtr. rewrite (ST_bind_Some _ _ _ _ _ (load_run _ _ _ Ht)).
  destruct (get t) as [p|] eqn:E.
  - exists h, p. rewrite <- E, Hlens. by split_and!.
  - set (q := fresh (dom h)). assert (Hq : q ∉ dom h) by apply fresh_not_in_dom.
    assert (Hl := peek_dom _ _ _ Ht).
    set (h1 := <[q := to_cell x]> h).
    assert (Ht1 : peek h1 l = Some t).
    { eapply peek_local; [|done]. unfold h1. rewrite lookup_insert_ne; [done|]. by intros ->. }
    exists (<[l := to_cell (set (Some q) t)]> h1), q. split_and!; [| |apply peek_insert|done|].
    + unfold mbind, ST_bind, new. fold q h1. by rewrite (modify_run _ _ _ _ Ht1).
    + trans h1; [by apply keeps_but_fresh|apply keeps_but_insert].
    + eapply peek_local, peek_insert. rewrite lookup_insert_ne; [done|]. by intros ->.
Qed.

Lemma defaultString_run {T} `{Cell T} (get : T -> string) set x h l t :
  peek h l = Some t -> (forall t, set (get t) t = t) ->
  exists h', inmemory.defaultString get set x l h = Some (tt, h') /\ keeps_but l h h' /\
    peek h' l = Some (set (if decide (get t = "") then x else get t) t).
Proof.
  intros Ht Hlens. unfold inmemory.defaultString.
  rewrite (ST_bind_Some _ _ _ _ _ (load_run _ _ _ Ht)). case_decide as E.
  - eexists. split; [by apply modify_run|]. split; [apply keeps_but_insert|apply peek_insert].
  - exists h. by rewrite Hlens.
Qed.

(** The values read through a defaulted pointer: [x] is what the fresh cell
    holds, and [y] how it reads. *)
Lemma read_defaulted {U V} `{Cell U} `{Readable V} h h' l p q (x : U) (y : V) (w : option V) s :
  (forall h l, peek h l = Some x -> read h l = Some (y, {[ l ]})) ->
  keeps_but l h h' -> l ∉ s -> read_ptr h p = Some (w, s) ->
  match p with Some p => q = p | None => q ∉ dom h /\ peek h' q = Some x end ->
  exists s', read_ptr h' (Some q) = Some (Some (default y w), s') /\
    (forall z, z ∈ s' -> z ∈ s \/ z ∉ dom h).
Proof.
  intros Hread Hk Hl Hr Hq. destruct p as [p|].
  - subst q. exists s. split; [|by left].
    assert (exists w', w = Some w') as [w' ->].
    { simpl in Hr. apply bind_Some in Hr as ([? ?]&_&[= <- _]). eauto. }
    by eapply keeps_but_read_ptr.
  - destruct Hq as [Hq Hx]. simpl in Hr. simplify_eq. exists {[q]}. simpl.
    rewrite (Hread _ _ Hx). split; [done|]. set_solver.
Qed.

Lemma read_scalar {T} `{Cell T} (x : T) (h : heap) l :
  peek h l = Some x -> read (Readable := Readable_cell) h l = Some (x, {[ l ]}).
Proof. intros Hp. simpl. unfold read_cell. by rewrite Hp. Qed.

(** A defaulted pointer stays what it is while only the struct changes. *)
Lemma defaulted_later {U} `{Cell U} (h0 h h1 h2 : heap) l (p : option loc) q (x : U) :
  match p with Some p => q = p | None => q ∉ dom h /\ peek h1 q = Some x end ->
  keeps_but l h0 h -> keeps_but l h1 h2 -> l ∈ dom h ->
  match p with Some p => q = p | None => q ∉ dom h0 /\ peek h2 q = Some x end.
Proof.
  destruct p; [done|]. intros [Hq Hp] Hk0 Hk Hl. split.
  - intros Hin. apply Hq. by apply (keeps_but_dom l h0).
  - eapply peek_local; [|done]. apply Hk; [by apply (peek_dom _ _ x)|]. by intros ->.
Qed.

(** The defaults of the two parts, on their values. *)
Definition defaultControlPlaneConfig (c : config.ControlPlaneConfig) : config.ControlPlaneConfig :=
  Convert_v1alpha1_ControlPlaneConfig_To_config_ControlPlaneConfig
    (v1alpha1.SetDefaults_ControlPlaneConfig
       (Convert_config_ControlPlaneConfig_To_v1alpha1_ControlPlaneConfig c)).
Definition defaultDataPlaneConfig (c : config.DataPlaneConfig) : config.DataPlaneConfig :=
  Convert_v1alpha1_DataPlaneConfig_To_config_DataPlaneConfig
    (v1alpha1.SetDefaults_DataPlaneConfig
       (Convert_config_DataPlaneConfig_To_v1alpha1_DataPlaneConfig c)).

(** The replicas, then the log level, of the struct at [l]. *)
Lemma replicas_level_run {T} `{Cell T} get set (getl : T -> string) setl h l t (w : option Z) u :
  (forall t, set (get t) t = t) -> (forall t, setl (getl t) t = t) ->
  peek h l = Some t -> read_ptr h (get t) = Some (w, u) -> l ∉ u ->
  exists h' q u',
    (inmemory.defaultPtr get set 2%Z l ;; inmemory.defaultString getl setl LogLevelInfo l) h = Some (tt, h') /\
    keeps_but l h h' /\
    (let t := set (Some q) t in
     peek h' l = Some (setl (if decide (getl t = "") then LogLevelInfo else getl t) t)) /\
    read_ptr h' (Some q) = Some (Some (default 2%Z w), u') /\
    (forall x, x ∈ {[l]} ∪ u' -> x ∈ {[l]} ∪ u \/ x ∉ dom h).
Proof.
  intros Hlens Hlensl Ht Hw Hl.
  destruct (defaultPtr_run get set 2%Z h l t Ht Hlens) as (h1&q&R1&K1&P1&Q1).
  destruct (defaultString_run getl setl LogLevelInfo h1 l _ P1 Hlensl) as (h2&R2&K2&P2).
  assert (K : keeps_but l h h2) by (by trans h1).
  destruct (read_defaulted h h2 l (get t) q 2%Z 2%Z w u) as (u'&Hu&Hs); try done.
  { apply read_scalar. }
  { eapply defaulted_later; [exact Q1|done|done|by apply (peek_dom _ _ t)]. }
  exists h2, q, u'. split_and!; [by eapply ST_seq_run|done..|set_solver].
Qed.

Lemma SetDefaults_ControlPlaneConfig_run h l v s :
  read h l = Some (v, s) ->
  exists h' s', inmemory.SetDefaults_ControlPlaneConfig l h = Some (tt, h') /\
    read h' l = Some (defaultControlPlaneConfig v, s') /\ keeps_but l h h' /\
    (forall x, x ∈ s' -> x ∈ s \/ x ∉ dom h).
Proof.
  intros Hr. cbn in Hr. unfold read_ControlPlaneConfig in Hr.
  apply bind_Some in Hr as (t&Ht&Hr). apply bind_Some in Hr as ([w u]&Hw&[= <- <-]).
  destruct (replicas_level_run memory.cp_Replicas set_cp_Replicas memory.cp_LogLevel
    (fun l c => memory.mkControlPlaneConfig (memory.cp_Replicas c) l) h l t w u)
    as (h'&q&u'&R&K&P&Hu&Hs); [by intros []|by intros []|done..|by apply (fits_avoids _ _ _ _ _ t Hw Ht)|].
  exists h', ({[l]} ∪ u'). split_and!; [done| |done|done].
  cbn [read Readable_ControlPlaneConfig]. unfold read_ControlPlaneConfig. rewrite P. cbn.
  cbn in Hu. rewrite Hu. cbn. by destruct w, t.
Qed.

Lemma SetDefaults_DataPlaneConfig_run h l v s :
  read h l = Some (v, s) ->
  exists h' s', inmemory.SetDefaults_DataPlaneConfig l h = Some (tt, h') /\
    read h' l = Some (defaultDataPlaneConfig v, s') /\ keeps_but l h h' /\
    (forall x, x ∈ s' -> x ∈ s \/ x ∉ dom h).
Proof.
  intros Hr. cbn in Hr. unfold read_DataPlaneConfig in Hr.
  apply bind_Some in Hr as (t&Ht&Hr). apply bind_Some in Hr as ([w u]&Hw&[= <- <-]).
  destruct (replicas_level_run memory.dp_Replicas set_dp_Replicas memory.dp_LogLevel
    (fun l c => memory.mkDataPlaneConfig (memory.dp_Replicas c) l) h l t w u)
    as (h'&q&u'&R&K&P&Hu&Hs); [by intros []|by intros []|done..|by apply (fits_avoids _ _ _ _ _ t Hw Ht)|].
  exists h', ({[l]} ∪ u'). split_and!; [done| |done|done].
  cbn [read Readable_DataPlaneConfig]. unfold read_DataPlaneConfig. rewrite P. cbn.
  cbn in Hu. rewrite Hu. cbn. by destruct w, t.
Qed.

(** *** The whole configuration *)

(** The parts of an EnvoyGatewayConfig in memory. *)
Lemma read_EnvoyGatewayConfig_inv h l v s :
  read (V := config.EnvoyGatewayConfig) h l = Some (v, s) ->
  exists t s1 s2 s3 s4 s5,
    peek h l = Some t /\
    read_ptr h (memory.cfg_ControlPlane t) = Some (config.cfg_ControlPlane v, s1) /\
    read_ptr h (memory.cfg_DataPlane t) = Some (config.cfg_DataPlane v, s2) /\
    read_ptr h (memory.cfg_ManageCRDs t) = Some (config.cfg_ManageCRDs v, s3) /\
    read_ptr h (memory.cfg_EnvoyProxyDefaults t) = Some (config.cfg_EnvoyProxyDefaults v, s4) /\
    read_ptr h (memory.cfg_ManageDataPlaneNetworkPolicies t) =
      Some (config.cfg_ManageDataPlaneNetworkPolicies v, s5) /\
    config.cfg_TypeMeta v = memory.cfg_TypeMeta t /\ config.cfg_Channel v = memory.cfg_Channel t /\
    s = {[l]} ∪ s1 ∪ s2 ∪ s3 ∪ s4 ∪ s5 /\
    (l ∉ s1 /\ l ∉ s2 /\ l ∉ s3 /\ l ∉ s4 /\ l ∉ s5).
Proof.
  intros Hr. cbn in Hr. unfold read_EnvoyGatewayConfig in Hr.
  apply bind_Some in Hr as (t&Ht&Hr).
  apply bind_Some in Hr as ([cp s1]&H1&Hr). apply bind_Some in Hr as ([dp s2]&H2&Hr).
  apply bind_Some in Hr as ([cr s3]&H3&Hr). apply bind_Some in Hr as ([ep s4]&H4&Hr).
  apply bind_Some in Hr as ([np s5]&H5&[= <- <-]).
  exists t, s1, s2, s3, s4, s5.
  split_and!; try done;
    match goal with H : read_ptr _ _ = Some (_, ?s) |- _ ∉ ?s => by apply (fits_avoids _ _ _ _ _ t H Ht) end.
Qed.

Lemma read_EnvoyGatewayConfig_intro h l t cp dp cr ep np s1 s2 s3 s4 s5 :
  peek h l = Some t ->
  read_ptr h (memory.cfg_ControlPlane t) = Some (cp, s1) ->
  read_ptr h (memory.cfg_DataPlane t) = Some (dp, s2) ->
  read_ptr h (memory.cfg_ManageCRDs t) = Some (cr, s3) ->
  read_ptr h (memory.cfg_EnvoyProxyDefaults t) = Some (ep, s4) ->
  read_ptr h (memory.cfg_ManageDataPlaneNetworkPolicies t) = Some (np, s5) ->
  read h l = Some (config.mkEnvoyGatewayConfig (memory.cfg_TypeMeta t) cp dp (memory.cfg_Channel t) cr ep np,
                   {[l]} ∪ s1 ∪ s2 ∪ s3 ∪ s4 ∪ s5).
Proof. intros Ht H1 H2 H3 H4 H5. cbn. unfold read_EnvoyGatewayConfig. by rewrite Ht; cbn; rewrite H1, H2, H3, H4, H5. Qed.

(** SetDefaults_EnvoyGatewayConfig, on values. *)
Definition defaultTop (v : config.EnvoyGatewayConfig) : config.EnvoyGatewayConfig :=
  config.mkEnvoyGatewayConfig (config.cfg_TypeMeta v)
    (Some (default (config.mkControlPlaneConfig None "") (config.cfg_ControlPlane v)))
    (Some (default (config.mkDataPlaneConfig None "") (config.cfg_DataPlane v)))
    (if decide (config.cfg_Channel v = "") then ChannelStandard else config.cfg_Channel v)
    (Some (default true (config.cfg_ManageCRDs v)))
    (config.cfg_EnvoyProxyDefaults v) (config.cfg_ManageDataPlaneNetworkPolicies v).

Lemma read_zeroControlPlaneConfig h l :
  peek h l = Some zeroControlPlaneConfig -> read h l = Some (config.mkControlPlaneConfig None "", {[ l ]}).
Proof.
  intros Hp. cbn [read Readable_ControlPlaneConfig]. unfold read_ControlPlaneConfig. rewrite Hp. cbn.
  by rewrite union_empty_r_L.
Qed.

Lemma read_zeroDataPlaneConfig h l :
  peek h l = Some zeroDataPlaneConfig -> read h l = Some (config.mkDataPlaneConfig None "", {[ l ]}).
Proof.
  intros Hp. cbn [read Readable_DataPlaneConfig]. unfold read_DataPlaneConfig. rewrite Hp. cbn.
  by rewrite union_empty_r_L.
Qed.

Lemma SetDefaults_EnvoyGatewayConfig_run h l v s :
  read h l = Some (v, s) ->
  exists h' s', inmemory.SetDefaults_EnvoyGatewayConfig l h = Some (tt, h') /\
    read h' l = Some (defaultTop v, s') /\ keeps_but l h h' /\ (forall x, x ∈ s' -> x ∈ s \/ x ∉ dom h).
Proof.
  intros Hr. apply read_EnvoyGatewayConfig_inv in Hr
    as (t&s1&s2&s3&s4&s5&Ht&H1&H2&H3&H4&H5&Htm&Hch&->&L1&L2&L3&L4&L5).
  destruct (defaultString_run memory.cfg_Channel set_Channel ChannelStandard h l t Ht)
    as (h1&R1&K1&P1); [by intros []|].
  destruct (defaultPtr_run memory.cfg_ManageCRDs set_ManageCRDs true h1 l _ P1)
    as (h2&q2&R2&K2&P2&Q2); [by intros []|].
  destruct (defaultPtr_run memory.cfg_ControlPlane set_ControlPlane zeroControlPlaneConfig h2 l _ P2)
    as (h3&q3&R3&K3&P3&Q3); [by intros []|].
  destruct (defaultPtr_run memory.cfg_DataPlane set_DataPlane zeroDataPlaneConfig h3 l _ P3)
    as (h4&q4&R4&K4&P4&Q4); [by intros []|].
  assert (K12 : keeps_but l h h2) by (by trans h1).
  assert (K13 : keeps_but l h h3) by (by trans h2).
  assert (K : keeps_but l h h4) by (by trans h3).
  assert (K24 : keeps_but l h2 h4) by (by trans h3).
  apply (defaulted_later h h1 h2 h4 l) in Q2; [|done|done|by apply (peek_dom _ _ _ P1)].
  apply (defaulted_later h h2 h3 h4 l) in Q3; [|done|done|by apply (peek_dom _ _ _ P2)].
  apply (defaulted_later h h3 h4 h4 l) in Q4; [|done|done|by apply (peek_dom _ _ _ P3)].
  destruct (read_defaulted h h4 l _ q2 true true _ s3 (read_scalar true) K L3 H3 Q2) as (u3&U3&S3).
  destruct (read_defaulted h h4 l _ q3 zeroControlPlaneConfig (config.mkControlPlaneConfig None "") _ s1 read_zeroControlPlaneConfig K L1 H1 Q3) as (u1&U1&S1).
  destruct (read_defaulted h h4 l _ q4 zeroDataPlaneConfig (config.mkDataPlaneConfig None "") _ s2 read_zeroDataPlaneConfig K L2 H2 Q4) as (u2&U2&S2).
  eexists h4, _. split_and!.
  - repeat (eapply ST_seq_run; [eassumption|]). done.
  - unfold defaultTop. rewrite Htm, Hch.
    eapply (read_EnvoyGatewayConfig_intro h4 l _ _ _ _ _ _ u1 u2 u3 s4 s5 P4); [done..| |];
      by apply (keeps_but_read_ptr l h h4).
  - done.
  - intros x. rewrite !elem_of_union. specialize (S1 x). specialize (S2 x). specialize (S3 x). tauto.
Qed.

(** A default applied to the part a pointer refers to. *)
Lemma nested_run {U V} `{Cell U} `{Typed V} (get : memory.EnvoyGatewayConfig -> option loc)
    (act : loc -> ST unit) (R : V -> V) h l t p (y : U) w u :
  (forall h l v s, read h l = Some (v, s) -> exists h' s', act l h = Some (tt, h') /\
     read h' l = Some (R v, s') /\ keeps_but l h h' /\ (forall x, x ∈ s' -> x ∈ s \/ x ∉ dom h)) ->
  peek h l = Some t -> get t = Some p -> read_ptr h (get t) = Some (Some w, u) ->
  (forall x : memory.EnvoyGatewayConfig, fits (V := V) (to_cell x) = false) ->
  exists h' u',
    (i ← load (T := memory.EnvoyGatewayConfig) l;
     match get i with Some p => act p | None => mret tt end) h = Some (tt, h') /\
    keeps_but p h h' /\ p ∈ u /\ peek h' l = Some t /\ read_ptr h' (get t) = Some (Some (R w), u') /\
    (forall x, x ∈ u' -> x ∈ u \/ x ∉ dom h).
Proof.
  intros Hact Ht Hp Hr Hf. assert (Hl := fits_avoids _ _ _ _ _ _ Hr Ht (Hf t)).
  rewrite Hp in *. cbn in Hr. apply bind_Some in Hr as ([w' u']&Hr&[= -> ->]).
  destruct (Hact _ _ _ _ Hr) as (h'&s'&Hrun&Hr'&Hk&Hs).
  assert (Hpu := read_root _ _ _ _ Hr). exists h', s'. split_and!; try done.
  - rewrite (ST_bind_Some _ _ _ _ _ (load_run _ _ _ Ht)). by rewrite Hp.
  - eapply peek_local; [|done]. apply Hk; [by apply (peek_dom _ _ t)|]. by intros ->.
  - cbn. by rewrite Hr'.
Qed.

(** The value of a configuration whose parts were defaulted. *)
Definition withControlPlane c (v : config.EnvoyGatewayConfig) :=
  config.mkEnvoyGatewayConfig (config.cfg_TypeMeta v) (Some c) (config.cfg_DataPlane v)
    (config.cfg_Channel v) (config.cfg_ManageCRDs v) (config.cfg_EnvoyProxyDefaults v)
    (config.cfg_ManageDataPlaneNetworkPolicies v).
Definition withDataPlane c (v : config.EnvoyGatewayConfig) :=
  config.mkEnvoyGatewayConfig (config.cfg_TypeMeta v) (config.cfg_ControlPlane v) (Some c)
    (config.cfg_Channel v) (config.cfg_ManageCRDs v) (config.cfg_EnvoyProxyDefaults v)
    (config.cfg_ManageDataPlaneNetworkPolicies v).

(** What lies at the root of a part. *)
Lemma read_ControlPlaneConfig_root h p (c : config.ControlPlaneConfig) u :
  read h p = Some (c, u) -> exists t : memory.ControlPlaneConfig, peek h p = Some t.
Proof. cbn. intros (t&Ht&_)%bind_Some. by exists t. Qed.

Lemma read_DataPlaneConfig_root h p (c : config.DataPlaneConfig) u :
  read h p = Some (c, u) -> exists t : memory.DataPlaneConfig, peek h p = Some t.
Proof. cbn. intros (t&Ht&_)%bind_Some. by exists t. Qed.

Lemma nested_ControlPlane :
  updates (fun v => is_Some (config.cfg_ControlPlane v))
    (fun v => withControlPlane (default (config.mkControlPlaneConfig None "")
                                  (defaultControlPlaneConfig <$> config.cfg_ControlPlane v)) v)
    (fun l => i ← load (T := memory.EnvoyGatewayConfig) l;
              match memory.cfg_ControlPlane i with
              | Some p => inmemory.SetDefaults_ControlPlaneConfig p
              | None => mret tt
              end).
Proof.
  intros h l v s Hr [c Hc]. apply read_EnvoyGatewayConfig_inv in Hr
    as (t&s1&s2&s3&s4&s5&Ht&H1&H2&H3&H4&H5&Htm&Hch&->&L1&L2&L3&L4&L5).
  rewrite Hc in H1 |- *. destruct (memory.cfg_ControlPlane t) as [p|] eqn:Ep; [|done].
  cbn in H1. apply bind_Some in H1 as ([c' u]&Hp&[= -> ->]).
  destruct (read_ControlPlaneConfig_root _ _ _ _ Hp) as [cp Hcp].
  destruct (nested_run memory.cfg_ControlPlane inmemory.SetDefaults_ControlPlaneConfig
              defaultControlPlaneConfig h l t p cp c s1)
    as (h'&u'&R&K&Hpu&Ht'&Hr'&Hs);
    [apply SetDefaults_ControlPlaneConfig_run|done|done|by rewrite Ep; cbn; rewrite Hp|done|].
  eexists h', _. split_and!; [exact R| | |].
  - unfold withControlPlane. rewrite Htm, Hch. cbn [default fmap option_fmap option_map].
    eapply (read_EnvoyGatewayConfig_intro h' l t _ _ _ _ _ u' s2 s3 s4 s5); [done|exact Hr'|..];
      apply (keeps_but_read_ptr p h h'); try done.
    + by apply (fits_avoids _ _ _ _ _ _ H2 Hcp).
    + by apply (fits_avoids _ _ _ _ _ _ H3 Hcp).
    + by apply (fits_avoids _ _ _ _ _ _ H4 Hcp).
    + by apply (fits_avoids _ _ _ _ _ _ H5 Hcp).
  - intros x Hx Hn. apply K; [done|]. set_solver.
  - intros x. rewrite !elem_of_union. specialize (Hs x). tauto.
Qed.

Lemma nested_DataPlane :
  updates (fun v => is_Some (config.cfg_DataPlane v))
    (fun v => withDataPlane (default (config.mkDataPlaneConfig None "")
                               (defaultDataPlaneConfig <$> config.cfg_DataPlane v)) v)
    (fun l => i ← load (T := memory.EnvoyGatewayConfig) l;
              match memory.cfg_DataPlane i with
              | Some p => inmemory.SetDefaults_DataPlaneConfig p
              | None => mret tt
              end).
Proof.
  intros h l v s Hr [c Hc]. apply read_EnvoyGatewayConfig_inv in Hr
    as (t&s1&s2&s3&s4&s5&Ht&H1&H2&H3&H4&H5&Htm&Hch&->&L1&L2&L3&L4&L5).
  rewrite Hc in H2 |- *. destruct (memory.cfg_DataPlane t) as [p|] eqn:Ep; [|done].
  cbn in H2. apply bind_Some in H2 as ([c' u]&Hp&[= -> ->]).
  destruct (read_DataPlaneConfig_root _ _ _ _ Hp) as [dp Hdp].
  destruct (nested_run memory.cfg_DataPlane inmemory.SetDefaults_DataPlaneConfig
              defaultDataPlaneConfig h l t p dp c s2)
    as (h'&u'&R&K&Hpu&Ht'&Hr'&Hs);
    [apply SetDefaults_DataPlaneConfig_run|done|done|by rewrite Ep; cbn; rewrite Hp|done|].
  eexists h', _. split_and!; [exact R| | |].
  - unfold withDataPlane. rewrite Htm, Hch. cbn [default fmap option_fmap option_map].
    eapply (read_EnvoyGatewayConfig_intro h' l t _ _ _ _ _ s1 u' s3 s4 s5); [done| |exact Hr'|..];
      apply (keeps_but_read_ptr p h h'); try done.
    + by apply (fits_avoids _ _ _ _ _ _ H1 Hdp).
    + by apply (fits_avoids _ _ _ _ _ _ H3 Hdp).
    + by apply (fits_avoids _ _ _ _ _ _ H4 Hdp).
    + by apply (fits_avoids _ _ _ _ _ _ H5 Hdp).
  - intros x Hx Hn. apply K; [done|]. set_solver.
  - intros x. rewrite !elem_of_union. specialize (Hs x). tauto.
Qed.

Lemma ST_bind_assoc {A B C} (m : ST A) (f : A -> ST B) (k : ST C) h :
  ((m ≫= f) ;; k) h = (m ≫= (fun a => f a ;; k)) h.
Proof. unfold mbind, ST_bind. by destruct (m h) as [[a h']|]. Qed.

(** SetObjectDefaults_EnvoyGatewayConfig, on values. *)
Definition defaultAll (v : config.EnvoyGatewayConfig) : config.EnvoyGatewayConfig :=
  let v := defaultTop v in
  let v := withControlPlane (default (config.mkControlPlaneConfig None "")
                               (defaultControlPlaneConfig <$> config.cfg_ControlPlane v)) v in
  withDataPlane (default (config.mkDataPlaneConfig None "")
                   (defaultDataPlaneConfig <$> config.cfg_DataPlane v)) v.

Lemma as_v1alpha1_defaultAll v :
  as_v1alpha1 (defaultAll v) = v1alpha1.SetObjectDefaults_EnvoyGatewayConfig (as_v1alpha1 v).
Proof.
  destruct v as [tm [[? ?]|] [[? ?]|] ch crds epd np]; destruct crds; done.
Qed.

Lemma SetObjectDefaults_updates :
  updates (fun _ => True) defaultAll inmemory.SetObjectDefaults_EnvoyGatewayConfig.
Proof.
  assert (Htop : updates (fun _ => True) defaultTop inmemory.SetDefaults_EnvoyGatewayConfig).
  { intros h l v s Hr _. destruct (SetDefaults_EnvoyGatewayConfig_run _ _ _ _ Hr) as (h'&s'&R&Hr'&K&S).
    exists h', s'. split_and!; [done..|by eapply keeps_but_updates|done]. }
  assert (Hall := updates_seq _ _ _ _ _ _
    (updates_seq _ _ _ _ _ _ Htop nested_ControlPlane ltac:(intros v _; by eexists))
    nested_DataPlane ltac:(intros v _; by eexists)).
  intros h l v s Hr Hv. destruct (Hall h l v s Hr Hv) as (h'&s'&R&Hr'). exists h', s'.
  split; [|exact Hr']. rewrite <- R. unfold inmemory.SetObjectDefaults_EnvoyGatewayConfig.
  rewrite (ST_bind_assoc (inmemory.SetDefaults_EnvoyGatewayConfig l)).
  unfold mbind at 1, ST_bind at 1. unfold mbind at 4, ST_bind at 4.
  destruct (inmemory.SetDefaults_EnvoyGatewayConfig l h) as [[[] h1]|]; [|done].
  by rewrite ST_bind_assoc.
Qed.

(** Converting the v1alpha1 view back gives the fields, with the target's TypeMeta. *)
Lemma Convert_as_v1alpha1 w out :
  Convert_v1alpha1_EnvoyGatewayConfig_To_config_EnvoyGatewayConfig (as_v1alpha1 w) out =
  config.mkEnvoyGatewayConfig (config.cfg_TypeMeta out) (config.cfg_ControlPlane w) (config.cfg_DataPlane w)
    (config.cfg_Channel w) (config.cfg_ManageCRDs w) (config.cfg_EnvoyProxyDefaults w)
    (config.cfg_ManageDataPlaneNetworkPolicies w).
Proof. by destruct w as [? [[]|] [[]|] ? ? [[]|] ?]. Qed.

(** The registered defaults and conversion, performed in memory, give the
    values Config.v computes, and the internal object shares every part with
    the v1alpha1 object it was converted from: only the two structs differ. *)
Lemma defaults_then_conversion h l o v s to :
  read_v1alpha1 h l = Some (v, s) -> peek (T := memory.EnvoyGatewayConfig) h o = Some to -> o ∉ s ->
  exists h' u, (inmemory.SetObjectDefaults_EnvoyGatewayConfig l ;;
                inmemory.Convert_v1alpha1_EnvoyGatewayConfig_To_config_EnvoyGatewayConfig l o) h = Some (tt, h') /\
    read_v1alpha1 h' l = Some (v1alpha1.SetObjectDefaults_EnvoyGatewayConfig v, {[l]} ∪ u) /\
    read h' o = Some (Convert_v1alpha1_EnvoyGatewayConfig_To_config_EnvoyGatewayConfig
                        (v1alpha1.SetObjectDefaults_EnvoyGatewayConfig v)
                        (config.mkEnvoyGatewayConfig (memory.cfg_TypeMeta to) None None "" None None None),
                      {[o]} ∪ u) /\
    (forall x, x ∈ dom h -> x ∉ s -> x <> o -> h' !! x = h !! x).
Proof.
  intros Hr Ho Hos. unfold read_v1alpha1 in Hr. apply bind_Some in Hr as ([c s0]&Hr&[= <- ->]).
  destruct (SetObjectDefaults_updates h l c s Hr I) as (h1&s1&R1&Hr1&K1&S1).
  assert (Hlo : l <> o) by (intros ->; by apply Hos, (read_root _ _ _ _ Hr)).
  assert (Ho1 : peek h1 o = Some to).
  { eapply peek_local; [|done]. apply K1; [by apply (peek_dom _ _ to)|done]. }
  assert (Hos1 : o ∉ s1).
  { intros [|Hn]%S1; [done|]. apply Hn. by apply (peek_dom _ _ to). }
  destruct (read_EnvoyGatewayConfig_inv _ _ _ _ Hr1)
    as (t&u1&u2&u3&u4&u5&Ht&H1&H2&H3&H4&H5&Htm&Hch&->&_).
  destruct (Convert_EnvoyGatewayConfig_run h1 l o t to Ht Ho1 Hlo) as (h2&R2&K2&P2).
  assert (Hu : {[l]} ∪ u1 ∪ u2 ∪ u3 ∪ u4 ∪ u5 = {[l]} ∪ (u1 ∪ u2 ∪ u3 ∪ u4 ∪ u5)) by set_solver.
  exists h2, (u1 ∪ u2 ∪ u3 ∪ u4 ∪ u5). split_and!.
  - by eapply ST_seq_run.
  - unfold read_v1alpha1. rewrite <- as_v1alpha1_defaultAll, <- Hu.
    rewrite (read_local h1 h2 l _ _ Hr1); [done|]. intros x Hx.
    apply K2; [by apply (read_dom _ _ _ _ Hr1)|]. by intros ->.
  - rewrite <- as_v1alpha1_defaultAll, Convert_as_v1alpha1, Hch.
    replace ({[o]} ∪ (u1 ∪ u2 ∪ u3 ∪ u4 ∪ u5)) with ({[o]} ∪ u1 ∪ u2 ∪ u3 ∪ u4 ∪ u5) by set_solver.
    apply (read_EnvoyGatewayConfig_intro h2 o _ _ _ _ _ _ u1 u2 u3 u4 u5 P2);
      apply (keeps_but_read_ptr o h1 h2); try done; set_solver.
  - intros x Hx Hn Hxo. rewrite K2, K1; try done. rewrite elem_of_dom, K1 by done. by apply elem_of_dom.
Qed.
