(* ===== verification/Registration.v ===== *)
(** * API registration (pkg/apis/config)

    register.go, install/install.go, v1alpha1/generated.register.go and the
    registrations in v1alpha1/defaults.go, generated.defaults.go and
    generated.conversion.go: which types, defaulters and conversions a scheme
    gets, in which order, and what happens when it refuses one. *)

From S2P Require Import Prelude Errors Effects KubeObjects Constants Config GoHeap DeepCopy.
From S2P Require Import DeepCopyProps MemoryProps.
From stdpp Require Import gmap.

(** [runtime.APIVersionInternal]. *)
Definition APIVersionInternal : string := "__internal".

(** The calls on a [runtime.Scheme], with the functions handed to it. *)
Inductive registration :=
  | AddKnownTypes (gv : GroupVersion) (types : list GoType)
  | AddToGroupVersion (gv : GroupVersion)  (** [metav1.AddToGroupVersion] *)
  | AddTypeDefaultingFunc (t : GoType) (fn : loc -> ST unit)
  | AddGeneratedConversionFunc (a b : GoType) (fn : loc -> loc -> ST unit)
  | SetVersionPriority (gv : GroupVersion).

Definition accepted (c : registration) : Type :=
  match c with
  | AddKnownTypes _ _ | AddToGroupVersion _ | AddTypeDefaultingFunc _ _ => unit
  | AddGeneratedConversionFunc _ _ _ | SetVersionPriority _ => unit + error
  end.

Abbreviation schemeIO := (@M registration accepted).

(** [if err := c; err != nil { return err }], and a call that returns nothing. *)
Abbreviation attemptReg c := (Call (ans := accepted) c (fun r => Ret match r with inl a => Ok a | inr e => Err e end)
  : schemeIO unit) (only parsing).
Abbreviation callReg c := (Call (ans := accepted) c (fun r => Ret (Ok r)) : schemeIO unit) (only parsing).

(** [runtime.SchemeBuilder]: its functions, in the order they were added;
    [AddToScheme] runs them until one fails. *)
Definition SchemeBuilder := list (schemeIO unit).
Definition runBuilder (sb : SchemeBuilder) : schemeIO unit := for_each sb id.

(** [utilruntime.Must]. *)
Definition Must (m : schemeIO unit) : schemeIO unit :=
  pbind m (fun r => match r with Err e => Ret (Panic (Error e)) | r => Ret r end).

(** ** register.go *)

Module register.

Definition GroupName : string := "envoy-gateway.extensions.gardener.cloud".
Definition SchemeGroupVersion : GroupVersion := mkGroupVersion GroupName APIVersionInternal.

Definition Resource (resource : string) : GroupResource :=
  mkGroupResource (gv_Group SchemeGroupVersion) resource.

Definition typeOf (name : string) : GoType := mkGoType "config" name.

Definition addKnownTypes : schemeIO unit :=
  callReg (AddKnownTypes SchemeGroupVersion [typeOf "EnvoyGatewayConfig"]).

Definition schemeBuilder : SchemeBuilder := [addKnownTypes].
Definition AddToScheme : schemeIO unit := runBuilder schemeBuilder.

End register.

(** ** v1alpha1 *)

Module v1alpha1_register.

Definition GroupName : string := "envoy-gateway.extensions.gardener.cloud".
Definition GroupVersion_ : GroupVersion := mkGroupVersion GroupName "v1alpha1".
Definition SchemeGroupVersion : GroupVersion := mkGroupVersion GroupName "v1alpha1".

Definition Resource (resource : string) : GroupResource :=
  mkGroupResource (gv_Group SchemeGroupVersion) resource.

Definition typeOf (name : string) : GoType := mkGoType "v1alpha1" name.

(** generated.register.go. *)
Definition addKnownTypes : schemeIO unit :=
  callReg (AddKnownTypes SchemeGroupVersion [typeOf "EnvoyGatewayConfig"]) ;;
  callReg (AddToGroupVersion SchemeGroupVersion).

(** generated.defaults.go. *)
Definition RegisterDefaults : schemeIO unit :=
  callReg (AddTypeDefaultingFunc (typeOf "EnvoyGatewayConfig")
             inmemory.SetObjectDefaults_EnvoyGatewayConfig).

(** defaults.go. *)
Definition addDefaultingFuncs : schemeIO unit := RegisterDefaults.

(** generated.conversion.go. *)
Definition RegisterConversions : schemeIO unit :=
  attemptReg (AddGeneratedConversionFunc (typeOf "ControlPlaneConfig") (register.typeOf "ControlPlaneConfig")
    inmemory.Convert_v1alpha1_ControlPlaneConfig_To_config_ControlPlaneConfig) ;;
  attemptReg (AddGeneratedConversionFunc (register.typeOf "ControlPlaneConfig") (typeOf "ControlPlaneConfig")
    inmemory.Convert_config_ControlPlaneConfig_To_v1alpha1_ControlPlaneConfig) ;;
  attemptReg (AddGeneratedConversionFunc (typeOf "DataPlaneConfig") (register.typeOf "DataPlaneConfig")
    inmemory.Convert_v1alpha1_DataPlaneConfig_To_config_DataPlaneConfig) ;;
  attemptReg (AddGeneratedConversionFunc (register.typeOf "DataPlaneConfig") (typeOf "DataPlaneConfig")
    inmemory.Convert_config_DataPlaneConfig_To_v1alpha1_DataPlaneConfig) ;;
  attemptReg (AddGeneratedConversionFunc (typeOf "EnvoyGatewayConfig") (register.typeOf "EnvoyGatewayConfig")
    inmemory.Convert_v1alpha1_EnvoyGatewayConfig_To_config_EnvoyGatewayConfig) ;;
  attemptReg (AddGeneratedConversionFunc (register.typeOf "EnvoyGatewayConfig") (typeOf "EnvoyGatewayConfig")
    inmemory.Convert_config_EnvoyGatewayConfig_To_v1alpha1_EnvoyGatewayConfig) ;;
  attemptReg (AddGeneratedConversionFunc (typeOf "EnvoyProxyDefaults") (register.typeOf "EnvoyProxyDefaults")
    inmemory.Convert_v1alpha1_EnvoyProxyDefaults_To_config_EnvoyProxyDefaults) ;;
  attemptReg (AddGeneratedConversionFunc (register.typeOf "EnvoyProxyDefaults") (typeOf "EnvoyProxyDefaults")
    inmemory.Convert_config_EnvoyProxyDefaults_To_v1alpha1_EnvoyProxyDefaults).

(** The [init] functions of the package: each registers one function. *)
Definition init_defaults (sb : SchemeBuilder) : SchemeBuilder := sb ++ [addDefaultingFuncs].
Definition init_conversion (sb : SchemeBuilder) : SchemeBuilder := sb ++ [RegisterConversions].
Definition init_register (sb : SchemeBuilder) : SchemeBuilder := sb ++ [addKnownTypes].

(** The language leaves the order of a package's files to the build system. *)
Definition inits : list (SchemeBuilder -> SchemeBuilder) := [init_defaults; init_conversion; init_register].

Definition localSchemeBuilder (order : list (SchemeBuilder -> SchemeBuilder)) : SchemeBuilder :=
  fold_left (fun sb init => init sb) order [].

Definition Install (order : list (SchemeBuilder -> SchemeBuilder)) : schemeIO unit :=
  runBuilder (localSchemeBuilder order).

End v1alpha1_register.

(** ** install/install.go *)

Module install.

Definition Install (order : list (SchemeBuilder -> SchemeBuilder)) : schemeIO unit :=
  Must register.AddToScheme ;;
  Must (v1alpha1_register.Install order) ;;
  Must (attemptReg (SetVersionPriority v1alpha1_register.GroupVersion_)).

End install.

(** ** Scripts

    [m] makes the calls [l] in order; it stops early only when one is refused. *)
Definition refused (e : event accepted) : Prop :=
  match projT1 e as c return accepted c -> Prop with
  | AddKnownTypes _ _ | AddToGroupVersion _ | AddTypeDefaultingFunc _ _ => fun _ => False
  | AddGeneratedConversionFunc _ _ _ | SetVersionPriority _ => fun r => exists e, r = inr e
  end (projT2 e).

Definition performs (m : schemeIO unit) (l : list registration) : Prop :=
  forall t r, runs m t r ->
    (exists rest, l = (projT1 <$> t) ++ rest) /\
    (r = Ok tt <-> projT1 <$> t = l /\ Forall (fun e => ~ refused e) t) /\
    (r <> Ok tt <-> Exists refused t).

Lemma performs_call c (k : accepted c -> schemeIO unit) l :
  (forall r, (~ refused (ev c r) /\ performs (k r) l) \/ (refused (ev c r) /\ exists o, k r = Ret o /\ o <> Ok tt)) ->
  performs (Call c k) (c :: l).
Proof.
  intros Hk t r (x&t'&->&Hr). destruct (Hk x) as [[Hn Hp]|(Hd&o&Hkx&Ho)].
  - destruct (Hp _ _ Hr) as ((rest&->)&Hok&Herr). split_and!.
    + by exists rest.
    + rewrite Hok. split; [intros [<- Hf]; split; [done|by constructor]|].
      intros [[=] Hf]. by inv Hf.
    + rewrite Herr, Exists_cons. naive_solver.
  - rewrite Hkx in Hr. destruct Hr as [-> ->]. split_and!.
    + by exists l.
    + split; [done|]. intros [_ Hf]. by inv Hf.
    + split; [intros _; by constructor|done].
Qed.

Lemma performs_ret : performs (mret tt) [].
Proof. intros t r [-> ->]. split_and!; [by exists []|done|]. by rewrite Exists_nil. Qed.

Lemma performs_seq m1 m2 l1 l2 : performs m1 l1 -> performs m2 l2 -> performs (m1 ;; m2) (l1 ++ l2).
Proof.
  intros H1 H2 t r Hr. apply runs_pbind in Hr as (t1&r1&t2&->&Hr1&Hr2).
  destruct (H1 _ _ Hr1) as ((rest1&E1)&Hok1&Herr1).
  assert (r1 = Ok tt \/ r1 <> Ok tt) as [->|Hne] by (destruct r1 as [[]| |]; by (left + right)).
  - destruct (proj1 Hok1 eq_refl) as [<- Hf1]. destruct (H2 _ _ Hr2) as ((rest2&->)&Hok2&Herr2).
    rewrite fmap_app, Forall_app, Exists_app. split_and!.
    + exists rest2. by rewrite app_assoc.
    + rewrite Hok2. split; [intros [Heq ?]; by rewrite <- Heq|]. intros [Heq [_ ?]]. split; [|done].
      by apply app_inv_head in Heq.
    + rewrite Herr2. split; [by right|]. intros [He|]; [|done]. by apply Herr1 in He.
  - assert (r <> Ok tt /\ t2 = []) as [Hr ->].
    { destruct r1 as [[]|e|w]; [done|by destruct Hr2 as [-> ->]..]. }
    rewrite app_nil_r. apply Herr1 in Hne. split_and!.
    + exists (rest1 ++ l2). by rewrite E1, app_assoc.
    + split; [done|]. intros [_ Hf]. exfalso. apply Exists_exists in Hne as (x&Hx&Hrx).
      rewrite Forall_forall in Hf. by apply (Hf x Hx).
    + done.
Qed.

Lemma performs_Must m l : performs m l -> performs (Must m) l.
Proof.
  intros Hm t r Hr. apply runs_pbind in Hr as (t1&r1&t2&->&Hr1&Hr2).
  assert (t2 = [] /\ (r = Ok tt <-> r1 = Ok tt)) as [-> Hiff].
  { destruct r1 as [[]|e|w]; by destruct Hr2 as [-> ->]. }
  rewrite app_nil_r. destruct (Hm _ _ Hr1) as (?&?&?). rewrite Hiff. done.
Qed.

Lemma Must_outcome m t r : runs (Must m) t r -> r = Ok tt \/ exists w, r = Panic w.
Proof.
  intros Hr. apply runs_pbind in Hr as (t1&r1&t2&->&Hr1&Hr2).
  destruct r1 as [[]|e|w]; destruct Hr2 as [-> ->]; eauto.
Qed.

(** A builder performs its functions' scripts one after the other. *)
Lemma runBuilder_performs sb ls : Forall2 performs sb ls -> performs (runBuilder sb) (concat ls).
Proof.
  induction 1 as [|m l sb ls Hm Hs IH]; [apply performs_ret|]. by apply performs_seq.
Qed.

(** An init function registers one function, whose script is [l]. *)
Definition adds (init : SchemeBuilder -> SchemeBuilder) (l : list registration) : Prop :=
  exists fn, (forall sb, init sb = sb ++ [fn]) /\ performs fn l.

Lemma inits_perform order ls sb ls0 :
  Forall2 adds order ls -> Forall2 performs sb ls0 ->
  performs (runBuilder (fold_left (fun sb init => init sb) order sb)) (concat (ls0 ++ ls)).
Proof.
  intros Ho. revert sb ls0. induction Ho as [|init l order ls (fn&Hi&Hp) Ho IH]; intros sb ls0 Hs; simpl.
  - rewrite app_nil_r. by apply runBuilder_performs.
  - rewrite Hi. rewrite (cons_middle l ls0 ls), app_assoc. apply IH. apply Forall2_app; [done|constructor; [exact Hp|constructor]].
Qed.

Ltac performs_calls :=
  repeat first
    [ apply performs_ret
    | apply performs_call; intros [[]|e];
      [left; split; [by intros [? ?]|]|right; split; [by eexists|by eexists]]
    | apply performs_call; intros []; left; split; [by intros []|]
    | progress cbn ].

(** ** What is registered *)

Import v1alpha1_register.

Definition conversions : list registration :=
  [ AddGeneratedConversionFunc (typeOf "ControlPlaneConfig") (register.typeOf "ControlPlaneConfig")
      inmemory.Convert_v1alpha1_ControlPlaneConfig_To_config_ControlPlaneConfig;
    AddGeneratedConversionFunc (register.typeOf "ControlPlaneConfig") (typeOf "ControlPlaneConfig")
      inmemory.Convert_config_ControlPlaneConfig_To_v1alpha1_ControlPlaneConfig;
    AddGeneratedConversionFunc (typeOf "DataPlaneConfig") (register.typeOf "DataPlaneConfig")
      inmemory.Convert_v1alpha1_DataPlaneConfig_To_config_DataPlaneConfig;
    AddGeneratedConversionFunc (register.typeOf "DataPlaneConfig") (typeOf "DataPlaneConfig")
      inmemory.Convert_config_DataPlaneConfig_To_v1alpha1_DataPlaneConfig;
    AddGeneratedConversionFunc (typeOf "EnvoyGatewayConfig") (register.typeOf "EnvoyGatewayConfig")
      inmemory.Convert_v1alpha1_EnvoyGatewayConfig_To_config_EnvoyGatewayConfig;
    AddGeneratedConversionFunc (register.typeOf "EnvoyGatewayConfig") (typeOf "EnvoyGatewayConfig")
      inmemory.Convert_config_EnvoyGatewayConfig_To_v1alpha1_EnvoyGatewayConfig;
    AddGeneratedConversionFunc (typeOf "EnvoyProxyDefaults") (register.typeOf "EnvoyProxyDefaults")
      inmemory.Convert_v1alpha1_EnvoyProxyDefaults_To_config_EnvoyProxyDefaults;
    AddGeneratedConversionFunc (register.typeOf "EnvoyProxyDefaults") (typeOf "EnvoyProxyDefaults")
      inmemory.Convert_config_EnvoyProxyDefaults_To_v1alpha1_EnvoyProxyDefaults ].

Definition versioned : list registration :=
  [ AddTypeDefaultingFunc (typeOf "EnvoyGatewayConfig") inmemory.SetObjectDefaults_EnvoyGatewayConfig ] ++
  conversions ++
  [ AddKnownTypes SchemeGroupVersion [typeOf "EnvoyGatewayConfig"]; AddToGroupVersion SchemeGroupVersion ].

Lemma inits_add : Forall2 adds inits
  [ [ AddTypeDefaultingFunc (typeOf "EnvoyGatewayConfig") inmemory.SetObjectDefaults_EnvoyGatewayConfig ];
    conversions;
    [ AddKnownTypes SchemeGroupVersion [typeOf "EnvoyGatewayConfig"]; AddToGroupVersion SchemeGroupVersion ] ].
Proof.
  repeat constructor; (eexists; split; [by intros|]); unfold conversions; performs_calls.
Qed.

Lemma Install_performs order :
  order ≡ₚ inits ->
  exists l, l ≡ₚ versioned /\
    performs (install.Install order)
      ([AddKnownTypes register.SchemeGroupVersion [register.typeOf "EnvoyGatewayConfig"]] ++ l ++
       [SetVersionPriority GroupVersion_]).
Proof.
  intros Ho. destruct (Permutation_Forall2 (Permutation_sym Ho) inits_add) as (ls&Hls&Hadd).
  exists (concat ls). split; [by rewrite <- Hls|].
  apply performs_seq; [apply performs_Must|apply performs_seq; apply performs_Must].
  - unfold register.AddToScheme, register.schemeBuilder, runBuilder. cbn. performs_calls.
  - by apply (inits_perform order ls [] []).
  - performs_calls.
Qed.

(** C30: installing the API group registers, whatever the order of the package's
    init functions, exactly both versions of the type, one defaulter and the
    conversions of every type in both directions; it succeeds exactly when the
    scheme refuses nothing, and panics otherwise.  Whatever defaulter and
    conversion a decoder finds in the installed scheme for EnvoyGatewayConfig,
    running them on a decoded object gives the internal configuration that
    Config.v computes, in memory shared with the decoded object. *)
Theorem Install_registers order t r :
  order ≡ₚ inits -> runs (install.Install order) t r ->
  (r = Ok tt <-> Forall (fun e => ~ refused e) t) /\ (r = Ok tt \/ exists w, r = Panic w) /\
  (r = Ok tt ->
   projT1 <$> t ≡ₚ AddKnownTypes register.SchemeGroupVersion [register.typeOf "EnvoyGatewayConfig"] ::
                   SetVersionPriority GroupVersion_ :: versioned /\
   last (projT1 <$> t) = Some (SetVersionPriority GroupVersion_) /\
   forall default convert h l o v s to,
     AddTypeDefaultingFunc (typeOf "EnvoyGatewayConfig") default ∈ projT1 <$> t ->
     AddGeneratedConversionFunc (typeOf "EnvoyGatewayConfig") (register.typeOf "EnvoyGatewayConfig") convert
       ∈ projT1 <$> t ->
     read_v1alpha1 h l = Some (v, s) -> peek (T := memory.EnvoyGatewayConfig) h o = Some to -> o ∉ s ->
     let d := v1alpha1.SetObjectDefaults_EnvoyGatewayConfig v in
     exists h' u, (default l ;; convert l o) h = Some (tt, h') /\
       read_v1alpha1 h' l = Some (d, {[l]} ∪ u) /\
       read h' o = Some (Convert_v1alpha1_EnvoyGatewayConfig_To_config_EnvoyGatewayConfig d
                           (config.mkEnvoyGatewayConfig (memory.cfg_TypeMeta to) None None "" None None None),
                         {[o]} ∪ u) /\
       (forall x, x ∈ dom h -> x ∉ s -> x <> o -> h' !! x = h !! x)).
Proof.
  intros Ho Hr. destruct (Install_performs order Ho) as (l&Hl&Hp).
  destruct (Hp _ _ Hr) as ((rest&Hrest)&Hok&Herr). split_and!.
  - split; [by intros [_ ?]%Hok|]. intros Hf. destruct r as [[]|e|w]; [done|..];
      (assert (Exists refused t) as (x&Hx&Hrx)%Exists_exists by (by apply Herr);
       rewrite Forall_forall in Hf; by destruct (Hf x Hx)).
  - unfold install.Install in Hr. apply runs_bind in Hr as [(t1&[]&t2&->&_&Hr)|[(e&->&Hr)|(w&->&_)]];
      [|by apply Must_outcome in Hr as [|[? ?]]|by right; eexists].
    apply runs_bind in Hr as [(t3&[]&t4&->&_&Hr)|[(e&->&Hr)|(w&->&_)]];
      [by apply Must_outcome in Hr|by apply Must_outcome in Hr as [|[? ?]]|by right; eexists].
  - intros [Ht _]%Hok. rewrite Ht. split_and!.
    + apply (perm_skip (AddKnownTypes _ _)). by rewrite Hl, (Permutation_app_comm versioned).
    + by rewrite app_assoc, last_snoc.
    + intros default convert h lo o v s to Hd Hc Hread Hto Hos d.
      assert (Hin : forall x, x ∈ [AddKnownTypes register.SchemeGroupVersion [register.typeOf "EnvoyGatewayConfig"]] ++ l ++
                [SetVersionPriority GroupVersion_] ->
                x ∈ AddKnownTypes register.SchemeGroupVersion [register.typeOf "EnvoyGatewayConfig"] ::
                   SetVersionPriority GroupVersion_ :: versioned).
      { intros x Hx. rewrite <- Hl. set_solver. }
      apply Hin in Hd, Hc. unfold versioned, conversions in Hd, Hc. cbn in Hd, Hc.
      repeat (apply elem_of_cons in Hd as [[=]|Hd]); [|by apply not_elem_of_nil in Hd].
      repeat (apply elem_of_cons in Hc as [[=]|Hc]); [|by apply not_elem_of_nil in Hc].
      subst default convert. by eapply defaults_then_conversion.
Qed.

(** ** A concrete memory and a scheme that accepts everything *)

(** A v1alpha1 object with replicas for the control plane only, and an empty
    internal object. *)
Definition demoHeap : heap :=
  {[ 1%positive := CEnvoyGatewayConfig (memory.mkEnvoyGatewayConfig (mkTypeMeta "EnvoyGatewayConfig" "v1alpha1")
                     (Some 2%positive) None "" None None None);
     2%positive := CControlPlaneConfig (memory.mkControlPlaneConfig (Some 3%positive) "");
     3%positive := CInt32 1;
     4%positive := CEnvoyGatewayConfig zeroEnvoyGatewayConfig ]}.

Definition demoObject : v1alpha1.EnvoyGatewayConfig :=
  v1alpha1.mkEnvoyGatewayConfig (mkTypeMeta "EnvoyGatewayConfig" "v1alpha1")
    (Some (v1alpha1.mkControlPlaneConfig (Some 1%Z) "")) None "" None None None.

Definition acceptAll (c : registration) : accepted c :=
  match c with
  | AddKnownTypes _ _ | AddToGroupVersion _ | AddTypeDefaultingFunc _ _ => tt
  | AddGeneratedConversionFunc _ _ _ | SetVersionPriority _ => inl tt
  end.

(** The execution in which the scheme accepts everything. *)
Fixpoint acceptance {A} (p : prog accepted A) : list (event accepted) * A :=
  match p with
  | Ret a => ([], a)
  | Call c k => let '(t, a) := acceptance (k (acceptAll c)) in (ev c (acceptAll c) :: t, a)
  end.

Lemma acceptance_runs {A} (p : prog accepted A) : runs p (acceptance p).1 (acceptance p).2.
Proof.
  induction p as [a|c k IH]; [done|]. simpl. specialize (IH (acceptAll c)).
  destruct (acceptance (k (acceptAll c))) as [t a]. by exists (acceptAll c), t.
Qed.

Lemma Install_registers_witness :
  let t := (acceptance (install.Install inits)).1 in
  length (projT1 <$> t) = 13 /\
  exists h' u, (inmemory.SetObjectDefaults_EnvoyGatewayConfig 1%positive ;;
                inmemory.Convert_v1alpha1_EnvoyGatewayConfig_To_config_EnvoyGatewayConfig 1%positive 4%positive) demoHeap =
      Some (tt, h') /\
    read_v1alpha1 h' 1%positive = Some (v1alpha1.SetObjectDefaults_EnvoyGatewayConfig demoObject, {[1]} ∪ u)%positive.
Proof.
  split; [vm_compute; reflexivity|].
  assert (Hr : read_v1alpha1 demoHeap 1%positive = Some (demoObject, {[1; 2; 3]}%positive)) by (vm_compute; reflexivity).
  destruct (Install_registers inits _ _ (Permutation_refl _) (acceptance_runs (install.Install inits)))
    as (_&_&H). destruct (H eq_refl) as (_&_&Hpipe).
  destruct (Hpipe inmemory.SetObjectDefaults_EnvoyGatewayConfig
              inmemory.Convert_v1alpha1_EnvoyGatewayConfig_To_config_EnvoyGatewayConfig
              demoHeap 1%positive 4%positive demoObject {[1; 2; 3]}%positive zeroEnvoyGatewayConfig)
    as (h'&u&H1&H2&_).
  - cbn. set_solver.
  - cbn. set_solver.
  - exact Hr.
  - vm_compute. reflexivity.
  - apply (bool_decide_unpack _). vm_compute. reflexivity.
  - by exists h', u.
Defined.
