(* ===== verification/External.v ===== *)
(** * The outside world: the calls the program makes

    Everything that is not under src/ and has an effect is a [call]: the seed
    and shoot API servers (through controller-runtime's [client.Client]),
    Gardener's managed-resource, secrets-manager and shoot-access helpers, the
    metrics registry and the clock.  The answer to a call is unconstrained; the
    theorems that need the documented behaviour of a call assume it as a
    hypothesis on the world.

    [controllerutil.CreateOrUpdate] takes the program's mutate function, so the
    call carries it. *)

From S2P Require Import Prelude Errors Effects KubeObjects.

(** Options of [client.List]. *)
Inductive ListOption :=
  | InNamespace (ns : string)
  | MatchingLabels (ls : labels)
  | HasLabels (keys : list string).

(** The kinds the orphan sweep lists, and the seed kinds that are deleted. *)
Inductive ObjectKind :=
  | KService | KDeployment | KServiceAccount | KConfigMap
  | KPodDisruptionBudget | KHorizontalPodAutoscaler | KSecret.

#[export] Instance ObjectKind_eq_dec : EqDecision ObjectKind.
Proof. solve_decision. Defined.

(** The name [fmt.Sprintf("%T", obj)] prints. *)
Definition kindTypeName (k : ObjectKind) : string :=
  match k with
  | KService => "*v1.Service"
  | KDeployment => "*v1.Deployment"
  | KServiceAccount => "*v1.ServiceAccount"
  | KConfigMap => "*v1.ConfigMap"
  | KPodDisruptionBudget => "*v1.PodDisruptionBudget"
  | KHorizontalPodAutoscaler => "*v2.HorizontalPodAutoscaler"
  | KSecret => "*v1.Secret"
  end%string.

Inductive call :=
  (* clock and metrics *)
  | Now
  | CounterInc (vec : string) (labelValues : list string)
  | GaugeSetSince (vec : string) (labelValues : list string) (start : Z)
  (* Gardener libraries *)
  | GetCluster (name : string)
  | SecretsManagerForCluster (cluster : Cluster) (identity : string)
      (configs : list SecretConfigWithOptions)
  | GenerateAllSecrets (sm : nat) (configs : list SecretConfigWithOptions)
  | SMCleanup (sm : nat)
  | SerializedObjects (resources : gmap string string)
  | CreateForShoot (ns name origin : string) (keepObjects : bool) (data : gmap string string)
  | SetKeepObjects (ns name : string) (keep : bool)
  | DeleteManagedResource (ns name : string) (secretNameWithPrefix : bool)
  | WaitUntilManagedResourceDeleted (ns name : string) (timeout : Z)
  | ReconcileShootAccessSecret (name ns serviceAccount : string)
  | InjectGenericKubeconfig (d : Deployment) (kubeconfigSecret accessSecret : string)
  (* seed API server *)
  | SeedCreateOrUpdateDeployment (ns name : string) (mutate : Deployment -> Deployment)
  | SeedGetDeployment (ns name : string)
  | SeedPatchDeployment (original modified : Deployment)
  | SeedDelete (kind : ObjectKind) (ns name : string)
  (* a runtime scheme with the types of an API *)
  | RegisterScheme (api : string)
  (* shoot API server *)
  | NewClientForShoot (ns : string)
  | ListGateways (opts : list ListOption)
  | DeleteGateway (ns name : string)
  | GetGatewayClass (name : string)
  | RemoveFinalizers (gc : GatewayClass) (finalizer : string)
  | ListObjects (kind : ObjectKind) (opts : list ListOption)
  | DeleteObject (kind : ObjectKind) (ns name : string)
  | ListNetworkPolicies (opts : list ListOption)
  | DeleteNetworkPolicy (ns name : string)
  | CreateOrUpdateNetworkPolicy (ns name : string) (mutate : NetworkPolicy -> NetworkPolicy)
  (* the wait between two polls; the answer says whether the context is done *)
  | PollWait (interval : Z).

(** Responses: [inl] the result, [inr] the error. *)
Definition ans (c : call) : Type :=
  match c with
  | Now => Z
  | CounterInc _ _ | GaugeSetSince _ _ _ => unit
  | PollWait _ => bool
  | GetCluster _ => Cluster + error
  | SecretsManagerForCluster _ _ _ => nat + error
  | GenerateAllSecrets _ _ => gmap string (gmap string string) + error
  | SerializedObjects _ => gmap string string + error
  | InjectGenericKubeconfig _ _ _ => Deployment + error
  | SeedGetDeployment _ _ => Deployment + error
  | ListGateways _ => list Gateway + error
  | GetGatewayClass _ => GatewayClass + error
  | ListObjects _ _ => list ObjectMeta + error
  | ListNetworkPolicies _ => list NetworkPolicy + error
  | ReconcileShootAccessSecret _ _ _ => string + error  (* the Secret's name *)
  | SMCleanup _ | CreateForShoot _ _ _ _ _ | SetKeepObjects _ _ _
  | DeleteManagedResource _ _ _ | WaitUntilManagedResourceDeleted _ _ _
  | SeedCreateOrUpdateDeployment _ _ _ | SeedPatchDeployment _ _ | SeedDelete _ _ _
  | RegisterScheme _ | NewClientForShoot _ | DeleteGateway _ _ | RemoveFinalizers _ _
  | DeleteObject _ _ _ | DeleteNetworkPolicy _ _ | CreateOrUpdateNetworkPolicy _ _ _ =>
      unit + error
  end.

Definition of_result {A} (r : A + error) : outcome A :=
  match r with inl a => Ok a | inr e => Err e end.

Abbreviation io := (prog ans).
Abbreviation IO := (@M call ans).

(** A call that can fail, as a Go call returning [(A, error)]. *)
Abbreviation request c := (Call (ans := ans) c (fun r => Ret (of_result r)) : IO _) (only parsing).

(** Using an interface field; a nil interface panics. *)
Definition nonNil {A} (o : option A) : IO A :=
  match o with
  | Some a => mret a
  | None => panic "invalid memory address or nil pointer dereference"
  end.

(** [wait.PollUntilContextCancel(ctx, interval, true, condition)]: its documented
    loop, for a condition that keeps a state and does not fail.  The condition
    is tried at once and after every interval until it holds or the context is
    done.  The context has a deadline: [ticks] is the number of intervals after
    which it has passed.  The result says whether the condition held. *)
Fixpoint PollUntilContextCancel {S} (ticks : nat) (interval : Z) (condition : S -> io (outcome (bool * S)))
    (s : S) : IO (bool * S) :=
  '(ok, s) ← condition s;
  if (ok : bool) then mret (true, s)
  else match ticks with
       | O => mret (false, s)
       | S ticks =>
           cancelled ← lift (do_call (PollWait interval));
           if (cancelled : bool) then mret (false, s)
           else PollUntilContextCancel ticks interval condition s
       end.

(** ** Classes of calls *)

(** Calls that may change the seed. *)
Definition mutates_seed (c : call) : bool :=
  match c with
  | GenerateAllSecrets _ _ | SMCleanup _ | CreateForShoot _ _ _ _ _
  | SetKeepObjects _ _ _ | DeleteManagedResource _ _ _
  | ReconcileShootAccessSecret _ _ _ | SeedCreateOrUpdateDeployment _ _ _
  | SeedPatchDeployment _ _ | SeedDelete _ _ _ => true
  | _ => false
  end.

(** Calls that may change the shoot. *)
Definition mutates_shoot (c : call) : bool :=
  match c with
  | DeleteGateway _ _ | RemoveFinalizers _ _ | DeleteObject _ _ _
  | DeleteNetworkPolicy _ _ | CreateOrUpdateNetworkPolicy _ _ _ => true
  | _ => false
  end.

(** Calls to the shoot API server. *)
Definition reaches_shoot (c : call) : bool :=
  match c with
  | NewClientForShoot _ | ListGateways _ | DeleteGateway _ _ | GetGatewayClass _
  | RemoveFinalizers _ _ | ListObjects _ _ | DeleteObject _ _ _
  | ListNetworkPolicies _ | DeleteNetworkPolicy _ _ | CreateOrUpdateNetworkPolicy _ _ _ => true
  | _ => false
  end.

(** Clock and metrics. *)
Definition is_telemetry (c : call) : bool :=
  match c with
  | Now | CounterInc _ _ | GaugeSetSince _ _ _ => true
  | _ => false
  end.

(** The call of an event, and whether its response is a success. *)
Definition ecall (e : event ans) : call := projT1 e.

Definition label_selects (opts : list ListOption) (ns : string) (ls : labels) : bool :=
  forallb (fun o => match o with
                    | InNamespace n => bool_decide (n = ns)
                    | MatchingLabels m => bool_decide (map_Forall (fun k v => ls !! k = Some v) m)
                    | HasLabels keys => forallb (fun k => bool_decide (is_Some (ls !! k))) keys
                    end) opts.

(** ** Lemmas *)

Lemma of_result_no_panic {A} (r : A + error) w : of_result r <> Panic w.
Proof. by destruct r. Qed.

Lemma no_panic_request c {A} (f : ans c -> A + error) :
  no_panic (Call c (fun r => Ret (of_result (f r))) : IO A).
Proof. apply no_panic_Call. intros r. apply no_panic_Ret. intros w. apply of_result_no_panic. Qed.

#[export] Hint Resolve of_result_no_panic : effects.

Lemma emits_use {A B} P (x : A) (f : A -> IO B) : emits P (f x) -> emits P (nonNil (Some x) ≫= f).
Proof. done. Qed.

Lemma no_panic_use {A B} (x : A) (f : A -> IO B) : no_panic (f x) -> no_panic (nonNil (Some x) ≫= f).
Proof. done. Qed.

(** Polling emits what the condition and the wait emit. *)
Lemma emits_poll {S} P ticks interval (condition : S -> io (outcome (bool * S))) s :
  (forall r, P (ev (PollWait interval) r)) -> (forall s, emits P (condition s)) ->
  emits P (PollUntilContextCancel ticks interval condition s).
Proof.
  intros Hw Hc. revert s. induction ticks as [|ticks IH]; intros s; 
    cbn [PollUntilContextCancel]; emits_auto; auto.
Qed.

Lemma no_panic_poll {S} ticks interval (condition : S -> io (outcome (bool * S))) s :
  (forall s, no_panic (condition s)) ->
  no_panic (PollUntilContextCancel ticks interval condition s).
Proof. intros Hc. revert s. induction ticks as [|ticks IH]; intros s; 
  cbn [PollUntilContextCancel]; no_panic_auto; auto. Qed.

(** ** Inverting a wrapped request at the head of an operation, over any
    signature of calls *)

Lemma runs_wrapf_request {C} {ans : C -> Type} {B} pre c {A} (res : ans c -> A + error) (f : A -> @M C ans B) t r :
  runs (wrapf pre (Call c (fun r => Ret (of_result (res r)))) ≫= f) t r ->
  exists x t', t = ev c x :: t' /\
    match res x with
    | inl a => runs (f a) t' r
    | inr e => t' = [] /\ r = Err (wrapError pre e "")
    end.
Proof.
  intros (x&t'&->&Hr). exists x, t'. split; [done|]. destruct (res x) as [a|e]; cbn in Hr; done.
Qed.
