(* ===== verification/Interfaces.v ===== *)
(** * The libraries and interfaces the actuator is built on

    [Libraries] collects the pure functions, constants and embedded assets that
    are not under src/ or are data: they are parameters of every definition
    that uses them.  The records below are the interfaces of pkg/actuator. *)

From S2P Require Import Prelude Errors Effects KubeObjects Constants Config External.

(** A decoded CustomResourceDefinition: the fields [splitCRDs] reads, and the rest
    of the object, which it only passes on. *)
Record CRD := mkCRD { crd_Kind : string; crd_Name : string; crd_Group : string; crd_Rest : string }.

Class Libraries := {
  (* Gardener *)
  HibernationIsEnabled : Shoot -> bool;
  GenericTokenKubeconfigSecretNameFromCluster : Cluster -> string;
  DataKeyCertificate : string;
  DataKeyPrivateKey : string;
  DataKeyCertificateCA : string;
  SecretNamePrefixShootAccess : string;
  ShootPurposeEvaluation : string;
  CompareVersions : string -> string -> string -> bool + error;
  (* Kubernetes *)
  LabelHostname : string;
  LabelTopologyZone : string;
  Encode : Object -> string + error;  (** [runtime.Encode(shootCodec, obj)] *)
  MarshalResources : ResourceRequirements -> string + error;
  decodeDocuments : string -> list (CRD + error);
    (** the results of the YAML decoder, document by document, up to [io.EOF] *)
  MarshalCRD : CRD -> string + error;
  (* the embedded manifests *)
  gatewayAPIStandardYAML : string;
  gatewayAPIExperimentalYAML : string;
  envoyGatewayCRDsYAML : string;
}.

(** [imagevector.ImageVector.FindImage], with the image as a string. *)
Definition ImageVector := string -> string + error.

(** [client.Client]: its API calls are effects; its scheme gives the strict
    universal decoder. *)
Record Client := mkClient { client_UniversalDecoder : string -> config.EnvoyGatewayConfig + error }.

(** gateway_guard.go: [GatewayLister].  The deadline of the context is a number
    of polling intervals. *)
Record GatewayLister := {
  ListGateways : string -> IO (list string);
  ClearGatewayClassFinalizer : string -> IO unit;
  DeleteGateways : string -> IO unit;
  WaitUntilGatewaysDeleted : nat -> string -> IO unit;
}.

(** dataplane_netpol.go: [DataPlaneNetworkPolicyReconciler]. *)
Record DataPlaneNetworkPolicyReconciler := { PruneReconcile : string -> IO unit }.

(** netpol_deployer.go: [NetpolControllerDeployer]. *)
Record NetpolControllerDeployer := {
  Ensure : Cluster -> string -> IO unit;
  Teardown : string -> IO unit;
  ScaleDown : string -> IO unit;
}.

(** orphan_sweep.go: [OrphanDataPlaneSweeper]. *)
Record OrphanDataPlaneSweeper := { Sweep : string -> IO unit }.
