(* ===== verification/Secrets.v ===== *)
(** * The secrets handed to the secrets-manager (pkg/envoygateway/secrets.go) *)

From S2P Require Import Prelude GoStd Errors Effects KubeObjects Constants.

(** [SecretConfigs]. *)
Definition SecretConfigs : list SecretConfigWithOptions :=
  [ mkSecretConfig (CertificateSecretConfig CASecretName CASecretName [] CACert false) [Persist];
    mkSecretConfig
      (CertificateSecretConfig XDSServerCertSecretName DeploymentName
         [DeploymentName; DeploymentName +:+ "." +:+ Namespace; DeploymentName +:+ "." +:+ Namespace +:+ ".svc"]
         ServerCert true)
      [SignedByCA CASecretName];
    mkSecretConfig (CertificateSecretConfig EnvoyClientCertSecretName EnvoySecretName [] ClientCert true)
      [SignedByCA CASecretName];
    mkSecretConfig (HMACSecretConfig HMACSecretName) [Persist] ].

(** [GetName]. *)
Definition configName (c : SecretConfig) : string :=
  match c with
  | CertificateSecretConfig name _ _ _ _ => name
  | HMACSecretConfig name => name
  end.

(** [HMACSecretConfig.Generate]: [rand.Read] fills the buffer or fails. *)
Definition Generate (rand : nat -> string + error) : string + error :=
  match rand hmacSecretLength with
  | inr err => inr err
  | inl key => inl key
  end.

(** [hmacKey.SecretData]. *)
Definition SecretData (key : string) : gmap string string := {[ HMACSecretKey := key ]}.

Definition configsNames : list string := (configName ∘ sco_Config) <$> SecretConfigs.

(** What a secrets-manager needs: distinct names, and every signing CA among
    the CA certificates of the list. *)
Definition signers (c : SecretConfigWithOptions) : list string :=
  o ← sco_Options c; match o with SignedByCA ca => [ca] | Persist => [] end.

Definition isCA (c : SecretConfigWithOptions) (name : string) : Prop :=
  match sco_Config c with
  | CertificateSecretConfig n _ _ CACert _ => n = name
  | _ => False
  end.

(** the secret configurations are well formed: their names are distinct,
    every leaf certificate is signed by a CA of the same list, the server
    certificate covers every in-cluster DNS name of the xDS Service, and exactly
    the CA and the HMAC key are persisted. *)
Theorem SecretConfigs_well_formed :
  NoDup configsNames /\
  (forall c ca, c ∈ SecretConfigs -> ca ∈ signers c -> exists d, d ∈ SecretConfigs /\ isCA d ca) /\
  (forall c n cn dns t skip, c ∈ SecretConfigs -> sco_Config c = CertificateSecretConfig n cn dns t skip ->
     t <> CACert -> signers c = [CASecretName]) /\
  (forall c cn dns t skip, c ∈ SecretConfigs ->
     sco_Config c = CertificateSecretConfig XDSServerCertSecretName cn dns t skip ->
     t = ServerCert /\ cn ∈ dns /\ cn +:+ "." +:+ Namespace +:+ ".svc" ∈ dns) /\
  (forall c, c ∈ SecretConfigs -> Persist ∈ sco_Options c <->
     configName (sco_Config c) = CASecretName \/ configName (sco_Config c) = HMACSecretName).
Proof.
  split_and!.
  - refine (bool_decide_unpack (NoDup configsNames) _). by vm_compute.
  - intros c ca Hc Hs. assert (ca = CASecretName) as ->.
    { repeat (apply elem_of_cons in Hc as [->|Hc]; [set_solver|]). set_solver. }
    exists (mkSecretConfig (CertificateSecretConfig CASecretName CASecretName [] CACert false) [Persist]).
    split; [left|done].
  - intros c n cn dns t skip Hc Heq Ht.
    repeat (apply elem_of_cons in Hc as [->|Hc]; [by simplify_eq/=|]). set_solver.
  - intros c cn dns t skip Hc Heq.
    repeat (apply elem_of_cons in Hc as [->|Hc]; [try by simplify_eq/=|]); [|set_solver].
    simplify_eq/=. split; [done|]. set_solver.
  - intros c Hc.
    repeat (apply elem_of_cons in Hc as [->|Hc];
      [simpl; split; [intros Hin; first [by left|by right|set_solver]
                     |intros [Heq|Heq]; first [discriminate Heq|left]]|]).
    set_solver.
Qed.
