(* ===== verification/Manifests.v ===== *)
(** * The shipped objects (pkg/envoygateway/deployer.go)

    The typed objects of the envoy-gateway control plane, its RBAC and its
    Secrets, as the methods of [Deployer] build them. *)

From S2P Require Import Prelude GoStd Errors Effects KubeObjects Constants Config External.
From S2P Require Import Interfaces.

(** ** Configuration *)

(** [Config]. *)
Record Config := mkConfig {
  ControlPlaneReplicas : option Z;
  ControlPlaneLogLevel : string;
  DataPlaneReplicas : option Z;
  DataPlaneLogLevel : string;
  ExperimentalFeatures : bool;
  ManageCRDs : bool;
  EnvoyProxyDefaults : option config.EnvoyProxyDefaults;
  ShootKubernetesVersion : string;
  ManageDataPlaneNetworkPolicies : bool;
}.

Definition DefaultConfig : Config :=
  mkConfig None LogLevelInfo None LogLevelInfo false true None "" false.

(** [TLSBundle]; [[]byte] as a string. *)
Record TLSBundle := mkTLSBundle {
  CertPEM : string;
  KeyPEM : string;
  CAPEM : string;
  ClientCertPEM : string;
  ClientKeyPEM : string;
  HMACBytes : string;
}.

(** ** Labels *)

Definition commonLabels : labels :=
  {[ LabelName := DeploymentName; LabelInstance := DeploymentName;
     LabelComponent := LabelComponentValue; LabelManagedBy := LabelManagedByValue ]}.

Definition podNetworkLabels : labels :=
  {[ "networking.gardener.cloud/to-apiserver"%string := labelValueAllowed;
     "networking.gardener.cloud/to-dns"%string := labelValueAllowed;
     "networking.gardener.cloud/to-public-networks"%string := labelValueAllowed ]}.

(** The control-plane pods. *)
Definition controlPlaneSelector : labels :=
  {[ LabelName := DeploymentName; LabelInstance := DeploymentName ]}.

(** ** Typed objects *)

Definition serviceAccount : ServiceAccount :=
  {| sa_Name := ServiceAccountName; sa_Namespace := Namespace; sa_Labels := commonLabels |}.

(** The rendered server configuration. *)
Definition serverConfig (logLevel : string) : string :=
  "apiVersion: gateway.envoyproxy.io/v1alpha1" +:+ nl +:+
  "kind: EnvoyGateway" +:+ nl +:+
  "logging:" +:+ nl +:+
  "  level:" +:+ nl +:+
  "    default: " +:+ logLevel +:+ nl +:+
  "provider:" +:+ nl +:+
  "  type: Kubernetes" +:+ nl +:+
  "  kubernetes:" +:+ nl +:+
  "    deploy:" +:+ nl +:+
  "      type: " +:+ DeployModeGatewayNamespace +:+ nl.

Definition configMap (cfg : Config) : ConfigMap :=
  let logLevel := if decide (ControlPlaneLogLevel cfg = "") then LogLevelInfo else ControlPlaneLogLevel cfg in
  {| cm_Name := ConfigMapName; cm_Namespace := Namespace; cm_Labels := commonLabels;
     cm_Data := {[ ConfigFileName := serverConfig logLevel ]} |}.

Definition tlsSecret (tls : TLSBundle) : Secret :=
  {| sec_Name := TLSSecretName; sec_Namespace := Namespace; sec_Labels := commonLabels;
     sec_Type := SecretTypeTLS;
     sec_Data := {[ "tls.crt"%string := CertPEM tls; "tls.key"%string := KeyPEM tls;
                    "ca.crt"%string := CAPEM tls ]} |}.

Definition envoyClientSecret (tls : TLSBundle) : Secret :=
  {| sec_Name := EnvoySecretName; sec_Namespace := Namespace; sec_Labels := commonLabels;
     sec_Type := SecretTypeTLS;
     sec_Data := {[ "tls.crt"%string := ClientCertPEM tls; "tls.key"%string := ClientKeyPEM tls;
                    "ca.crt"%string := CAPEM tls ]} |}.

Definition hmacSecret (tls : TLSBundle) : Secret :=
  {| sec_Name := HMACSecretName; sec_Namespace := Namespace; sec_Labels := commonLabels;
     sec_Type := SecretTypeOpaque;
     sec_Data := {[ HMACSecretKey := HMACBytes tls ]} |}.

(** *** RBAC *)

Definition readVerbs : list string := [verbGet; verbList; verbWatch].
Definition crudVerbs : list string :=
  [verbGet; verbList; verbWatch; verbCreate; verbUpdate; verbPatch; verbDelete].
Definition infraVerbs : list string := crudVerbs ++ [verbDeleteCollection].

Definition clusterRole : Role :=
  {| role_Name := ClusterRoleName; role_Namespace := None; role_Labels := commonLabels;
     role_Rules :=
       [ mkPolicyRule [""%string] ["namespaces"; "nodes"]%string readVerbs;
         mkPolicyRule [""%string] ["endpoints"; "secrets"]%string crudVerbs;
         mkPolicyRule [""%string] ["serviceaccounts"; "services"; "configmaps"]%string infraVerbs;
         mkPolicyRule ["discovery.k8s.io"%string] ["endpointslices"%string] readVerbs;
         mkPolicyRule ["apps"%string] ["deployments"; "daemonsets"]%string infraVerbs;
         mkPolicyRule ["autoscaling"%string] ["horizontalpodautoscalers"%string] infraVerbs;
         mkPolicyRule ["policy"%string] ["poddisruptionbudgets"%string] infraVerbs;
         mkPolicyRule ["authentication.k8s.io"%string] ["tokenreviews"%string] [verbCreate];
         mkPolicyRule [APIGroupGatewayAPI] ["gatewayclasses"%string]
           [verbGet; verbList; verbWatch; verbPatch; verbUpdate];
         mkPolicyRule [APIGroupGatewayAPI]
           ["gateways"; "httproutes"; "grpcroutes"; "tcproutes"; "tlsroutes"; "udproutes";
            "referencegrants"; "backendtlspolicies"; "listenersets"]%string readVerbs;
         mkPolicyRule [APIGroupGatewayAPI]
           ["gatewayclasses/status"; "gateways/status"; "httproutes/status"; "grpcroutes/status";
            "tcproutes/status"; "tlsroutes/status"; "udproutes/status"; "backendtlspolicies/status";
            "listenersets/status"]%string [verbUpdate; verbPatch];
         mkPolicyRule [apiGroupEnvoyGateway]
           ["envoyproxies"; "envoypatchpolicies"; "clienttrafficpolicies"; "backendtrafficpolicies";
            "securitypolicies"; "envoyextensionpolicies"; "backends"; "httproutefilters"]%string readVerbs;
         mkPolicyRule [apiGroupEnvoyGateway]
           ["envoyproxies/status"; "envoypatchpolicies/status"; "clienttrafficpolicies/status";
            "backendtrafficpolicies/status"; "securitypolicies/status"; "envoyextensionpolicies/status";
            "backends/status"]%string [verbUpdate; verbPatch] ] |}.

Definition clusterRoleBinding : RoleBinding :=
  {| rb_Name := ClusterRoleName; rb_Namespace := None; rb_Labels := commonLabels;
     rb_RoleRef := {| ref_APIGroup := apiGroupRBAC; ref_Kind := kindClusterRole; ref_Name := ClusterRoleName |};
     rb_Subjects := [ {| subj_Kind := kindServiceAccount; subj_Name := ServiceAccountName;
                         subj_Namespace := Namespace |} ] |}.

Definition netpolControllerServiceAccount : ServiceAccount :=
  {| sa_Name := NetpolControllerServiceAccountName; sa_Namespace := Namespace; sa_Labels := commonLabels |}.

Definition netpolControllerClusterRole : Role :=
  {| role_Name := NetpolControllerClusterRoleName; role_Namespace := None; role_Labels := commonLabels;
     role_Rules :=
       [ mkPolicyRule [APIGroupGatewayAPI] ["gateways"%string] readVerbs;
         mkPolicyRule ["networking.k8s.io"%string] ["networkpolicies"%string] crudVerbs ] |}.

Definition netpolControllerClusterRoleBinding : RoleBinding :=
  {| rb_Name := NetpolControllerClusterRoleName; rb_Namespace := None; rb_Labels := commonLabels;
     rb_RoleRef := {| ref_APIGroup := apiGroupRBAC; ref_Kind := kindClusterRole;
                      ref_Name := NetpolControllerClusterRoleName |};
     rb_Subjects := [ {| subj_Kind := kindServiceAccount; subj_Name := NetpolControllerServiceAccountName;
                         subj_Namespace := Namespace |} ] |}.

Definition leaderElectionRole : Role :=
  {| role_Name := LeaderElectionRoleName; role_Namespace := Some Namespace; role_Labels := commonLabels;
     role_Rules :=
       [ mkPolicyRule ["coordination.k8s.io"%string] ["leases"%string] crudVerbs;
         mkPolicyRule [""%string] ["events"%string] [verbCreate; verbPatch] ] |}.

Definition leaderElectionRoleBinding : RoleBinding :=
  {| rb_Name := LeaderElectionRoleName; rb_Namespace := Some Namespace; rb_Labels := commonLabels;
     rb_RoleRef := {| ref_APIGroup := apiGroupRBAC; ref_Kind := "Role"; ref_Name := LeaderElectionRoleName |};
     rb_Subjects := [ {| subj_Kind := kindServiceAccount; subj_Name := ServiceAccountName;
                         subj_Namespace := Namespace |} ] |}.

(** *** Workload *)

Section workload.
Context `{Libraries}.

Definition controlPlaneContainer (image : string) : Container :=
  {| c_Name := DeploymentName;
     c_Image := image;
     c_Args := ["server"%string; "--config-path=" +:+ ConfigMountPath +:+ "/" +:+ ConfigFileName];
     c_Env := [ {| env_Name := "ENVOY_GATEWAY_NAMESPACE"; env_FieldPath := "metadata.namespace" |} ];
     c_VolumeMounts :=
       [ mkMount "config" ConfigMountPath true; mkMount "certs" "/certs" true;
         mkMount "wasm-cache" "/var/lib/eg" false ];
     c_Ports :=
       [ mkContainerPort "grpc-xds" 18000 ProtocolTCP; mkContainerPort "metrics" 19001 ProtocolTCP;
         mkContainerPort "health" 8081 ProtocolTCP ];
     c_LivenessProbe :=
       Some {| probe_Path := "/healthz"; probe_Port := FromInt 8081;
               probe_InitialDelaySeconds := 15; probe_PeriodSeconds := 20 |};
     c_ReadinessProbe :=
       Some {| probe_Path := "/readyz"; probe_Port := FromInt 8081;
               probe_InitialDelaySeconds := 5; probe_PeriodSeconds := 10 |};
     c_Resources :=
       {| rr_Requests := [("cpu", "100m"); ("memory", "256Mi")]%string;
          rr_Limits := [("cpu", "500m"); ("memory", "1Gi")]%string |};
     c_SecurityContext :=
       {| sc_AllowPrivilegeEscalation := false; sc_ReadOnlyRootFilesystem := true; sc_Drop := ["ALL"%string] |} |}.

Definition deployment (cfg : Config) (imageVector : ImageVector) : outcome Deployment :=
  match imageVector ImageName with
  | inr err => Err (wrapError "failed to find envoy-gateway image in image vector: " err "")
  | inl image =>
      Ok (mkDeployment DeploymentName Namespace commonLabels
        {| ds_Replicas := match ControlPlaneReplicas cfg with None => Some 2%Z | r => r end;
           ds_Selector := mkSelector controlPlaneSelector [];
           ds_TemplateLabels := podNetworkLabels ∪ commonLabels;
           ds_TemplateSpec :=
             {| ps_ServiceAccountName := ServiceAccountName;
                ps_PodAntiAffinity :=
                  [ {| pat_Weight := 100; pat_TopologyKey := LabelHostname;
                       pat_LabelSelector := mkSelector controlPlaneSelector [] |} ];
                ps_TopologySpreadConstraints :=
                  [ {| tsc_MaxSkew := 1; tsc_TopologyKey := LabelTopologyZone;
                       tsc_WhenUnsatisfiable := ScheduleAnyway;
                       tsc_LabelSelector := mkSelector controlPlaneSelector [] |} ];
                ps_SecurityContext :=
                  {| psc_RunAsNonRoot := true; psc_RunAsUser := 65532;
                     psc_RunAsGroup := 65532; psc_FSGroup := 65532 |};
                ps_Volumes :=
                  [ mkVolume "config" (ConfigMapVolume ConfigMapName);
                    mkVolume "certs" (SecretVolume TLSSecretName);
                    mkVolume "wasm-cache" (EmptyDirVolume "100Mi") ];
                ps_Containers := [controlPlaneContainer image] |} |})
  end.
End workload.

Definition service : Service :=
  {| svc_Name := DeploymentName; svc_Namespace := Namespace; svc_Labels := commonLabels;
     svc_Type := "ClusterIP"; svc_Selector := controlPlaneSelector;
     svc_Ports :=
       [ mkServicePort "grpc-xds" 18000 (FromString "grpc-xds") ProtocolTCP;
         mkServicePort "metrics" 19001 (FromString "metrics") ProtocolTCP ] |}.

Definition podDisruptionBudget : PodDisruptionBudget :=
  {| pdb_Name := DeploymentName; pdb_Namespace := Namespace; pdb_Labels := commonLabels;
     pdb_MinAvailable := FromInt 1; pdb_Selector := mkSelector controlPlaneSelector [];
     pdb_UnhealthyPodEvictionPolicy := "AlwaysAllow" |}.

Definition networkPolicy : NetworkPolicy :=
  mkNetworkPolicy DeploymentName Namespace commonLabels
    {| nps_PodSelector := mkSelector controlPlaneSelector [];
       nps_PolicyTypes := [PolicyTypeIngress];
       nps_Ingress :=
         [ mkRule
             [ mkPeer (Some (mkSelector ∅ []))
                 (Some (mkSelector {[ LabelManagedBy := EnvoyProxyManagedByValue;
                                      LabelName := EnvoyProxyNameValue ]} [])) ]
             [ mkPort ProtocolTCP (FromInt XDSPort); mkPort ProtocolTCP (FromInt 19001) ] ];
       nps_Egress := [] |}.

Definition gatewayClass : GatewayClass :=
  {| gc_Name := GatewayClassName;
     gc_Labels := {[ LabelName := DeploymentName; LabelInstance := DeploymentName;
                     LabelManagedBy := LabelManagedByValue ]};
     gc_Finalizers := [];
     gc_ControllerName := GatewayClassControllerName;
     gc_ParametersRef :=
       Some {| pr_Group := "gateway.envoyproxy.io"; pr_Kind := "EnvoyProxy";
               pr_Name := EnvoyProxyDefaultsName; pr_Namespace := Some Namespace |} |}.
