(* ===== verification/Deployer.v ===== *)
(** * The deployer (pkg/envoygateway/deployer.go)

    Rendering the manifests, splitting the embedded CRD bundles, assembling the
    resources of the ManagedResource, and creating and deleting it. *)

From Stdlib Require Import Ascii.
From S2P Require Import Prelude GoStd Errors Effects KubeObjects Constants Config External.
From S2P Require Import Interfaces Manifests.

(** ** The EnvoyProxy guard *)

(** [fieldAbsentExpression]: the terms for the path and its prefixes. *)
Fixpoint absentTerms (path : string) (parts : list string) : list string :=
  match parts with
  | [] => []
  | p :: parts => ("!has(" +:+ path +:+ "." +:+ p +:+ ")") :: absentTerms (path +:+ "." +:+ p) parts
  end.

Definition fieldAbsentExpression (workload field : string) : string :=
  let parts := Split field "."%char in
  Join (("variables." +:+ workload +:+ " == null") :: absentTerms ("variables." +:+ workload) parts) " || ".

Definition guardedFields : list string :=
  ["patch"; "initContainers"; "pod.volumes"; "container.volumeMounts"; "pod.securityContext";
   "container.securityContext"]%string.

(** The workloads as variable and display name. *)
Definition workloads : list (string * string) :=
  [("deploy", "envoyDeployment"); ("daemonset", "envoyDaemonSet")]%string.

Definition guardLabels : labels :=
  {[ LabelManagedBy := LabelManagedByValue; LabelName := EnvoyProxyManagedByValue ]}.

Definition validations : list Validation :=
  field ← guardedFields;
  workload ← workloads;
  [ {| val_Expression := fieldAbsentExpression workload.1 field;
       val_Reason := "Forbidden";
       val_Message := workload.2 +:+ "." +:+ field +:+ " is not permitted on EnvoyProxy" |} ].

Definition envoyProxyGuard : ValidatingAdmissionPolicy * ValidatingAdmissionPolicyBinding :=
  ( {| vap_Name := EnvoyProxyGuardPolicyName;
       vap_Labels := guardLabels;
       vap_FailurePolicy := Fail_;
       vap_ResourceRules :=
         [ {| rwo_Operations := ["CREATE"; "UPDATE"]%string; rwo_APIGroups := [apiGroupEnvoyGateway];
              rwo_APIVersions := ["v1alpha1"%string]; rwo_Resources := ["envoyproxies"%string] |} ];
       vap_Variables :=
         [ {| var_Name := "k8s";
              var_Expression := "has(object.spec) && has(object.spec.provider) && has(object.spec.provider.kubernetes) ? object.spec.provider.kubernetes : null" |};
           {| var_Name := "deploy";
              var_Expression := "variables.k8s != null && has(variables.k8s.envoyDeployment) ? variables.k8s.envoyDeployment : null" |};
           {| var_Name := "daemonset";
              var_Expression := "variables.k8s != null && has(variables.k8s.envoyDaemonSet) ? variables.k8s.envoyDaemonSet : null" |} ];
       vap_Validations := validations |},
    {| vapb_Name := EnvoyProxyGuardPolicyName;
       vapb_Labels := guardLabels;
       vapb_PolicyName := EnvoyProxyGuardPolicyName;
       vapb_ValidationActions := ["Deny"%string];
       vapb_NamespaceSelector :=
         mkSelector ∅ [ {| lsr_Key := "kubernetes.io/metadata.name"; lsr_Operator := OpNotIn;
                           lsr_Values := [Namespace] |} ] |} ).

Section deployer.
Context `{Libraries}.

(** [validatingAdmissionPolicySupported]. *)
Definition validatingAdmissionPolicySupported (cfg : Config) : bool :=
  if decide (ShootKubernetesVersion cfg = ""%string) then false
  else match CompareVersions (ShootKubernetesVersion cfg) ">=" "1.30" with
       | inl atLeast130 => atLeast130
       | inr _ => false
       end.

(** ** Rendering *)

Definition indentYAML (s : string) (n : nat) (header : string) : string :=
  let pad := Repeat " " n in
  pad +:+ header +:+
  foldr (fun line b => if decide (line = ""%string) then b else pad +:+ "  " +:+ line +:+ nl +:+ b) ""%string
    (Split (TrimRightNl s) newline).

Definition marshalResources (r : ResourceRequirements) : string :=
  match MarshalResources r with
  | inl out => out
  | inr _ => ""
  end.

Definition accessLogging (cfg : Config) : bool :=
  match EnvoyProxyDefaults cfg with
  | Some d => config.epd_AccessLogging d
  | None => false
  end.

Definition proxyResources (cfg : Config) : option ResourceRequirements :=
  d ← EnvoyProxyDefaults cfg; config.epd_Resources d.

Definition envoyProxyDefaultsYAML (cfg : Config) : string :=
  "apiVersion: gateway.envoyproxy.io/v1alpha1" +:+ nl +:+
  "kind: EnvoyProxy" +:+ nl +:+
  "metadata:" +:+ nl +:+
  "  name: " +:+ EnvoyProxyDefaultsName +:+ nl +:+
  "  namespace: " +:+ Namespace +:+ nl +:+
  "  labels:" +:+ nl +:+
  "    " +:+ LabelName +:+ ": " +:+ DeploymentName +:+ nl +:+
  "    " +:+ LabelInstance +:+ ": " +:+ DeploymentName +:+ nl +:+
  "    " +:+ LabelManagedBy +:+ ": " +:+ LabelManagedByValue +:+ nl +:+
  "spec:" +:+ nl +:+
  (if decide (DataPlaneLogLevel cfg = ""%string) then ""%string
   else "  logging:" +:+ nl +:+ "    level:" +:+ nl +:+
        "      default: " +:+ DataPlaneLogLevel cfg +:+ nl) +:+
  (if accessLogging cfg
   then "  telemetry:" +:+ nl +:+ "    accessLog:" +:+ nl +:+ "      settings:" +:+ nl +:+
        "      - format:" +:+ nl +:+ "          type: Text" +:+ nl
   else ""%string) +:+
  "  provider:" +:+ nl +:+ "    type: Kubernetes" +:+ nl +:+ "    kubernetes:" +:+ nl +:+
  "      envoyDeployment:" +:+ nl +:+
  (match DataPlaneReplicas cfg with
   | Some replicas => "        replicas: " +:+ fmt_d replicas +:+ nl
   | None => ""%string
   end) +:+
  (match proxyResources cfg with
   | Some r => indentYAML (marshalResources r) 8 ("container:" +:+ nl)
   | None => ""%string
   end) +:+
  "        pod:" +:+ nl +:+ "          labels:" +:+ nl +:+
  "            networking.gardener.cloud/to-dns: allowed" +:+ nl +:+
  "            networking.gardener.cloud/to-public-networks: allowed" +:+ nl.

(** ** CRDs *)

(** [keepGroups == nil || slices.Contains(keepGroups, group)]. *)
Definition keeps (keepGroups : option (list string)) (group : string) : bool :=
  match keepGroups with
  | None => true
  | Some groups => bool_decide (group ∈ groups)
  end.

(** The loop of [splitCRDs] over the decoded documents. *)
Fixpoint splitDocuments (prefix : string) (keepGroups : option (list string))
    (docs : list (CRD + error)) (result : gmap string string) : outcome (gmap string string) :=
  match docs with
  | [] => Ok result
  | inr _ :: docs => splitDocuments prefix keepGroups docs result
  | inl crd :: docs =>
      if decide (crd_Kind crd <> "CustomResourceDefinition"%string \/ crd_Name crd = ""%string) then
        splitDocuments prefix keepGroups docs result
      else if negb (keeps keepGroups (crd_Group crd)) then splitDocuments prefix keepGroups docs result
      else match MarshalCRD crd with
           | inr err => Err (wrapError ("failed to marshal CRD " +:+ crd_Name crd +:+ ": ") err "")
           | inl data =>
               splitDocuments prefix keepGroups docs
                 (<["crd-" +:+ prefix +:+ "-" +:+ crd_Name crd +:+ ".yaml" := data]> result)
           end
  end.

Definition splitCRDs (raw prefix : string) (keepGroups : option (list string)) : outcome (gmap string string) :=
  if all_space raw then Ok ∅
  else splitDocuments prefix keepGroups (decodeDocuments raw) ∅.

(** [maps.Copy(resources, crds)], when the split succeeded. *)
Definition copyCRDs (crds : outcome (gmap string string)) (resources : gmap string string) : gmap string string :=
  match crds with
  | Ok crds => crds ∪ resources
  | _ => resources
  end.

Definition addCRDs (cfg : Config) (resources : gmap string string) : gmap string string :=
  let resources := copyCRDs (splitCRDs gatewayAPIStandardYAML "gateway-api" None) resources in
  let resources :=
    if ExperimentalFeatures cfg
    then copyCRDs (splitCRDs gatewayAPIExperimentalYAML "gateway-api-experimental" None) resources
    else resources in
  copyCRDs (splitCRDs envoyGatewayCRDsYAML "envoy-gateway" (Some [apiGroupEnvoyGateway])) resources.

(** ** The resources *)

Definition encode (name : string) (obj : Object) (resources : gmap string string) : outcome (gmap string string) :=
  match Encode obj with
  | inr err => Err (wrapError ("failed to encode " +:+ name +:+ ": ") err "")
  | inl data => Ok (<[name := data]> resources)
  end.

Fixpoint encodeAll (objects : list (string * Object)) (resources : gmap string string) : outcome (gmap string string) :=
  match objects with
  | [] => Ok resources
  | o :: objects => resources ← encode o.1 o.2 resources; encodeAll objects resources
  end.

Fixpoint encodeDocs (objs : list Object) : outcome (list string) :=
  match objs with
  | [] => Ok []
  | obj :: objs =>
      match Encode obj with
      | inr err => Err (wrapError "failed to encode object: " err "")
      | inl data => docs ← encodeDocs objs; Ok (TrimRightNl data :: docs)
      end
  end.

Definition encodeObjects (objs : list Object) : outcome string :=
  docs ← encodeDocs objs; Ok (Join docs (nl +:+ "---" +:+ nl)).

Definition objects (cfg : Config) (deploy : Deployment) : list (string * Object) :=
  [ ("serviceaccount.yaml", ObjServiceAccount serviceAccount);
    ("configmap.yaml", ObjConfigMap (configMap cfg));
    ("clusterrole.yaml", ObjRole clusterRole);
    ("clusterrolebinding.yaml", ObjRoleBinding clusterRoleBinding);
    ("role.yaml", ObjRole leaderElectionRole);
    ("rolebinding.yaml", ObjRoleBinding leaderElectionRoleBinding);
    ("deployment.yaml", ObjDeployment deploy);
    ("service.yaml", ObjService service);
    ("poddisruptionbudget.yaml", ObjPodDisruptionBudget podDisruptionBudget);
    ("networkpolicy.yaml", ObjNetworkPolicy networkPolicy);
    ("gatewayclass.yaml", ObjGatewayClass gatewayClass) ]%string.

Definition netpolObjects : list (string * Object) :=
  [ ("netpol-controller-serviceaccount.yaml", ObjServiceAccount netpolControllerServiceAccount);
    ("netpol-controller-clusterrole.yaml", ObjRole netpolControllerClusterRole);
    ("netpol-controller-clusterrolebinding.yaml", ObjRoleBinding netpolControllerClusterRoleBinding) ]%string.

(** [len(b) > 0]. *)
Definition present (b : string) : bool := bool_decide (b <> ""%string).

Definition buildResources (cfg : Config) (imageVector : ImageVector) (tls : TLSBundle) :
    outcome (gmap string string) :=
  deploy ← deployment cfg imageVector;
  resources ← encodeAll (objects cfg deploy) ∅;
  resources ←
    (if present (CertPEM tls) || present (KeyPEM tls) || present (CAPEM tls)
     then encode "secret-tls.yaml" (ObjSecret (tlsSecret tls)) resources else Ok resources);
  resources ←
    (if present (ClientCertPEM tls) && present (ClientKeyPEM tls) && present (CAPEM tls)
     then encode "secret-envoy.yaml" (ObjSecret (envoyClientSecret tls)) resources else Ok resources);
  resources ←
    (if present (HMACBytes tls)
     then encode "secret-hmac.yaml" (ObjSecret (hmacSecret tls)) resources else Ok resources);
  let resources := <["envoyproxy-defaults.yaml"%string := envoyProxyDefaultsYAML cfg]> resources in
  resources ←
    (if validatingAdmissionPolicySupported cfg
     then vap ← encodeObjects
                  [ ObjValidatingAdmissionPolicy envoyProxyGuard.1;
                    ObjValidatingAdmissionPolicyBinding envoyProxyGuard.2 ];
          Ok (<["validatingadmissionpolicy.yaml"%string := vap]> resources)
     else Ok resources);
  let resources := if ManageCRDs cfg then addCRDs cfg resources else resources in
  if ManageDataPlaneNetworkPolicies cfg then encodeAll netpolObjects resources else Ok resources.

(** [GenerateResources]. *)
Definition GenerateResources (cfg : Config) (imageVector : ImageVector) : outcome (gmap string string) :=
  buildResources cfg imageVector (mkTLSBundle "" "" "" "" "" "").

(** ** The ManagedResource *)

Definition Deploy (cfg : Config) (imageVector : ImageVector) (namespace : string) (tls : TLSBundle) : IO unit :=
  resources ← wrapf "failed to generate envoy-gateway resources: " (Ret (buildResources cfg imageVector tls));
  serialized ← wrapf "failed to serialize envoy-gateway manifests: " (request (SerializedObjects resources));
  wrapf "failed to create or update managed resource: "
    (request (CreateForShoot namespace ManagedResourceName ManagedResourceName false serialized)).

End deployer.

Definition deleteManagedResource (namespace : string) : IO unit :=
  wrapf "failed to delete managed resource: "
    (request (DeleteManagedResource namespace ManagedResourceName true)) ;;
  wrapf "timed out waiting for managed resource to be deleted: "
    (request (WaitUntilManagedResourceDeleted namespace ManagedResourceName ManagedResourceDeletionTimeout)).

(** [Deployer.Delete]. *)
Definition DeployerDelete (namespace : string) : IO unit := deleteManagedResource namespace.

Definition DeleteKeepingObjects (namespace : string) : IO unit :=
  wrapf "failed to set keepObjects on managed resource: "
    (ignoreNotFound (request (SetKeepObjects namespace ManagedResourceName true))) ;;
  deleteManagedResource namespace.

(** ** Results are never panics *)

Section not_panic.
Context `{Libraries}.

Lemma encode_not_panic name obj resources : not_panic (encode name obj resources).
Proof. unfold encode. by destruct (Encode obj). Qed.

Lemma encodeAll_not_panic l resources : not_panic (encodeAll l resources).
Proof.
  revert resources. induction l as [|o l IH]; intros resources; simpl; [done|].
  apply not_panic_bind; [apply encode_not_panic|done].
Qed.

Lemma encodeObjects_not_panic l : not_panic (encodeObjects l).
Proof.
  unfold encodeObjects. apply not_panic_bind; [|done].
  induction l as [|o l IH]; simpl; [done|]. destruct (Encode o); [|done].
  by apply not_panic_bind.
Qed.

Lemma deployment_not_panic cfg iv : not_panic (deployment cfg iv).
Proof. unfold deployment. by destruct (iv ImageName). Qed.

Lemma buildResources_not_panic cfg iv tls : not_panic (buildResources cfg iv tls).
Proof.
  unfold buildResources.
  repeat first [apply encode_not_panic|apply encodeAll_not_panic|apply encodeObjects_not_panic|
                apply deployment_not_panic|done|apply not_panic_bind; [|intros ?]|case_goal].
Qed.

(** A successful [Deploy] shipped the built resources. *)
Lemma Deploy_ships cfg iv ns tls t :
  runs (Deploy cfg iv ns tls) t (Ok tt) ->
  exists resources data, buildResources cfg iv tls = Ok resources /\
    ev (SerializedObjects resources) (inl data) ∈ t /\
    ev (CreateForShoot ns ManagedResourceName ManagedResourceName false data) (inl tt) ∈ t.
Proof.
  intros Hr. unfold Deploy in Hr.
  apply runs_bind in Hr as [(t1&resources&t2&->&Hb&Hr)|[(?&?&?)|(?&?&?)]]; [|done..].
  apply runs_wrapf_Ok in Hb as [-> Hb].
  apply runs_bind in Hr as [(t3&data&t4&->&Hs&Hr)|[(?&?&?)|(?&?&?)]]; [|done..].
  apply runs_wrapf_Ok in Hs as (x&t5&->&Hs). apply runs_wrapf_Ok in Hr as (y&t6&->&Hr).
  destruct x as [data'|e]; [|by destruct Hs]. destruct Hs as [-> [= <-]].
  destruct y as [[]|e]; [|by destruct Hr]. destruct Hr as [-> _].
  exists resources, data. split; [done|]. set_solver.
Qed.
End not_panic.

Section no_panic_deploy.
Context `{Libraries}.

Lemma Deploy_no_panic cfg iv ns tls : no_panic (Deploy cfg iv ns tls).
Proof.
  unfold Deploy. no_panic_auto; auto with effects. by apply buildResources_not_panic.
Qed.

Lemma deleteManagedResource_no_panic ns : no_panic (deleteManagedResource ns).
Proof. unfold deleteManagedResource. no_panic_auto; auto with effects. Qed.

Lemma DeleteKeepingObjects_no_panic ns : no_panic (DeleteKeepingObjects ns).
Proof. unfold DeleteKeepingObjects, deleteManagedResource. no_panic_auto; auto with effects. Qed.
End no_panic_deploy.
