(* ===== verification/DeployerProps.v ===== *)
(** * Properties of the deployer

    Which resources are shipped and under which conditions, how the CRD bundles
    are split, and what the EnvoyProxy guard checks. *)

From Stdlib Require Import Ascii.
From S2P Require Import Prelude GoStd Errors Effects KubeObjects Constants Config External.
From S2P Require Import Interfaces Manifests Deployer.

(** ** Splitting CRD bundles *)

Section crds.
Context `{Libraries}.

Definition crdKey (prefix name : string) : string := "crd-" +:+ prefix +:+ "-" +:+ name +:+ ".yaml".

(** The documents [splitCRDs] keeps. *)
Definition kept (keepGroups : option (list string)) (d : CRD + error) : option CRD :=
  match d with
  | inl crd =>
      if decide (crd_Kind crd = "CustomResourceDefinition"%string /\ crd_Name crd <> ""%string /\
                 keeps keepGroups (crd_Group crd) = true)
      then Some crd else None
  | inr _ => None
  end.

Definition keptCRDs (raw : string) (keepGroups : option (list string)) : list CRD :=
  if all_space raw then [] else omap (kept keepGroups) (decodeDocuments raw).

Lemma splitDocuments_kept prefix g d docs result :
  splitDocuments prefix g (d :: docs) result =
  match kept g d with
  | None => splitDocuments prefix g docs result
  | Some crd =>
      match MarshalCRD crd with
      | inr err => Err (wrapError ("failed to marshal CRD " +:+ crd_Name crd +:+ ": ") err "")
      | inl data => splitDocuments prefix g docs (<[crdKey prefix (crd_Name crd) := data]> result)
      end
  end.
Proof.
  destruct d as [crd|e]; simpl; [|done].
  destruct (decide (crd_Kind crd <> "CustomResourceDefinition"%string \/ crd_Name crd = ""%string)) as [Hs|Hs].
  - rewrite decide_False; [done|]. naive_solver.
  - destruct (keeps g (crd_Group crd)) eqn:Hk; simpl.
    + rewrite decide_True; [done|]. destruct (decide (crd_Kind crd = "CustomResourceDefinition"%string)); naive_solver.
    + rewrite decide_False; [done|]. naive_solver.
Qed.

(** The entries a list of kept CRDs gives, later ones winning. *)
Definition entriesOf (prefix : string) (crds : list CRD) (m : gmap string string) : Prop :=
  (forall k, is_Some (m !! k) <-> exists crd, crd ∈ crds /\ k = crdKey prefix (crd_Name crd)) /\
  (forall k v, m !! k = Some v -> exists crd, crd ∈ crds /\ k = crdKey prefix (crd_Name crd) /\ MarshalCRD crd = inl v).

Lemma entriesOf_insert prefix seen m crd data :
  MarshalCRD crd = inl data -> entriesOf prefix seen m ->
  entriesOf prefix (seen ++ [crd]) (<[crdKey prefix (crd_Name crd) := data]> m).
Proof.
  intros Hm [Hd Hv]. split.
  - intros k. rewrite lookup_insert. case_decide as Hk.
    + split; [intros _; exists crd; set_solver|by eauto].
    + rewrite Hd. set_solver.
  - intros k v. rewrite lookup_insert. case_decide as Hk.
    + intros [= <-]. exists crd. set_solver.
    + intros (crd'&?&?&?)%Hv. exists crd'. set_solver.
Qed.

Lemma splitDocuments_spec prefix g docs result seen :
  entriesOf prefix seen result ->
  match splitDocuments prefix g docs result with
  | Ok m => entriesOf prefix (seen ++ omap (kept g) docs) m
  | Err e => exists crd err, crd ∈ omap (kept g) docs /\ MarshalCRD crd = inr err /\
               e = wrapError ("failed to marshal CRD " +:+ crd_Name crd +:+ ": ") err ""
  | Panic _ => False
  end.
Proof.
  revert result seen. induction docs as [|d docs IH]; intros result seen Hinv.
  - simpl. by rewrite app_nil_r.
  - rewrite splitDocuments_kept. simpl. destruct (kept g d) as [crd|]; [|by apply IH].
    destruct (MarshalCRD crd) as [data|err] eqn:Hm; [|exists crd, err; split; [by left|done]].
    specialize (IH _ _ (entriesOf_insert _ _ _ _ _ Hm Hinv)). rewrite <- app_assoc in IH.
    destruct (splitDocuments _ _ docs _) as [m|e|w]; [done| |done].
    destruct IH as (crd'&err&?&?&?). exists crd', err. split; [by right|done].
Qed.

(** C26: splitting a CRD bundle.  A bundle of whitespace gives nothing.
    Otherwise the entries are exactly those of the documents that decode as
    named CustomResourceDefinitions of a kept group, each serialised under its
    own key; documents of other kinds, and ones that do not decode, are skipped;
    the split fails exactly when a kept CRD cannot be serialised. *)
Theorem splitCRDs_spec raw prefix g :
  match splitCRDs raw prefix g with
  | Ok m => entriesOf prefix (keptCRDs raw g) m
  | Err e => exists crd err, crd ∈ keptCRDs raw g /\ MarshalCRD crd = inr err /\
               e = wrapError ("failed to marshal CRD " +:+ crd_Name crd +:+ ": ") err ""
  | Panic _ => False
  end.
Proof.
  unfold splitCRDs, keptCRDs. destruct (all_space raw).
  - split; [|done]. intros k. split; [by intros [? ?]|]. intros (?&?&_). set_solver.
  - apply (splitDocuments_spec prefix g (decodeDocuments raw) ∅ []).
    split; [|done]. intros k. split; [by intros [? ?]|]. intros (?&?&_). set_solver.
Qed.

(** ** The shipped resources *)

(** The typed objects that are to be shipped for a configuration. *)
Definition shipped (cfg : Config) (deploy : Deployment) (tls : TLSBundle) : list (string * Object) :=
  [ ("serviceaccount.yaml", ObjServiceAccount serviceAccount);
    ("configmap.yaml", ObjConfigMap (configMap cfg));
    ("clusterrole.yaml", ObjRole clusterRole);
    ("clusterrolebinding.yaml", ObjRoleBinding clusterRoleBinding);
    ("role.yaml", ObjRole leaderElectionRole);
    ("rolebinding.yaml", ObjRoleBinding leaderElectionRoleBinding);
    ("deployment.yaml", ObjDeployment deploy);
    ("service.yaml", ObjService service);
    ("poddisruptionbudget.yaml", ObjPodDisruptionBudget podDisruptionBudget);
    ("networkpolicy.yaml", ObjNetworkPolicy networkPolicy);
    ("gatewayclass.yaml", ObjGatewayClass gatewayClass) ]%string ++
  (if present (CertPEM tls) || present (KeyPEM tls) || present (CAPEM tls)
   then [("secret-tls.yaml"%string, ObjSecret (tlsSecret tls))] else []) ++
  (if present (ClientCertPEM tls) && present (ClientKeyPEM tls) && present (CAPEM tls)
   then [("secret-envoy.yaml"%string, ObjSecret (envoyClientSecret tls))] else []) ++
  (if present (HMACBytes tls) then [("secret-hmac.yaml"%string, ObjSecret (hmacSecret tls))] else []) ++
  (if ManageDataPlaneNetworkPolicies cfg
   then [ ("netpol-controller-serviceaccount.yaml", ObjServiceAccount netpolControllerServiceAccount);
          ("netpol-controller-clusterrole.yaml", ObjRole netpolControllerClusterRole);
          ("netpol-controller-clusterrolebinding.yaml", ObjRoleBinding netpolControllerClusterRoleBinding) ]%string
   else []).

(** The keys of the CRD bundles. *)
Definition isCRDKey (k : string) : bool := String.prefix "crd-" k.

(** [m] holds the encoding of every object of [l]. *)
Definition holds (l : list (string * Object)) (m : gmap string string) : Prop :=
  Forall (fun o => exists data, Encode o.2 = inl data /\ m !! o.1 = Some data) l.

Lemma encode_spec name obj m m' :
  encode name obj m = Ok m' -> exists data, Encode obj = inl data /\ m' = <[name := data]> m.
Proof. unfold encode. destruct (Encode obj); naive_solver. Qed.

Lemma encodeAll_spec l m m' :
  encodeAll l m = Ok m' -> NoDup l.*1 ->
  holds l m' /\ (forall k, k ∉ l.*1 -> m' !! k = m !! k).
Proof.
  revert m. induction l as [|[name obj] l IH]; intros m Hm Hnd; simpl in Hm.
  - injection Hm as <-. split; [constructor|done].
  - apply outcome_bind_Ok in Hm as (m1&(data&He&->)%encode_spec&Hm).
    inv Hnd. apply IH in Hm as [Hh Hk]; [|done]. split.
    + constructor; [|done]. exists data. split; [done|]. simpl. rewrite Hk by done. by rewrite lookup_insert_eq.
    + intros k Hnot. simpl in Hnot. rewrite Hk by set_solver. rewrite lookup_insert_ne; [done|set_solver].
Qed.

(** An extension of [m] that only adds CRD entries. *)
Lemma copyCRDs_lookup raw prefix g m k :
  isCRDKey k = false -> copyCRDs (splitCRDs raw prefix g) m !! k = m !! k.
Proof.
  intros Hk. unfold copyCRDs.
  assert (Hs := splitDocuments_spec prefix g (decodeDocuments raw) ∅ []).
  destruct (splitCRDs raw prefix g) as [crds|e|w] eqn:Heq; [|done..].
  rewrite lookup_union_r; [done|]. apply eq_None_not_Some. intros Hsome.
  unfold splitCRDs in Heq. destruct (all_space raw).
  { injection Heq as <-. by destruct Hsome. }
  rewrite Heq in Hs. destruct Hs as [Hd _].
  { split; [|done]. intros k'. split; [by intros [? ?]|]. intros (?&?&_). set_solver. }
  apply Hd in Hsome as (crd&_&->). unfold isCRDKey, crdKey in Hk. by rewrite prefix_app in Hk.
Qed.

Lemma addCRDs_lookup cfg m k : isCRDKey k = false -> addCRDs cfg m !! k = m !! k.
Proof.
  intros Hk. unfold addCRDs. rewrite copyCRDs_lookup by done.
  destruct (ExperimentalFeatures cfg); by rewrite ?copyCRDs_lookup.
Qed.

(** A CRD bundle: what its split gives; one that cannot be split is left out. *)
Definition bundle (raw prefix : string) (keepGroups : option (list string)) : gmap string string :=
  match splitCRDs raw prefix keepGroups with Ok crds => crds | _ => ∅ end.

(** The CRD entries of a configuration. *)
Definition crdEntries (cfg : Config) : gmap string string :=
  bundle envoyGatewayCRDsYAML "envoy-gateway" (Some ["gateway.envoyproxy.io"%string]) ∪
  ((if ExperimentalFeatures cfg then bundle gatewayAPIExperimentalYAML "gateway-api-experimental" None else ∅) ∪
   bundle gatewayAPIStandardYAML "gateway-api" None).

Lemma copyCRDs_bundle raw prefix g m : copyCRDs (splitCRDs raw prefix g) m = bundle raw prefix g ∪ m.
Proof.
  unfold copyCRDs, bundle. destruct (splitCRDs raw prefix g); [done|..]; by rewrite (left_id_L ∅ (∪)).
Qed.

Lemma addCRDs_entries cfg m : addCRDs cfg m = crdEntries cfg ∪ m.
Proof.
  unfold addCRDs, crdEntries. rewrite !copyCRDs_bundle, <- (assoc_L (∪)). f_equal.
  destruct (ExperimentalFeatures cfg); rewrite ?copyCRDs_bundle; [by rewrite (assoc_L (∪))|].
  by rewrite (left_id_L ∅ (∪)).
Qed.

(** The guard's document: its policy and its binding, separated. *)
Definition guardDocument (data : string) : Prop :=
  exists policy binding,
    Encode (ObjValidatingAdmissionPolicy envoyProxyGuard.1) = inl policy /\
    Encode (ObjValidatingAdmissionPolicyBinding envoyProxyGuard.2) = inl binding /\
    data = TrimRightNl policy +:+ (nl +:+ "---" +:+ nl) +:+ TrimRightNl binding.

Lemma guard_encoded data :
  encodeObjects [ObjValidatingAdmissionPolicy envoyProxyGuard.1; ObjValidatingAdmissionPolicyBinding envoyProxyGuard.2] =
    Ok data -> guardDocument data.
Proof.
  unfold encodeObjects. cbn [encodeDocs]. unfold guardDocument.
  destruct (Encode (ObjValidatingAdmissionPolicy _)) as [p|]; [|done].
  destruct (Encode (ObjValidatingAdmissionPolicyBinding _)) as [b|]; [|done].
  intros [= <-]. by exists p, b.
Qed.

Lemma holds_frame l m m' : (forall k, k ∈ l.*1 -> m' !! k = m !! k) -> holds l m -> holds l m'.
Proof.
  intros Hf Hh. unfold holds in *. rewrite Forall_forall in *. intros o Ho.
  destruct (Hh o Ho) as (data&He&Hl). exists data. rewrite Hf; [done|]. apply list_elem_of_fmap. by exists o.
Qed.

Lemma encodeAll_app l1 l2 m : encodeAll (l1 ++ l2) m = m1 ← encodeAll l1 m; encodeAll l2 m1.
Proof.
  revert m. induction l1 as [|o l1 IH]; intros m; simpl; [done|].
  destruct (encode o.1 o.2 m); simpl; [apply IH|done..].
Qed.

Lemma encode_if (b : bool) name obj m :
  (if b then encode name obj m else Ok m) = encodeAll (if b then [(name, obj)] else []) m.
Proof. destruct b; simpl; [|done]. by destruct (encode name obj m). Qed.

(** The typed objects encoded first. *)
Definition firstPhase (cfg : Config) (deploy : Deployment) (tls : TLSBundle) : list (string * Object) :=
  objects cfg deploy ++
  (if present (CertPEM tls) || present (KeyPEM tls) || present (CAPEM tls)
   then [("secret-tls.yaml"%string, ObjSecret (tlsSecret tls))] else []) ++
  (if present (ClientCertPEM tls) && present (ClientKeyPEM tls) && present (CAPEM tls)
   then [("secret-envoy.yaml"%string, ObjSecret (envoyClientSecret tls))] else []) ++
  (if present (HMACBytes tls) then [("secret-hmac.yaml"%string, ObjSecret (hmacSecret tls))] else []).

Definition fixedNames : list string :=
  ["serviceaccount.yaml"; "configmap.yaml"; "clusterrole.yaml"; "clusterrolebinding.yaml"; "role.yaml";
   "rolebinding.yaml"; "deployment.yaml"; "service.yaml"; "poddisruptionbudget.yaml"; "networkpolicy.yaml";
   "gatewayclass.yaml"; "secret-tls.yaml"; "secret-envoy.yaml"; "secret-hmac.yaml"]%string.

Lemma firstPhase_names cfg deploy tls :
  NoDup (firstPhase cfg deploy tls).*1 /\ (forall k, k ∈ (firstPhase cfg deploy tls).*1 -> k ∈ fixedNames).
Proof.
  unfold firstPhase. destruct (_ || _), (_ && _), (present (HMACBytes tls));
    (split; [refine (bool_decide_unpack (NoDup _) _); vm_compute; exact I|];
     cbn; intros k; unfold fixedNames; set_solver).
Qed.

Lemma fixedNames_distinct k :
  k ∈ fixedNames -> k <> "envoyproxy-defaults.yaml"%string /\ k <> "validatingadmissionpolicy.yaml"%string /\
    isCRDKey k = false /\ k ∉ netpolObjects.*1.
Proof.
  assert (Hall : Forall (fun k => bool_decide (k <> "envoyproxy-defaults.yaml"%string /\
      k <> "validatingadmissionpolicy.yaml"%string /\ isCRDKey k = false /\ k ∉ netpolObjects.*1) = true) fixedNames).
  { repeat (apply List.Forall_cons; [vm_compute; reflexivity|]). apply List.Forall_nil. }
  intros Hk. rewrite Forall_forall in Hall. by apply Hall, bool_decide_eq_true in Hk.
Qed.

(** The RBAC of the NetworkPolicy controller, encoded last. *)
Definition lastPhase (cfg : Config) : list (string * Object) :=
  if ManageDataPlaneNetworkPolicies cfg then netpolObjects else [].

Lemma lastPhase_names cfg :
  NoDup (lastPhase cfg).*1 /\ (forall k, k ∈ (lastPhase cfg).*1 -> k ∈ netpolObjects.*1).
Proof.
  unfold lastPhase. destruct (ManageDataPlaneNetworkPolicies cfg).
  - split; [refine (bool_decide_unpack (NoDup _) _); vm_compute; exact I|done].
  - split; [constructor|]. simpl. set_solver.
Qed.

Lemma shipped_phases cfg deploy tls : shipped cfg deploy tls = firstPhase cfg deploy tls ++ lastPhase cfg.
Proof. unfold shipped, firstPhase, lastPhase, objects, netpolObjects. by rewrite <- !app_assoc. Qed.

(** Membership in the list of the controller's objects, decided by evaluation. *)
Ltac decide_in := refine (bool_decide_unpack (_ ∉ _) _); vm_compute; exact I.

(** What the steps between the two phases leave alone: only the defaults, the
    guard and the CRD entries change. *)
Lemma between_phases cfg iv tls m :
  buildResources cfg iv tls = Ok m ->
  exists deploy m4 m7, Manifests.deployment cfg iv = Ok deploy /\
    encodeAll (firstPhase cfg deploy tls) ∅ = Ok m4 /\ encodeAll (lastPhase cfg) m7 = Ok m /\
    (forall k, isCRDKey k = false \/ ManageCRDs cfg = false -> k <> "validatingadmissionpolicy.yaml"%string ->
       m7 !! k = <["envoyproxy-defaults.yaml"%string := envoyProxyDefaultsYAML cfg]> m4 !! k) /\
    (if validatingAdmissionPolicySupported cfg
     then exists data, m7 !! "validatingadmissionpolicy.yaml"%string = Some data /\ guardDocument data
     else m7 !! "validatingadmissionpolicy.yaml"%string = m4 !! "validatingadmissionpolicy.yaml"%string) /\
    (forall k, isCRDKey k = true -> m4 !! k = None ->
       m7 !! k = if ManageCRDs cfg then crdEntries cfg !! k else None).
Proof.
  unfold buildResources. intros Hb.
  apply outcome_bind_Ok in Hb as (deploy&Hd&Hb). apply outcome_bind_Ok in Hb as (m1&H1&Hb).
  apply outcome_bind_Ok in Hb as (m2&H2&Hb). rewrite encode_if in H2.
  apply outcome_bind_Ok in Hb as (m3&H3&Hb). rewrite encode_if in H3.
  apply outcome_bind_Ok in Hb as (m4&H4&Hb). rewrite encode_if in H4.
  apply outcome_bind_Ok in Hb as (m6&H6&Hb).
  exists deploy, m4, (if ManageCRDs cfg then addCRDs cfg m6 else m6). split_and!; [done|..].
  - unfold firstPhase. rewrite !encodeAll_app, H1. cbn [mbind outcome_bind].
    rewrite encodeAll_app, H2. cbn [mbind outcome_bind]. by rewrite encodeAll_app, H3.
  - unfold lastPhase. by destruct (ManageDataPlaneNetworkPolicies cfg).
  - intros k Hc Hv. trans (m6 !! k).
    { destruct (ManageCRDs cfg); [|done]. apply addCRDs_lookup. by destruct Hc. }
    destruct (validatingAdmissionPolicySupported cfg); [|by injection H6 as <-].
    apply outcome_bind_Ok in H6 as (vap&_&[= <-]). by rewrite lookup_insert_ne.
  - assert ((if ManageCRDs cfg then addCRDs cfg m6 else m6) !! "validatingadmissionpolicy.yaml"%string =
            m6 !! "validatingadmissionpolicy.yaml"%string) as ->.
    { destruct (ManageCRDs cfg); [|done]. by rewrite addCRDs_lookup. }
    destruct (validatingAdmissionPolicySupported cfg).
    + apply outcome_bind_Ok in H6 as (vap&Hvap&[= <-]). exists vap. rewrite lookup_insert_eq.
      split; [done|]. by apply guard_encoded.
    + injection H6 as <-. by rewrite lookup_insert_ne.
  - intros k Hc Hnone. assert (m6 !! k = None) as H6k.
    { assert (forall name, isCRDKey name = false -> name <> k) as Hne by (by intros name Hn ->; rewrite Hn in Hc).
      destruct (validatingAdmissionPolicySupported cfg);
        [apply outcome_bind_Ok in H6 as (vap&_&[= <-])|injection H6 as <-]; by rewrite ?lookup_insert_ne by auto. }
    destruct (ManageCRDs cfg); [|done]. rewrite addCRDs_entries, lookup_union, H6k.
    by destruct (crdEntries cfg !! k).
Qed.

Lemma crd_not_fixed k : isCRDKey k = true -> k ∉ fixedNames /\ k ∉ netpolObjects.*1 /\
  k <> "envoyproxy-defaults.yaml"%string /\ k <> "validatingadmissionpolicy.yaml"%string.
Proof.
  assert (Forall (fun k => isCRDKey k = false)
    (["envoyproxy-defaults.yaml"; "validatingadmissionpolicy.yaml"]%string ++ fixedNames ++ netpolObjects.*1)) as Hall.
  { repeat (apply List.Forall_cons; [vm_compute; reflexivity|]). apply List.Forall_nil. }
  rewrite Forall_forall in Hall. intros Hk.
  assert (k ∉ ["envoyproxy-defaults.yaml"; "validatingadmissionpolicy.yaml"]%string ++ fixedNames ++ netpolObjects.*1)
    as Hn by (intros Hin%Hall; by rewrite Hk in Hin).
  rewrite !not_elem_of_app, !not_elem_of_cons in Hn. naive_solver.
Qed.

(** C18: the shipped resources, key by key.  Whatever the configuration, a successful build
    ships under its own key, overwritten by no
    other, the encoding of every typed object that is called for - the secrets
    exactly when the TLS bundle has the data for them, the RBAC of the
    NetworkPolicy controller exactly when the feature is on; the rendered
    EnvoyProxy defaults; exactly when the shoot's version supports it, the
    admission guard, whose document holds both the policy and the binding that puts it into
    force; exactly when CRDs are managed, the CRDs of the bundles, those of the
    experimental channel only on that channel; and nothing else. *)
Theorem buildResources_spec cfg iv tls m :
  buildResources cfg iv tls = Ok m ->
  exists deploy, Manifests.deployment cfg iv = Ok deploy /\
    holds (shipped cfg deploy tls) m /\
    m !! "envoyproxy-defaults.yaml"%string = Some (envoyProxyDefaultsYAML cfg) /\
    (if validatingAdmissionPolicySupported cfg
     then exists data, m !! "validatingadmissionpolicy.yaml"%string = Some data /\ guardDocument data
     else m !! "validatingadmissionpolicy.yaml"%string = None) /\
    (forall k, isCRDKey k = true -> m !! k = if ManageCRDs cfg then crdEntries cfg !! k else None) /\
    (forall k, is_Some (m !! k) ->
       k ∈ (shipped cfg deploy tls).*1 \/ k = "envoyproxy-defaults.yaml"%string \/
       k = "validatingadmissionpolicy.yaml"%string \/ (isCRDKey k = true /\ ManageCRDs cfg = true)).
Proof.
  intros Hb. apply between_phases in Hb as (deploy&m4&m7&Hd&Hfirst&Hlast&Hmid&Hvap&Hcrd). exists deploy. split; [done|].
  destruct (firstPhase_names cfg deploy tls) as [Hnd Hfixed]. destruct (lastPhase_names cfg) as [Hndl Hnames].
  apply encodeAll_spec in Hfirst as [Hh4 Hk4]; [|done]. apply encodeAll_spec in Hlast as [Hhl Hkl]; [|done].
  rewrite shipped_phases. split_and!.
  - apply Forall_app. split; [|done]. apply (holds_frame _ m4); [|done].
    intros k Hk%Hfixed%fixedNames_distinct. destruct Hk as (?&?&?&?).
    rewrite Hkl, Hmid, lookup_insert_ne by auto. done.
  - rewrite Hkl, Hmid by (auto; intros Hin%Hnames; revert Hin; decide_in). apply lookup_insert_eq.
  - rewrite Hkl by (intros Hin%Hnames; revert Hin; decide_in).
    destruct (validatingAdmissionPolicySupported cfg); [done|]. rewrite Hvap. apply Hk4.
    intros Hin%Hfixed%fixedNames_distinct. by destruct Hin as (_&?&_).
  - intros k Hk. destruct (crd_not_fixed k Hk) as (Hf&Hn&_&_).
    rewrite Hkl by (intros Hin%Hnames; by apply Hn). apply Hcrd; [done|]. apply Hk4. intros Hin%Hfixed. by apply Hf.
  - intros k Hsome. rewrite fmap_app, elem_of_app.
    destruct (decide (k ∈ (lastPhase cfg).*1)) as [|Hn]; [by left; right|]. rewrite Hkl in Hsome by done.
    destruct (decide (k = "validatingadmissionpolicy.yaml"%string)) as [->|Hv]; [by right; right; left|].
    destruct (isCRDKey k) eqn:Hc, (ManageCRDs cfg) eqn:Hm; [by right; right; right|..].
    all: rewrite Hmid, lookup_insert in Hsome by auto; case_decide as Hk; [subst; by right; left|].
    all: destruct (decide (k ∈ (firstPhase cfg deploy tls).*1)); [by left; left|].
    all: rewrite Hk4 in Hsome by done; by destruct Hsome.
Qed.
End crds.
