(* ===== verification/EnvoyProxyGuard.v ===== *)
(** * The EnvoyProxy admission guard

    The expressions the guard renders mean what they should: for each guarded
    field, the rendered disjunction holds iff the field is absent, and its terms
    are ordered so that none is evaluated on a missing parent. *)

From Stdlib Require Import Ascii.
From S2P Require Import Prelude GoStd Errors Effects KubeObjects Constants Config External.
From S2P Require Import Interfaces Manifests Deployer.

Local Open Scope string_scope.

(** ** A custom resource as a tree of fields, and the test for a field

    [has(o.p1...pn)] is an error when the parent [o.p1...p(n-1)] is missing. *)
Inductive tree := Node (fields : list (string * tree)).

Fixpoint assoc (k : string) (l : list (string * tree)) : option tree :=
  match l with
  | [] => None
  | (k', t) :: l => if decide (k = k') then Some t else assoc k l
  end.

Definition field (t : tree) (k : string) : option tree := let '(Node l) := t in assoc k l.

Fixpoint select (t : tree) (path : list string) : option tree :=
  match path with
  | [] => Some t
  | k :: path => match field t k with Some t => select t path | None => None end
  end.

(** The value of a test: [None] is an evaluation error. *)
Definition has (t : tree) (parent : list string) (k : string) : option bool :=
  match select t parent with
  | Some t => Some (bool_decide (is_Some (field t k)))
  | None => None
  end.

(** A disjunction, from left to right. *)
Fixpoint anyOf (l : list (option bool)) : option bool :=
  match l with
  | [] => Some false
  | Some true :: _ => Some true
  | Some false :: l => anyOf l
  | None :: _ => None
  end.

(** ** The guard's terms *)

(** The parents and last components of the nonempty prefixes of a path. *)
Fixpoint steps (parent path : list string) : list (list string * string) :=
  match path with
  | [] => []
  | k :: path => (parent, k) :: steps (parent ++ [k]) path
  end.

(** The value of the guard on a workload, null when unset. *)
Definition guardValue (workload : option tree) (path : list string) : option bool :=
  match workload with
  | None => Some true
  | Some t => anyOf ((fun s => negb <$> has t s.1 s.2) <$> steps [] path)
  end.

(** A conjunction, from left to right. *)
Fixpoint allOf (l : list (option bool)) : option bool :=
  match l with
  | [] => Some true
  | Some false :: _ => Some false
  | Some true :: l => allOf l
  | None :: _ => None
  end.

(** The value of a variable: the field at the path below the root if every step
    to it is there, null otherwise.  A root that may be null is tested first. *)
Definition conditional (root : option tree) (nullable : bool) (path : list string) : option (option tree) :=
  match allOf ((if nullable then [Some (bool_decide (is_Some root))] else []) ++
               ((fun s => match root with Some t => has t s.1 s.2 | None => None end) <$> steps [] path)) with
  | Some true => match root with Some t => Some <$> select t path | None => None end
  | Some false => Some None
  | None => None
  end.

(** The value of the variable of a workload, for an EnvoyProxy. *)
Definition workloadValue (object : tree) (w : string * string) : option (option tree) :=
  k8s ← conditional (Some object) false ["spec"; "provider"; "kubernetes"];
  conditional k8s true [w.2].

(** The rendering of the guard's terms. *)
Definition renderFrom (root : string) (path : list string) : string :=
  foldl (fun acc k => acc +:+ "." +:+ k) root path.

Definition renderPath (workload : string) (path : list string) : string :=
  renderFrom ("variables." +:+ workload) path.

Definition renderConditional (root : string) (nullable : bool) (path : list string) : string :=
  Join ((if nullable then [root +:+ " != null"] else []) ++
        ((fun s => "has(" +:+ renderFrom root (s.1 ++ [s.2]) +:+ ")") <$> steps [] path)) " && " +:+
  " ? " +:+ renderFrom root path +:+ " : null".

Definition renderTerms (workload : string) (path : list string) : list string :=
  ("variables." +:+ workload +:+ " == null") ::
  ((fun s => "!has(" +:+ renderPath workload (s.1 ++ [s.2]) +:+ ")") <$> steps [] path).

(** ** Lemmas *)

Lemma absentTerms_steps workload parent path :
  absentTerms (renderPath workload parent) path =
  (fun s => "!has(" +:+ renderPath workload (s.1 ++ [s.2]) +:+ ")") <$> steps parent path.
Proof.
  revert parent. induction path as [|k path IH]; intros parent; simpl; [done|].
  assert (Hr : renderPath workload (parent ++ [k]) = renderPath workload parent +:+ "." +:+ k).
  { unfold renderPath, renderFrom. by rewrite foldl_app. }
  f_equal; [by rewrite Hr, !string_app_assoc|]. by rewrite <- IH, Hr.
Qed.

Lemma select_app t p q : select t (p ++ q) = match select t p with Some t => select t q | None => None end.
Proof. revert t. induction p as [|k p IH]; intros t; simpl; [done|]. destruct (field t k); [apply IH|done]. Qed.

Lemma anyOf_steps t parent path :
  is_Some (select t parent) ->
  anyOf ((fun s => negb <$> has t s.1 s.2) <$> steps parent path) =
  Some (bool_decide (select t (parent ++ path) = None)).
Proof.
  revert parent. induction path as [|k path IH]; intros parent [u Hu]; simpl.
  - by rewrite app_nil_r, Hu.
  - unfold has at 1. rewrite Hu. simpl. destruct (field u k) as [v|] eqn:Hk.
    + rewrite bool_decide_true by eauto. simpl.
      assert (Hs : select t (parent ++ [k]) = Some v) by (rewrite select_app, Hu; simpl; by rewrite Hk).
      rewrite IH by (rewrite Hs; eauto). by rewrite <- app_assoc.
    + rewrite bool_decide_false by (by intros [? ?]). simpl.
      rewrite select_app, Hu. simpl. by rewrite Hk.
Qed.

(** C24: the guard's expressions.  For a path of field names, the rendered
    expression is the disjunction of "the workload is null" and of "not has" for
    every prefix of the path, shortest first; evaluated from left to right it
    never errors, and it holds exactly when the workload is unset or does not
    have the field at the path. *)
Theorem fieldAbsentExpression_correct workload path (o : option tree) :
  path <> [] -> Forall (fun p => no_char "."%char p = true) path ->
  fieldAbsentExpression workload (Join path ".") = Join (renderTerms workload path) " || " /\
  guardValue o path = Some (bool_decide (match o with Some t => select t path | None => None end = None)).
Proof.
  intros Hne Hp. split.
  - unfold fieldAbsentExpression. rewrite Split_Join by done. unfold renderTerms.
    by rewrite <- (absentTerms_steps workload []).
  - unfold guardValue. destruct o as [t|]; [|done]. by rewrite (anyOf_steps t []) by eauto.
Qed.

Lemma fieldAbsentExpression_correct_witness :
  fieldAbsentExpression "deploy" "pod.volumes" =
    "variables.deploy == null || !has(variables.deploy.pod) || !has(variables.deploy.pod.volumes)" /\
  guardValue (Some (Node [("pod", Node [("volumes", Node [])])])) ["pod"; "volumes"] = Some false /\
  guardValue (Some (Node [])) ["pod"; "volumes"] = Some true.
Proof.
  split_and!; [vm_compute; reflexivity| |].
  - destruct (fieldAbsentExpression_correct "deploy" ["pod"; "volumes"]
      (Some (Node [("pod", Node [("volumes", Node [])])]))) as [_ H]; [discriminate|repeat constructor|exact H].
  - destruct (fieldAbsentExpression_correct "deploy" ["pod"; "volumes"] (Some (Node []))) as [_ H];
      [discriminate|repeat constructor|exact H].
Defined.

(** The path of a guarded field. *)
Definition fieldPath (f : string) : list string := Split f "."%char.

(** ** The variables *)

Lemma allOf_steps t parent path :
  is_Some (select t parent) ->
  allOf ((fun s => has t s.1 s.2) <$> steps parent path) =
  Some (bool_decide (is_Some (select t (parent ++ path)))).
Proof.
  revert parent. induction path as [|k path IH]; intros parent [u Hu]; simpl.
  - by rewrite app_nil_r, Hu.
  - unfold has at 1. rewrite Hu. destruct (field u k) as [v|] eqn:Hk.
    + rewrite bool_decide_true by eauto.
      assert (Hs : select t (parent ++ [k]) = Some v) by (rewrite select_app, Hu; simpl; by rewrite Hk).
      rewrite IH by (rewrite Hs; eauto). by rewrite <- app_assoc.
    + rewrite bool_decide_false by (by intros [? ?]).
      rewrite select_app, Hu. simpl. by rewrite Hk.
Qed.

(** A variable is never an error, and has the value of its path. *)
Lemma conditional_correct root nullable path :
  nullable = true \/ is_Some root ->
  conditional root nullable path = Some (root ≫= fun t => select t path).
Proof.
  intros Hroot. unfold conditional. destruct root as [t|].
  2: { destruct nullable; [done|]. by destruct Hroot as [|[? ?]]. }
  rewrite bool_decide_true by eauto. cbn [mbind option_bind].
  assert (allOf ((if nullable then [Some true] else []) ++ ((fun s => has t s.1 s.2) <$> steps [] path)) =
          Some (bool_decide (is_Some (select t path)))) as ->.
  { pose proof (allOf_steps t [] path ltac:(eauto)) as Hall. by destruct nullable. }
  destruct (select t path) as [u|]; [by rewrite bool_decide_true by eauto|].
  by rewrite bool_decide_false by (by intros [? ?]).
Qed.

Lemma workloadValue_correct object w :
  workloadValue object w = Some (select object ["spec"; "provider"; "kubernetes"; w.2]).
Proof.
  unfold workloadValue. rewrite conditional_correct by eauto. cbn [mbind option_bind].
  rewrite conditional_correct by auto. f_equal.
  change ["spec"; "provider"; "kubernetes"; w.2] with (app ["spec"; "provider"; "kubernetes"] [w.2]).
  rewrite select_app. by destruct (select object ["spec"; "provider"; "kubernetes"]).
Qed.

Lemma guardValue_workload object w path :
  (wl ← workloadValue object w; guardValue wl path) =
  Some (bool_decide (select object (["spec"; "provider"; "kubernetes"; w.2] ++ path) = None)).
Proof.
  rewrite workloadValue_correct. cbn [mbind option_bind]. unfold guardValue. rewrite select_app.
  destruct (select object _) as [t|]; [|by rewrite bool_decide_true]. by rewrite (anyOf_steps t []) by eauto.
Qed.

(** ** The binding *)

(** Label selectors, as the API documents them. *)
Definition requirement_matches (r : LabelSelectorRequirement) (ls : labels) : bool :=
  match lsr_Operator r, ls !! lsr_Key r with
  | OpIn, Some v => bool_decide (v ∈ lsr_Values r)
  | OpIn, None => false
  | OpNotIn, Some v => negb (bool_decide (v ∈ lsr_Values r))
  | OpNotIn, None => true
  | OpExists, v => bool_decide (is_Some v)
  | OpDoesNotExist, v => negb (bool_decide (is_Some v))
  end.

Definition selector_matches (s : LabelSelector) (ls : labels) : bool :=
  bool_decide (MatchLabels s ⊆ ls) && forallb (fun r => requirement_matches r ls) (MatchExpressions s).

(** C25: the guard covers every guarded field of both workloads and nothing can
    bypass it outside kube-system.  The policy matches exactly the creation and
    update of the v1alpha1 EnvoyProxies.  The guarded fields are the six listed.  Its three
    variables, in the order in which they depend on each other, are the conditional
    selections of the provider's configuration and of the two workloads.  Each pair of a field
    and a workload has its own validation, whose expression is the rendering for
    that field's path; and on every object the variables and the
    expression evaluate without error, to true exactly if the object does not have the field.
    A failing validation denies the request, and so does a failure to evaluate; and the binding selects a
    namespace - every namespace has its name label - iff it is not kube-system. *)
Theorem envoyProxyGuard_covers :
  let '(policy, binding) := envoyProxyGuard in
  vap_ResourceRules policy =
    [ {| rwo_Operations := ["CREATE"; "UPDATE"]; rwo_APIGroups := ["gateway.envoyproxy.io"];
         rwo_APIVersions := ["v1alpha1"]; rwo_Resources := ["envoyproxies"] |} ] /\
  vap_Variables policy =
    [ {| var_Name := "k8s"; var_Expression := renderConditional "object" false ["spec"; "provider"; "kubernetes"] |};
      {| var_Name := "deploy"; var_Expression := renderConditional "variables.k8s" true ["envoyDeployment"] |};
      {| var_Name := "daemonset"; var_Expression := renderConditional "variables.k8s" true ["envoyDaemonSet"] |} ] /\
  workloads = [("deploy", "envoyDeployment"); ("daemonset", "envoyDaemonSet")] /\
  guardedFields = ["patch"; "initContainers"; "pod.volumes"; "container.volumeMounts"; "pod.securityContext";
    "container.securityContext"] /\
  (forall f w, f ∈ guardedFields -> w ∈ workloads ->
     fieldPath f <> [] /\ forallb (no_char "."%char) (fieldPath f) = true /\
     (exists v, v ∈ vap_Validations policy /\ val_Expression v = Join (renderTerms w.1 (fieldPath f)) " || " /\
       val_Reason v = "Forbidden") /\
     (forall object, (wl ← workloadValue object w; guardValue wl (fieldPath f)) =
        Some (bool_decide (select object (["spec"; "provider"; "kubernetes"; w.2] ++ fieldPath f) = None)))) /\
  NoDup (val_Expression <$> vap_Validations policy) /\
  vap_FailurePolicy policy = Fail_ /\ vapb_ValidationActions binding = ["Deny"] /\
  vapb_PolicyName binding = vap_Name policy /\
  (forall name (ls : labels), ls !! "kubernetes.io/metadata.name" = Some name ->
     selector_matches (vapb_NamespaceSelector binding) ls = true <-> name <> "kube-system").
Proof.
  unfold envoyProxyGuard. cbn [vap_Validations vap_Variables vap_FailurePolicy vapb_ValidationActions vapb_PolicyName
    vap_Name vap_ResourceRules vapb_NamespaceSelector]. split_and!; try done.
  - intros f w Hf Hw. split_and!; [| | |intros object; apply guardValue_workload].
    1, 2: unfold guardedFields in Hf;
      repeat (apply elem_of_cons in Hf as [->|Hf]; [vm_compute; done|]); by apply not_elem_of_nil in Hf.
    eexists {| val_Expression := fieldAbsentExpression w.1 f; val_Reason := "Forbidden"; val_Message := _ |}.
    split_and!; [|by unfold fieldAbsentExpression, renderTerms; rewrite <- (absentTerms_steps w.1 [])|done].
    unfold validations. apply list_elem_of_bind. exists f. split; [|done].
    apply list_elem_of_bind. exists w. split; [|done]. apply list_elem_of_singleton. reflexivity.
  - refine (bool_decide_unpack (NoDup _) _). vm_compute. exact I.
  - intros name ls Hname. unfold selector_matches, requirement_matches.
    cbn [MatchLabels MatchExpressions forallb lsr_Operator lsr_Key lsr_Values]. rewrite Hname.
    rewrite bool_decide_true by apply map_empty_subseteq. rewrite andb_true_l, andb_true_r, negb_true_iff.
    rewrite bool_decide_eq_false, list_elem_of_singleton. done.
Qed.
