(* ===== verification/GatewayGuard.v ===== *)
(** * The Gateway lister (pkg/actuator/gateway_guard.go)

    Listing, deleting and awaiting the user's Gateways in a shoot, and clearing
    the leftover GatewayClass finalizer. *)

From S2P Require Import Prelude GoStd Errors Effects KubeObjects Constants External Interfaces.

Module realGatewayLister.

Definition ErrGatewaysStillDeleting : error := errorsNew "user Gateways still present in shoot".

Definition newGatewayScheme : IO unit :=
  wrapf "failed to register gateway-api scheme: " (request (RegisterScheme "gateway-api")).

Definition shootClient (seedNamespace : string) : IO unit :=
  newGatewayScheme ;;
  wrapf "failed to build shoot client: " (request (NewClientForShoot seedNamespace)).

Definition gatewayCRDAbsent (err : error) : bool := IsNoMatchError err || IsNotFound err.

Definition fetchGatewayList (seedNamespace : string) : IO (list Gateway) :=
  shootClient seedNamespace ;;
  r ← attempt (request (External.ListGateways []));
  match r with
  | inl list => mret list
  | inr err =>
      if gatewayCRDAbsent err then mret []
      else throw (wrapError "failed to list Gateways in shoot: " err "")
  end.

Definition gatewayName (g : Gateway) : string := gw_Namespace g +:+ "/" +:+ gw_Name g.

Definition ListGateways (seedNamespace : string) : IO (list string) :=
  list ← fetchGatewayList seedNamespace;
  mret (gatewayName <$> list).

Definition ClearGatewayClassFinalizer (seedNamespace : string) : IO unit :=
  shootClient seedNamespace ;;
  r ← attempt (request (GetGatewayClass GatewayClassName));
  match r with
  | inr err =>
      if IsNotFound err then mret tt
      else throw (wrapError ("failed to get GatewayClass " +:+ fmt_q GatewayClassName +:+ " in shoot: ") err "")
  | inl gwc =>
      wrapf ("failed to clear " +:+ fmt_q gatewayExistsFinalizer +:+ " finalizer from GatewayClass "
             +:+ fmt_q GatewayClassName +:+ ": ")
        (request (RemoveFinalizers gwc gatewayExistsFinalizer))
  end.

Definition DeleteGateways (seedNamespace : string) : IO unit :=
  shootClient seedNamespace ;;
  list ← wrapf "failed to list Gateways in shoot: " (request (External.ListGateways []));
  for_each list (fun gw =>
    match gw_DeletionTimestamp gw with
    | Some _ => mret tt
    | None =>
        wrapf ("failed to delete Gateway " +:+ gatewayName gw +:+ " in shoot: ")
          (ignoreNotFound (request (DeleteGateway (gw_Namespace gw) (gw_Name gw))))
    end).

(** The polled condition; the state is [lastErr]. *)
Definition gatewaysGone (seedNamespace : string) (lastErr : option error) : IO (bool * option error) :=
  r ← attempt (fetchGatewayList seedNamespace);
  match r with
  | inr err => mret (false, Some err)
  | inl list => mret (bool_decide (list = []), None)
  end.

Definition WaitUntilGatewaysDeleted (ticks : nat) (seedNamespace : string) : IO unit :=
  '(gone, lastErr) ← PollUntilContextCancel ticks gatewayDeletionPollInterval (gatewaysGone seedNamespace) None;
  if (gone : bool) then mret tt
  else match lastErr with
       | Some err =>
           throw (wrapError "shoot API server unreachable while waiting for Gateways to be deleted: " err "")
       | None => throw ErrGatewaysStillDeleting
       end.

(** [NewGatewayLister]. *)
Definition NewGatewayLister : GatewayLister :=
  {| Interfaces.ListGateways := ListGateways;
     Interfaces.ClearGatewayClassFinalizer := ClearGatewayClassFinalizer;
     Interfaces.DeleteGateways := DeleteGateways;
     Interfaces.WaitUntilGatewaysDeleted := WaitUntilGatewaysDeleted |}.

End realGatewayLister.
