(* ===== verification/OrphanSweep.v ===== *)
(** * The orphan sweep (pkg/actuator/orphan_sweep.go)

    Deleting the data-plane objects that the previous deploy mode left in
    kube-system. *)

From S2P Require Import Prelude GoStd Errors Effects KubeObjects Constants External Interfaces.

Module orphanDataPlaneSweeper.

Definition kubernetesScheme : IO unit :=
  wrapf "failed to register kubernetes scheme: " (request (RegisterScheme "kubernetes")).

(** The kinds of [lists], in the order they are swept. *)
Definition lists : list ObjectKind :=
  [KService; KDeployment; KServiceAccount; KConfigMap; KPodDisruptionBudget; KHorizontalPodAutoscaler].

Definition listOpts : list ListOption :=
  [InNamespace Namespace; MatchingLabels {[ LabelManagedBy := EnvoyProxyManagedByValue ]}].

Definition isOrphanedDataPlaneObject (obj : ObjectMeta) : bool :=
  bool_decide (is_Some (om_Labels obj !! OwningGatewayNameLabel)).

(** One listed object; the count of deleted objects only feeds a log line. *)
Definition sweepObject (kind : ObjectKind) (obj : ObjectMeta) : IO unit :=
  if negb (isOrphanedDataPlaneObject obj) then mret tt
  else
    r ← attempt (request (DeleteObject kind (om_Namespace obj) (om_Name obj)));
    match r with
    | inl _ => mret tt
    | inr err =>
        if IsNotFound err then mret tt
        else throw (wrapError ("failed to delete orphaned data-plane " +:+ kindTypeName kind +:+ " "
                               +:+ om_Namespace obj +:+ "/" +:+ om_Name obj +:+ ": ") err "")
    end.

(** [meta.ExtractList] and the type assertion succeed on the typed lists. *)
Definition sweepOrphans : IO unit :=
  for_each lists (fun kind =>
    objs ← wrapf ("failed to list orphaned data-plane objects in " +:+ fmt_q Namespace +:+ ": ")
             (request (ListObjects kind listOpts));
    for_each objs (sweepObject kind)).

Definition Sweep (seedNamespace : string) : IO unit :=
  kubernetesScheme ;;
  wrapf "failed to build shoot client for orphaned data-plane sweep: "
    (request (NewClientForShoot seedNamespace)) ;;
  sweepOrphans.

Definition NewOrphanDataPlaneSweeper : OrphanDataPlaneSweeper :=
  {| Interfaces.Sweep := Sweep |}.

End orphanDataPlaneSweeper.
