(* ===== verification/NetpolDeployer.v ===== *)
(** * The deployer of the NetworkPolicy controller (pkg/actuator/netpol_deployer.go)

    The controller's Deployment and shoot-access secret in the shoot's
    control-plane namespace on the seed. *)

From S2P Require Import Prelude GoStd Errors Effects KubeObjects Constants External Interfaces.

Module netpolControllerDeployer.
Section deployer.
Context `{Libraries}.
Context (imageVector : ImageVector).

Definition netpolLabels : labels :=
  {[ LabelName := NetpolControllerName; LabelManagedBy := LabelManagedByValue ]}.

Definition podLabels : labels :=
  {[ LabelName := NetpolControllerName; LabelManagedBy := LabelManagedByValue;
     LabelToAllShootsKubeAPIServer := labelValueAllowed; LabelToDNS := labelValueAllowed;
     LabelToRuntimeAPIServer := labelValueAllowed ]}.

Definition args (seedNamespace : string) : list string :=
  ["netpol-controller"; "--seed-namespace=" +:+ seedNamespace].

Definition deployment (seedNamespace : string) : outcome Deployment :=
  match imageVector ExtensionImageName with
  | inr err =>
      Err (wrapError ("failed to find " +:+ ExtensionImageName +:+ " image in image vector: ") err "")
  | inl img =>
      Ok (mkDeployment NetpolControllerName seedNamespace netpolLabels
        {| ds_Replicas := Some 1%Z;
           ds_Selector := mkSelector {[ LabelName := NetpolControllerName ]} [];
           ds_TemplateLabels := podLabels;
           ds_TemplateSpec :=
             {| ps_ServiceAccountName := "";
                ps_PodAntiAffinity := [];
                ps_TopologySpreadConstraints := [];
                ps_SecurityContext :=
                  {| psc_RunAsNonRoot := true; psc_RunAsUser := 65532;
                     psc_RunAsGroup := 65532; psc_FSGroup := 65532 |};
                ps_Volumes := [];
                ps_Containers :=
                  [ {| c_Name := NetpolControllerName;
                       c_Image := img;
                       c_Args := args seedNamespace;
                       c_Env := [];
                       c_VolumeMounts := [];
                       c_Ports := [];
                       c_LivenessProbe := None;
                       c_ReadinessProbe := None;
                       c_Resources :=
                         {| rr_Requests := [("cpu", "20m"); ("memory", "64Mi")];
                            rr_Limits := [("memory", "256Mi")] |};
                       c_SecurityContext :=
                         {| sc_AllowPrivilegeEscalation := false;
                            sc_ReadOnlyRootFilesystem := true;
                            sc_Drop := ["ALL"] |} |} ] |} |})
  end.

(** The mutate function of [CreateOrUpdate]. *)
Definition applyDeployment (d obj : Deployment) : Deployment :=
  mkDeployment (dep_Name obj) (dep_Namespace obj) (dep_Labels d) (dep_Spec d).

Definition Ensure (cluster : Cluster) (seedNamespace : string) : IO unit :=
  accessSecret ← wrapf "failed to reconcile netpol-controller shoot-access secret: "
    (request (ReconcileShootAccessSecret NetpolControllerShootAccessSecretName seedNamespace
                NetpolControllerServiceAccountName));
  d ← Ret (deployment seedNamespace);
  d ← wrapf "failed to inject generic kubeconfig into netpol-controller Deployment: "
        (request (InjectGenericKubeconfig d (GenericTokenKubeconfigSecretNameFromCluster cluster) accessSecret));
  wrapf "failed to apply netpol-controller Deployment: "
    (request (SeedCreateOrUpdateDeployment seedNamespace NetpolControllerName (applyDeployment d))).

(** The objects [Teardown] deletes, in order. *)
Definition objs : list (ObjectKind * string) :=
  [ (KDeployment, NetpolControllerName);
    (KSecret, SecretNamePrefixShootAccess +:+ NetpolControllerShootAccessSecretName) ].

Definition Teardown (seedNamespace : string) : IO unit :=
  for_each objs (fun '(kind, name) =>
    wrapf ("failed to delete netpol-controller " +:+ kindTypeName kind +:+ " " +:+ seedNamespace +:+ "/"
           +:+ name +:+ ": ")
      (ignoreNotFound (request (SeedDelete kind seedNamespace name)))).

(** [Spec.Replicas = 0]. *)
Definition scaledToZero (d : Deployment) : Deployment :=
  mkDeployment (dep_Name d) (dep_Namespace d) (dep_Labels d)
    (mkDeploymentSpec (Some 0%Z) (ds_Selector (dep_Spec d)) (ds_TemplateLabels (dep_Spec d))
       (ds_TemplateSpec (dep_Spec d))).

Definition ScaleDown (seedNamespace : string) : IO unit :=
  r ← attempt (request (SeedGetDeployment seedNamespace NetpolControllerName));
  match r with
  | inr err => ignoreNotFound (throw err)
  | inl d =>
      wrapf "failed to scale down netpol-controller Deployment: "
        (request (SeedPatchDeployment d (scaledToZero d)))
  end.

Definition NewNetpolControllerDeployer : NetpolControllerDeployer :=
  {| Interfaces.Ensure := Ensure; Interfaces.Teardown := Teardown; Interfaces.ScaleDown := ScaleDown |}.

End deployer.
End netpolControllerDeployer.
