(* ===== verification/DataPlanePolicies.v ===== *)
(** * The data-plane NetworkPolicies (pkg/envoygateway/netpol.go)

    The hop-1 ingress and hop-2 egress policies the extension writes into each
    Gateway namespace, and the selection of its own policies for pruning. *)

From S2P Require Import Prelude KubeObjects Constants External.

(** [proxyPodSelector]. *)
Definition proxyPodSelector : LabelSelector :=
  mkSelector {[ LabelManagedBy := EnvoyProxyManagedByValue;
                LabelName := EnvoyProxyNameValue ]} [].

(** [managedLabels]. *)
Definition managedLabels (name hop : string) : labels :=
  {[ LabelManagedBy := LabelManagedByValue; LabelName := name; LabelHop := hop ]}.

(** [ManagedDataPlanePolicyListOptions]. *)
Definition ManagedDataPlanePolicyListOptions : list ListOption :=
  [ MatchingLabels {[ LabelManagedBy := LabelManagedByValue ]}; HasLabels [LabelHop] ].

(** [ptrIntStr]. *)
Definition ptrIntStr (port : Z) : IntOrString := FromInt port.

(** [namespaceByName]. *)
Definition namespaceByName (name : string) : LabelSelector :=
  mkSelector {[ MetadataNameLabel := name ]} [].

Definition emptySelector : LabelSelector := mkSelector ∅ [].

(** [DataPlaneProxyIngressPolicy]. *)
Definition DataPlaneProxyIngressPolicy (namespace : string) : NetworkPolicy :=
  mkNetworkPolicy DataPlaneNetworkPolicyName namespace
    (managedLabels DataPlaneNetworkPolicyName HopProxyIngress)
    {| nps_PodSelector := proxyPodSelector;
       nps_PolicyTypes := [PolicyTypeIngress];
       nps_Ingress :=
         [ mkRule []
             [ mkPort ProtocolTCP (ptrIntStr DataPlaneHTTPPort);
               mkPort ProtocolTCP (ptrIntStr DataPlaneHTTPSPort);
               mkPort ProtocolTCP (ptrIntStr DataPlaneReadyPort) ] ];
       nps_Egress := [] |}.

(** [ProxyEgressPolicy]. *)
Definition ProxyEgressPolicy (gatewayNamespace : string) : NetworkPolicy :=
  let dnsServicePort := ptrIntStr DataPlaneDNSServicePort in
  let dnsServerPort := ptrIntStr DataPlaneDNSServerPort in
  mkNetworkPolicy ProxyEgressNetworkPolicyName gatewayNamespace
    (managedLabels ProxyEgressNetworkPolicyName HopProxyEgress)
    {| nps_PodSelector := proxyPodSelector;
       nps_PolicyTypes := [PolicyTypeEgress];
       nps_Ingress := [];
       nps_Egress :=
         [ mkRule [ mkPeer (Some emptySelector) None ]
             [ mkPort ProtocolUDP dnsServicePort;
               mkPort ProtocolTCP dnsServicePort;
               mkPort ProtocolUDP dnsServerPort;
               mkPort ProtocolTCP dnsServerPort ];
           mkRule
             [ mkPeer (Some (namespaceByName Namespace))
                 (Some (mkSelector {[ LabelName := DeploymentName;
                                      LabelInstance := DeploymentName ]} [])) ]
             [ mkPort ProtocolTCP (ptrIntStr XDSPort) ] ] |}.

(** The policies anchored at a Gateway namespace, in the order they are
    written and pruned. *)
Definition dataPlanePolicies (ns : string) : list NetworkPolicy :=
  [ DataPlaneProxyIngressPolicy ns; ProxyEgressPolicy ns ].

Definition np_key (p : NetworkPolicy) : NamespacedName := mkKey (np_Namespace p) (np_Name p).

(** ** What the policies admit

    The traffic semantics of the NetworkPolicy API: a selector with match labels
    only selects the label sets that contain them (a documented law of the
    [selects] parameter), a peer with a namespace and a pod selector requires
    both, and a rule without peers or ports does not restrict them.  A policy
    concerns the directions of traffic that its types list, and only these: a pod
    that no policy isolates in a direction is unrestricted in it, and for an isolated
    one the policies' rules for that direction add up. *)
Class SelectorSemantics := {
  selects : LabelSelector -> labels -> bool;
  selects_match_labels : forall m ls,
    selects (mkSelector m []) ls = bool_decide (m ⊆ ls);
}.

Record Pod := mkPod {
  pod_NamespaceLabels : labels;
  pod_Namespace : string;
  pod_Labels : labels;
}.

Section semantics.
Context `{!SelectorSemantics}.

Definition peer_admits (policyNs : string) (peer : NetworkPolicyPeer) (pod : Pod) : bool :=
  match peer_NamespaceSelector peer, peer_PodSelector peer with
  | Some n, Some p => selects n (pod_NamespaceLabels pod) && selects p (pod_Labels pod)
  | Some n, None => selects n (pod_NamespaceLabels pod)
  | None, Some p => bool_decide (policyNs = pod_Namespace pod) && selects p (pod_Labels pod)
  | None, None => false
  end.

Definition port_admits (proto : Protocol) (port : Z) (p : NetworkPolicyPort) : bool :=
  bool_decide (npp_Protocol p = proto) && bool_decide (npp_Port p = FromInt port).

Definition rule_admits (policyNs : string) (pod : Pod) (proto : Protocol) (port : Z)
    (r : NetworkPolicyRule) : bool :=
  (bool_decide (rule_Peers r = []) || existsb (fun p => peer_admits policyNs p pod) (rule_Peers r)) &&
  (bool_decide (rule_Ports r = []) || existsb (port_admits proto port) (rule_Ports r)).

Definition applies_to (policy : NetworkPolicy) (pod : Pod) : bool :=
  bool_decide (np_Namespace policy = pod_Namespace pod) &&
  selects (nps_PodSelector (np_Spec policy)) (pod_Labels pod).

(** The directions the policy concerns; the API server fills in types that are
    not given: ingress, and egress if there are egress rules. *)
Definition policyTypes (spec : NetworkPolicySpec) : list PolicyType :=
  match nps_PolicyTypes spec, nps_Egress spec with
  | [], [] => [PolicyTypeIngress]
  | [], _ => [PolicyTypeIngress; PolicyTypeEgress]
  | types, _ => types
  end.

Definition concerns (policy : NetworkPolicy) (direction : PolicyType) : bool :=
  bool_decide (direction ∈ policyTypes (np_Spec policy)).

(** The policy restricts the pod's traffic in the direction. *)
Definition isolates (policy : NetworkPolicy) (direction : PolicyType) (pod : Pod) : bool :=
  applies_to policy pod && concerns policy direction.

(** Traffic from [src] to a pod the policy applies to. *)
Definition admits_ingress (policy : NetworkPolicy) (src : Pod) (proto : Protocol) (port : Z) : bool :=
  concerns policy PolicyTypeIngress &&
  existsb (rule_admits (np_Namespace policy) src proto port) (nps_Ingress (np_Spec policy)).

(** Traffic to [dst] from a pod the policy applies to. *)
Definition admits_egress (policy : NetworkPolicy) (dst : Pod) (proto : Protocol) (port : Z) : bool :=
  concerns policy PolicyTypeEgress &&
  existsb (rule_admits (np_Namespace policy) dst proto port) (nps_Egress (np_Spec policy)).

(** What [policies] let through: to [dst], and from [src]. *)
Definition ingress_allowed (policies : list NetworkPolicy) (dst src : Pod) (proto : Protocol) (port : Z) : bool :=
  negb (existsb (fun p => isolates p PolicyTypeIngress dst) policies) ||
  existsb (fun p => applies_to p dst && admits_ingress p src proto port) policies.

Definition egress_allowed (policies : list NetworkPolicy) (src dst : Pod) (proto : Protocol) (port : Z) : bool :=
  negb (existsb (fun p => isolates p PolicyTypeEgress src) policies) ||
  existsb (fun p => applies_to p src && admits_egress p dst proto port) policies.
End semantics.

(** Selection by inclusion, for concrete evaluation. *)
Definition inclusion_semantics : SelectorSemantics.
Proof.
  refine {| selects := fun s ls => bool_decide (MatchLabels s ⊆ ls) |}. done.
Defined.

(** ** Lemmas *)

Lemma port_admits_spec proto port p q :
  port_admits proto port (mkPort p (FromInt q)) = true <-> p = proto /\ q = port.
Proof.
  unfold port_admits. simpl. rewrite andb_true_iff, !bool_decide_eq_true. naive_solver.
Qed.

Lemma elem_of_dataPlanePolicies ns p :
  p ∈ dataPlanePolicies ns <-> p = DataPlaneProxyIngressPolicy ns \/ p = ProxyEgressPolicy ns.
Proof. unfold dataPlanePolicies. set_solver. Qed.

Lemma dataPlanePolicies_namespace ns p : p ∈ dataPlanePolicies ns -> np_Namespace p = ns.
Proof. by intros [->| ->]%elem_of_dataPlanePolicies. Qed.

Lemma dataPlanePolicies_key_inj ns ns' p p' :
  p ∈ dataPlanePolicies ns -> p' ∈ dataPlanePolicies ns' -> np_key p = np_key p' -> p = p'.
Proof.
  intros [->| ->]%elem_of_dataPlanePolicies [->| ->]%elem_of_dataPlanePolicies H;
    injection H; intros; by subst.
Qed.

(** The hop-1 policy admits exactly the data-plane ports over TCP, from any
    source. *)
Lemma ingress_admits `{!SelectorSemantics} ns src proto port :
  admits_ingress (DataPlaneProxyIngressPolicy ns) src proto port = true <->
  proto = ProtocolTCP /\
  (port = DataPlaneHTTPPort \/ port = DataPlaneHTTPSPort \/ port = DataPlaneReadyPort).
Proof.
  unfold admits_ingress, concerns, rule_admits. rewrite bool_decide_true by (by left).
  simpl. rewrite !orb_false_r, !orb_true_iff, !port_admits_spec.
  naive_solver.
Qed.

(** The hop-2 policy admits exactly DNS, and xDS to the control-plane pods in
    kube-system. *)
Lemma egress_admits `{!SelectorSemantics} ns dst proto port :
  admits_egress (ProxyEgressPolicy ns) dst proto port = true <->
  port = DataPlaneDNSServicePort \/ port = DataPlaneDNSServerPort \/
  (proto = ProtocolTCP /\ port = XDSPort /\
   pod_NamespaceLabels dst !! MetadataNameLabel = Some Namespace /\
   pod_Labels dst !! LabelName = Some DeploymentName /\
   pod_Labels dst !! LabelInstance = Some DeploymentName).
Proof.
  unfold admits_egress, concerns, rule_admits, peer_admits. rewrite bool_decide_true by (by left).
  simpl. unfold emptySelector, namespaceByName.
  rewrite !selects_match_labels, !orb_false_r, !orb_true_iff, !andb_true_iff, !orb_true_iff,
    !port_admits_spec, !bool_decide_eq_true, subseteq_insert, !subseteq_singleton, subseteq_empty by done.
  destruct proto; naive_solver.
Qed.

(** The pods the two policies of a namespace are for. *)
Definition proxy_of (ns : string) (pod : Pod) : Prop :=
  pod_Namespace pod = ns /\ pod_Labels pod !! LabelManagedBy = Some EnvoyProxyManagedByValue /\
  pod_Labels pod !! LabelName = Some EnvoyProxyNameValue.

Section data_plane.
Context `{!SelectorSemantics}.

Lemma dataPlanePolicies_apply ns p pod : p ∈ dataPlanePolicies ns -> applies_to p pod = true <-> proxy_of ns pod.
Proof.
  intros Hp. unfold applies_to. rewrite (dataPlanePolicies_namespace _ _ Hp).
  assert (nps_PodSelector (np_Spec p) = proxyPodSelector) as ->
    by (by apply elem_of_dataPlanePolicies in Hp as [->| ->]).
  unfold proxyPodSelector, proxy_of. rewrite selects_match_labels, andb_true_iff, !bool_decide_eq_true,
    subseteq_insert, subseteq_singleton by done. naive_solver.
Qed.

(** One policy for each direction. *)
Lemma dataPlanePolicies_concern ns :
  concerns (DataPlaneProxyIngressPolicy ns) PolicyTypeIngress = true /\
  concerns (DataPlaneProxyIngressPolicy ns) PolicyTypeEgress = false /\
  concerns (ProxyEgressPolicy ns) PolicyTypeIngress = false /\
  concerns (ProxyEgressPolicy ns) PolicyTypeEgress = true.
Proof using Type. by vm_compute. Qed.

(** For a proxy each direction is what its policy admits; for other pods nothing
    is restricted. *)
Lemma dataPlanePolicies_ingress ns dst src proto port :
  ingress_allowed (dataPlanePolicies ns) dst src proto port = true <->
  (proxy_of ns dst -> admits_ingress (DataPlaneProxyIngressPolicy ns) src proto port = true).
Proof.
  pose proof (dataPlanePolicies_apply ns (DataPlaneProxyIngressPolicy ns) dst ltac:(by left)) as H1.
  pose proof (dataPlanePolicies_apply ns (ProxyEgressPolicy ns) dst ltac:(by right; left)) as H2.
  destruct (dataPlanePolicies_concern ns) as (C1&C2&C3&C4).
  unfold ingress_allowed, isolates, admits_ingress. cbn [existsb dataPlanePolicies]. rewrite C1, C3.
  destruct (applies_to (DataPlaneProxyIngressPolicy ns) dst), (applies_to (ProxyEgressPolicy ns) dst), (existsb _ _);
    cbn; naive_solver.
Qed.

Lemma dataPlanePolicies_egress ns src dst proto port :
  egress_allowed (dataPlanePolicies ns) src dst proto port = true <->
  (proxy_of ns src -> admits_egress (ProxyEgressPolicy ns) dst proto port = true).
Proof.
  pose proof (dataPlanePolicies_apply ns (DataPlaneProxyIngressPolicy ns) src ltac:(by left)) as H1.
  pose proof (dataPlanePolicies_apply ns (ProxyEgressPolicy ns) src ltac:(by right; left)) as H2.
  destruct (dataPlanePolicies_concern ns) as (C1&C2&C3&C4).
  unfold egress_allowed, isolates, admits_egress. cbn [existsb dataPlanePolicies]. rewrite C2, C4.
  destruct (existsb _ (nps_Egress (np_Spec (ProxyEgressPolicy ns)))), (applies_to (DataPlaneProxyIngressPolicy ns) src),
    (applies_to (ProxyEgressPolicy ns) src); cbn; naive_solver.
Qed.
End data_plane.

(** C27: what the two data-plane policies of a namespace do to its pods.  They
    apply to the proxies envoy-gateway provisions there, and to no other pod.  A
    proxy is isolated in both directions: what reaches it is exactly TCP on the
    three data-plane ports, from any source, and what leaves it is exactly DNS
    (either port, either protocol), to any namespace, and TCP to the control plane's xDS
    port; every other pod keeps all its traffic, in both directions.  And the prune selection
    matches both policies. *)
Theorem data_plane_policies_admit_exactly `{!SelectorSemantics} ns :
  (forall p pod, p ∈ dataPlanePolicies ns ->
     applies_to p pod = true <->
     pod_Namespace pod = ns /\ pod_Labels pod !! LabelManagedBy = Some EnvoyProxyManagedByValue /\
     pod_Labels pod !! LabelName = Some EnvoyProxyNameValue) /\
  (forall dst src proto port, proxy_of ns dst ->
     existsb (fun p => isolates p PolicyTypeIngress dst) (dataPlanePolicies ns) = true /\
     (ingress_allowed (dataPlanePolicies ns) dst src proto port = true <->
      proto = ProtocolTCP /\
      (port = DataPlaneHTTPPort \/ port = DataPlaneHTTPSPort \/ port = DataPlaneReadyPort))) /\
  (forall src dst proto port, proxy_of ns src ->
     existsb (fun p => isolates p PolicyTypeEgress src) (dataPlanePolicies ns) = true /\
     (egress_allowed (dataPlanePolicies ns) src dst proto port = true <->
      port = DataPlaneDNSServicePort \/ port = DataPlaneDNSServerPort \/
      (proto = ProtocolTCP /\ port = XDSPort /\
       pod_NamespaceLabels dst !! MetadataNameLabel = Some Namespace /\
       pod_Labels dst !! LabelName = Some DeploymentName /\
       pod_Labels dst !! LabelInstance = Some DeploymentName))) /\
  (forall pod other proto port, ~ proxy_of ns pod ->
     ingress_allowed (dataPlanePolicies ns) pod other proto port = true /\
     egress_allowed (dataPlanePolicies ns) pod other proto port = true) /\
  (forall p, p ∈ dataPlanePolicies ns ->
     label_selects ManagedDataPlanePolicyListOptions (np_Namespace p) (np_Labels p) = true).
Proof.
  destruct (dataPlanePolicies_concern ns) as (C1&C2&C3&C4). split_and!.
  - intros p pod Hp. by apply dataPlanePolicies_apply.
  - intros dst src proto port Hdst. split.
    + cbn [existsb dataPlanePolicies]. unfold isolates. rewrite C1.
      by rewrite (proj2 (dataPlanePolicies_apply ns _ dst ltac:(by left)) Hdst).
    + rewrite dataPlanePolicies_ingress, <- (ingress_admits ns src). tauto.
  - intros src dst proto port Hsrc. split.
    + cbn [existsb dataPlanePolicies]. unfold isolates. rewrite C4.
      rewrite (proj2 (dataPlanePolicies_apply ns (ProxyEgressPolicy ns) src ltac:(by right; left)) Hsrc).
      by rewrite orb_true_r.
    + rewrite dataPlanePolicies_egress, <- (egress_admits ns dst). tauto.
  - intros pod other proto port Hno. by rewrite dataPlanePolicies_ingress, dataPlanePolicies_egress.
  - intros p [->| ->]%elem_of_dataPlanePolicies; vm_compute; reflexivity.
Qed.
