(* ===== verification/DataplaneNetpol.v ===== *)
(** * The one-shot prune (pkg/actuator/dataplane_netpol.go)

    Deleting every data-plane NetworkPolicy the extension manages in a shoot. *)

From S2P Require Import Prelude GoStd Errors Effects KubeObjects Constants External Interfaces.
From S2P Require Import DataPlanePolicies OrphanSweep.

Module dataPlaneNetworkPolicyReconciler.

Definition prunePolicy (policy : NetworkPolicy) : IO unit :=
  wrapf ("failed to delete managed data-plane NetworkPolicy " +:+ np_Namespace policy +:+ "/"
         +:+ np_Name policy +:+ ": ")
    (ignoreNotFound (request (DeleteNetworkPolicy (np_Namespace policy) (np_Name policy)))).

Definition Reconcile (seedNamespace : string) : IO unit :=
  orphanDataPlaneSweeper.kubernetesScheme ;;
  wrapf "failed to build shoot client for data-plane NetworkPolicy cleanup: "
    (request (NewClientForShoot seedNamespace)) ;;
  list ← wrapf "failed to list managed data-plane NetworkPolicies in shoot: "
           (request (ListNetworkPolicies ManagedDataPlanePolicyListOptions));
  for_each list prunePolicy.

Definition NewDataPlaneNetworkPolicyReconciler : DataPlaneNetworkPolicyReconciler :=
  {| PruneReconcile := Reconcile |}.

End dataPlaneNetworkPolicyReconciler.
