(* ===== verification/Actuator.v ===== *)
(** * The actuator (pkg/actuator/actuator.go)

    The lifecycle operations of the Extension resource, composed from the
    deployer, the Gateway lister, the NetworkPolicy components and the sweeper
    through their interfaces, and the classification of their errors. *)

From S2P Require Import Prelude GoStd Errors FunctionalOptions Effects KubeObjects Constants.
From S2P Require Import Config External Interfaces Secrets Manifests Deployer GatewayGuard.
From S2P Require Import OrphanSweep DataplaneNetpol NetpolDeployer.

(** ** Construction *)

Definition ErrInvalidActuator : error := errorsNew "invalid actuator".

(** An interface field is [None] when nil. *)
Record Actuator := mkActuator {
  client : Client;
  decoder : option (string -> config.EnvoyGatewayConfig + error);
  imageVector : ImageVector;
  gardenerVersion : string;
  gardenletFeatureGates : gmap string bool;
  gatewayLister : option GatewayLister;
  netpolReconciler : option DataPlaneNetworkPolicyReconciler;
  netpolDeployer : option NetpolControllerDeployer;
  orphanSweeper : option OrphanDataPlaneSweeper;
}.

#[export] Instance Actuator_eta : Eta Actuator := fun a =>
  mkActuator (client a) (decoder a) (imageVector a) (gardenerVersion a) (gardenletFeatureGates a)
    (gatewayLister a) (netpolReconciler a) (netpolDeployer a) (orphanSweeper a).

(** [Option]: mutates the actuator or fails. *)
Definition Option_ := OptionFunc Actuator.

Definition WithDecoder d : Option_ := assigns (fun a => a <| decoder := d |>).
Definition WithGardenerVersion v : Option_ := assigns (fun a => a <| gardenerVersion := v |>).
Definition WithGardenletFeatures feats : Option_ := assigns (fun a => a <| gardenletFeatureGates := feats |>).
Definition WithGatewayLister l : Option_ := assigns (fun a => a <| gatewayLister := l |>).
Definition WithDataPlaneNetworkPolicyReconciler r : Option_ := assigns (fun a => a <| netpolReconciler := r |>).
Definition WithOrphanDataPlaneSweeper s : Option_ := assigns (fun a => a <| orphanSweeper := s |>).
Definition WithNetpolControllerDeployer dep : Option_ := assigns (fun a => a <| netpolDeployer := dep |>).

(** [if x == nil { x = d }]. *)
Definition orElse {A} (x : option A) (d : A) : option A :=
  match x with None => Some d | x => x end.

Section actuator.
Context `{Libraries}.

Definition New (c : option Client) (iv : option ImageVector) (opts : list Option_) : outcome Actuator :=
  match c, iv with
  | None, _ => Err (wrapError "" ErrInvalidActuator ": no client specified")
  | _, None => Err (wrapError "" ErrInvalidActuator ": no image vector specified")
  | Some c, Some iv =>
      act ← applyOptions opts (mkActuator c None iv "" ∅ None None None None);
      Ok (mkActuator (client act)
            (orElse (decoder act) (client_UniversalDecoder c))
            (imageVector act) (gardenerVersion act) (gardenletFeatureGates act)
            (orElse (gatewayLister act) realGatewayLister.NewGatewayLister)
            (orElse (netpolReconciler act) dataPlaneNetworkPolicyReconciler.NewDataPlaneNetworkPolicyReconciler)
            (orElse (netpolDeployer act) (netpolControllerDeployer.NewNetpolControllerDeployer iv))
            (orElse (orphanSweeper act) orphanDataPlaneSweeper.NewOrphanDataPlaneSweeper))
  end.

(** ** Metrics *)

Definition classifyError (err : option error) : string :=
  match err with
  | None => ""
  | Some err =>
      match asGatewaysInUse err with
      | Some _ => ReasonGatewaysInUse
      | None =>
          let msg := Error err in
          if Contains msg "failed to decode envoy-gateway providerConfig" ||
             Contains msg "invalid envoy-gateway log level" ||
             Contains msg "invalid envoy-gateway channel" then ReasonInvalidProviderConfig
          else if Contains msg "envoy-gateway TLS secrets" ||
                  Contains msg "envoy-gateway secrets" ||
                  Contains msg "secrets-manager" then ReasonSecrets
          else if Contains msg "failed to deploy envoy-gateway" ||
                  Contains msg "failed to delete envoy-gateway" ||
                  Contains msg "failed to force-delete envoy-gateway" then ReasonManagedResource
          else if Contains msg "failed to get cluster" then ReasonClusterLookup
          else ReasonOther
      end
  end.

Definition recordOperation (cluster op : string) (start : Z) (err : option error) : io unit :=
  Call (CounterInc ActuatorOperationTotal [cluster; op]) (fun _ =>
  Call (GaugeSetSince ActuatorOperationDurationSeconds [cluster; op] start) (fun _ =>
  match err with
  | None => Ret tt
  | Some _ => do_call (CounterInc ActuatorOperationErrorsTotal [cluster; op; classifyError err])
  end)).

(** [start := time.Now(); defer func() { recordOperation(..., retErr) }()]. *)
Definition recorded (clusterName op : string) (body : IO unit) : IO unit :=
  start ← lift (do_call Now);
  deferred (recordOperation clusterName op start) body.

(** ** Draining and the delete guard *)

(** The deadline of [context.WithTimeout(ctx, GatewayDeletionTimeout)] in
    polling intervals. *)
Definition drainTicks : nat := Z.to_nat (GatewayDeletionTimeout / gatewayDeletionPollInterval).

Definition drainUserGatewaysForShootDeletion (a : Actuator) (clusterName : string) : IO unit :=
  lister ← nonNil (gatewayLister a);
  attempt (ListGateways lister clusterName) ;;
  attempt (DeleteGateways lister clusterName) ;;
  r ← attempt (WaitUntilGatewaysDeleted lister drainTicks clusterName);
  (match r with
   | inr err =>
       if errorsIs err realGatewayLister.ErrGatewaysStillDeleting
       then throw (wrapError "waiting for user Gateways to drain from shoot before deleting envoy-gateway: " err "")
       else mret tt
   | inl _ => mret tt
   end) ;;
  attempt (ClearGatewayClassFinalizer lister clusterName) ;;
  mret tt.

(** [shoot != nil && shoot.DeletionTimestamp != nil]. *)
Definition shootDeleting (shoot : option Shoot) : bool :=
  match shoot with
  | Some shoot => bool_decide (is_Some (sh_DeletionTimestamp shoot))
  | None => false
  end.

Definition checkNoUserGateways (a : Actuator) (shoot : option Shoot) (clusterName : string) : IO unit :=
  if shootDeleting shoot then drainUserGatewaysForShootDeletion a clusterName
  else
    lister ← nonNil (gatewayLister a);
    names ← wrapf "failed to list Gateway resources in shoot before deleting extension: "
              (ListGateways lister clusterName);
    match names with
    | [] => mret tt
    | _ =>
        lift (do_call (CounterInc DeleteGuardRejectionsTotal [clusterName])) ;;
        throw (gatewaysInUseError names)
    end.

(** ** Secrets *)

(** [generated[name]], nil when absent; [Data[key]], empty when absent. *)
Definition dataOf (data : gmap string string) (key : string) : string := default "" (data !! key).

Definition bundleComplete (bundle : TLSBundle) : bool :=
  present (CertPEM bundle) && present (KeyPEM bundle) && present (CAPEM bundle) &&
  present (ClientCertPEM bundle) && present (ClientKeyPEM bundle) && present (HMACBytes bundle).

Definition reconcileSecrets (cluster : Cluster) (clusterName : string) : IO TLSBundle :=
  sm ← wrapf "failed to construct secrets-manager: "
         (request (SecretsManagerForCluster cluster ExtensionType SecretConfigs));
  generated ← wrapf "failed to generate envoy-gateway secrets: "
                (request (GenerateAllSecrets sm SecretConfigs));
  match generated !! CASecretName, generated !! XDSServerCertSecretName,
        generated !! EnvoyClientCertSecretName, generated !! HMACSecretName with
  | Some caSecret, Some serverSecret, Some clientSecret, Some hmacSecret =>
      let bundle :=
        {| CertPEM := dataOf serverSecret DataKeyCertificate;
           KeyPEM := dataOf serverSecret DataKeyPrivateKey;
           CAPEM := dataOf caSecret DataKeyCertificateCA;
           ClientCertPEM := dataOf clientSecret DataKeyCertificate;
           ClientKeyPEM := dataOf clientSecret DataKeyPrivateKey;
           HMACBytes := dataOf hmacSecret HMACSecretKey |} in
      if negb (bundleComplete bundle) then
        throw (errorString ("secrets-manager returned an incomplete TLS bundle for " +:+ fmt_q clusterName))
      else
        wrapf "failed to clean up old envoy-gateway secrets: " (request (SMCleanup sm)) ;;
        mret bundle
  | _, _, _, _ =>
      throw (errorString ("secrets-manager returned an incomplete secret set for " +:+ fmt_q clusterName))
  end.

Definition deleteSecrets (cluster : Cluster) : IO unit :=
  sm ← wrapf "failed to construct secrets-manager: "
         (request (SecretsManagerForCluster cluster ExtensionType []));
  request (SMCleanup sm).

(** ** The provider configuration *)

Definition applyLogLevel (level target : string) : outcome string :=
  if decide (level = ""%string) then Ok target
  else if decide (level ∈ ValidLogLevels) then Ok level
  else Err (errorString ("invalid envoy-gateway log level " +:+ fmt_q level +:+
                         ": must be one of debug, info, warn, error")).

(** What the decoded configuration makes of the defaults. *)
Definition applyConfig (cfg : config.EnvoyGatewayConfig) (egConfig : Config) : outcome Config :=
  experimental ←
    (if decide (config.cfg_Channel cfg = ""%string) then Ok (ExperimentalFeatures egConfig)
     else if decide (config.cfg_Channel cfg ∈ ValidChannels)
          then Ok (bool_decide (config.cfg_Channel cfg = ChannelExperimental))
          else Err (errorString ("invalid envoy-gateway channel " +:+ fmt_q (config.cfg_Channel cfg) +:+
                                 ": must be one of standard, experimental")));
  let manageCRDs := default (ManageCRDs egConfig) (config.cfg_ManageCRDs cfg) in
  controlPlane ←
    match config.cfg_ControlPlane cfg with
    | None => Ok (ControlPlaneLogLevel egConfig, ControlPlaneReplicas egConfig)
    | Some cp =>
        level ← applyLogLevel (config.cp_LogLevel cp) (ControlPlaneLogLevel egConfig);
        Ok (level, match config.cp_Replicas cp with None => ControlPlaneReplicas egConfig | r => r end)
    end;
  dataPlane ←
    match config.cfg_DataPlane cfg with
    | None => Ok (DataPlaneLogLevel egConfig, DataPlaneReplicas egConfig)
    | Some dp =>
        level ← applyLogLevel (config.dp_LogLevel dp) (DataPlaneLogLevel egConfig);
        Ok (level, match config.dp_Replicas dp with None => DataPlaneReplicas egConfig | r => r end)
    end;
  Ok {| ControlPlaneReplicas := controlPlane.2;
        ControlPlaneLogLevel := controlPlane.1;
        DataPlaneReplicas := dataPlane.2;
        DataPlaneLogLevel := dataPlane.1;
        ExperimentalFeatures := experimental;
        ManageCRDs := manageCRDs;
        EnvoyProxyDefaults := config.cfg_EnvoyProxyDefaults cfg;
        ShootKubernetesVersion := ShootKubernetesVersion egConfig;
        ManageDataPlaneNetworkPolicies :=
          default false (config.cfg_ManageDataPlaneNetworkPolicies cfg) |}.

(** [egConfig.ShootKubernetesVersion = ...]. *)
Definition withVersion (version : string) (c : Config) : Config :=
  mkConfig (ControlPlaneReplicas c) (ControlPlaneLogLevel c) (DataPlaneReplicas c) (DataPlaneLogLevel c)
    (ExperimentalFeatures c) (ManageCRDs c) (EnvoyProxyDefaults c) version
    (ManageDataPlaneNetworkPolicies c).

Definition egConfigOf (a : Actuator) (version : string) (providerConfig : option string) : IO Config :=
  let egConfig := withVersion version DefaultConfig in
  match providerConfig with
  | None => mret egConfig
  | Some raw =>
      decode ← nonNil (decoder a);
      cfg ← wrapf "failed to decode envoy-gateway providerConfig: " (Ret (of_result (decode raw)));
      Ret (applyConfig cfg egConfig)
  end.

(** ** Operations *)

Definition ReconcileBody (a : Actuator) (ex : Extension) : IO unit :=
  let clusterName := ex_Namespace ex in
  cluster ← wrapf "failed to get cluster: " (request (GetCluster clusterName));
  shoot ← nonNil (cl_Shoot cluster);
  if decide (is_Some (sh_DeletionTimestamp shoot)) then drainUserGatewaysForShootDeletion a clusterName
  else if HibernationIsEnabled shoot then
    dep ← nonNil (netpolDeployer a);
    wrapf "failed to scale down data-plane NetworkPolicy controller for hibernation: "
      (ScaleDown dep clusterName)
  else
    egConfig ← egConfigOf a (sh_KubernetesVersion shoot) (ex_ProviderConfig ex);
    tlsBundle ← wrapf "failed to reconcile envoy-gateway TLS secrets: "
                  (reconcileSecrets cluster clusterName);
    wrapf "failed to deploy envoy-gateway: " (Deploy egConfig (imageVector a) clusterName tlsBundle) ;;
    sweeper ← nonNil (orphanSweeper a);
    attempt (Sweep sweeper clusterName) ;;
    dep ← nonNil (netpolDeployer a);
    if ManageDataPlaneNetworkPolicies egConfig then
      wrapf "failed to ensure data-plane NetworkPolicy controller: " (Ensure dep cluster clusterName)
    else
      wrapf "failed to tear down data-plane NetworkPolicy controller: " (Teardown dep clusterName) ;;
      rec ← nonNil (netpolReconciler a);
      wrapf "failed to prune data-plane NetworkPolicies after disabling the feature: "
        (PruneReconcile rec clusterName).

Definition Reconcile (a : Actuator) (ex : Extension) : IO unit :=
  recorded (ex_Namespace ex) "reconcile" (ReconcileBody a ex).

(** [cluster.Shoot != nil && cluster.Shoot.DeletionTimestamp == nil]. *)
Definition shootAlive (shoot : option Shoot) : bool :=
  match shoot with
  | Some shoot => bool_decide (sh_DeletionTimestamp shoot = None)
  | None => false
  end.

Definition DeleteBody (a : Actuator) (ex : Extension) : IO unit :=
  let clusterName := ex_Namespace ex in
  cluster ← wrapf "failed to get cluster: " (request (GetCluster clusterName));
  checkNoUserGateways a (cl_Shoot cluster) clusterName ;;
  dep ← nonNil (netpolDeployer a);
  wrapf "failed to tear down data-plane NetworkPolicy controller: " (Teardown dep clusterName) ;;
  (if shootAlive (cl_Shoot cluster)
   then rec ← nonNil (netpolReconciler a);
        wrapf "failed to remove data-plane NetworkPolicies: " (PruneReconcile rec clusterName)
   else mret tt) ;;
  wrapf "failed to delete envoy-gateway: " (DeployerDelete clusterName) ;;
  wrapf "failed to delete envoy-gateway secrets: " (deleteSecrets cluster).

Definition Delete (a : Actuator) (ex : Extension) : IO unit :=
  recorded (ex_Namespace ex) "delete" (DeleteBody a ex).

Definition ForceDelete (a : Actuator) (ex : Extension) : IO unit :=
  let clusterName := ex_Namespace ex in
  recorded clusterName "force_delete" (
    dep ← nonNil (netpolDeployer a);
    wrapf "failed to tear down data-plane NetworkPolicy controller during force-delete: "
      (Teardown dep clusterName) ;;
    wrapf "failed to force-delete envoy-gateway: " (DeleteKeepingObjects clusterName)).

Definition RestoreOp (a : Actuator) (ex : Extension) : IO unit :=
  recorded (ex_Namespace ex) "restore" (Reconcile a ex).

Definition Migrate (a : Actuator) (ex : Extension) : IO unit :=
  let clusterName := ex_Namespace ex in
  recorded clusterName "migrate" (
    dep ← nonNil (netpolDeployer a);
    wrapf "failed to tear down data-plane NetworkPolicy controller during migrate: "
      (Teardown dep clusterName) ;;
    wrapf "failed to delete envoy-gateway managed resource during migrate: "
      (DeleteKeepingObjects clusterName)).

End actuator.
