(* ===== verification/Process.v ===== *)
(** * The outside world of a starting process

    The commands build a controller-runtime manager, register checks and
    controllers with it, and start it.  What those registrations do is outside
    src/: each is a [setup] call, answered by the outside world.  Values the
    program only passes on (REST configurations, loggers, contexts, caches) are
    [Handle]s. *)

From S2P Require Import Prelude Errors Effects Constants Config External Interfaces Actuator.

(** A value made outside the program that it only passes on. *)
Definition Handle := nat.

(** [webhook.Options]: [webhook.NewServer] makes a server of them, and a server is
    known by them. *)
Record WebhookOptions := mkWebhookOptions {
  wh_Host : string;
  wh_Port : Z;
  wh_CertDir : string;
  wh_CertName : string;
  wh_KeyName : string;
}.

(** [metricsserver.Options]: the bind address, and the fields the program never
    sets. *)
Record MetricsOptions := mkMetricsOptions { BindAddress : string; metricsRest : Handle }.

(** A [healthz.Checker]. *)
Inductive Checker :=
  | Ping
  | CacheSync (cache : Handle)  (** [gardenerhealthz.NewCacheSyncHealthz] *)
  | CacheSyncWithDeadline (cache : Handle) (deadline : Z)
  | WebhookStarted (server : WebhookOptions).  (** [webhook.Server.StartedChecker] *)

(** [manager.Runnable]s: the program adds whole clusters. *)
Inductive Runnable := ClusterRunnable (cluster : Handle).

(** [componentbaseconfigv1alpha1.ClientConnectionConfiguration]; the float32 is
    kept as the rational it denotes. *)
Record ClientConnection := mkClientConnection { QPS : Qcanon.Qc; Burst : Z }.

(** [controllerconfig.Controller], as far as the program sets it. *)
Record ControllerConfig := mkControllerConfig {
  MaxConcurrentReconciles : Z;
  RecoverPanic : option bool;
}.

(** [manager.Options]. *)
Record ManagerOptions := mkManagerOptions {
  mo_Scheme : list string;  (** the APIs registered with it, in order *)
  mo_Metrics : MetricsOptions;
  mo_HealthProbeBindAddress : string;
  mo_LeaderElection : bool;
  mo_LeaderElectionID : string;
  mo_LeaderElectionNamespace : string;
  mo_LeaderElectionResourceLock : string;
  mo_LeaderElectionConfig : option Handle;
  mo_BaseContext : Handle;
  mo_Controller : ControllerConfig;
  mo_WebhookServer : option WebhookOptions;
  mo_Logger : Handle;
  mo_PprofBindAddress : string;
  mo_Client : Handle;
  mo_Cache : Handle;
}.

(** [extension.AddArgs]; the predicates and the watch builder are handles. *)
Record ExtensionAddArgs := mkExtensionAddArgs {
  aa_Actuator : option Actuator;
  aa_Name : string;
  aa_FinalizerSuffix : string;
  aa_ControllerOptions : Handle;
  aa_Predicates : list Handle;
  aa_Resync : Z;
  aa_Type : string;
  aa_WatchBuilder : Handle;
  aa_IgnoreOperationAnnotation : bool;
  aa_ExtensionClasses : list string;
}.

(** [heartbeatcontroller.AddArgs]. *)
Record HeartbeatAddArgs := mkHeartbeatAddArgs {
  ha_ExtensionName : string;
  ha_Namespace : string;
  ha_RenewIntervalSeconds : option Z;
  ha_Clock : Handle;
}.

(** [cluster.Options], as far as the program sets them. *)
Record ClusterOptions := mkClusterOptions {
  co_Logger : option Handle;
  co_Scheme : option (list string);
  co_CacheNamespaces : option (list string);
}.

(** [extensionswebhook.Webhook] with its [admission.Webhook]: the handler is the
    shoot validator, which is made of the manager's strict decoder. *)
Record Webhook := mkWebhook {
  wb_Name : string;
  wb_Action : string;
  wb_Path : string;
  wb_Target : string;
  wb_Types : list string;
  wb_CfgDecoder : string -> config.EnvoyGatewayConfig + error;
  wb_RecoverPanic : option bool;
}.

(** [extensionscmdwebhook.NewAddToManagerOptions] and its parts. *)
Record AddToManagerOptions := mkAddToManagerOptions {
  am_ExtensionName : string;
  am_Mode : string;
  am_URL : string;
  am_ServicePort : Z;
  am_Namespace : string;
  am_OwnerNamespace : string;
  am_GardenerVersion : string;
  am_SelfHostedShootCluster : bool;
}.

Inductive setup :=
  (* client-go and controller-runtime *)
  | GetConfig
  | BuildConfigFromFlags (kubeconfig : string)
  | Setenv (key val : string)  (** [os.Setenv] *)
  | NewZapLogger (level format : string)  (** [glogger.NewZapLogger] *)
  | AddToScheme (api : string)
  | InstallScheme (api : string)
  | ApplyClientConnection (connection : option ClientConnection) (config : Handle)
  | ManagerNew (config : Handle) (opts : ManagerOptions)
  | AddHealthzCheck (mgr : Handle) (name : string) (check : Checker)
  | AddReadyzCheck (mgr : Handle) (name : string) (check : Checker)
  | AddMetricsServerExtraHandler (mgr : Handle) (path : string) (handler : Handle)
  | AddRunnable (mgr : Handle) (r : Runnable)
  | ClusterNew (config : Handle) (opts : ClusterOptions)
  | GetCache (cluster : Handle)
  | BuilderComplete (mgr : Handle) (name : string) (cluster : Handle)
      (** the netpol reconciler's builder, with its two watches *)
  | Start (mgr : Handle)
  (* Gardener's extension library *)
  | DefaultPredicates (mgr : Handle) (ignoreOperationAnnotation : bool)
  | ExtensionAdd (mgr : Handle) (args : ExtensionAddArgs)
  | HeartbeatAdd (mgr : Handle) (args : HeartbeatAddArgs)
  | CompleteWebhookOptions (opts : AddToManagerOptions)
  | AddWebhooksToManager (config : Handle) (disabled : bool) (webhooks : list Webhook) (mgr source : Handle)
  (* what the actuator takes from the manager *)
  | GetClient (mgr : Handle)  (** of a manager or a cluster *)
  | UniversalDecoder (mgr : Handle).  (** strict, over the manager's scheme *)

Definition reply (c : setup) : Type :=
  match c with
  | GetConfig | BuildConfigFromFlags _ | ManagerNew _ _ | ClusterNew _ _
  | CompleteWebhookOptions _ | NewZapLogger _ _ => Handle + error
  | GetClient _ => Client
  | UniversalDecoder _ => string -> config.EnvoyGatewayConfig + error
  | GetCache _ => Handle
  | DefaultPredicates _ _ => list Handle
  | InstallScheme _ | ApplyClientConnection _ _ => unit
  | Setenv _ _ | AddToScheme _ | AddHealthzCheck _ _ _ | AddReadyzCheck _ _ _
  | AddMetricsServerExtraHandler _ _ _ | AddRunnable _ _ | BuilderComplete _ _ _ | Start _ | ExtensionAdd _ _ | HeartbeatAdd _ _
  | AddWebhooksToManager _ _ _ _ _ => unit + error
  end.

Abbreviation setupIO := (@M setup reply).

(** A call that can fail, and one that cannot. *)
Abbreviation ask c := (Call (ans := reply) c (fun r => Ret (of_result r)) : setupIO _) (only parsing).
Abbreviation get c := (Call (ans := reply) c (fun r => Ret (Ok r)) : setupIO _) (only parsing).

(** A [runtime.Scheme] is known by the APIs registered with it, in order: the
    functions that register one are given the scheme, and leave it with the API
    added.  Where one fails the scheme is used no more. *)
Definition Scheme := list string.

Definition addToScheme (api : string) (s : Scheme) : setupIO Scheme :=
  ask (AddToScheme api) ;; mret (s ++ [api]).

Definition installScheme (api : string) (s : Scheme) : setupIO Scheme :=
  get (InstallScheme api) ;; mret (s ++ [api]).

(** [glogger.MustNewZapLogger]: panics where [NewZapLogger] fails. *)
Definition MustNewZapLogger (level format : string) : setupIO Handle :=
  Call (NewZapLogger level format) (fun r =>
    Ret match r with inl logger => Ok logger | inr e => Panic (Error e) end).

(** [for k, v := range m]: some enumeration of the map, chosen anew at every
    loop. *)
Class RangeOrder := {
  range : forall (loop : string) {A : Type}, gmap string A -> list (string * A);
  range_permutation : forall loop A (m : gmap string A), range loop m ≡ₚ map_to_list m;
}.
