(* ===== verification/Mgr.v ===== *)
(** * The manager builder (pkg/mgr/mgr.go) *)

From S2P Require Import Prelude Errors FunctionalOptions Effects Process.

Module mgr.

#[global] Instance MetricsOptions_eta : Eta MetricsOptions := fun o =>
  mkMetricsOptions (BindAddress o) (metricsRest o).

Record mgr := mkMgr {
  scheme : Scheme;
  addToSchemes : list string;
  installSchemes : list string;
  restConfig : option Handle;
  metricsServerOpts : MetricsOptions;
  healthProbeAddr : string;
  pprofAddr : string;
  leaderElectionEnabled : bool;
  leaderElectionID : string;
  leaderElectionNamespace : string;
  leaderElectionConfig : option Handle;
  webhookServer : option WebhookOptions;
  baseCtxFunc : Handle;
  controllerOpts : ControllerConfig;
  logger : Handle;
  runnables : list Runnable;
  extraMetricsHandlers : gmap string Handle;
  healthzChecks : gmap string Checker;
  readyzChecks : gmap string Checker;
  clientOpts : Handle;
  cacheOpts : Handle;
  clientConnConfig : option ClientConnection;
}.

#[global] Instance mgr_eta : Eta mgr := fun m =>
  mkMgr (scheme m) (addToSchemes m) (installSchemes m) (restConfig m) (metricsServerOpts m)
    (healthProbeAddr m) (pprofAddr m) (leaderElectionEnabled m) (leaderElectionID m)
    (leaderElectionNamespace m) (leaderElectionConfig m) (webhookServer m) (baseCtxFunc m)
    (controllerOpts m) (logger m) (runnables m) (extraMetricsHandlers m) (healthzChecks m)
    (readyzChecks m) (clientOpts m) (cacheOpts m) (clientConnConfig m).

#[global] Instance ControllerConfig_eta : Eta ControllerConfig := fun c =>
  mkControllerConfig (MaxConcurrentReconciles c) (RecoverPanic c).

(** ** Options *)

Definition Option_ := OptionFunc mgr.

Definition WithConfig c : Option_ := assigns (fun m => m <| restConfig := c |>).
Definition WithScheme s : Option_ := assigns (fun m => m <| scheme := s |>).
Definition WithAddToScheme f : Option_ := assigns (fun m => m <| addToSchemes := addToSchemes m ++ [f] |>).
Definition WithInstallScheme f : Option_ := assigns (fun m => m <| installSchemes := installSchemes m ++ [f] |>).
Definition WithMetricsOptions opts : Option_ := assigns (fun m => m <| metricsServerOpts := opts |>).
Definition WithMetricsAddress addr : Option_ :=
  assigns (fun m => m <| metricsServerOpts := (metricsServerOpts m) <| BindAddress := addr |> |>).
Definition WithExtraMetricsHandler (path : string) handler : Option_ :=
  assigns (fun m => m <| extraMetricsHandlers := <[path := handler]> (extraMetricsHandlers m) |>).
Definition WithLeaderElection enable : Option_ := assigns (fun m => m <| leaderElectionEnabled := enable |>).
Definition WithLeaderElectionID id : Option_ := assigns (fun m => m <| leaderElectionID := id |>).
Definition WithLeaderElectionNamespace ns : Option_ := assigns (fun m => m <| leaderElectionNamespace := ns |>).
Definition WithLeaderElectionConfig c : Option_ := assigns (fun m => m <| leaderElectionConfig := c |>).
Definition WithContext ctx : Option_ := assigns (fun m => m <| baseCtxFunc := ctx |>).
Definition WithControllerOptions opts : Option_ := assigns (fun m => m <| controllerOpts := opts |>).
Definition WithMaxConcurrentReconciles val : Option_ :=
  assigns (fun m => m <| controllerOpts := (controllerOpts m) <| MaxConcurrentReconciles := val |> |>).
Definition WithHealthzCheck (name : string) checker : Option_ :=
  assigns (fun m => m <| healthzChecks := <[name := checker]> (healthzChecks m) |>).
Definition WithReadyzCheck (name : string) checker : Option_ :=
  assigns (fun m => m <| readyzChecks := <[name := checker]> (readyzChecks m) |>).
Definition WithHealthProbeAddress addr : Option_ := assigns (fun m => m <| healthProbeAddr := addr |>).
Definition WithWebhookServer server : Option_ := assigns (fun m => m <| webhookServer := server |>).
Definition WithLogger l : Option_ := assigns (fun m => m <| logger := l |>).
Definition WithPprofAddress addr : Option_ := assigns (fun m => m <| pprofAddr := addr |>).
Definition WithRunnable r : Option_ := assigns (fun m => m <| runnables := runnables m ++ [r] |>).
Definition WithClientOptions opts : Option_ := assigns (fun m => m <| clientOpts := opts |>).
Definition WithCacheOptions opts : Option_ := assigns (fun m => m <| cacheOpts := opts |>).
Definition WithConnectionConfiguration cfg : Option_ := assigns (fun m => m <| clientConnConfig := cfg |>).

(** Only the first of these two creates the server. *)
Definition WithWebhookPort port : Option_ := assigns (fun m =>
  match webhookServer m with
  | None => m <| webhookServer := Some (mkWebhookOptions "" port "" "" "") |>
  | Some _ => m
  end).
Definition WithWebhookCertDir certDir : Option_ := assigns (fun m =>
  match webhookServer m with
  | None => m <| webhookServer := Some (mkWebhookOptions "" 0 certDir "" "") |>
  | Some _ => m
  end).

(** ** New *)

(** The zero handle stands for Go's zero value; [context.Background] is the
    default base context. *)
Definition background : Handle := 0.

Definition initial : mgr :=
  mkMgr [] [] [] None (mkMetricsOptions "" 0) "" "" false "" "" None None background
    (mkControllerConfig 5 (Some true)) 0 [] ∅ ∅ ∅ 0 0 None.

Definition LeasesResourceLock : string := "leases".

Definition managerOptions (m : mgr) : ManagerOptions :=
  {| mo_Scheme := scheme m;
     mo_Metrics := metricsServerOpts m;
     mo_HealthProbeBindAddress := healthProbeAddr m;
     mo_LeaderElection := leaderElectionEnabled m;
     mo_LeaderElectionID := leaderElectionID m;
     mo_LeaderElectionNamespace := leaderElectionNamespace m;
     mo_LeaderElectionResourceLock := LeasesResourceLock;
     mo_LeaderElectionConfig := leaderElectionConfig m;
     mo_BaseContext := baseCtxFunc m;
     mo_Controller := controllerOpts m;
     mo_WebhookServer := webhookServer m;
     mo_Logger := logger m;
     mo_PprofBindAddress := pprofAddr m;
     mo_Client := clientOpts m;
     mo_Cache := cacheOpts m |}.

(** The registrations, each on the scheme the previous ones left. *)
Definition registerSchemes (m : mgr) : setupIO mgr :=
  s ← threading (addToSchemes m) (fun api s => wrapf "failed to add scheme: " (addToScheme api s)) (scheme m);
  s ← threading (installSchemes m) installScheme s;
  mret (m <| scheme := s |>).

Section new.
Context `{RangeOrder}.

Definition registerAll (m : mgr) (crMgr : Handle) : setupIO unit :=
  for_each (range "healthz" (healthzChecks m)) (fun '(name, checker) =>
    wrapf "failed to setup health check: " (ask (AddHealthzCheck crMgr name checker))) ;;
  for_each (range "readyz" (readyzChecks m)) (fun '(name, checker) =>
    wrapf "failed to setup ready check: " (ask (AddReadyzCheck crMgr name checker))) ;;
  for_each (range "handlers" (extraMetricsHandlers m)) (fun '(path, handler) =>
    wrapf "failed to setup extra handler: " (ask (AddMetricsServerExtraHandler crMgr path handler))) ;;
  for_each (runnables m) (fun runnable =>
    wrapf "failed to setup runnable: " (ask (AddRunnable crMgr runnable))).

Definition New (opts : list Option_) : setupIO Handle :=
  m ← Ret (applyOptions opts initial);
  m ← registerSchemes m;
  config ← match restConfig m with
           | Some config => mret config
           | None => wrapf "failed to get rest config: " (ask GetConfig)
           end;
  get (ApplyClientConnection (clientConnConfig m) config) ;;
  crMgr ← wrapf "failed to create manager: " (ask (ManagerNew config (managerOptions m)));
  registerAll m crMgr ;;
  mret crMgr.
End new.

End mgr.
