(* ===== verification/Heartbeat.v ===== *)
(** * The heartbeat (pkg/heartbeat/heartbeat.go)

    [time.Duration.Seconds] yields a float64, which the code converts to an
    int32: both are modelled in IEEE 754 binary64 arithmetic. *)

From S2P Require Import Prelude Errors FunctionalOptions Effects Constants Process.
From Stdlib Require Import SpecFloat.

(** ** float64 *)

Module Float64.

Definition prec : Z := 53.
Definition emax : Z := 1024.

(** [float64(z)]. *)
Definition ofZ (z : Z) : spec_float := binary_normalize prec emax z 0 false.
Definition add : spec_float -> spec_float -> spec_float := SFadd prec emax.
Definition div : spec_float -> spec_float -> spec_float := SFdiv prec emax.

(** The integer part, towards zero; [None] for infinities and NaN. *)
Definition trunc (f : spec_float) : option Z :=
  match f with
  | S754_zero _ => Some 0%Z
  | S754_finite s m e =>
      let v := if decide (0 <= e)%Z then (Z.pos m * 2 ^ e)%Z else (Z.pos m / 2 ^ (- e))%Z in
      Some (if s then (- v)%Z else v)
  | _ => None
  end.

(** [int32(f)]: [None] where the result is implementation-specific. *)
Definition int32 (f : spec_float) : option Z :=
  z ← trunc f; if decide (-2 ^ 31 <= z < 2 ^ 31)%Z then Some z else None.

End Float64.

(** [time.Duration.Seconds]. *)
Definition Seconds (d : Z) : spec_float :=
  Float64.add (Float64.ofZ (Z.quot d Second))
    (Float64.div (Float64.ofZ (Z.rem d Second)) (Float64.ofZ 1000000000)).

Module heartbeat.

Definition ErrInvalidHeartbeat : error := errorsNew "invalid heartbeat config".

Record Heartbeat := mkHeartbeat {
  extensionName : string;
  namespace : string;
  renewInterval : Z;
  clock : Handle;
}.

#[global] Instance Heartbeat_eta : Eta Heartbeat := fun h =>
  mkHeartbeat (extensionName h) (namespace h) (renewInterval h) (clock h).

Definition Option_ := OptionFunc Heartbeat.

Definition WithExtensionName n : Option_ := assigns (fun h => h <| extensionName := n |>).
Definition WithLeaseNamespace ns : Option_ := assigns (fun h => h <| namespace := ns |>).
Definition WithRenewInterval interval : Option_ := assigns (fun h => h <| renewInterval := interval |>).
Definition WithClock clk : Option_ := assigns (fun h => h <| clock := clk |>).

(** [clock.RealClock{}]. *)
Definition realClock : Handle := 0.

Definition New (opts : list Option_) : outcome Heartbeat :=
  h ← applyOptions opts (mkHeartbeat "" "" (30 * Second) realClock);
  if decide (extensionName h = "") then Err (wrapError "" ErrInvalidHeartbeat ": missing extension name")
  else if decide (namespace h = "") then Err (wrapError "" ErrInvalidHeartbeat ": missing lease namespace")
  else Ok h.

Definition addArgs (h : Heartbeat) : HeartbeatAddArgs :=
  {| ha_ExtensionName := extensionName h;
     ha_Namespace := namespace h;
     ha_RenewIntervalSeconds := Float64.int32 (Seconds (renewInterval h));
     ha_Clock := clock h |}.

Definition SetupWithManager (h : Heartbeat) (mgr : Handle) : setupIO unit :=
  ask (HeartbeatAdd mgr (addArgs h)).

End heartbeat.

(** ** Properties *)

Section float_lemmas.
Import Float64.

Lemma digits_shift m k : Z.pos (digits2_pos (Pos.iter xO m k)) = (Z.pos (digits2_pos m) + Z.pos k)%Z.
Proof.
  induction k as [|k IH] using Pos.peano_ind; [simpl; lia|].
  rewrite Pos.iter_succ. cbn [digits2_pos]. lia.
Qed.

Lemma value_shift m k : Z.pos (Pos.iter xO m k) = (Z.pos m * 2 ^ Z.pos k)%Z.
Proof.
  induction k as [|k IH] using Pos.peano_ind; [simpl; lia|].
  rewrite Pos.iter_succ, Pos2Z.inj_succ, Z.pow_succ_r by lia. rewrite Pos2Z.inj_xO, IH. lia.
Qed.

Lemma digits_bound m k : (Z.pos m < 2 ^ Z.pos k)%Z -> (Z.pos (digits2_pos m) <= Z.pos k)%Z.
Proof.
  revert k. induction m as [m IH|m IH|]; intros k Hk; cbn [digits2_pos]; [| |lia].
  all: destruct (Pos.eq_dec k xH) as [->|Hne]; [simpl in Hk; lia|].
  all: replace (Z.pos k) with (Z.succ (Z.pos (Pos.pred k))) in * by lia.
  all: rewrite Z.pow_succ_r in Hk by lia; specialize (IH (Pos.pred k)); lia.
Qed.

(** Rounding leaves a 53-bit mantissa alone. *)
Lemma round_exact m e :
  Z.pos (digits2_pos m) = prec -> (-1074 <= e <= 971)%Z ->
  binary_round_aux prec emax false (Z.pos m) e loc_Exact = S754_finite false m e.
Proof.
  intros Hd He. unfold binary_round_aux, shr_fexp. cbn [Zdigits2].
  replace (SpecFloat.fexp prec emax (Z.pos (digits2_pos m) + e) - e)%Z with 0%Z
    by (unfold SpecFloat.fexp, SpecFloat.emin, prec, emax in *; lia).
  cbn [shr shr_record_of_loc shr_m loc_of_shr_record round_nearest_even Zdigits2].
  replace (SpecFloat.fexp prec emax (Z.pos (digits2_pos m) + e) - e)%Z with 0%Z
    by (unfold SpecFloat.fexp, SpecFloat.emin, prec, emax in *; lia).
  cbn [shr shr_m]. by rewrite (proj2 (Z.leb_le e (emax - prec))) by (unfold emax, prec; lia).
Qed.

(** Conversion of a 53-bit integer is exact. *)
Lemma trunc_ofZ n : (0 <= n < 2 ^ 53)%Z ->
  trunc (ofZ n) = Some n /\ match ofZ n with S754_finite _ _ _ => True | S754_zero s => s = false | _ => False end.
Proof.
  intros [Hn Hlt]. destruct n as [|m|m]; [done| |lia].
  pose proof (digits_bound m 53%positive Hlt) as Hd. unfold ofZ. cbn [binary_normalize]. unfold binary_round, shl_align.
  assert (Hf : (SpecFloat.fexp prec emax (Z.pos (digits2_pos m) + 0) - 0 = Z.pos (digits2_pos m) - 53)%Z)
    by (unfold SpecFloat.fexp, SpecFloat.emin, prec, emax; lia).
  rewrite Hf. destruct (Z.pos (digits2_pos m) - 53)%Z as [|k|k] eqn:E; [|lia|].
  - rewrite round_exact by (unfold prec; lia). split; [|done].
    unfold trunc. case_decide; [|lia]. f_equal. lia.
  - replace (SpecFloat.fexp prec emax (Z.pos (digits2_pos m) + 0)) with (Z.neg k) by lia.
    rewrite round_exact by (rewrite ?digits_shift; unfold prec; lia). split; [|done].
    unfold trunc. case_decide; [lia|]. f_equal. rewrite value_shift.
    replace (- Z.neg k)%Z with (Z.pos k) by lia. apply Z.div_mul. lia.
Qed.
End float_lemmas.

(** A whole number of seconds is converted exactly. *)
Lemma Seconds_whole n : (0 <= n < 2 ^ 31)%Z -> Float64.int32 (Seconds (n * Second)) = Some n.
Proof.
  intros Hn. unfold Seconds. rewrite Z.quot_mul, Z.rem_mul by done.
  destruct (trunc_ofZ n) as [Ht Hs]; [lia|].
  change (Float64.div (Float64.ofZ 0) (Float64.ofZ 1000000000)) with (S754_zero false).
  assert (Ha : Float64.add (Float64.ofZ n) (S754_zero false) = Float64.ofZ n).
  { destruct (Float64.ofZ n) as [s|s| |s m e]; [by subst|done..]. }
  rewrite Ha. unfold Float64.int32. rewrite Ht. cbn. rewrite decide_True by lia. done.
Qed.
