(* ===== verification/Controller.v ===== *)
(** * The extension controller (pkg/controller/controller.go) *)

From S2P Require Import Prelude Errors FunctionalOptions Effects Actuator Process.

Module controller.

Definition ErrInvalidController : error := errorsNew "invalid controller config".

Record Controller := mkController {
  actuator : option Actuator;
  name : string;
  finalizerSuffix : string;
  controllerOptions : Handle;
  predicates : list Handle;
  resync : Z;
  extensionType : string;
  watchBuilder : Handle;
  ignoreOperationAnnotation : bool;
  extensionClasses : list string;
}.

#[global] Instance Controller_eta : Eta Controller := fun c =>
  mkController (actuator c) (name c) (finalizerSuffix c) (controllerOptions c) (predicates c) (resync c)
    (extensionType c) (watchBuilder c) (ignoreOperationAnnotation c) (extensionClasses c).

Definition Option_ := OptionFunc Controller.

Definition WithActuator act : Option_ := assigns (fun c => c <| actuator := act |>).
Definition WithName n : Option_ := assigns (fun c => c <| name := n |>).
Definition WithFinalizerSuffix suffix : Option_ := assigns (fun c => c <| finalizerSuffix := suffix |>).
Definition WithControllerOptions opts : Option_ := assigns (fun c => c <| controllerOptions := opts |>).
Definition WithPredicate pred : Option_ := assigns (fun c => c <| predicates := predicates c ++ [pred] |>).
Definition WithExtensionType ty : Option_ := assigns (fun c => c <| extensionType := ty |>).
Definition WithWatchBuilder builder : Option_ := assigns (fun c => c <| watchBuilder := builder |>).
Definition WithIgnoreOperationAnnotation ignore : Option_ :=
  assigns (fun c => c <| ignoreOperationAnnotation := ignore |>).
Definition WithExtensionClass item : Option_ :=
  assigns (fun c => c <| extensionClasses := extensionClasses c ++ [item] |>).
Definition WithResyncInterval duration : Option_ := assigns (fun c => c <| resync := duration |>).

Definition initial : Controller := mkController None "" "" 0 [] 0 "" 0 false [].

(** The checks of [New], in order, and the default it sets. *)
Definition validate (c : Controller) : outcome Controller :=
  match actuator c with
  | None => Err (wrapError "" ErrInvalidController ": missing actuator implementation")
  | Some _ =>
      if decide (name c = "") then Err (wrapError "" ErrInvalidController ": missing controller name")
      else if decide (extensionType c = "") then Err (wrapError "" ErrInvalidController ": missing extension type")
      else if decide (extensionClasses c = []) then Err (wrapError "" ErrInvalidController ": missing extension class")
      else if decide (finalizerSuffix c = "") then Ok (c <| finalizerSuffix := name c |>)
      else Ok c
  end%string.

Definition New (opts : list Option_) : outcome Controller :=
  c ← applyOptions opts initial; validate c.

Definition addArgs (c : Controller) : ExtensionAddArgs :=
  {| aa_Actuator := actuator c;
     aa_Name := name c;
     aa_FinalizerSuffix := finalizerSuffix c;
     aa_ControllerOptions := controllerOptions c;
     aa_Predicates := predicates c;
     aa_Resync := resync c;
     aa_Type := extensionType c;
     aa_WatchBuilder := watchBuilder c;
     aa_IgnoreOperationAnnotation := ignoreOperationAnnotation c;
     aa_ExtensionClasses := extensionClasses c |}.

Definition SetupWithManager (c : Controller) (mgr : Handle) : setupIO unit :=
  c ← match predicates c with
      | [] => preds ← get (DefaultPredicates mgr (ignoreOperationAnnotation c));
              mret (c <| predicates := preds |>)
      | _ => mret c
      end;
  ask (ExtensionAdd mgr (addArgs c)).

End controller.
