(* ===== verification/NetpolManager.v ===== *)
(** * The NetworkPolicy controller's process

    pkg/netpolcontroller/manager.go, [Reconciler.AddToManager] and the command
    in cmd/extension-envoy-gateway/internal/netpolcontroller. *)

From S2P Require Import Prelude GoStd Errors Effects Constants Process.

Module netpolcontroller.

Record Options := mkOptions {
  SeedRESTConfig : Handle;
  ShootRESTConfig : Handle;
  SeedNamespace : string;
  LeaderElection : bool;
  MetricsBindAddress : string;
  HealthProbeBindAddress : string;
}.

(** The APIs [shootScheme] registers, in order. *)
Definition shootAPIs : list string := ["kubernetes"; "gateway-api"]%string.

Definition shootScheme : setupIO Scheme :=
  threading shootAPIs (fun add s => wrapf "failed to build shoot scheme: " (addToScheme add s)) [].

Definition metricsOptions (addr : string) : MetricsOptions := mkMetricsOptions addr 0.

(** [Reconciler.AddToManager]: the builder with the Gateway watch and the
    self-heal watch on the shoot cluster's cache. *)
Definition AddToManager (mgr shootCluster : Handle) : setupIO unit :=
  cache ← get (GetCache shootCluster);
  ask (BuilderComplete mgr "envoy-gateway-netpol" cache).

Definition seedManagerOptions (opts : Options) (logger ctx : Handle) (seedScheme : Scheme) : ManagerOptions :=
  {| mo_Scheme := seedScheme;
     mo_Metrics := metricsOptions (MetricsBindAddress opts);
     mo_HealthProbeBindAddress := HealthProbeBindAddress opts;
     mo_LeaderElection := LeaderElection opts;
     mo_LeaderElectionID := "envoy-gateway-netpol-controller";
     mo_LeaderElectionNamespace := SeedNamespace opts;
     mo_LeaderElectionResourceLock := "";
     mo_LeaderElectionConfig := None;
     mo_BaseContext := ctx;
     mo_Controller := mkControllerConfig 0 None;
     mo_WebhookServer := None;
     mo_Logger := logger;
     mo_PprofBindAddress := "";
     mo_Client := 0;
     mo_Cache := 0 |}.

Definition NewManager (ctx logger : Handle) (opts : Options) : setupIO Handle :=
  scheme ← shootScheme;
  seedScheme ← wrapf "failed to build seed scheme: " (addToScheme "kubernetes" []);
  mgr ← wrapf "failed to create seed manager: "
          (ask (ManagerNew (SeedRESTConfig opts) (seedManagerOptions opts logger ctx seedScheme)));
  shootCluster ← wrapf "failed to create shoot cluster: "
          (ask (ClusterNew (ShootRESTConfig opts) (mkClusterOptions None (Some scheme) None)));
  wrapf "failed to add shoot cluster to manager: " (ask (AddRunnable mgr (ClusterRunnable shootCluster))) ;;
  wrapf "failed to add netpol reconciler: " (AddToManager mgr shootCluster) ;;
  (if decide (HealthProbeBindAddress opts <> "0"%string) then
     wrapf "failed to add healthz check: " (ask (AddHealthzCheck mgr "ping" Ping)) ;;
     cache ← get (GetCache shootCluster);
     wrapf "failed to add shoot-cache-sync readyz check: "
       (ask (AddReadyzCheck mgr "shoot-cache-sync" (CacheSyncWithDeadline cache (5 * Second))))
   else mret tt) ;;
  mret mgr.

(** ** command.go *)

(** The parsed flags. *)
Record flags := mkFlags {
  seedNamespace : string;
  shootKubeconfig : string;
  leaderElection : bool;
  metricsBindAddr : string;
  healthProbeBindAddr : string;
  zapLogLevel : string;
  zapLogFormat : string;
}.

#[global] Instance flags_eta : Eta flags := fun f =>
  mkFlags (seedNamespace f) (shootKubeconfig f) (leaderElection f) (metricsBindAddr f) (healthProbeBindAddr f)
    (zapLogLevel f) (zapLogFormat f).

(** [flags{}]. *)
Definition zeroFlags : flags := mkFlags "" "" false "" "" "" "".

(** [logger] is the named logger of the global one, which the first line sets. *)
Definition run (ctx logger : Handle) (f : flags) : setupIO unit :=
  MustNewZapLogger (zapLogLevel f) (zapLogFormat f) ;;
  seedConfig ← wrapf "failed to get seed REST config: " (ask GetConfig);
  shootConfig ← wrapf ("failed to build shoot REST config from " +:+ fmt_q (shootKubeconfig f) +:+ ": ")
                  (ask (BuildConfigFromFlags (shootKubeconfig f)));
  mgr ← wrapf "failed to create netpol-controller manager: "
          (NewManager ctx logger
             {| SeedRESTConfig := seedConfig; ShootRESTConfig := shootConfig;
                SeedNamespace := seedNamespace f; LeaderElection := leaderElection f;
                MetricsBindAddress := metricsBindAddr f; HealthProbeBindAddress := healthProbeBindAddr f |});
  wrapf "failed to start netpol-controller manager: " (ask (Start mgr)).

End netpolcontroller.
