(* ===== verification/Commands.v ===== *)
(** * The manager and webhook commands

    cmd/extension-envoy-gateway/internal/manager/manager.go and
    cmd/extension-envoy-gateway/webhook/webhook.go: building, wiring and starting
    the two processes, and pkg/admission/validator's webhook constructor. *)

From S2P Require Import Prelude Errors FunctionalOptions Effects Constants Config Interfaces.
From S2P Require Import Actuator Process Mgr Heartbeat Controller.
From Stdlib Require Import Qcanon.

(** ** manager.go *)

Module managercmd.

(** The parsed flags. *)
Record flags := mkFlags {
  extensionName : string;
  metricsBindAddr : string;
  healthProbeBindAddr : string;
  heartbeatRenewInterval : Z;
  heartbeatNamespace : string;
  leaderElection : bool;
  leaderElectionID : string;
  leaderElectionNamespace : string;
  ignoreOperationAnnotation : bool;
  maxConcurrentReconciles : Z;
  kubeconfig : string;
  zapLogLevel : string;
  zapLogFormat : string;
  resyncInterval : Z;
  pprofBindAddr : string;
  clientConnQPS : Qc;
  clientConnBurst : Z;
  gardenerVersion : string;
  gardenletFeatureGates : gmap string bool;
}.

#[global] Instance flags_eta : Eta flags := fun f =>
  mkFlags (extensionName f) (metricsBindAddr f) (healthProbeBindAddr f) (heartbeatRenewInterval f)
    (heartbeatNamespace f) (leaderElection f) (leaderElectionID f) (leaderElectionNamespace f)
    (ignoreOperationAnnotation f) (maxConcurrentReconciles f) (kubeconfig f) (zapLogLevel f) (zapLogFormat f)
    (resyncInterval f) (pprofBindAddr f) (clientConnQPS f) (clientConnBurst f) (gardenerVersion f)
    (gardenletFeatureGates f).

(** [flags{}]. *)
Definition zeroFlags : flags := mkFlags "" "" "" 0 "" false "" "" false 0 "" "" "" 0 "" (Q2Qc 0) 0 "" ∅.

(** The flags that [Before] stored in the context; without them, zero flags. *)
Definition getFlags (stored : option flags) : flags := default zeroFlags stored.

(** [extensionsv1alpha1.ExtensionClassShoot]: what [Actuator.ExtensionClass]
    returns. *)
Definition ExtensionClassShoot : string := "shoot".

Definition managerOpts (f : flags) (ctx : Handle) : list mgr.Option_ :=
  [ mgr.WithContext ctx;
    mgr.WithAddToScheme "kubernetes";
    mgr.WithAddToScheme "extensions";
    mgr.WithAddToScheme "resources/v1alpha1";
    mgr.WithAddToScheme "core/v1beta1";
    mgr.WithInstallScheme "config";
    mgr.WithMetricsAddress (metricsBindAddr f);
    mgr.WithHealthProbeAddress (healthProbeBindAddr f);
    mgr.WithLeaderElection (leaderElection f);
    mgr.WithLeaderElectionID (leaderElectionID f);
    mgr.WithLeaderElectionNamespace (leaderElectionNamespace f);
    mgr.WithMaxConcurrentReconciles (maxConcurrentReconciles f);
    mgr.WithHealthzCheck "healthz" Ping;
    mgr.WithReadyzCheck "readyz" Ping;
    mgr.WithPprofAddress (pprofBindAddr f);
    mgr.WithConnectionConfiguration (Some (mkClientConnection (clientConnQPS f) (clientConnBurst f))) ].

Definition heartbeatOpts (f : flags) : list heartbeat.Option_ :=
  [ heartbeat.WithExtensionName (extensionName f);
    heartbeat.WithLeaseNamespace (heartbeatNamespace f);
    heartbeat.WithRenewInterval (heartbeatRenewInterval f) ].

Definition actuatorOpts (f : flags) (decoder : string -> config.EnvoyGatewayConfig + error) :
    list Actuator.Option_ :=
  [ WithDecoder (Some decoder);
    WithGardenerVersion (gardenerVersion f);
    WithGardenletFeatures (gardenletFeatureGates f) ].

(** The controller is named after the actuator's own constants. *)
Definition controllerOpts (f : flags) (act : Actuator) : list controller.Option_ :=
  [ controller.WithActuator (Some act);
    controller.WithName Name;
    controller.WithExtensionType ExtensionType;
    controller.WithFinalizerSuffix FinalizerSuffix;
    controller.WithExtensionClass ExtensionClassShoot;
    controller.WithIgnoreOperationAnnotation (ignoreOperationAnnotation f);
    controller.WithResyncInterval (resyncInterval f) ].

Section manager.
Context `{Libraries} `{RangeOrder}.

Definition getManager (f : flags) (ctx : Handle) : setupIO Handle :=
  m ← mgr.New (managerOpts f ctx);
  hb ← wrapf "failed to create heartbeat controller: " (Ret (heartbeat.New (heartbeatOpts f)));
  wrapf "failed to setup heartbeat controller: " (heartbeat.SetupWithManager hb m) ;;
  mret m.

(** [extenimagev.ImageVector()] is embedded: it is never nil. *)
Definition runManager (iv : ImageVector) (f : flags) (ctx : Handle) : setupIO unit :=
  m ← getManager f ctx;
  decoder ← get (UniversalDecoder m);
  c ← get (GetClient m);
  act ← wrapf "failed to create actuator: "
          (Ret (Actuator.New (Some c) (Some iv) (actuatorOpts f decoder)));
  ctrl ← wrapf "failed to create a controller: " (Ret (controller.New (controllerOpts f act)));
  wrapf "failed to setup controller with manager: " (controller.SetupWithManager ctrl m) ;;
  wrapf "failed to start manager: " (ask (Start m)).

End manager.
End managercmd.

(** ** webhook.go and the webhook of pkg/admission/validator *)

Module webhookcmd.

Definition WebhookName : string := "shoot-validator".
Definition WebhookPath : string := "/webhooks/validate-envoy-gateway".

Definition NewShootValidatorWebhook (m : Handle) : setupIO Webhook :=
  decoder ← get (UniversalDecoder m);
  mret {| wb_Name := WebhookName;
          wb_Action := "validating";
          wb_Path := WebhookPath;
          wb_Target := "seed";
          wb_Types := ["Shoot"%string];
          wb_CfgDecoder := decoder;
          wb_RecoverPanic := Some true |}.

(** The parsed flags; [sourceCluster] is a result of [getManager]. *)
Record flags := mkFlags {
  extensionName : string;
  metricsBindAddr : string;
  healthProbeBindAddr : string;
  leaderElection : bool;
  leaderElectionID : string;
  leaderElectionNamespace : string;
  kubeconfig : string;
  gardenKubeconfig : string;
  zapLogLevel : string;
  zapLogFormat : string;
  pprofBindAddr : string;
  clientConnQPS : Qc;
  clientConnBurst : Z;
  webhookServerHost : string;
  webhookServerPort : Z;
  webhookServerCertDir : string;
  webhookServerCertName : string;
  webhookServerKeyName : string;
  webhookConfigNamespace : string;
  webhookConfigMode : string;
  webhookConfigURL : string;
  webhookConfigServicePort : Z;
  webhookConfigOwnerNamespace : string;
  gardenerVersion : string;
  selfHostedShootCluster : bool;
}.

#[global] Instance flags_eta : Eta flags := fun f =>
  mkFlags (extensionName f) (metricsBindAddr f) (healthProbeBindAddr f) (leaderElection f) (leaderElectionID f)
    (leaderElectionNamespace f) (kubeconfig f) (gardenKubeconfig f) (zapLogLevel f) (zapLogFormat f)
    (pprofBindAddr f) (clientConnQPS f) (clientConnBurst f) (webhookServerHost f) (webhookServerPort f)
    (webhookServerCertDir f) (webhookServerCertName f) (webhookServerKeyName f) (webhookConfigNamespace f)
    (webhookConfigMode f) (webhookConfigURL f) (webhookConfigServicePort f) (webhookConfigOwnerNamespace f)
    (gardenerVersion f) (selfHostedShootCluster f).

(** [flags{}]. *)
Definition zeroFlags : flags :=
  mkFlags "" "" "" false "" "" "" "" "" "" "" (Q2Qc 0) 0 "" 0 "" "" "" "" "" "" 0 "" "" false.

Definition getFlags (stored : option flags) : flags := default zeroFlags stored.

Definition getLogger (f : flags) : setupIO Handle := MustNewZapLogger (zapLogLevel f) (zapLogFormat f).

Definition webhookOpts (f : flags) : WebhookOptions :=
  mkWebhookOptions (webhookServerHost f) (webhookServerPort f) (webhookServerCertDir f)
    (webhookServerCertName f) (webhookServerKeyName f).

Definition managerOpts (f : flags) (ctx sourceConfig targetConfig sourceCluster sourceCache : Handle) :
    list mgr.Option_ :=
  [ mgr.WithContext ctx;
    mgr.WithConfig (Some targetConfig);
    mgr.WithAddToScheme "kubernetes";
    mgr.WithInstallScheme "core";
    mgr.WithInstallScheme "config";
    mgr.WithMetricsAddress (metricsBindAddr f);
    mgr.WithHealthProbeAddress (healthProbeBindAddr f);
    mgr.WithLeaderElection (leaderElection f);
    mgr.WithLeaderElectionID (leaderElectionID f);
    mgr.WithLeaderElectionNamespace (leaderElectionNamespace f);
    mgr.WithLeaderElectionConfig (Some sourceConfig);
    mgr.WithHealthzCheck "healthz" Ping;
    mgr.WithReadyzCheck "readyz" Ping;
    mgr.WithPprofAddress (pprofBindAddr f);
    mgr.WithConnectionConfiguration (Some (mkClientConnection (clientConnQPS f) (clientConnBurst f)));
    mgr.WithWebhookServer (Some (webhookOpts f));
    mgr.WithReadyzCheck "webhook-server" (WebhookStarted (webhookOpts f));
    mgr.WithReadyzCheck "source-informer-sync" (CacheSync sourceCache);
    mgr.WithRunnable (ClusterRunnable sourceCluster) ].

Definition getExtensionWebhookOpts (f : flags) : AddToManagerOptions :=
  {| am_ExtensionName := extensionName f;
     am_Mode := webhookConfigMode f;
     am_URL := webhookConfigURL f;
     am_ServicePort := webhookConfigServicePort f;
     am_Namespace := webhookConfigNamespace f;
     am_OwnerNamespace := webhookConfigOwnerNamespace f;
     am_GardenerVersion := gardenerVersion f;
     am_SelfHostedShootCluster := selfHostedShootCluster f |}.

Section webhook.
Context `{RangeOrder}.

(** The manager, and the source cluster kept in [flags.sourceCluster]. *)
Definition getManager (f : flags) (ctx : Handle) : setupIO (Handle * Handle) :=
  logger ← getLogger f;
  sourceConfig ← wrapf "failed to load source cluster config: " (ask GetConfig);
  sourceCluster ← wrapf "failed to create source cluster from config: "
    (ask (ClusterNew sourceConfig (mkClusterOptions (Some logger) None (Some [webhookConfigNamespace f]))));
  targetConfig ← wrapf "failed to load garden cluster config: " (ask (BuildConfigFromFlags (gardenKubeconfig f)));
  sourceCache ← get (GetCache sourceCluster);
  m ← mgr.New (managerOpts f ctx sourceConfig targetConfig sourceCluster sourceCache);
  cache ← get (GetCache m);
  wrapf "failed to setup ready check: " (ask (AddReadyzCheck m "informer-sync" (CacheSync cache))) ;;
  mret (m, sourceCluster).

Definition runWebhookServer (f : flags) (ctx : Handle) : setupIO unit :=
  '(m, sourceCluster) ← getManager f ctx;
  wh ← wrapf "failed to create admission webhook: " (NewShootValidatorWebhook m);
  config ← ask (CompleteWebhookOptions (getExtensionWebhookOpts f));
  wrapf "failed to setup extension webhook with manager: "
    (ask (AddWebhooksToManager config false [wh] m sourceCluster)) ;;
  ask (Start m).

End webhook.
End webhookcmd.
