(* ===== verification/Cli.v ===== *)
(** * The command-line library

    The commands describe their flags in tables of github.com/urfave/cli: this
    file has the types of these tables, what a command does with the flags it
    was given, and, as the classes [CommandLine] and [DocumentedCommandLine],
    the library that reads the arguments. *)

From S2P Require Import Prelude Errors Effects Process.
From Stdlib Require Import Qcanon.

Module cli.

(** ** Values *)

Inductive value :=
  | VString (s : string)
  | VBool (b : bool)
  | VInt (z : Z)
  | VInt32 (z : Z)
  | VDuration (z : Z)
  | VFloat32 (q : Qc)
  | VStringMap (m : gmap string string).

(** ** Flags

    [FlagBase F T] is [cli.FlagBase] for a flag of values [T] whose destination
    is a field of the variable of type [F] that the command's closures share. *)

(** A pointer to a field. *)
Record Pointer (F T : Type) := mkPointer { deref : F -> T; put : T -> F -> F }.
Arguments mkPointer {F T} _ _.
Arguments deref {F T} _ _.
Arguments put {F T} _ _ _.

(** [&flags.field]. *)
Definition ptr {F T} (field : F -> T) `{!Setter field} : option (Pointer F T) :=
  Some (mkPointer field (fun v => update (fun _ => v))).

Record FlagBase (F T : Type) := mkFlagBase {
  Name : string;
  Aliases : list string;
  Usage : string;
  Value : T;
  Required : bool;
  Sources : list string;  (** environment variables *)
  Validator : option (T -> outcome unit);
  Destination : option (Pointer F T);
  Action : option (T -> F -> setupIO F);  (** on the shared variable *)
}.
Arguments mkFlagBase {F T} _ _ _ _ _ _ _ _ _.
Arguments Name {F T} _.
Arguments Aliases {F T} _.
Arguments Usage {F T} _.
Arguments Value {F T} _.
Arguments Required {F T} _.
Arguments Sources {F T} _.
Arguments Validator {F T} _.
Arguments Destination {F T} _.
Arguments Action {F T} _.

#[global] Instance FlagBase_eta {F T} : Eta (FlagBase F T) := fun f =>
  mkFlagBase (Name f) (Aliases f) (Usage f) (Value f) (Required f) (Sources f) (Validator f)
    (Destination f) (Action f).

(** A flag with a name and a usage text, the other fields being zero. *)
Definition flag {F T} (zero : T) (name usage : string) : FlagBase F T :=
  mkFlagBase name [] usage zero false [] None None None.

Inductive Flag (F : Type) :=
  | StringFlag (f : FlagBase F string)
  | BoolFlag (f : FlagBase F bool)
  | IntFlag (f : FlagBase F Z)
  | Int32Flag (f : FlagBase F Z)
  | DurationFlag (f : FlagBase F Z)
  | Float32Flag (f : FlagBase F Qc)
  | StringMapFlag (f : FlagBase F (gmap string string)).
Arguments StringFlag {F} _.
Arguments BoolFlag {F} _.
Arguments IntFlag {F} _.
Arguments Int32Flag {F} _.
Arguments DurationFlag {F} _.
Arguments Float32Flag {F} _.
Arguments StringMapFlag {F} _.

(** The values of each kind. *)
Definition asString (v : value) : option string := match v with VString x => Some x | _ => None end.
Definition asBool (v : value) : option bool := match v with VBool x => Some x | _ => None end.
Definition asInt (v : value) : option Z := match v with VInt x => Some x | _ => None end.
Definition asInt32 (v : value) : option Z := match v with VInt32 x => Some x | _ => None end.
Definition asDuration (v : value) : option Z := match v with VDuration x => Some x | _ => None end.
Definition asFloat32 (v : value) : option Qc := match v with VFloat32 x => Some x | _ => None end.
Definition asStringMap (v : value) : option (gmap string string) := match v with VStringMap x => Some x | _ => None end.

(** A flag, with the values of its kind among all values. *)
Definition kinded {F R} (k : forall T, (value -> option T) -> FlagBase F T -> R) (fl : Flag F) : R :=
  match fl with
  | StringFlag f => k _ asString f
  | BoolFlag f => k _ asBool f
  | IntFlag f => k _ asInt f
  | Int32Flag f => k _ asInt32 f
  | DurationFlag f => k _ asDuration f
  | Float32Flag f => k _ asFloat32 f
  | StringMapFlag f => k _ asStringMap f
  end.

Definition flagName {F} : Flag F -> string := kinded (fun _ _ f => Name f).
Definition flagNames {F} : Flag F -> list string := kinded (fun _ _ f => Name f :: Aliases f).
Definition flagSources {F} : Flag F -> list string := kinded (fun _ _ f => Sources f).
Definition flagRequired {F} : Flag F -> bool := kinded (fun _ _ f => Required f).

(** ** What was given

    The values the library found for the flags that are set, by the flags' names:
    from an argument, or else from the environment. *)
Definition Given := gmap string value.

Section given.
Context {F : Type} (given : Given).

Definition lookupFlag {T} (proj : value -> option T) (f : FlagBase F T) : option T :=
  given !! Name f ≫= proj.

(** The value of a flag: the one given, or its default. *)
Definition effective {T} (proj : value -> option T) (f : FlagBase F T) : T :=
  default (Value f) (lookupFlag proj f).

(** The library accepts what was given: required flags are set, and the values
    given have the kind of their flag and pass its validator.  Defaults are not
    validated. *)
Definition acceptable (fl : Flag F) : Prop :=
  (flagRequired fl = true -> is_Some (given !! flagName fl)) /\
  forall v, given !! flagName fl = Some v ->
    kinded (fun T proj f => exists x, proj v = Some x /\
      match Validator f with Some valid => valid x = Ok tt | None => True end) fl.

Definition accepted (flags : list (Flag F)) : Prop := Forall acceptable flags.

(** The destinations receive the flags' values. *)
Definition assignFlag (s : F) (fl : Flag F) : F :=
  kinded (fun T proj f => match Destination f with
                          | Some p => put p (effective proj f) s
                          | None => s
                          end) fl.

Definition assigned (flags : list (Flag F)) (s : F) : F := fold_left assignFlag flags s.

(** The actions of the flags that are set, in order. *)
Definition runFlagAction (fl : Flag F) (s : F) : setupIO F :=
  kinded (fun T proj f => match Action f, lookupFlag proj f with
                          | Some act, Some v => act v s
                          | _, _ => mret s
                          end) fl.

Fixpoint runFlagActions (flags : list (Flag F)) (s : F) : setupIO F :=
  match flags with
  | [] => mret s
  | fl :: flags => s ← runFlagAction fl s; runFlagActions flags s
  end.
End given.

(** ** Commands *)

(** The context a command runs in, as far as the commands use it: the process's
    context, and whether [Before] has stored the address of the flags in it. *)
Record Context := mkContext { baseContext : Handle; flagsKey : bool }.

(** [cli.Command]: [Vars] is the variable its closures share. *)
Record Command := mkCommand {
  cmd_Name : string;
  cmd_Aliases : list string;
  cmd_Usage : string;
  Vars : Type;
  vars : Vars;
  cmd_Flags : list (Flag Vars);
  cmd_Before : option (Context -> Vars -> setupIO Context);
  cmd_Action : Context -> Vars -> setupIO unit;
}.

Definition cmd_Names (c : Command) : list string := cmd_Name c :: cmd_Aliases c.

(** What a command does with the flags it was given. *)
Definition invoke (c : Command) (ctx : Context) (given : Given) : setupIO unit :=
  let s := assigned given (cmd_Flags c) (vars c) in
  ctx ← match cmd_Before c with Some before => before ctx s | None => mret ctx end;
  s ← runFlagActions given (cmd_Flags c) s;
  cmd_Action c ctx s.

(** The root command. *)
Record App := mkApp {
  app_Name : string;
  app_Version : string;
  app_EnableShellCompletion : bool;
  app_Usage : string;
  Commands : list Command;
}.

(** [--name=value]. *)
Definition argument (name v : string) : string := "--" +:+ name +:+ "=" +:+ v.

(** ** The library *)

(** How a run ends without an error: it returns, or the library itself has ended
    the process with a code - it does so for some usage errors, and for errors that
    carry an exit code. *)
Inductive RunEnd := Returned | Exited (code : Z).

(** The exit code an error carries, if the library finds one. *)
Class ExitCodes := { ExitCoder : error -> option Z }.

(** What [Run] makes of a command's result. *)
Definition handled `{ExitCodes} (r : outcome unit) : outcome RunEnd :=
  match r with
  | Ok _ => Ok Returned
  | Err e => match ExitCoder e with Some code => Ok (Exited code) | None => Err e end
  | Panic w => Panic w
  end.

Class CommandLine := {
  exitCodes :: ExitCodes;
  (** What the arguments and the environment give for a table of flags. *)
  reads : forall {F : Type}, list (Flag F) -> list string -> Given -> Prop;
  Run : App -> Context -> list string -> setupIO RunEnd;
}.

(** Its documented behaviour. *)
Class DocumentedCommandLine `{CommandLine} := {
  (** [Run] does nothing - the help, the version, a usage error, on which it may
      end the process - or invokes the command its first argument names, with what
      was given for its flags, if that is acceptable. *)
  Run_invokes : forall app ctx args t r, runs (Run app ctx args) t r ->
    (t = [] /\ not_panic r) \/
    exists c name rest given r', c ∈ Commands app /\ name ∈ cmd_Names c /\ args = name :: rest /\
      reads (cmd_Flags c) rest given /\ accepted given (cmd_Flags c) /\ runs (invoke c ctx given) t r' /\
      r = handled r';
  (** An argument sets the flag it names, unless another one does, too. *)
  reads_argument : forall F (flags : list (Flag F)) args given (f : FlagBase F string) v,
    reads flags args given -> StringFlag f ∈ flags -> argument (Name f) v ∈ args ->
    (forall v', argument (Name f) v' ∈ args -> v' = v) ->
    given !! Name f = Some (VString v);
}.

End cli.
