(* ===== verification/FlagTables.v ===== *)
(** * The commands and their flags

    The command-line tables of the three commands: [New] of
    cmd/extension-envoy-gateway/internal/manager/manager.go, of
    cmd/extension-envoy-gateway/webhook/webhook.go and of
    cmd/extension-envoy-gateway/internal/netpolcontroller/command.go. *)

From S2P Require Import Prelude GoStd Errors Effects Constants Interfaces.
From S2P Require Import Process NetpolManager Commands Cli.
From Stdlib Require Import Qcanon.
Import cli.

Local Open Scope string_scope.

(** Constants and functions of the packages the tables refer to. *)
Class CommandConstants := {
  (* github.com/gardener/gardener/pkg/logger *)
  InfoLevel : string;
  AllLogLevels : list string;
  FormatText : string;
  AllLogFormats : list string;
  (* extensions/pkg/webhook and pkg/utils/gardener *)
  ModeService : string;
  ModeURL : string;
  ModeURLWithServiceName : string;
  PathGenericKubeconfig : string;
  (* clientcmd *)
  RecommendedConfigPathEnvVar : string;
  (* net/url: whether a text is a URL *)
  url_Parse : string -> unit + error;
}.

(** [slices.Contains] with an error for the values that are not in the list. *)
Definition oneOf (l : list string) (msg : string) (val : string) : outcome unit :=
  if decide (val ∈ l) then Ok tt else Err (errorsNew msg).

(** [strconv.ParseBool]. *)
Definition ErrSyntax : error := errorsNew "invalid syntax".
Definition strconv_ParseBool (str : string) : outcome bool :=
  match ParseBool str with
  | Some b => Ok b
  | None => Err (wrapError ("strconv.ParseBool: parsing " +:+ fmt_q str +:+ ": ") ErrSyntax "")
  end.

Section tables.
Context `{CommandConstants}.

(** The log flags of every command. *)
Definition validLogLevel : string -> outcome unit := oneOf AllLogLevels "invalid log level specified".

(** [os.Setenv(clientcmd.RecommendedConfigPathEnvVar, val)]. *)
Definition setKubeconfig {F} (val : string) (s : F) : setupIO F :=
  ask (Setenv RecommendedConfigPathEnvVar val) ;; mret s.
End tables.

(** ** The manager command *)

Module managercli.
Import managercmd.
Section table.
Context `{CommandConstants} `{RangeOrder} `{Libraries}.

Definition defaultExtensionName : string := "gardener-extension-envoy-gateway".

Definition validLogFormat : string -> outcome unit := oneOf AllLogFormats "invalid log level format specified".

(** The action of gardenlet-feature-gate: the loop over the items. *)
Fixpoint addFeatureGates (items : list (string * string)) (f : flags) : outcome flags :=
  match items with
  | [] => Ok f
  | (feat, val) :: items =>
      match strconv_ParseBool val with
      | Ok enabled => addFeatureGates items (f <| gardenletFeatureGates := <[feat := enabled]> (gardenletFeatureGates f) |>)
      | Err err => Err (wrapError "invalid value for gardenlet feature gate: " err "")
      | Panic w => Panic w
      end
  end.

Definition setFeatureGates (items : gmap string string) (f : flags) : setupIO flags :=
  Ret (addFeatureGates (range "gardenlet-feature-gate" items) f).

Definition Flags : list (Flag flags) :=
  [ StringFlag ((flag "" "extension-name" "name of the gardener extension")
      <| Value := defaultExtensionName |>
      <| Sources := ["EXTENSION_NAME"] |>
      <| Destination := ptr extensionName |>);
    StringFlag ((flag "" "metrics-bind-address" "the address the metrics endpoint binds to")
      <| Value := ":8080" |>
      <| Sources := ["METRICS_BIND_ADDRESS"] |>
      <| Destination := ptr metricsBindAddr |>);
    StringFlag ((flag "" "pprof-bind-address" "the address at which pprof binds to")
      <| Sources := ["PPROF_BIND_ADDRESS"] |>
      <| Destination := ptr pprofBindAddr |>);
    StringFlag ((flag "" "health-probe-bind-address" "the address the probe endpoint binds to")
      <| Value := ":8081" |>
      <| Sources := ["HEALTH_PROBE_BIND_ADDRESS"] |>
      <| Destination := ptr healthProbeBindAddr |>);
    DurationFlag ((flag 0%Z "heartbeat-renew-interval" "renew heartbeat lease on specified interval")
      <| Value := (30 * Second)%Z |>
      <| Sources := ["HEARTBEAT_RENEW_INTERVAL"] |>
      <| Destination := ptr heartbeatRenewInterval |>);
    StringFlag ((flag "" "heartbeat-namespace" "namespace to use for the heartbeat lease")
      <| Value := defaultExtensionName |>
      <| Sources := ["HEARTBEAT_NAMESPACE"] |>
      <| Destination := ptr heartbeatNamespace |>);
    BoolFlag ((flag false "leader-election" "enable leader election for controller manager")
      <| Value := false |>
      <| Sources := ["LEADER_ELECTION"] |>
      <| Destination := ptr leaderElection |>);
    StringFlag ((flag "" "leader-election-id" "the leader election id to use, if leader election is enabled")
      <| Value := "gardener-extension-envoy-gateway-leader-election" |>
      <| Sources := ["LEADER_ELECTION_ID"] |>
      <| Destination := ptr leaderElectionID |>);
    StringFlag ((flag "" "leader-election-namespace" "namespace to use for the leader election lease")
      <| Value := defaultExtensionName |>
      <| Sources := ["LEADER_ELECTION_NAMESPACE"] |>
      <| Destination := ptr leaderElectionNamespace |>);
    BoolFlag ((flag false "ignore-operation-annotation" "specifies whether to ignore operation annotation")
      <| Value := false |>
      <| Sources := ["IGNORE_OPERATION_ANNOTATION"] |>
      <| Destination := ptr ignoreOperationAnnotation |>);
    IntFlag ((flag 0%Z "max-concurrent-reconciles" "max number of concurrent reconciliations")
      <| Value := 5%Z |>
      <| Sources := ["MAX_CONCURRENT_RECONCILES"] |>
      <| Destination := ptr maxConcurrentReconciles |>);
    StringFlag ((flag "" "kubeconfig" "path to a kubeconfig when running out-of-cluster")
      <| Sources := ["KUBECONFIG"] |>
      <| Destination := ptr kubeconfig |>
      <| Action := Some setKubeconfig |>);
    StringFlag ((flag "" "log-level" "Zap Level to configure the verbosity of logging")
      <| Value := InfoLevel |>
      <| Validator := Some validLogLevel |>
      <| Destination := ptr zapLogLevel |>);
    StringFlag ((flag "" "log-format" "Zap log encoding format, json or text")
      <| Value := FormatText |>
      <| Validator := Some validLogFormat |>
      <| Destination := ptr zapLogFormat |>);
    DurationFlag ((flag 0%Z "resync-interval" "requeue interval of the controllers")
      <| Value := (30 * Second)%Z |>
      <| Sources := ["RESYNC_INTERVAL"] |>
      <| Destination := ptr resyncInterval |>);
    Float32Flag ((flag (Q2Qc 0) "client-conn-qps" "allowed client queries per second for the connection")
      <| Value := Q2Qc (QArith_base.inject_Z 100) |>
      <| Sources := ["CLIENT_CONNECTION_QPS"] |>
      <| Destination := ptr clientConnQPS |>);
    Int32Flag ((flag 0%Z "client-conn-burst" "client connection burst size")
      <| Value := 130%Z |>
      <| Sources := ["CLIENT_CONNECTION_BURST"] |>
      <| Destination := ptr clientConnBurst |>);
    StringFlag ((flag "" "gardener-version" "version of gardener provided by gardenlet during deployment")
      <| Destination := ptr gardenerVersion |>);
    StringMapFlag ((flag ∅ "gardenlet-feature-gate" "gardenlet feature gate provided by gardenlet during deployment")
      <| Action := Some setFeatureGates |>) ].

Definition Before (ctx : Context) (f : flags) : setupIO Context :=
  MustNewZapLogger (zapLogLevel f) (zapLogFormat f) ;;
  mret (mkContext (baseContext ctx) true).

Definition New (iv : ImageVector) : Command :=
  {| cmd_Name := "manager";
     cmd_Aliases := ["m"];
     cmd_Usage := "start controller manager";
     Vars := flags;
     vars := zeroFlags;
     cmd_Flags := Flags;
     cmd_Before := Some Before;
     cmd_Action := fun ctx f =>
       runManager iv (getFlags (if flagsKey ctx then Some f else None)) (baseContext ctx) |}.

End table.
End managercli.

(** ** The webhook command *)

Module webhookcli.
Import webhookcmd.
Section table.
Context `{CommandConstants} `{RangeOrder}.

Definition validLogFormat : string -> outcome unit := oneOf AllLogFormats "invalid log level format specified".

Definition validMode : string -> outcome unit :=
  oneOf [ModeService; ModeURL; ModeURLWithServiceName] "invalid webhook config mode specified".

Definition validURL (val : string) : outcome unit :=
  match url_Parse val with inl _ => Ok tt | inr err => Err err end.

Definition validServicePort (val : Z) : outcome unit :=
  if decide (val <= 0)%Z then Err (errorsNew "port cannot be negative") else Ok tt.

(** The flags of the process. *)
Definition ProcessFlags : list (Flag flags) :=
  [ StringFlag ((flag "" "extension-name" "name of the gardener extension")
      <| Value := "envoy-gateway-admission" |>
      <| Sources := ["EXTENSION_NAME"] |>
      <| Destination := ptr extensionName |>);
    StringFlag ((flag "" "metrics-bind-address" "the address the metrics endpoint binds to")
      <| Value := ":8080" |>
      <| Sources := ["METRICS_BIND_ADDRESS"] |>
      <| Destination := ptr metricsBindAddr |>);
    StringFlag ((flag "" "pprof-bind-address" "the address at which pprof binds to")
      <| Sources := ["PPROF_BIND_ADDRESS"] |>
      <| Destination := ptr pprofBindAddr |>);
    StringFlag ((flag "" "health-probe-bind-address" "the address the probe endpoint binds to")
      <| Value := ":8081" |>
      <| Sources := ["HEALTH_PROBE_BIND_ADDRESS"] |>
      <| Destination := ptr healthProbeBindAddr |>);
    BoolFlag ((flag false "leader-election" "enable leader election for controller manager")
      <| Value := false |>
      <| Sources := ["LEADER_ELECTION"] |>
      <| Destination := ptr leaderElection |>);
    StringFlag ((flag "" "leader-election-id" "the leader election id to use, if leader election is enabled")
      <| Value := "envoy-gateway-admission" |>
      <| Sources := ["LEADER_ELECTION_ID"] |>
      <| Destination := ptr leaderElectionID |>);
    StringFlag ((flag "" "leader-election-namespace" "namespace to use for the leader election lease")
      <| Value := "gardener-extension-envoy-gateway" |>
      <| Sources := ["LEADER_ELECTION_NAMESPACE"] |>
      <| Destination := ptr leaderElectionNamespace |>);
    StringFlag ((flag "" "kubeconfig" "path to a kubeconfig when running out-of-cluster")
      <| Sources := ["KUBECONFIG"] |>
      <| Destination := ptr kubeconfig |>
      <| Action := Some setKubeconfig |>);
    StringFlag ((flag "" "garden-kubeconfig" "path to a kubeconfig for the garden cluster")
      <| Required := true |>
      <| Aliases := ["target-kubeconfig"] |>
      <| Sources := ["GARDEN_KUBECONFIG"] |>
      <| Destination := ptr gardenKubeconfig |>);
    StringFlag ((flag "" "log-level" "Zap Level to configure the verbosity of logging")
      <| Value := InfoLevel |>
      <| Validator := Some validLogLevel |>
      <| Destination := ptr zapLogLevel |>);
    StringFlag ((flag "" "log-format" "Zap log encoding format, json or text")
      <| Value := FormatText |>
      <| Validator := Some validLogFormat |>
      <| Destination := ptr zapLogFormat |>);
    Float32Flag ((flag (Q2Qc 0) "client-conn-qps" "allowed client queries per second for the connection")
      <| Value := Q2Qc (QArith_base.inject_Z (-1)) |>
      <| Sources := ["CLIENT_CONNECTION_QPS"] |>
      <| Destination := ptr clientConnQPS |>);
    Int32Flag ((flag 0%Z "client-conn-burst" "client connection burst size")
      <| Value := 0%Z |>
      <| Sources := ["CLIENT_CONNECTION_BURST"] |>
      <| Destination := ptr clientConnBurst |>);
    StringFlag ((flag "" "gardener-version" "version of gardener provided by gardenlet or gardener-operator")
      <| Sources := ["GARDENER_VERSION"] |>
      <| Destination := ptr gardenerVersion |>);
    BoolFlag ((flag false "self-hosted-shoot-cluster" "set to true, if the extension runs in a self-hosted shoot cluster")
      <| Sources := ["SELF_HOSTED_SHOOT_CLUSTER"] |>
      <| Destination := ptr selfHostedShootCluster |>) ].

(** The flags of the webhook server and of its registration. *)
Definition WebhookFlags : list (Flag flags) :=
  [ StringFlag ((flag "" "webhook-server-host" "address on which the webhook server listens on")
      <| Sources := ["WEBHOOK_SERVER_HOST"] |>
      <| Destination := ptr webhookServerHost |>);
    IntFlag ((flag 0%Z "webhook-server-port" "port on which the webhook server listens on")
      <| Value := 9443%Z |>
      <| Sources := ["WEBHOOK_SERVER_PORT"] |>
      <| Destination := ptr webhookServerPort |>);
    StringFlag ((flag "" "webhook-server-cert-dir" "path to directory, which contains the server key and cert")
      <| Sources := ["WEBHOOK_SERVER_CERT_DIR"] |>
      <| Destination := ptr webhookServerCertDir |>);
    StringFlag ((flag "" "webhook-server-cert-name" "the server certificate file name")
      <| Value := "tls.crt" |>
      <| Sources := ["WEBHOOK_SERVER_CERT_NAME"] |>
      <| Destination := ptr webhookServerCertName |>);
    StringFlag ((flag "" "webhook-server-key-name" "the server certificate key file name")
      <| Value := "tls.key" |>
      <| Sources := ["WEBHOOK_SERVER_KEY_NAME"] |>
      <| Destination := ptr webhookServerKeyName |>);
    StringFlag ((flag "" "webhook-config-namespace" "namespace where the webhook CA bundle, services, etc. are created")
      <| Value := "garden" |>
      <| Sources := ["WEBHOOK_CONFIG_NAMESPACE"] |>
      <| Destination := ptr webhookConfigNamespace |>);
    StringFlag ((flag "" "webhook-config-mode" "one of service, url or url-service")
      <| Value := ModeService |>
      <| Sources := ["WEBHOOK_CONFIG_MODE"] |>
      <| Validator := Some validMode |>
      <| Destination := ptr webhookConfigMode |>);
    StringFlag ((flag "" "webhook-config-url" "URL at which to find the webhook server, used with `url' mode only")
      <| Sources := ["WEBHOOK_CONFIG_URL"] |>
      <| Validator := Some validURL |>
      <| Destination := ptr webhookConfigURL |>);
    IntFlag ((flag 0%Z "webhook-config-service-port" "service port for the webhook when running in `service' mode")
      <| Sources := ["WEBHOOK_CONFIG_SERVICE_PORT"] |>
      <| Validator := Some validServicePort |>
      <| Destination := ptr webhookConfigServicePort |>);
    StringFlag ((flag "" "webhook-config-owner-namespace" "namespace which is used as the owner reference for webhook registration")
      <| Sources := ["WEBHOOK_CONFIG_OWNER_NAMESPACE"] |>
      <| Destination := ptr webhookConfigOwnerNamespace |>) ].

Definition Flags : list (Flag flags) := (ProcessFlags ++ WebhookFlags)%list.

Definition Before (ctx : Context) (f : flags) : setupIO Context :=
  getLogger f ;;
  mret (mkContext (baseContext ctx) true).

Definition New : Command :=
  {| cmd_Name := "webhook";
     cmd_Aliases := ["w"];
     cmd_Usage := "start extension webhook server";
     Vars := flags;
     vars := zeroFlags;
     cmd_Flags := Flags;
     cmd_Before := Some Before;
     cmd_Action := fun ctx f =>
       runWebhookServer (getFlags (if flagsKey ctx then Some f else None)) (baseContext ctx) |}.

End table.
End webhookcli.

(** ** The netpol-controller command *)

Module netpolcli.
Import netpolcontroller.
Section table.
Context `{CommandConstants}.

Definition validLogFormat : string -> outcome unit := oneOf AllLogFormats "invalid log format specified".

Definition Flags : list (Flag flags) :=
  [ StringFlag ((flag "" "seed-namespace" "the shoot's control-plane namespace on the seed (shoot--<project>--<name>)")
      <| Sources := ["SEED_NAMESPACE"] |>
      <| Destination := ptr seedNamespace |>
      <| Required := true |>);
    StringFlag ((flag "" "shoot-kubeconfig" "path to the generic shoot kubeconfig projected by the token-requestor")
      <| Value := PathGenericKubeconfig |>
      <| Sources := ["SHOOT_KUBECONFIG"] |>
      <| Destination := ptr shootKubeconfig |>);
    BoolFlag ((flag false "leader-election" "enable leader election on the seed (off for single-replica)")
      <| Value := false |>
      <| Sources := ["LEADER_ELECTION"] |>
      <| Destination := ptr leaderElection |>);
    StringFlag ((flag "" "metrics-bind-address" "the address the metrics endpoint binds to ('0' to disable)")
      <| Value := ":8080" |>
      <| Sources := ["METRICS_BIND_ADDRESS"] |>
      <| Destination := ptr metricsBindAddr |>);
    StringFlag ((flag "" "health-probe-bind-address" "the address the probe endpoint binds to ('0' to disable)")
      <| Value := ":8081" |>
      <| Sources := ["HEALTH_PROBE_BIND_ADDRESS"] |>
      <| Destination := ptr healthProbeBindAddr |>);
    StringFlag ((flag "" "log-level" "Zap level to configure the verbosity of logging")
      <| Value := InfoLevel |>
      <| Validator := Some validLogLevel |>
      <| Destination := ptr zapLogLevel |>);
    StringFlag ((flag "" "log-format" "Zap log encoding format, json or text")
      <| Value := FormatText |>
      <| Validator := Some validLogFormat |>
      <| Destination := ptr zapLogFormat |>) ].

(** [Action: f.run]; [logger] is the named logger. *)
Definition New (logger : Handle) : Command :=
  {| cmd_Name := "netpol-controller";
     cmd_Aliases := [];
     cmd_Usage := "start the per-shoot data-plane NetworkPolicy controller";
     Vars := flags;
     vars := zeroFlags;
     cmd_Flags := Flags;
     cmd_Before := None;
     cmd_Action := fun ctx f => run (baseContext ctx) logger f |}.

End table.
End netpolcli.
