(* ===== verification/EntryPoint.v ===== *)
(** * The process: image vector, version and main

    imagevector/imagevector.go with the embedded images.yaml,
    pkg/version/version.go, and cmd/extension-envoy-gateway/main.go. *)

From S2P Require Import Prelude Errors Effects Constants Interfaces.
From S2P Require Import Process Cli FlagTables.
Import cli.

(** ** imagevector.go *)

Module imagevector.

(** [imagevector.ImageSource] of Gardener, as far as the file sets it. *)
Record ImageSource := mkImageSource {
  is_Name : string;
  is_SourceRepository : string;
  is_Repository : string;
  is_Tag : option string;
}.

(** images.yaml, as the list of images it denotes. *)
Definition imagesYAML : list ImageSource :=
  [ mkImageSource "envoy-gateway" "github.com/envoyproxy/gateway"
      "europe-docker.pkg.dev/gardener-project/releases/3rd/envoyproxy/gateway" (Some "v1.9.3"%string);
    mkImageSource "gardener-extension-envoy-gateway" "github.com/gardener/gardener-extension-envoy-gateway"
      "europe-docker.pkg.dev/gardener-project/public/gardener/extensions/gardener-extension-envoy-gateway" None ].

(** Gardener's image vectors; the environment of the process is fixed. *)
Class Library := {
  CABundle : Type;
  Read : list ImageSource -> (ImageVector * option CABundle) + error;
  WithEnvOverride : ImageVector -> option CABundle -> string -> (ImageVector * option CABundle) + error;
  OverrideEnv : string;
}.

(** [runtime.Must]. *)
Definition Must {A} (r : A + error) : outcome A :=
  match r with inl a => Ok a | inr e => Panic (Error e) end.

(** The package's initialisation: what [ImageVector] returns from then on. *)
Definition init `{Library} : outcome ImageVector :=
  '(imageVector, caBundle) ← Must (Read imagesYAML);
  '(imageVector, _) ← Must (WithEnvOverride imageVector caBundle OverrideEnv);
  mret imageVector.

(** Documented behaviour of the library: every image a file lists is found in
    the vector read from it, and an override replaces images but drops none. *)
Class DocumentedLibrary `{Library} := {
  Read_finds : forall images, exists iv ca, Read images = inl (iv, ca) /\
    forall s, s ∈ images -> exists img, iv (is_Name s) = inl img;
  WithEnvOverride_keeps : forall iv ca env iv' ca', WithEnvOverride iv ca env = inl (iv', ca') ->
    forall name img, iv name = inl img -> exists img', iv' name = inl img';
}.

End imagevector.

(** ** version.go *)

Module version.
Definition Version : string := "unknown".
End version.

(** ** main.go *)

Section main.
Context `{CommandConstants} `{RangeOrder} `{Libraries} `{CommandLine}.

Definition app (iv : ImageVector) (logger : Handle) : App :=
  {| app_Name := "gardener-extension-envoy-gateway";
     app_Version := version.Version;
     app_EnableShellCompletion := true;
     app_Usage := "envoy-gateway extension for Gardener";
     Commands := [managercli.New iv; webhookcli.New; netpolcli.New logger] |}.

(** The exit code: the library's, where it ends the process within [Run].  [args]
    are the arguments after the program's name, [ctx] is the context of the signal
    handler. *)
Definition main (iv : ImageVector) (logger ctx : Handle) (args : list string) : setupIO Z :=
  r ← attempt (Run (app iv logger) (mkContext ctx false) args);
  match r with
  | inr err => mret 1%Z
  | inl (Exited code) => mret code
  | inl Returned => mret 0%Z
  end.

(** The process: package initialisation, then [main]. *)
Definition process `{imagevector.Library} (logger ctx : Handle) (args : list string) : setupIO Z :=
  iv ← Ret imagevector.init;
  main iv logger ctx args.

End main.
