(* ===== verification/Codec.v ===== *)
(** * The codec of the shipped objects (init of pkg/envoygateway/deployer.go)

    The typed objects carry no TypeMeta: the codec derives the apiVersion and the
    kind from the scheme, and encodes only objects whose group version it was
    given.  Every object the deployer ships is of such a group version. *)

From S2P Require Import Prelude GoStd Errors Effects KubeObjects Constants Config External.
From S2P Require Import Interfaces.
From S2P Require Import Manifests EnvoyProxyGuard Deployer DeployerProps Process.

(** The API packages, by the group version they register. *)
Definition corev1 : GroupVersion := mkGroupVersion "" "v1".
Definition appsv1 : GroupVersion := mkGroupVersion "apps" "v1".
Definition rbacv1 : GroupVersion := mkGroupVersion "rbac.authorization.k8s.io" "v1".
Definition policyv1 : GroupVersion := mkGroupVersion "policy" "v1".
Definition networkingv1 : GroupVersion := mkGroupVersion "networking.k8s.io" "v1".
Definition admissionregistrationv1 : GroupVersion := mkGroupVersion "admissionregistration.k8s.io" "v1".
Definition gatewayapiv1 : GroupVersion := mkGroupVersion "gateway.networking.k8s.io" "v1".

(** The name a [setup] call knows an API by. *)
Definition apiName (gv : GroupVersion) : string := gv_Group gv +:+ "/" +:+ gv_Version gv.

(** ** init *)

(** The APIs added to [shootScheme], errors ignored. *)
Definition shootSchemeAPIs : list GroupVersion :=
  [corev1; appsv1; rbacv1; policyv1; networkingv1; admissionregistrationv1; gatewayapiv1].

(** The versions [shootCodec] encodes to. *)
Definition shootCodecVersions : list GroupVersion :=
  [corev1; appsv1; rbacv1; policyv1; networkingv1; admissionregistrationv1;
   mkGroupVersion "gateway.networking.k8s.io" "v1"].

(** [_ = corev1.AddToScheme(shootScheme)], ...: the codec is built whatever the
    registrations answer. *)
Definition init : setupIO (list GroupVersion) :=
  for_each shootSchemeAPIs (fun gv => attempt (ask (AddToScheme (apiName gv))) ;; mret tt) ;;
  mret shootCodecVersions.

(** The package an object's Go type belongs to. *)
Definition apiOf (obj : Object) : GroupVersion :=
  match obj with
  | ObjServiceAccount _ | ObjConfigMap _ | ObjSecret _ | ObjService _ => corev1
  | ObjRole _ | ObjRoleBinding _ => rbacv1
  | ObjDeployment _ => appsv1
  | ObjPodDisruptionBudget _ => policyv1
  | ObjNetworkPolicy _ => networkingv1
  | ObjGatewayClass _ => gatewayapiv1
  | ObjValidatingAdmissionPolicy _ | ObjValidatingAdmissionPolicyBinding _ => admissionregistrationv1
  end.

Section codec.
Context `{Libraries}.

(** Documented behaviour of [runtime.Encode] with a legacy codec: an object of a
    registered type is encoded to the codec's version of its group. *)
Definition codec_encodes (scheme versions : list GroupVersion) : Prop :=
  forall obj, apiOf obj ∈ scheme -> apiOf obj ∈ versions -> exists data, Encode obj = inl data.

Lemma every_object_encodable obj : apiOf obj ∈ shootSchemeAPIs /\ apiOf obj ∈ shootCodecVersions.
Proof. destruct obj; split; unfold shootSchemeAPIs, shootCodecVersions; set_solver. Qed.

Context (Hcodec : codec_encodes shootSchemeAPIs shootCodecVersions).

Lemma Encode_total obj : exists data, Encode obj = inl data.
Proof using Type*. by apply Hcodec; apply every_object_encodable. Qed.

Lemma encode_total name obj m : exists m', encode name obj m = Ok m'.
Proof using Type*. unfold encode. destruct (Encode_total obj) as [data ->]. by eexists. Qed.

Lemma encodeAll_total l m : exists m', encodeAll l m = Ok m'.
Proof using Type*.
  revert m. induction l as [|o l IH]; intros m; [by eexists|]. simpl.
  destruct (encode_total o.1 o.2 m) as [m' ->]. apply IH.
Qed.

Lemma encodeObjects_total l : exists s, encodeObjects l = Ok s.
Proof using Type*.
  assert (exists docs, encodeDocs l = Ok docs) as [docs Hd].
  { induction l as [|o l [docs IH]]; [by eexists|]. simpl. destruct (Encode_total o) as [data ->].
    rewrite IH. by eexists. }
  unfold encodeObjects. rewrite Hd. by eexists.
Qed.

Lemma encode_if_total (b : bool) name obj m :
  exists m', (if b then encode name obj m else Ok m) = Ok m'.
Proof using Type*. destruct b; [apply encode_total|by eexists]. Qed.

(** Whatever is configured, the objects can be built: only the image may be
    missing. *)
Lemma buildResources_Ok cfg iv tls img :
  iv ImageName = inl img -> exists m, buildResources cfg iv tls = Ok m.
Proof using Type*.
  intros Hi. unfold buildResources.
  assert (exists d, Manifests.deployment cfg iv = Ok d) as [d Hd].
  { unfold Manifests.deployment. rewrite Hi. by eexists. }
  rewrite Hd. cbn [mbind outcome_bind].
  destruct (encodeAll_total (objects cfg d) ∅) as [m1 ->]. cbn [mbind outcome_bind].
  destruct (encode_if_total (present (CertPEM tls) || present (KeyPEM tls) || present (CAPEM tls))
    "secret-tls.yaml" (ObjSecret (tlsSecret tls)) m1) as [m2 ->]. cbn [mbind outcome_bind].
  destruct (encode_if_total (present (ClientCertPEM tls) && present (ClientKeyPEM tls) && present (CAPEM tls))
    "secret-envoy.yaml" (ObjSecret (envoyClientSecret tls)) m2) as [m3 ->]. cbn [mbind outcome_bind].
  destruct (encode_if_total (present (HMACBytes tls)) "secret-hmac.yaml" (ObjSecret (hmacSecret tls)) m3)
    as [m4 ->]. cbn [mbind outcome_bind].
  destruct (validatingAdmissionPolicySupported cfg).
  - destruct (encodeObjects_total [ObjValidatingAdmissionPolicy envoyProxyGuard.1;
      ObjValidatingAdmissionPolicyBinding envoyProxyGuard.2]) as [vap ->]. cbn [mbind outcome_bind].
    case_goal; [apply encodeAll_total|by eexists].
  - cbn [mbind outcome_bind]. case_goal; [apply encodeAll_total|by eexists].
Qed.
End codec.

(** C31: the codec that init builds can encode every object of the chart: its
    scheme and its versions name the API of each, init completes whatever the
    registrations answer, and so a build fails exactly when the control plane's
    image is missing from the image vector - for every configuration and every
    TLS bundle, and never with a panic. *)
Theorem buildResources_total `{Libraries} cfg iv tls :
  codec_encodes shootSchemeAPIs shootCodecVersions ->
  ((exists m, buildResources cfg iv tls = Ok m) <-> exists img, iv ImageName = inl img) /\
  (forall e, iv ImageName = inr e ->
     exists e', buildResources cfg iv tls = Err e' /\ e ∈ chain e') /\
  (forall t r, runs init t r -> r = Ok shootCodecVersions /\
     (projT1 <$> t) = (fun gv => AddToScheme (apiName gv)) <$> shootSchemeAPIs).
Proof.
  intros Hc. split_and!.
  - split; [|by intros [img Hi]; eapply buildResources_Ok].
    intros [m Hm]. unfold buildResources, Manifests.deployment in Hm.
    destruct (iv ImageName) as [img|e]; [by eexists|done].
  - intros e He. unfold buildResources, Manifests.deployment. rewrite He.
    eexists. split; [reflexivity|]. simpl. right. destruct e; simpl; by left.
  - intros t r Hr. unfold init, shootSchemeAPIs in Hr. cbn in Hr.
    repeat match goal with
           | H : exists r t', _ = _ :: t' /\ _ |- _ => destruct H as ([[]|?]&?&->&H); cbn in H
           end; destruct Hr as [-> ->]; done.
Qed.
