(* ===== verification/ActuatorSpecs.v ===== *)
(** * What the actuator's components promise

    One class per interface of pkg/actuator, stating the laws the actuator
    relies on, and the instances that discharge them for the production
    implementations. *)

From S2P Require Import Prelude GoStd Errors Effects KubeObjects Constants Config External.
From S2P Require Import Interfaces Secrets Manifests Deployer DataPlanePolicies GatewayGuard.
From S2P Require Import OrphanSweep DataplaneNetpol NetpolDeployer Actuator.

(** ** Events *)

Definition mutating (e : event ans) : Prop :=
  mutates_seed (ecall e) || mutates_shoot (ecall e) = true.

(** Events that change nothing, and that do not reach the shoot. *)
Definition read_only (e : event ans) : Prop := ~ mutating e.
Definition seed_only (e : event ans) : Prop := reaches_shoot (ecall e) = false.

(** The Gateway listing saw no Gateway: the list is empty, or the kind is not
    served. *)
Definition no_gateways (e : event ans) : Prop :=
  e = ev (External.ListGateways []) (inl []) \/
  exists err, e = ev (External.ListGateways []) (inr err) /\ realGatewayLister.gatewayCRDAbsent err = true.

(** The controller's Deployment is gone from the seed namespace. *)
Definition deployment_gone (ns : string) (e : event ans) : Prop :=
  e = ev (SeedDelete KDeployment ns NetpolControllerName) (inl tt) \/
  exists err, e = ev (SeedDelete KDeployment ns NetpolControllerName) (inr err) /\ IsNotFound err = true.

(** Every managed data-plane policy the shoot listed is gone. *)
Definition pruned (t : list (event ans)) : Prop :=
  exists l, ev (ListNetworkPolicies ManagedDataPlanePolicyListOptions) (inl l) ∈ t /\
    forall p, p ∈ l ->
      ev (DeleteNetworkPolicy (np_Namespace p) (np_Name p)) (inl tt) ∈ t \/
      exists err, ev (DeleteNetworkPolicy (np_Namespace p) (np_Name p)) (inr err) ∈ t /\ IsNotFound err = true.

(** [modified] is the Deployment [d] with zero replicas. *)
Definition without_replicas (d modified : Deployment) : Prop :=
  ds_Replicas (dep_Spec modified) = Some 0%Z /\
  dep_Name modified = dep_Name d /\ dep_Namespace modified = dep_Namespace d /\ dep_Labels modified = dep_Labels d /\
  ds_Selector (dep_Spec modified) = ds_Selector (dep_Spec d) /\
  ds_TemplateLabels (dep_Spec modified) = ds_TemplateLabels (dep_Spec d) /\
  ds_TemplateSpec (dep_Spec modified) = ds_TemplateSpec (dep_Spec d).

(** The controller's Deployment is read; where there is none that is all, and
    otherwise it is patched to zero replicas. *)
Definition scales_down (ns : string) (t : list (event ans)) (r : outcome unit) : Prop :=
  (exists e, t = [ev (SeedGetDeployment ns "envoy-gateway-netpol-controller") (inr e)] /\
     r = if IsNotFound e then Ok tt else Err e) \/
  (exists d modified x, t = [ev (SeedGetDeployment ns "envoy-gateway-netpol-controller") (inl d);
                             ev (SeedPatchDeployment d modified) x] /\
     without_replicas d modified /\ (r = Ok tt <-> x = inl tt)).

(** ** The interfaces *)

Class ListerSpec (l : GatewayLister) := {
  list_reads ns : emits read_only (ListGateways l ns);
  list_none ns t : runs (ListGateways l ns) t (Ok []) -> Exists no_gateways t;
  list_no_panic ns : no_panic (ListGateways l ns);
  delete_only ns : emits (fun e => mutating e -> exists n m, ecall e = DeleteGateway n m) (DeleteGateways l ns);
  delete_no_panic ns : no_panic (DeleteGateways l ns);
  wait_reads k ns : emits read_only (WaitUntilGatewaysDeleted l k ns);
  wait_no_panic k ns : no_panic (WaitUntilGatewaysDeleted l k ns);
  clear_only ns : emits (fun e => mutating e -> exists gc, ecall e = RemoveFinalizers gc gatewayExistsFinalizer)
                    (ClearGatewayClassFinalizer l ns);
  clear_no_panic ns : no_panic (ClearGatewayClassFinalizer l ns);
}.

Class PrunerSpec (r : DataPlaneNetworkPolicyReconciler) := {
  prune_only ns : emits (fun e => mutating e -> exists n m, ecall e = DeleteNetworkPolicy n m) (PruneReconcile r ns);
  prune_no_panic ns : no_panic (PruneReconcile r ns);
  prune_done ns t : runs (PruneReconcile r ns) t (Ok tt) -> pruned t;
}.

Class NetpolDeployerSpec (d : NetpolControllerDeployer) := {
  teardown_only ns : emits (fun e => exists k n, ecall e = SeedDelete k ns n) (Teardown d ns);
  teardown_gone ns : establishes (deployment_gone ns) (Teardown d ns);
  teardown_no_panic ns : no_panic (Teardown d ns);
  scaledown_only ns : emits (fun e => ecall e = SeedGetDeployment ns NetpolControllerName \/
      exists d, ecall e = SeedPatchDeployment d (netpolControllerDeployer.scaledToZero d)) (ScaleDown d ns);
  scaledown_scales ns t r : runs (ScaleDown d ns) t r -> scales_down ns t r;
  scaledown_no_panic ns : no_panic (ScaleDown d ns);
  ensure_no_panic cluster ns : no_panic (Ensure d cluster ns);
  ensure_applies cluster ns t : runs (Ensure d cluster ns) t (Ok tt) ->
    exists f, ev (SeedCreateOrUpdateDeployment ns NetpolControllerName f) (inl tt) ∈ t;
  ensure_only cluster ns : emits (fun e => seed_only e /\
      (mutating e -> (exists n sa, ecall e = ReconcileShootAccessSecret n ns sa) \/
                     (exists f, ecall e = SeedCreateOrUpdateDeployment ns NetpolControllerName f)))
      (Ensure d cluster ns);
}.

Class SweeperSpec (s : OrphanDataPlaneSweeper) := {
  sweep_only ns : emits (fun e => mutating e -> exists k n m, ecall e = DeleteObject k n m) (Sweep s ns);
  sweep_no_panic ns : no_panic (Sweep s ns);
}.


(** An actuator as [New] builds it: every field set, every component lawful. *)
Class ActuatorSpec (a : Actuator) := {
  decode : string -> config.EnvoyGatewayConfig + error;
  lister : GatewayLister;
  pruner : DataPlaneNetworkPolicyReconciler;
  deployer : NetpolControllerDeployer;
  sweeper : OrphanDataPlaneSweeper;
  decoder_set : decoder a = Some decode;
  lister_set : gatewayLister a = Some lister;
  pruner_set : netpolReconciler a = Some pruner;
  deployer_set : netpolDeployer a = Some deployer;
  sweeper_set : orphanSweeper a = Some sweeper;
  lister_spec :: ListerSpec lister;
  pruner_spec :: PrunerSpec pruner;
  deployer_spec :: NetpolDeployerSpec deployer;
  sweeper_spec :: SweeperSpec sweeper;
}.

(** ** The production implementations *)

Ltac unmutating := unfold read_only, mutating, seed_only; simpl; try done; eauto.

Section lister.
Import realGatewayLister.

Lemma shootClient_reads ns : emits read_only (shootClient ns).
Proof. unfold shootClient, newGatewayScheme. emits_auto; by unmutating. Qed.

Lemma shootClient_no_panic ns : no_panic (shootClient ns).
Proof. unfold shootClient, newGatewayScheme. no_panic_auto; auto with effects. Qed.

Hint Resolve shootClient_reads shootClient_no_panic : effects.

Lemma fetch_reads ns : emits read_only (fetchGatewayList ns).
Proof. unfold fetchGatewayList. emits_auto; by unmutating. Qed.

Lemma fetch_no_panic ns : no_panic (fetchGatewayList ns).
Proof. unfold fetchGatewayList. no_panic_auto; auto with effects. Qed.

Hint Resolve fetch_reads fetch_no_panic : effects.

(** The listing an execution of [fetchGatewayList] rests on. *)
Lemma fetch_Ok ns t l :
  runs (fetchGatewayList ns) t (Ok l) ->
  exists t1 r, t = t1 ++ [ev (External.ListGateways []) r] /\
    match r with
    | inl l' => l' = l
    | inr err => gatewayCRDAbsent err = true /\ l = []
    end.
Proof.
  unfold fetchGatewayList. intros H.
  apply runs_bind in H as [(t1&[]&t2&->&_&H)|[(?&?&?)|(?&?&?)]]; [|done..].
  destruct H as (r&t'&->&H). exists t1, r. destruct r as [l'|err]; cbn in H.
  - by destruct H as [-> [= ->]].
  - destruct (gatewayCRDAbsent err); by destruct H as [-> [=]].
Qed.

#[export] Instance NewGatewayLister_spec : ListerSpec NewGatewayLister.
Proof.
  constructor; intros; simpl.
  - unfold ListGateways. emits_auto.
  - unfold ListGateways in H.
    apply runs_bind in H as [(t1&l&t2&->&H&H2)|[(?&?&?)|(?&?&?)]]; [|done..].
    destruct H2 as [-> [= Hl]]. rewrite app_nil_r. apply fetch_Ok in H as (t0&r&->&Hr).
    apply Exists_app. right. constructor. destruct l; [|done].
    destruct r as [l'|err]; [left; by subst|right; exists err; naive_solver].
  - unfold ListGateways. no_panic_auto.
  - unfold DeleteGateways. apply emits_bind.
    { eapply emits_impl; [|apply shootClient_reads]. done. }
    intros []. emits_auto; unmutating.
  - unfold DeleteGateways. no_panic_auto; auto with effects.
  - unfold WaitUntilGatewaysDeleted, gatewaysGone. emits_auto.
    apply emits_poll; [by unmutating|]. intros s. emits_auto.
  - unfold WaitUntilGatewaysDeleted, gatewaysGone. no_panic_auto.
    apply no_panic_poll. intros s. no_panic_auto.
  - unfold ClearGatewayClassFinalizer. apply emits_bind.
    { eapply emits_impl; [|apply shootClient_reads]. done. }
    intros []. emits_auto; unmutating.
  - unfold ClearGatewayClassFinalizer. no_panic_auto; auto with effects.
Qed.
End lister.

Section others.
Context `{Libraries}.

#[export] Instance NewDataPlaneNetworkPolicyReconciler_spec :
  PrunerSpec dataPlaneNetworkPolicyReconciler.NewDataPlaneNetworkPolicyReconciler.
Proof.
  constructor; intros ns;
    cbn [PruneReconcile dataPlaneNetworkPolicyReconciler.NewDataPlaneNetworkPolicyReconciler];
    unfold dataPlaneNetworkPolicyReconciler.Reconcile, orphanDataPlaneSweeper.kubernetesScheme,
      dataPlaneNetworkPolicyReconciler.prunePolicy;
    [emits_auto; unmutating|no_panic_auto; auto with effects|].
  intros t Hr.
  apply runs_bind in Hr as [(t1&[]&t2&->&_&Hr)|[(?&?&?)|(?&?&?)]]; [|done..].
  apply runs_bind in Hr as [(t3&[]&t4&->&_&Hr)|[(?&?&?)|(?&?&?)]]; [|done..].
  apply runs_wrapf_request in Hr as (x&t5&->&Hr). destruct x as [l|e]; [|by destruct Hr].
  exists l. split; [rewrite !elem_of_app, elem_of_cons; auto|]. intros p Hp.
  destruct (runs_for_each_Ok _ _ _ _ Hr Hp) as (t6&t7&t8&->&Hd).
  apply runs_wrapf_Ok in Hd as (x&t9&->&Hd).
  destruct x as [[]|err]; [left; rewrite !elem_of_app, !elem_of_cons, !elem_of_app, !elem_of_cons; auto 10|].
  right. exists err. cbn in Hd. destruct (IsNotFound err) eqn:E; [|by destruct Hd].
  split; [rewrite !elem_of_app, !elem_of_cons, !elem_of_app, !elem_of_cons; auto 10|done].
Qed.

#[export] Instance NewOrphanDataPlaneSweeper_spec :
  SweeperSpec orphanDataPlaneSweeper.NewOrphanDataPlaneSweeper.
Proof.
  constructor; intros ns; simpl;
    unfold orphanDataPlaneSweeper.Sweep, orphanDataPlaneSweeper.kubernetesScheme,
      orphanDataPlaneSweeper.sweepOrphans, orphanDataPlaneSweeper.sweepObject;
    [emits_auto; unmutating|no_panic_auto; auto with effects].
Qed.

#[export] Instance NewNetpolControllerDeployer_spec iv :
  NetpolDeployerSpec (netpolControllerDeployer.NewNetpolControllerDeployer iv).
Proof.
  constructor; cbn [Teardown ScaleDown Ensure netpolControllerDeployer.NewNetpolControllerDeployer].
  - intros ns. unfold netpolControllerDeployer.Teardown. emits_auto; eauto.
  - intros ns. unfold netpolControllerDeployer.Teardown, netpolControllerDeployer.objs.
    cbn [for_each]. apply establishes_bind_l. cbn beta iota. apply establishes_wrapf. intros t [] (r&t'&->&Hr).
    apply Exists_cons. left. destruct r as [[]|err]; [by left|].
    right. exists err. cbn in Hr. destruct (IsNotFound err) eqn:E; [done|]. by destruct Hr.
  - intros ns. unfold netpolControllerDeployer.Teardown. no_panic_auto; auto with effects.
  - intros ns. unfold netpolControllerDeployer.ScaleDown. emits_auto; simpl; eauto.
  - intros ns t r (x&t'&->&Hr). destruct x as [d|e]; [right|left].
    + destruct Hr as (y&t2&->&Hr). exists d, (netpolControllerDeployer.scaledToZero d), y.
      split; [|split; [by repeat split|]]; destruct y as [[]|e]; by destruct Hr as [-> ->].
    + exists e. cbn in Hr. destruct (IsNotFound e); by destruct Hr as [-> ->].
  - intros ns. unfold netpolControllerDeployer.ScaleDown. no_panic_auto; auto with effects.
  - intros cluster ns. unfold netpolControllerDeployer.Ensure, netpolControllerDeployer.deployment.
    no_panic_auto; auto with effects. destruct (iv ExtensionImageName); done.
  - intros cluster ns t Hr. unfold netpolControllerDeployer.Ensure in Hr.
    apply runs_bind in Hr as [(t1&s&t2&->&_&Hr)|[(?&?&?)|(?&?&?)]]; [|done..].
    apply runs_bind in Hr as [(t3&d&t4&->&_&Hr)|[(?&?&?)|(?&?&?)]]; [|done..].
    apply runs_bind in Hr as [(t5&d'&t6&->&_&Hr)|[(?&?&?)|(?&?&?)]]; [|done..].
    apply runs_wrapf_Ok in Hr as ([[]|e]&t7&->&Hr); [|by destruct Hr].
    eexists. rewrite !elem_of_app, elem_of_cons. eauto.
  - intros cluster ns. unfold netpolControllerDeployer.Ensure. emits_auto; unmutating.
    all: split; [done|]; eauto.
Qed.
End others.

(** [New] without options builds a lawful actuator. *)
Section production.
Context `{Libraries}.

Definition productionActuator (c : Client) (iv : ImageVector) : Actuator :=
  mkActuator c (Some (client_UniversalDecoder c)) iv "" ∅
    (Some realGatewayLister.NewGatewayLister)
    (Some dataPlaneNetworkPolicyReconciler.NewDataPlaneNetworkPolicyReconciler)
    (Some (netpolControllerDeployer.NewNetpolControllerDeployer iv))
    (Some orphanDataPlaneSweeper.NewOrphanDataPlaneSweeper).

#[export] Instance productionActuator_spec c iv : ActuatorSpec (productionActuator c iv).
Proof.
  refine (Build_ActuatorSpec (productionActuator c iv) _ _ _ _ _ eq_refl eq_refl eq_refl eq_refl eq_refl _ _ _ _).
Defined.
End production.
