(* ===== verification/Validator.v ===== *)
(** * The admission webhook (pkg/admission/validator/shoot.go)

    Which Shoots are admitted, with which warnings, and why every configuration
    it admits is one the actuator accepts. *)

From S2P Require Import Prelude GoStd Errors Effects KubeObjects Constants Config External.
From S2P Require Import Interfaces Secrets Manifests Deployer GatewayGuard OrphanSweep.
From S2P Require Import DataplaneNetpol NetpolDeployer Actuator ActuatorSpecs.

(** [admission.Response]. *)
Inductive Response :=
  | Allowed (warnings : list string)
  | Denied (message : string)
  | Errored (code : Z) (err : error).

Definition StatusBadRequest : Z := 400.

(** [validateLogLevel] and [validateDataPlaneLogLevel]: the error, if any. *)
Definition validateLogLevel (cp : option config.ControlPlaneConfig) : option error :=
  match cp with
  | None => None
  | Some cp =>
      if decide (config.cp_LogLevel cp = ""%string) then None
      else if decide (config.cp_LogLevel cp ∈ ValidLogLevels) then None
      else Some (errorString ("invalid envoy-gateway providerConfig: controlPlane.logLevel " +:+
                              fmt_q (config.cp_LogLevel cp) +:+ " must be one of debug, info, warn, error"))
  end.

Definition validateDataPlaneLogLevel (dp : option config.DataPlaneConfig) : option error :=
  match dp with
  | None => None
  | Some dp =>
      if decide (config.dp_LogLevel dp = ""%string) then None
      else if decide (config.dp_LogLevel dp ∈ ValidLogLevels) then None
      else Some (errorString ("invalid envoy-gateway providerConfig: dataPlane.logLevel " +:+
                              fmt_q (config.dp_LogLevel dp) +:+ " must be one of debug, info, warn, error"))
  end.

Definition traefikWarning : string :=
  "both the shoot-traefik (GEP-57) and envoy-gateway (GEP-68) extensions are enabled on this shoot. " +:+
  "Running both ingress paths doubles the load-balancer cost; a single ingress path per shoot is recommended in production.".

Definition experimentalWarning : string :=
  "envoy-gateway providerConfig selects channel 'experimental'. " +:+
  "The experimental-channel Gateway API CRDs (TCPRoute, TLSRoute, UDPRoute, BackendTLSPolicy) " +:+
  "may change in backwards-incompatible ways between releases.".

(** The local variables of [validateShoot]. *)
Record Scan := mkScan { hasEnvoyGateway : bool; hasTraefik : bool; providerCfgRaw : string }.

(** [ext.Disabled != nil && *ext.Disabled]. *)
Definition isDisabled (ext : ShootExtension) : bool := bool_decide (ext_Disabled ext = Some true).

(** The loop over the extensions; [None] is the early return. *)
Fixpoint scanExtensions (exts : list ShootExtension) (s : Scan) : option Scan :=
  match exts with
  | [] => Some s
  | ext :: exts =>
      if decide (ext_Type ext = TraefikExtensionType /\ isDisabled ext = false)
      then scanExtensions exts (mkScan (hasEnvoyGateway s) true (providerCfgRaw s))
      else if decide (ext_Type ext <> ExtensionType) then scanExtensions exts s
      else if isDisabled ext then None
      else scanExtensions exts
             (mkScan true (hasTraefik s)
                (match ext_ProviderConfig ext with Some raw => raw | None => providerCfgRaw s end))
  end.

Section validator.
Context `{Libraries}.
Variable cfgDecoder : string -> config.EnvoyGatewayConfig + error.

(** Decoding and validating the configuration; the warnings so far are extended. *)
Definition validateProviderConfig (raw : string) (warnings : list string) : list string + error :=
  match cfgDecoder raw with
  | inr err => inr (wrapError "invalid envoy-gateway providerConfig: " err "")
  | inl cfg =>
      match validateLogLevel (config.cfg_ControlPlane cfg), validateDataPlaneLogLevel (config.cfg_DataPlane cfg) with
      | Some err, _ => inr err
      | None, Some err => inr err
      | None, None =>
          if decide (config.cfg_Channel cfg <> ""%string /\ config.cfg_Channel cfg ∉ ValidChannels)
          then inr (errorString ("invalid envoy-gateway providerConfig: channel " +:+
                                 fmt_q (config.cfg_Channel cfg) +:+ " must be one of standard, experimental"))
          else if decide (config.cfg_Channel cfg = ChannelExperimental)
               then inl (warnings ++ [experimentalWarning])
               else inl warnings
      end
  end.

Definition validateShoot (shoot : Shoot) : list string + error :=
  match scanExtensions (sh_Extensions shoot) (mkScan false false "") with
  | None => inl []
  | Some s =>
      if negb (hasEnvoyGateway s) then inl []
      else if decide (sh_Purpose shoot <> Some ShootPurposeEvaluation) then
        inr (errorString
          ("envoy-gateway extension can only be enabled for shoots with purpose 'evaluation' (current: " +:+
           default "nil" (sh_Purpose shoot) +:+ "). " +:+
           "This scope restriction is part of the GEP-68 incubation phase"))
      else
        let warnings := if hasTraefik s then [traefikWarning] else [] in
        if present (providerCfgRaw s) then validateProviderConfig (providerCfgRaw s) warnings
        else inl warnings
  end.

(** [Handle]; decoding the Shoot from the request is the framework's. *)
Definition Handle (decoded : Shoot + error) : Response :=
  match decoded with
  | inr err => Errored StatusBadRequest err
  | inl shoot =>
      match validateShoot shoot with
      | inr err => Denied (Error err)
      | inl warnings => Allowed warnings
      end
  end.

(** ** The specification *)

(** The extension is enabled: it has an entry, and none of its entries is
    disabled. *)
Definition entries (shoot : Shoot) : list ShootExtension :=
  filter (fun e => ext_Type e = ExtensionType) (sh_Extensions shoot).

Definition enabled (shoot : Shoot) : Prop :=
  entries shoot <> [] /\ Forall (fun e => isDisabled e = false) (entries shoot).

(** The configuration in force: that of the last entry that has one. *)
Definition configuration (shoot : Shoot) : string :=
  last (omap ext_ProviderConfig (entries shoot)) ""%string.

Definition traefikEnabled (shoot : Shoot) : Prop :=
  Exists (fun e => ext_Type e = TraefikExtensionType /\ isDisabled e = false) (sh_Extensions shoot).

(** The warnings an accepted configuration earns. *)
Definition warningsFor (traefik experimental : bool) : list string :=
  (if traefik then [traefikWarning] else []) ++ (if experimental then [experimentalWarning] else []).

End validator.

(** ** Properties *)

Lemma last_default {A} (l : list A) x d : last l x = last (x :: l) d.
Proof.
  revert x d. induction l as [|y l IH]; intros x d; [done|].
  change (last (x :: y :: l) d) with (last (y :: l) d). by rewrite <- (IH y x), <- (IH y d).
Qed.

Lemma scanExtensions_spec exts s :
  let es := filter (fun e => ext_Type e = ExtensionType) exts in
  scanExtensions exts s =
  if decide (Forall (fun e => isDisabled e = false) es)
  then Some (mkScan (hasEnvoyGateway s || bool_decide (es <> []))
               (hasTraefik s || bool_decide (Exists (fun e => ext_Type e = TraefikExtensionType /\ isDisabled e = false) exts))
               (last (omap ext_ProviderConfig es) (providerCfgRaw s)))
  else None.
Proof.
  revert s. induction exts as [|e exts IH]; intros [h tr raw]; simpl.
  - by rewrite !orb_false_r.
  - rewrite filter_cons.
    destruct (decide (ext_Type e = TraefikExtensionType /\ isDisabled e = false)) as [[Ht Hd]|Hn].
    + rewrite (decide_False (P := ext_Type e = ExtensionType)) by (by rewrite Ht).
      rewrite IH. simpl. case_decide; [|done]. do 2 f_equal.
      symmetry. apply orb_true_iff. right. apply bool_decide_eq_true. by left.
    + destruct (decide (ext_Type e = ExtensionType)) as [He|He].
      * rewrite (decide_False (P := ext_Type e <> ExtensionType)) by auto.
        destruct (isDisabled e) eqn:Hd.
        { rewrite decide_False; [done|]. intros Hf. inv Hf. congruence. }
        rewrite IH. simpl. rewrite (decide_ext _ (Forall (fun e => isDisabled e = false) (e :: filter (fun e => ext_Type e = ExtensionType) exts)))
          by (rewrite Forall_cons; tauto).
        case_decide; [|done]. do 2 f_equal.
        -- rewrite orb_true_r. by destruct h.
        -- f_equal. apply bool_decide_ext. rewrite Exists_cons. rewrite He, Hd. naive_solver.
        -- destruct (ext_ProviderConfig e); simpl; [|done]. apply last_default.
      * rewrite (decide_True (P := ext_Type e <> ExtensionType)) by done.
        rewrite IH. simpl. case_decide; [|done]. do 2 f_equal. f_equal.
        apply bool_decide_ext. rewrite Exists_cons. naive_solver.
Qed.

Lemma valid_level_decide l : valid_level l <-> l = ""%string \/ l ∈ ValidLogLevels.
Proof. done. Qed.

Lemma validateLogLevel_valid cp :
  validateLogLevel cp = None <-> forall c, cp = Some c -> valid_level (config.cp_LogLevel c).
Proof.
  destruct cp as [c|]; simpl; [|naive_solver]. unfold valid_level.
  case_decide; [naive_solver|]. case_decide; naive_solver.
Qed.

Lemma validateDataPlaneLogLevel_valid dp :
  validateDataPlaneLogLevel dp = None <-> forall c, dp = Some c -> valid_level (config.dp_LogLevel c).
Proof.
  destruct dp as [c|]; simpl; [|naive_solver]. unfold valid_level.
  case_decide; [naive_solver|]. case_decide; naive_solver.
Qed.

(** A configuration passes the webhook's checks iff it is valid. *)
Lemma validateProviderConfig_spec dec raw ws w :
  validateProviderConfig dec raw ws = inl w <->
  exists cfg, dec raw = inl cfg /\ config_valid cfg /\
    w = ws ++ if decide (config.cfg_Channel cfg = ChannelExperimental) then [experimentalWarning] else [].
Proof.
  unfold validateProviderConfig. destruct (dec raw) as [cfg|e]; [|naive_solver].
  assert (Hv : config_valid cfg <-> valid_channel (config.cfg_Channel cfg) /\
    validateLogLevel (config.cfg_ControlPlane cfg) = None /\
    validateDataPlaneLogLevel (config.cfg_DataPlane cfg) = None).
  { by rewrite validateLogLevel_valid, validateDataPlaneLogLevel_valid. }
  transitivity (config_valid cfg /\
    w = ws ++ if decide (config.cfg_Channel cfg = ChannelExperimental) then [experimentalWarning] else []);
    [|naive_solver].
  rewrite Hv. clear Hv.
  destruct (validateLogLevel _); [naive_solver|]. destruct (validateDataPlaneLogLevel _); [naive_solver|].
  unfold valid_channel. destruct (decide (config.cfg_Channel cfg ≠ ""%string /\ _)) as [[? ?]|Hn]; [naive_solver|].
  assert (config.cfg_Channel cfg = ""%string \/ config.cfg_Channel cfg ∈ ValidChannels).
  { destruct (decide (config.cfg_Channel cfg = ""%string)); [by left|].
    destruct (decide (config.cfg_Channel cfg ∈ ValidChannels)); [by right|]. by destruct Hn. }
  case_decide; [naive_solver|]. rewrite app_nil_r. naive_solver.
Qed.

(** [applyConfig] accepts the same configurations. *)
Lemma applyConfig_valid cfg d : (exists c, applyConfig cfg d = Ok c) <-> config_valid cfg.
Proof.
  unfold config_valid, applyConfig, valid_channel.
  assert (Hl : forall l t, (exists x, applyLogLevel l t = Ok x) <-> valid_level l).
  { intros l t. unfold applyLogLevel, valid_level. case_decide; [naive_solver|].
    case_decide; naive_solver. }
  split.
  - intros [c Hc]. apply outcome_bind_Ok in Hc as (x&Hch&Hc).
    apply outcome_bind_Ok in Hc as (y&Hcp&Hc). apply outcome_bind_Ok in Hc as (z&Hdp&_).
    split_and!.
    + case_decide; [by left|]. right. by case_decide.
    + intros cp Hcp'. rewrite Hcp' in Hcp. apply outcome_bind_Ok in Hcp as (l&Hl'&_).
      apply (Hl _ (ControlPlaneLogLevel d)). eauto.
    + intros dp Hdp'. rewrite Hdp' in Hdp. apply outcome_bind_Ok in Hdp as (l&Hl'&_).
      apply (Hl _ (DataPlaneLogLevel d)). eauto.
  - intros (Hch&Hcp&Hdp).
    assert (exists x, (if decide (config.cfg_Channel cfg = ""%string) then Ok (ExperimentalFeatures d)
      else if decide (config.cfg_Channel cfg ∈ ValidChannels)
           then Ok (bool_decide (config.cfg_Channel cfg = ChannelExperimental))
           else Err (errorString ("invalid envoy-gateway channel " +:+ fmt_q (config.cfg_Channel cfg) +:+
                                 ": must be one of standard, experimental"))) = Ok x) as [x ->].
    { case_decide; [eauto|]. case_decide; [eauto|]. naive_solver. }
    cbn [mbind outcome_bind].
    destruct (config.cfg_ControlPlane cfg) as [cp|], (config.cfg_DataPlane cfg) as [dp|];
      repeat match goal with
             | H : forall c, Some ?x = Some c -> _ |- _ =>
                 specialize (H x eq_refl)
             end;
      try (apply (Hl _ (ControlPlaneLogLevel d)) in Hcp as [? ->]);
      try (apply (Hl _ (DataPlaneLogLevel d)) in Hdp as [? ->]); cbn; eauto.
Qed.

Section admission.
Context `{Libraries}.
Variable dec : string -> config.EnvoyGatewayConfig + error.

(** A Shoot that enables the extension for the right purpose is admitted iff its
    configuration, if any, is good. *)
Lemma validateShoot_accepts shoot :
  enabled shoot -> sh_Purpose shoot = Some ShootPurposeEvaluation ->
  (exists w, validateShoot dec shoot = inl w) <->
  (configuration shoot = ""%string \/ exists cfg, dec (configuration shoot) = inl cfg /\ config_valid cfg).
Proof.
  intros [Hne Hdis] Hp. unfold validateShoot. rewrite scanExtensions_spec. fold (entries shoot).
  rewrite decide_True by done. cbn [hasEnvoyGateway hasTraefik providerCfgRaw orb]. fold (configuration shoot).
  rewrite bool_decide_true by done. cbn [negb]. rewrite decide_False by naive_solver.
  unfold present. case_bool_decide as Hraw; [|destruct (decide (configuration shoot = ""%string)); naive_solver].
  split.
  - intros [w Hw]. apply validateProviderConfig_spec in Hw. naive_solver.
  - intros [?|(cfg&Hd&Hv)]; [done|]. eexists. apply validateProviderConfig_spec. eauto.
Qed.

(** ... and an actuator with the same decoder accepts the same configurations. *)
Lemma egConfigOf_accepts a version raw :
  decoder a = Some dec ->
  (exists c, egConfigOf a version (Some raw) = mret c) <->
  (exists cfg, dec raw = inl cfg /\ config_valid cfg).
Proof.
  intros Hdec. unfold egConfigOf. rewrite Hdec. change (nonNil (Some dec) ≫= ?f) with (f dec). cbn beta.
  destruct (dec raw) as [cfg|e]; cbn; [|naive_solver].
  pose proof (applyConfig_valid cfg (withVersion version DefaultConfig)) as Hv. split.
  - intros [c [= Hc]]. exists cfg. split; [done|]. apply Hv. by exists c.
  - intros (cfg'&[= <-]&[c Hc]%Hv). exists c. by rewrite Hc.
Qed.

(** C19: which Shoots are admitted.  A Shoot whose extension is absent or
    disabled is admitted without warnings.  One that enables it is admitted iff
    its purpose is "evaluation" and its configuration, if any, decodes and is
    valid; the warnings are exactly those for a doubled ingress path and for the
    experimental channel. *)
Theorem validateShoot_spec shoot w :
  let traefik := bool_decide (traefikEnabled shoot) in
  validateShoot dec shoot = inl w <->
  (~ enabled shoot /\ w = []) \/
  (enabled shoot /\ sh_Purpose shoot = Some ShootPurposeEvaluation /\
   ((configuration shoot = ""%string /\ w = warningsFor traefik false) \/
    (exists cfg, configuration shoot <> ""%string /\ dec (configuration shoot) = inl cfg /\ config_valid cfg /\
       w = warningsFor traefik (bool_decide (config.cfg_Channel cfg = ChannelExperimental))))).
Proof.
  intros traefik. unfold validateShoot. rewrite scanExtensions_spec. cbn [orb hasEnvoyGateway hasTraefik providerCfgRaw].
  fold (entries shoot). fold (configuration shoot).
  unfold enabled. case_decide as Hdis; [|naive_solver].
  cbn [hasEnvoyGateway hasTraefik providerCfgRaw]. fold (configuration shoot).
  case_bool_decide as He; cbn [negb]; [|naive_solver].
  case_decide as Hp.
  { split; [done|]. intros [[Hn _]|(_&Hp'&_)]; [by destruct Hn|done]. }
  assert (Hpur : sh_Purpose shoot = Some ShootPurposeEvaluation)
    by (destruct (decide (sh_Purpose shoot = Some ShootPurposeEvaluation)); [done|by destruct Hp]).
  change (bool_decide (Exists _ _)) with traefik. unfold present. case_bool_decide as Hraw.
  - rewrite validateProviderConfig_spec. split.
    + intros (cfg&Hd&Hv&->). right. split; [done|]. split; [done|]. right. exists cfg.
      unfold warningsFor. rewrite decide_bool_decide. by destruct (bool_decide _).
    + intros [[Hn _]|(_&_&[[Hr _]|(cfg&_&Hd&Hv&->)])]; [by destruct Hn|done|].
      exists cfg. split_and!; [done..|]. unfold warningsFor. case_decide; by case_bool_decide.
  - assert (Hr : configuration shoot = ""%string)
      by (destruct (decide (configuration shoot = ""%string)); [done|by destruct Hraw]).
    unfold warningsFor. rewrite app_nil_r. split.
    + intros [= <-]. right. eauto 10.
    + intros [[Hn _]|(_&_&[[_ ->]|(cfg&Hr'&_)])]; [by destruct Hn|done|done].
Qed.

(** Admission and reconciliation agree.  On a Shoot of the right purpose
    whose extension is enabled with a configuration, the webhook admits it iff
    an actuator with the same decoder accepts the configuration, whatever the
    Kubernetes version. *)
Theorem admission_agrees_with_actuator shoot a version :
  enabled shoot -> sh_Purpose shoot = Some ShootPurposeEvaluation ->
  configuration shoot <> ""%string -> decoder a = Some dec ->
  (exists w, validateShoot dec shoot = inl w) <->
  (exists c, runs (egConfigOf a version (Some (configuration shoot))) [] (Ok c)).
Proof.
  intros Hen Hp Hraw Hdec.
  rewrite validateShoot_accepts by done.
  transitivity (exists cfg, dec (configuration shoot) = inl cfg /\ config_valid cfg); [naive_solver|].
  rewrite <- (egConfigOf_accepts a version) by done. split; intros [c Hc]; exists c.
  - by rewrite Hc.
  - unfold egConfigOf in *. rewrite Hdec in *. change (nonNil (Some dec) ≫= ?f) with (f dec) in *. cbn beta in *.
    destruct (dec (configuration shoot)); destruct Hc as [_ Hc]; [|done]. cbn. by rewrite <- Hc.
Qed.
End admission.
