(* ===== verification/ActuatorLemmas.v ===== *)
(** * Executions of the actuator's operations

    Inversion lemmas for the metrics wrapper and the phases of the operations,
    shared by the properties of ActuatorProps.v. *)

From S2P Require Import Prelude GoStd Errors Effects KubeObjects Constants Config External.
From S2P Require Import Interfaces Secrets Manifests Deployer DataPlanePolicies GatewayGuard.
From S2P Require Import OrphanSweep DataplaneNetpol NetpolDeployer Actuator ActuatorSpecs.

(** ** Kinds of events *)

Definition prunes (e : event ans) : Prop := exists n m, ecall e = DeleteNetworkPolicy n m.
Definition deletes_resource (e : event ans) : Prop := exists ns n b, ecall e = DeleteManagedResource ns n b.
Definition cleans_secrets (e : event ans) : Prop := exists sm, ecall e = SMCleanup sm.
Definition clears_finalizer (e : event ans) : Prop := exists gc f, ecall e = RemoveFinalizers gc f.

(** The ManagedResource is gone. *)
Definition resource_gone (ns : string) (e : event ans) : Prop :=
  e = ev (WaitUntilManagedResourceDeleted ns ManagedResourceName ManagedResourceDeletionTimeout) (inl tt).

(** keepObjects is set on the ManagedResource, or there is none. *)
Definition keeps_objects (ns : string) (e : event ans) : Prop :=
  e = ev (SetKeepObjects ns ManagedResourceName true) (inl tt) \/
  exists err, e = ev (SetKeepObjects ns ManagedResourceName true) (inr err) /\ IsNotFound err = true.

(** ** The metrics wrapper *)

Section recorded.
Context `{Libraries}.

(** The metrics of one operation. *)
Definition telemetry (clusterName op : string) (start : Z) (err : option error) : list (event ans) :=
  [ ev (CounterInc ActuatorOperationTotal [clusterName; op]) tt;
    ev (GaugeSetSince ActuatorOperationDurationSeconds [clusterName; op] start) tt ] ++
  match err with
  | None => []
  | Some _ => [ ev (CounterInc ActuatorOperationErrorsTotal [clusterName; op; classifyError err]) tt ]
  end.

Lemma runs_recordOperation cluster op start err t :
  runs (recordOperation cluster op start err) t tt <-> t = telemetry cluster op start err.
Proof.
  unfold recordOperation, telemetry. cbn [runs]. split.
  - intros ([]&t1&->&([]&t2&->&Hr)). destruct err as [e|].
    + destruct Hr as ([]&t3&->&[-> _]). done.
    + destruct Hr as [-> _]. done.
  - intros ->. exists tt. eexists. split; [done|]. exists tt. eexists. split; [done|].
    destruct err; [|done]. exists tt. eexists. by split.
Qed.

Lemma runs_recorded clusterName op body t r :
  runs (recorded clusterName op body) t r <->
  exists start tb, t = ev Now start :: tb ++ telemetry clusterName op start (errOf r) /\ runs body tb r.
Proof.
  unfold recorded. split.
  - intros (start&t'&->&Hr). exists start.
    change (runs (deferred (recordOperation clusterName op start) body) t' r) in Hr.
    apply runs_pbind in Hr as (tb&r'&tm&->&Hb&Hr).
    apply runs_pbind in Hr as (t1&[]&t2&->&H1&[-> <-]).
    apply runs_recordOperation in H1 as ->. exists tb. by rewrite app_nil_r.
  - intros (start&tb&->&Hb). exists start, (tb ++ telemetry clusterName op start (errOf r)).
    split; [done|].
    change (runs (deferred (recordOperation clusterName op start) body) (tb ++ telemetry clusterName op start (errOf r)) r).
    apply runs_pbind. exists tb, r, (telemetry clusterName op start (errOf r)).
    split_and!; [done..|]. apply runs_pbind. eexists _, tt, [].
    split_and!; [by rewrite app_nil_r|by apply runs_recordOperation|done..].
Qed.

Lemma telemetry_read_only cluster op start err : Forall read_only (telemetry cluster op start err).
Proof. unfold telemetry, read_only, mutating. destruct err; repeat constructor; done. Qed.

Lemma telemetry_seed_only cluster op start err : Forall seed_only (telemetry cluster op start err).
Proof. unfold telemetry, seed_only. destruct err; repeat constructor; done. Qed.

Lemma Forall_recorded (P : event ans -> Prop) clusterName op body t r :
  (forall e, is_telemetry (ecall e) = true -> P e) ->
  runs (recorded clusterName op body) t r ->
  exists tb, runs body tb r /\ (forall e, e ∈ tb -> e ∈ t) /\ (Forall P tb -> Forall P t).
Proof.
  intros HP (start&tb&->&Hb)%runs_recorded. exists tb. split; [done|]. split; [set_solver|].
  intros Ht. constructor; [by apply HP|]. apply Forall_app. split; [done|].
  unfold telemetry. destruct (errOf r); repeat constructor; by apply HP.
Qed.

Lemma before_recorded (P Q : event ans -> Prop) clusterName op body t r :
  (forall e, is_telemetry (ecall e) = true -> ~ Q e) ->
  runs (recorded clusterName op body) t r ->
  exists tb, runs body tb r /\ (forall e, e ∈ tb -> e ∈ t) /\ (before P Q tb -> before P Q t).
Proof.
  intros HQ (start&tb&->&Hb)%runs_recorded. exists tb. split; [done|]. split; [set_solver|].
  intros Ht. apply (before_app _ _ [_]); [apply before_none; repeat constructor; by apply HQ|].
  apply before_app; [done|]. apply before_none.
  unfold telemetry. destruct (errOf r); repeat constructor; by apply HQ.
Qed.

Lemma ordered_recorded (P Q : event ans -> Prop) clusterName op body :
  (forall e, is_telemetry (ecall e) = true -> ~ Q e) ->
  ordered P Q body -> ordered P Q (recorded clusterName op body).
Proof.
  intros HQ Hb t r Hr. edestruct before_recorded as (tb&Htb&_&Hbef); [done..|].
  apply Hbef. by eapply Hb.
Qed.

Lemma emits_recorded (P : event ans -> Prop) clusterName op body :
  (forall e, is_telemetry (ecall e) = true -> P e) ->
  emits P body -> emits P (recorded clusterName op body).
Proof.
  intros HP Hb t r Hr. edestruct Forall_recorded as (tb&Htb&_&Hf); [done..|].
  apply Hf. by eapply Hb.
Qed.
End recorded.

(** Telemetry is none of the events the properties are about. *)
Lemma telemetry_not_mutating e : is_telemetry (ecall e) = true -> ~ mutating e.
Proof. unfold mutating. by destruct (ecall e). Qed.

Lemma telemetry_is_seed_only e : is_telemetry (ecall e) = true -> seed_only e.
Proof. unfold seed_only. by destruct (ecall e). Qed.

Lemma telemetry_not_prunes e : is_telemetry (ecall e) = true -> ~ prunes e.
Proof. unfold prunes. intros He (?&?&Hc). by rewrite Hc in He. Qed.

Lemma telemetry_not_deletes e : is_telemetry (ecall e) = true -> ~ deletes_resource e.
Proof. unfold deletes_resource. intros He (?&?&?&Hc). by rewrite Hc in He. Qed.

Lemma telemetry_not_cleans e : is_telemetry (ecall e) = true -> ~ cleans_secrets e.
Proof. unfold cleans_secrets. intros He (?&Hc). by rewrite Hc in He. Qed.

#[export] Hint Resolve telemetry_not_mutating telemetry_is_seed_only telemetry_not_prunes
  telemetry_not_deletes telemetry_not_cleans : effects.

(** The events the properties order are distinct from the others: closes
    [~ K e] for an event [e] whose call is known. *)
Ltac not_this_call :=
  unfold prunes, deletes_resource, cleans_secrets, clears_finalizer, ecall, ev; cbn [projT1];
  intros ?; deex; congruence.
