(* ===== verification/MetricsRegistry.v ===== *)
(** * The metrics registry (pkg/metrics/metrics.go)

    The metric vectors with their labels, and that every update the actuator
    makes fits a registered vector: [WithLabelValues] panics otherwise. *)

From S2P Require Import Prelude GoStd Errors Effects KubeObjects Constants Config External.
From S2P Require Import Interfaces Secrets Manifests Deployer DataPlanePolicies GatewayGuard.
From S2P Require Import OrphanSweep DataplaneNetpol NetpolDeployer Actuator ActuatorSpecs.
From S2P Require Import ActuatorLemmas.
From Stdlib Require Import Ascii.

(** ** The vectors *)

Module metrics.

Inductive Kind := Counter | Gauge.

(** [prometheus.CounterOpts] and [GaugeOpts] with the variable labels. *)
Record Vec := mkVec {
  vec_Kind : Kind;
  vec_Namespace : string;
  vec_Name : string;
  vec_Help : string;
  vec_Labels : list string;
}.

Definition Namespace : string := "gardener_extension_envoy_gateway".
Definition LabelCluster : string := "cluster".
Definition LabelOperation : string := "operation".
Definition LabelReason : string := "reason".

Definition ActuatorOperationTotalVec : Vec :=
  mkVec Counter Namespace ActuatorOperationTotal
    "Total number of actuator operations for the envoy-gateway extension"
    [LabelCluster; LabelOperation].

Definition ActuatorOperationDurationSecondsVec : Vec :=
  mkVec Gauge Namespace ActuatorOperationDurationSeconds
    "Duration in seconds of actuator operations for the envoy-gateway extension"
    [LabelCluster; LabelOperation].

Definition ActuatorOperationErrorsTotalVec : Vec :=
  mkVec Counter Namespace ActuatorOperationErrorsTotal
    "Total number of actuator operations that returned an error, by operation and reason"
    [LabelCluster; LabelOperation; LabelReason].

Definition DeleteGuardRejectionsTotalVec : Vec :=
  mkVec Counter Namespace DeleteGuardRejectionsTotal
    "Number of times the delete-guard refused to detach the extension because user Gateways still exist"
    [LabelCluster].

(** What [init] registers. *)
Definition registered : list Vec :=
  [ ActuatorOperationTotalVec; ActuatorOperationDurationSecondsVec; ActuatorOperationErrorsTotalVec;
    DeleteGuardRejectionsTotalVec ].

End metrics.
Import metrics.

(** ** Names as Prometheus accepts them *)

(** [[a-zA-Z_][a-zA-Z0-9_]*]: the names without colons. *)
Definition is_letter (c : ascii) : bool :=
  let n := N_of_ascii c in ((97 <=? n) && (n <=? 122) || (65 <=? n) && (n <=? 90) || (n =? 95))%N.
Definition is_digit (c : ascii) : bool := let n := N_of_ascii c in ((48 <=? n) && (n <=? 57))%N.

Fixpoint all_chars (p : ascii -> bool) (s : string) : bool :=
  match s with "" => true | String c s => p c && all_chars p s end%string.

Definition valid_name (s : string) : bool :=
  match s with
  | ""%string => false
  | String c s => is_letter c && all_chars (fun c => is_letter c || is_digit c) s
  end.

(** [prometheus.BuildFQName]. *)
Definition fqName (v : Vec) : string := vec_Namespace v +:+ "_" +:+ vec_Name v.

(** What registration checks of a descriptor. *)
Definition valid_vec (v : Vec) : bool :=
  valid_name (fqName v) && negb (bool_decide (vec_Help v = ""%string)) &&
  forallb (fun l => valid_name l && negb (String.prefix "__" l)) (vec_Labels v) &&
  bool_decide (NoDup (vec_Labels v)).

(** ** Updates *)

(** The label values of an update fit the labels of the vector, for the
    operation's namespace. *)
Definition label_fits (ns : string) (label value : string) : Prop :=
  (label = LabelCluster /\ value = ns) \/
  (label = LabelOperation /\ value ∈ ["reconcile"; "delete"; "force_delete"; "restore"; "migrate"]%string) \/
  (label = LabelReason /\ value ∈ [ReasonGatewaysInUse; ReasonInvalidProviderConfig; ReasonSecrets;
                                   ReasonManagedResource; ReasonClusterLookup; ReasonOther]).

Definition update_fits (ns : string) (k : Kind) (name : string) (values : list string) : Prop :=
  exists v, v ∈ registered /\ vec_Name v = name /\ vec_Kind v = k /\
    Forall2 (label_fits ns) (vec_Labels v) values.

Definition metrics_ok (ns : string) (e : event ans) : Prop :=
  match ecall e with
  | CounterInc name values => update_fits ns Counter name values
  | GaugeSetSince name values _ => update_fits ns Gauge name values
  | _ => True
  end.

(** ** Lemmas *)

Section metrics.
Context `{Libraries}.

Lemma classifyError_reason e :
  classifyError (Some e) ∈ [ReasonGatewaysInUse; ReasonInvalidProviderConfig; ReasonSecrets;
                            ReasonManagedResource; ReasonClusterLookup; ReasonOther].
Proof.
  unfold classifyError. destruct (asGatewaysInUse e); [set_solver|].
  repeat (match goal with |- context [if ?b then _ else _] => destruct b end; [set_solver|]). set_solver.
Qed.

Lemma emits_recorded_metrics ns op body :
  op ∈ ["reconcile"; "delete"; "force_delete"; "restore"; "migrate"]%string ->
  emits (metrics_ok ns) body -> emits (metrics_ok ns) (recorded ns op body).
Proof.
  intros Hop Hb t r (start&tb&->&Hr)%runs_recorded. constructor; [exact I|].
  apply Forall_app. split; [by eapply Hb|].
  assert (Hc : label_fits ns LabelCluster ns) by (by left).
  assert (Ho : label_fits ns LabelOperation op) by (right; by left).
  assert (Hr' : forall e, label_fits ns LabelReason (classifyError (Some e))).
  { intros e. right. right. split; [done|apply classifyError_reason]. }
  unfold telemetry. constructor; [|constructor].
  - exists ActuatorOperationTotalVec. split; [set_solver|]. split_and!; [done..|]. repeat (constructor; [done|]). constructor.
  - exists ActuatorOperationDurationSecondsVec. split; [set_solver|]. split_and!; [done..|]. repeat (constructor; [done|]). constructor.
  - destruct (errOf r) as [e|]; constructor; [|constructor].
    exists ActuatorOperationErrorsTotalVec. split; [set_solver|]. split_and!; [done..|].
    repeat (constructor; [done|]). constructor.
Qed.

(** The components of the production actuator update no metric. *)
Ltac silent := emits_auto; try exact I; auto with effects.

Lemma shootClient_metrics ns0 ns : emits (metrics_ok ns0) (realGatewayLister.shootClient ns).
Proof. unfold realGatewayLister.shootClient, realGatewayLister.newGatewayScheme. silent. Qed.
Hint Resolve shootClient_metrics : effects.

Lemma fetch_metrics ns0 ns : emits (metrics_ok ns0) (realGatewayLister.fetchGatewayList ns).
Proof. unfold realGatewayLister.fetchGatewayList. silent. Qed.
Hint Resolve fetch_metrics : effects.

Lemma lister_metrics ns0 ns :
  emits (metrics_ok ns0) (ListGateways realGatewayLister.NewGatewayLister ns) /\
  emits (metrics_ok ns0) (DeleteGateways realGatewayLister.NewGatewayLister ns) /\
  (forall k, emits (metrics_ok ns0) (WaitUntilGatewaysDeleted realGatewayLister.NewGatewayLister k ns)) /\
  emits (metrics_ok ns0) (ClearGatewayClassFinalizer realGatewayLister.NewGatewayLister ns).
Proof.
  split_and!; simpl.
  - unfold realGatewayLister.ListGateways. silent.
  - unfold realGatewayLister.DeleteGateways. silent.
  - intros k. unfold realGatewayLister.WaitUntilGatewaysDeleted. emits_auto.
    apply emits_poll; [done|]. intros s. unfold realGatewayLister.gatewaysGone. silent.
  - unfold realGatewayLister.ClearGatewayClassFinalizer. silent.
Qed.

Lemma drain_metrics ns0 c iv ns : emits (metrics_ok ns0) (drainUserGatewaysForShootDeletion (productionActuator c iv) ns).
Proof.
  destruct (lister_metrics ns0 ns) as (?&?&?&?).
  unfold drainUserGatewaysForShootDeletion. apply emits_use. silent.
Qed.

Lemma deployer_metrics ns0 iv cluster ns :
  emits (metrics_ok ns0) (Ensure (netpolControllerDeployer.NewNetpolControllerDeployer iv) cluster ns) /\
  emits (metrics_ok ns0) (Teardown (netpolControllerDeployer.NewNetpolControllerDeployer iv) ns) /\
  emits (metrics_ok ns0) (ScaleDown (netpolControllerDeployer.NewNetpolControllerDeployer iv) ns).
Proof.
  split_and!; simpl.
  - unfold netpolControllerDeployer.Ensure. silent.
  - unfold netpolControllerDeployer.Teardown. silent.
  - unfold netpolControllerDeployer.ScaleDown. silent.
Qed.

Lemma shoot_components_metrics ns0 ns :
  emits (metrics_ok ns0) (PruneReconcile dataPlaneNetworkPolicyReconciler.NewDataPlaneNetworkPolicyReconciler ns) /\
  emits (metrics_ok ns0) (Sweep orphanDataPlaneSweeper.NewOrphanDataPlaneSweeper ns).
Proof.
  split; simpl.
  - unfold dataPlaneNetworkPolicyReconciler.Reconcile, orphanDataPlaneSweeper.kubernetesScheme,
      dataPlaneNetworkPolicyReconciler.prunePolicy. silent.
  - unfold orphanDataPlaneSweeper.Sweep, orphanDataPlaneSweeper.kubernetesScheme,
      orphanDataPlaneSweeper.sweepOrphans, orphanDataPlaneSweeper.sweepObject. silent.
Qed.

Lemma secrets_metrics ns0 cluster ns :
  emits (metrics_ok ns0) (reconcileSecrets cluster ns) /\ emits (metrics_ok ns0) (deleteSecrets cluster).
Proof.
  split; [unfold reconcileSecrets|unfold deleteSecrets]; silent.
Qed.

Lemma managedResource_metrics ns0 cfg iv ns tls :
  emits (metrics_ok ns0) (Deploy cfg iv ns tls) /\ emits (metrics_ok ns0) (DeployerDelete ns) /\
  emits (metrics_ok ns0) (DeleteKeepingObjects ns).
Proof.
  split_and!; [unfold Deploy|unfold DeployerDelete, deleteManagedResource|
               unfold DeleteKeepingObjects, deleteManagedResource]; silent.
Qed.

Lemma guard_metrics c iv shoot ns :
  emits (metrics_ok ns) (checkNoUserGateways (productionActuator c iv) shoot ns).
Proof.
  destruct (lister_metrics ns ns) as (?&?&?&?).
  unfold checkNoUserGateways. case_goal; [apply drain_metrics|]. apply emits_use. silent.
  exists DeleteGuardRejectionsTotalVec. split; [set_solver|]. split_and!; [done..|].
  constructor; [by left|constructor].
Qed.

Lemma ReconcileBody_metrics c iv ex :
  emits (metrics_ok (ex_Namespace ex)) (ReconcileBody (productionActuator c iv) ex).
Proof.
  set (ns := ex_Namespace ex). destruct (shoot_components_metrics ns ns) as [??].
  unfold ReconcileBody. fold ns. emits_step; [silent|]. intros cluster. emits_step; [unfold nonNil; silent|].
  intros shoot. destruct (deployer_metrics ns iv cluster ns) as (?&?&?).
  destruct (secrets_metrics ns cluster ns) as [??].
  case_goal; [apply drain_metrics|]. case_goal; [apply emits_use; silent|].
  emits_step; [unfold egConfigOf; destruct (ex_ProviderConfig ex); silent; unfold nonNil; silent|].
  intros eg. emits_step; [silent|]. intros tls.
  destruct (managedResource_metrics ns eg (imageVector (productionActuator c iv)) ns tls) as (?&?&?).
  emits_step; [silent|]. intros []. apply emits_use. emits_step; [silent|]. intros _. apply emits_use.
  case_goal; [silent|]. emits_step; [silent|]. intros []. apply emits_use. silent.
Qed.

Lemma DeleteBody_metrics c iv ex :
  emits (metrics_ok (ex_Namespace ex)) (DeleteBody (productionActuator c iv) ex).
Proof.
  set (ns := ex_Namespace ex). destruct (shoot_components_metrics ns ns) as [??].
  unfold DeleteBody. fold ns. emits_step; [silent|]. intros cluster.
  destruct (deployer_metrics ns iv cluster ns) as (?&?&?).
  destruct (secrets_metrics ns cluster ns) as [??].
  destruct (managedResource_metrics ns DefaultConfig iv ns (mkTLSBundle "" "" "" "" "" "")) as (?&?&?).
  emits_step; [apply guard_metrics|]. intros []. apply emits_use. emits_step; [silent|]. intros [].
  emits_step; [case_goal; [apply emits_use; silent|silent]|]. intros []. silent.
Qed.

(** C33: every metric update fits the registry.  The registered descriptors are
    valid and distinct, and each operation of the production actuator updates
    only registered vectors of the right kind, with one value per label: its own
    namespace, one of the five operations, and one of the six documented
    reasons. *)
Theorem metrics_fit_registry c iv ex :
  let ns := ex_Namespace ex in
  forallb valid_vec registered = true /\ NoDup (fqName <$> registered) /\
  Forall (emits (metrics_ok ns))
    [ Reconcile (productionActuator c iv) ex; Delete (productionActuator c iv) ex;
      ForceDelete (productionActuator c iv) ex; RestoreOp (productionActuator c iv) ex;
      Migrate (productionActuator c iv) ex ].
Proof.
  intros ns. split; [vm_compute; reflexivity|]. split.
  { refine (bool_decide_unpack (NoDup _) _). vm_compute. exact I. }
  assert (Hrec : emits (metrics_ok ns) (Reconcile (productionActuator c iv) ex)).
  { apply emits_recorded_metrics; [set_solver|apply ReconcileBody_metrics]. }
  destruct (managedResource_metrics ns DefaultConfig iv ns (mkTLSBundle "" "" "" "" "" "")) as (?&?&?).
  destruct (deployer_metrics ns iv (mkCluster "" None) ns) as (?&?&?).
  repeat apply List.Forall_cons; [done|..|apply List.Forall_nil];
    (apply emits_recorded_metrics; [set_solver|]).
  - apply DeleteBody_metrics.
  - apply emits_use. silent.
  - done.
  - apply emits_use. silent.
Qed.
End metrics.
