(* ===== verification/ActuatorProps.v ===== *)
(** * Properties of the actuator's operations

    Proved against the interfaces of ActuatorSpecs.v, so that they hold for the
    actuator [New] builds and for any actuator with lawful components. *)

From S2P Require Import Prelude GoStd Errors Effects KubeObjects Constants Config External.
From S2P Require Import Interfaces Secrets Manifests Deployer DataPlanePolicies GatewayGuard.
From S2P Require Import OrphanSweep DataplaneNetpol NetpolDeployer Actuator ActuatorSpecs.
From S2P Require Import ActuatorLemmas.

Section properties.
Context `{Libraries}.
Context (a : Actuator) `{!ActuatorSpec a}.

(** ** The delete guard *)

Lemma check_establishes shoot ns :
  shootDeleting shoot = false ->
  establishes no_gateways (checkNoUserGateways a shoot ns) /\
  emits read_only (checkNoUserGateways a shoot ns).
Proof using Type*.
  intros Hs. unfold checkNoUserGateways. rewrite Hs, lister_set. split.
  - intros t [] Hr. change (nonNil (Some lister)) with (mret lister : IO GatewayLister) in Hr.
    cbn [nonNil] in Hr.
    apply (runs_bind (wrapf _ (ListGateways lister ns))) in Hr as [(t1&names&t2&->&H1&H2)|[(?&?&?)|(?&?&?)]]; [|done..].
    apply runs_wrapf_Ok in H1. destruct names as [|n names].
    + destruct H2 as [-> _]. rewrite app_nil_r. exact (list_none _ _ H1).
    + destruct H2 as ([]&t'&->&[-> ?]). done.
  - apply emits_use. apply emits_bind; [apply emits_wrapf, list_reads|].
    intros [|]; emits_auto; by unmutating.
Qed.

(** C1: the delete guard.  While the shoot lives, Delete changes nothing - in
    the seed or in the shoot - before it has seen that the shoot holds no
    Gateway. *)
Theorem delete_guard ex t r :
  runs (Delete a ex) t r ->
  (forall cluster, ev (GetCluster (ex_Namespace ex)) (inl cluster) ∈ t -> shootDeleting (cl_Shoot cluster) = false) ->
  before no_gateways mutating t.
Proof using Type*.
  intros Hr Hc. apply (before_recorded no_gateways mutating) in Hr as (tb&Hb&Hin&Hbef); [|auto with effects].
  apply Hbef. unfold DeleteBody in Hb. apply runs_wrapf_request in Hb as (x&t'&->&Hb).
  apply (before_app _ _ [_]); [apply before_none; by repeat constructor|].
  destruct x as [cluster|e]; [|destruct Hb as [-> _]; apply before_nil].
  destruct (check_establishes (cl_Shoot cluster) (ex_Namespace ex)) as [Hest Hro].
  { apply Hc, Hin. left. }
  eapply ordered_bind_est; [|exact Hest|exact Hb]. by apply ordered_emits.
Qed.

(** the guard's three outcomes on a living shoot.  It fails if the Gateways
    cannot be listed; it refuses with the typed error, counting one rejection,
    if any Gateway exists; it passes, having done nothing else, if none does. *)
Theorem guard_outcomes shoot ns t r :
  shootDeleting shoot = false ->
  runs (checkNoUserGateways a shoot ns) t r <->
  (exists e, runs (ListGateways lister ns) t (Err e) /\
     r = Err (wrapError "failed to list Gateway resources in shoot before deleting extension: " e "")) \/
  (exists n names tl, runs (ListGateways lister ns) tl (Ok (n :: names)) /\
     t = tl ++ [ev (CounterInc DeleteGuardRejectionsTotal [ns]) tt] /\
     r = Err (gatewaysInUseError (n :: names))) \/
  (runs (ListGateways lister ns) t (Ok []) /\ r = Ok tt).
Proof using Type*.
  intros Hs. unfold checkNoUserGateways. rewrite Hs, lister_set. cbn [nonNil].
  change (mret lister ≫= ?f) with (f lister). cbn beta. rewrite runs_bind. split.
  - intros [(t1&names&t2&->&H1&H2)|[(e&->&He)|(w&->&Hw)]].
    + apply runs_wrapf_Ok in H1. destruct names as [|n names].
      * destruct H2 as [-> ->]. rewrite app_nil_r. eauto.
      * destruct H2 as ([]&t'&->&[-> ->]). right. left. by exists n, names, t1.
    + apply runs_wrapf_Err in He as (e'&->&He). left. eauto.
    + exfalso. eapply (no_panic_wrapf _ _ (list_no_panic (l := lister) ns)). exact Hw.
  - intros [(e&He&->)|[(n&names&tl&Hl&->&->)|[Hl ->]]].
    + right. left. eexists. split; [done|]. apply runs_wrapf_Err. eauto.
    + left. exists tl, (n :: names), [ev (CounterInc DeleteGuardRejectionsTotal [ns]) tt].
      split; [done|]. split; [by apply runs_wrapf_Ok|]. exists tt, []. done.
    + left. exists t, [], []. split; [by rewrite app_nil_r|]. split; [by apply runs_wrapf_Ok|done].
Qed.

(** ** Draining *)

Definition drain_events (e : event ans) : Prop :=
  mutating e -> (exists n m, ecall e = DeleteGateway n m) \/
                (exists gc, ecall e = RemoveFinalizers gc gatewayExistsFinalizer).

Lemma drain_emits ns : emits drain_events (drainUserGatewaysForShootDeletion a ns).
Proof using Type*.
  unfold drainUserGatewaysForShootDeletion. rewrite lister_set. apply emits_use.
  emits_auto; unfold drain_events.
  - eapply emits_impl; [|apply list_reads]. by unfold read_only.
  - eapply emits_impl; [|apply delete_only]. auto.
  - eapply emits_impl; [|apply wait_reads]. by unfold read_only.
  - eapply emits_impl; [|apply clear_only]. auto.
Qed.

Lemma drain_no_panic ns : no_panic (drainUserGatewaysForShootDeletion a ns).
Proof using Type*.
  unfold drainUserGatewaysForShootDeletion. rewrite lister_set. apply no_panic_use.
  no_panic_auto; apply lister_spec.
Qed.

(** C13: the drain never wedges a deletion.  It cannot panic; it fails only when
    the wait reports that Gateways are still present, and then it has not
    cleared the GatewayClass finalizer; every other failure, of whatever step,
    lets the deletion continue.  It changes nothing but Gateways and that
    finalizer. *)
Theorem drain_never_wedges ns t r :
  runs (drainUserGatewaysForShootDeletion a ns) t r ->
  Forall drain_events t /\
  (r = Ok tt \/
   exists e, r = Err (wrapError "waiting for user Gateways to drain from shoot before deleting envoy-gateway: " e "") /\
     errorsIs e realGatewayLister.ErrGatewaysStillDeleting = true /\ Forall (fun e => ~ clears_finalizer e) t).
Proof using Type*.
  intros Hr. split; [by eapply drain_emits|].
  assert (Hnp := drain_no_panic ns). unfold drainUserGatewaysForShootDeletion in *.
  rewrite lister_set in *. change (nonNil (Some lister) ≫= ?f) with (f lister) in *. cbn beta in *.
  assert (Hq : forall {A} (m : IO A), emits (fun e => mutating e -> exists n m, ecall e = DeleteGateway n m) m ->
                 emits (fun e => ~ clears_finalizer e) m).
  { intros A m. apply emits_impl. intros e He (gc&f&Hc). destruct He as (?&?&Hd); [|congruence].
    unfold mutating. by rewrite Hc. }
  assert (Hro : forall {A} (m : IO A), emits read_only m -> emits (fun e => ~ clears_finalizer e) m).
  { intros A m. apply emits_impl. unfold read_only, mutating. intros e He (gc&f&Hc). apply He. by rewrite Hc. }
  apply runs_bind_attempt in Hr as (t1&x1&t2&->&Hr&H1); [|apply lister_spec].
  apply runs_bind_attempt in Hr as (t3&x2&t4&->&Hr&H2); [|apply lister_spec].
  apply runs_bind_attempt in Hr as (t5&x3&t6&->&Hr&H3); [|apply lister_spec].
  assert (Hquiet : Forall (fun e => ~ clears_finalizer e) (t1 ++ t3 ++ t5)).
  { rewrite !Forall_app. split_and!.
    - destruct x1; (eapply Hro; [apply (list_reads (l := lister))|exact H1]).
    - destruct x2; (eapply Hq; [apply (delete_only (l := lister))|exact H2]).
    - destruct x3; (eapply Hro; [apply (wait_reads (l := lister))|exact H3]). }
  assert (Hclear : forall t, runs (attempt (ClearGatewayClassFinalizer lister ns) ;; mret tt) t r -> r = Ok tt).
  { intros t Ht. apply runs_bind_attempt in Ht as (?&?&?&->&[-> ->]&_); [done|apply lister_spec]. }
  destruct x3 as [[]|e]; [left; by eapply Hclear|].
  destruct (errorsIs e _) eqn:E; [right|left; by eapply Hclear].
  destruct Hr as [-> ->]. exists e. by rewrite app_nil_r.
Qed.

(** ** Ordering *)

(** The events before the teardown: none of those ordered below. *)
Definition preliminary (e : event ans) : Prop :=
  ~ prunes e /\ ~ deletes_resource e /\ ~ cleans_secrets e.

Lemma drain_events_preliminary e : drain_events e -> preliminary e.
Proof.
  unfold drain_events, preliminary, mutating. intros He.
  split_and!; intros Hk; unfold prunes, deletes_resource, cleans_secrets in Hk; deex;
    destruct He as [?|?]; deex; try congruence; by rewrite Hk || (rewrite H0 in *; done).
Qed.

Lemma read_only_preliminary e : read_only e -> preliminary e.
Proof. intros He. apply drain_events_preliminary. unfold drain_events. intros. by destruct He. Qed.

Lemma check_preliminary shoot ns : emits preliminary (checkNoUserGateways a shoot ns).
Proof using Type*.
  unfold checkNoUserGateways. destruct (shootDeleting shoot).
  - eapply emits_impl; [apply drain_events_preliminary|apply drain_emits].
  - rewrite lister_set. apply emits_use.
    eapply emits_impl; [apply read_only_preliminary|].
    apply emits_bind; [apply emits_wrapf, list_reads|]. intros [|]; emits_auto; by unmutating.
Qed.

Lemma deployer_delete_gone ns : establishes (resource_gone ns) (DeployerDelete ns).
Proof.
  unfold DeployerDelete, deleteManagedResource. apply establishes_bind_r. intros [].
  apply establishes_wrapf. intros t [] (r&t'&->&Hr). apply Exists_cons. left.
  destruct r as [[]|e]; [done|]. by destruct Hr.
Qed.

Lemma teardown_is_ordered {B} P Q ns pre (f : unit -> IO B) :
  (forall k n r, ~ Q (ev (SeedDelete k ns n) r)) ->
  (forall e, P e <-> deployment_gone ns e) ->
  ordered P Q (wrapf pre (Teardown deployer ns) ≫= f).
Proof using Type*.
  intros HQ HP. apply ordered_bind_est.
  - apply ordered_emits, emits_wrapf. eapply emits_impl; [|apply teardown_only].
    intros [c r] (k&n&Hc). simpl in Hc. subst c. apply HQ.
  - apply establishes_wrapf. intros t x Hr. eapply Exists_impl; [exact (teardown_gone (d := deployer) ns t x Hr)|].
    intros e He. by apply HP.
Qed.

Lemma delete_ordered Q ns ex :
  ex_Namespace ex = ns -> (forall e, preliminary e -> ~ Q e) -> (forall k n r, ~ Q (ev (SeedDelete k ns n) r)) ->
  ordered (deployment_gone ns) Q (DeleteBody a ex).
Proof using Type*.
  intros <- HQ HQ'. unfold DeleteBody. apply ordered_bind_emits.
  { emits_auto. apply HQ. unfold preliminary. split_and!; not_this_call. }
  intros cluster. apply ordered_bind_emits.
  { eapply emits_impl; [apply HQ|apply check_preliminary]. }
  intros []. rewrite deployer_set. change (nonNil (Some deployer) ≫= ?f) with (f deployer).
  cbn beta. by apply teardown_is_ordered.
Qed.

(** C14: the order of a deletion.  The NetworkPolicy controller's Deployment has been
    deleted - or the seed reports that there is none - before any data-plane policy
    is deleted, and before the ManagedResource is deleted; the deletion of the
    ManagedResource has been waited for before the generated secrets are cleaned up.  It is the
    order of the calls: a pod of the Deployment may outlive it, and then recreate a
    policy. *)
Theorem delete_order ex t r :
  let ns := ex_Namespace ex in
  runs (Delete a ex) t r ->
  before (deployment_gone ns) prunes t /\ before (deployment_gone ns) deletes_resource t /\
  before (resource_gone ns) cleans_secrets t.
Proof using Type*.
  intros ns Hr. split_and!.
  - eapply ordered_recorded; [..|exact Hr]; [auto with effects|].
    apply delete_ordered; [done|by intros e (?&?&?)|]. intros; not_this_call.
  - eapply ordered_recorded; [..|exact Hr]; [auto with effects|].
    apply delete_ordered; [done|by intros e (?&?&?)|]. intros; not_this_call.
  - eapply ordered_recorded; [..|exact Hr]; [auto with effects|]. unfold DeleteBody.
    apply ordered_bind_emits; [emits_auto; not_this_call|]. intros cluster.
    apply ordered_bind_emits.
    { eapply emits_impl; [|apply check_preliminary]. by intros e (?&?&?). }
    intros []. rewrite deployer_set, pruner_set. change (nonNil (Some deployer) ≫= ?f) with (f deployer).
    cbn beta. apply ordered_bind_emits.
    { apply emits_wrapf. eapply emits_impl; [|apply teardown_only].
      intros e (k&n&Hc) [sm Hs]. congruence. }
    intros []. apply ordered_bind_emits.
    { destruct (shootAlive _); [|emits_auto]. apply emits_use, emits_wrapf.
      eapply emits_impl; [|apply prune_only]. intros e He [sm Hs].
      destruct He as (?&?&?); [|congruence]. unfold mutating. by rewrite Hs. }
    intros []. apply ordered_bind_est.
    + apply ordered_emits. unfold DeployerDelete, deleteManagedResource. emits_auto; not_this_call.
    + apply establishes_wrapf, deployer_delete_gone.
Qed.

Lemma ensure_preliminary cluster ns : emits preliminary (Ensure deployer cluster ns).
Proof using Type*.
  eapply emits_impl; [|apply ensure_only]. intros e [_ He].
  destruct (decide (mutates_seed (ecall e) || mutates_shoot (ecall e) = true)) as [Hm|Hm];
    [|by apply read_only_preliminary].
  destruct (He Hm) as [(?&?&Hc)|(?&Hc)]; unfold preliminary; split_and!; unfold prunes, deletes_resource, cleans_secrets;
    intros Hk; deex; congruence.
Qed.

(** Reconcile never deletes the ManagedResource. *)
Lemma ReconcileBody_keeps_resource ex : emits (fun e => ~ deletes_resource e) (ReconcileBody a ex).
Proof using Type*.
  unfold ReconcileBody.
  rewrite deployer_set, pruner_set, sweeper_set.
  apply emits_bind; [emits_auto; not_this_call|]. intros cluster.
  apply emits_bind; [unfold nonNil; emits_auto|]. intros shoot.
  case_decide.
  { eapply emits_impl; [|apply drain_emits]. intros e He%drain_events_preliminary. apply He. }
  destruct (HibernationIsEnabled shoot).
  { apply emits_use, emits_wrapf. eapply emits_impl; [|apply scaledown_only].
    intros e [Hc|[d Hc]] (?&?&?&?); congruence. }
  apply emits_bind; [unfold egConfigOf, nonNil; emits_auto|]. intros cfg.
  apply emits_bind; [unfold reconcileSecrets; emits_auto; not_this_call|]. intros bundle.
  apply emits_bind; [unfold Deploy; emits_auto; not_this_call|]. intros [].
  apply emits_use, emits_bind.
  { apply emits_attempt. eapply emits_impl; [|apply sweep_only]. intros e He (?&?&?&Hc).
    destruct He as (?&?&?&?); [|congruence]. unfold mutating. by rewrite Hc. }
  intros swept. apply emits_use.
  destruct (ManageDataPlaneNetworkPolicies cfg).
  + apply emits_wrapf. eapply emits_impl; [|apply ensure_preliminary]. by intros e (?&?&?).
  + apply emits_bind; [|intros []; apply emits_use]; apply emits_wrapf.
    * eapply emits_impl; [|apply teardown_only]. intros e (k&n&Hc) (?&?&?&?). congruence.
    * eapply emits_impl; [|apply prune_only]. intros e He (?&?&?&Hc).
      destruct He as (?&?&?); [|congruence]. unfold mutating. by rewrite Hc.
Qed.

(** disabling the feature tears down before it prunes.  In every execution
    of Reconcile, no data-plane policy is deleted before the controller's
    Deployment is gone, and the ManagedResource is never deleted. *)
Theorem reconcile_order ex t r :
  runs (Reconcile a ex) t r ->
  before (deployment_gone (ex_Namespace ex)) prunes t /\ Forall (fun e => ~ deletes_resource e) t.
Proof using Type*.
  intros Hr. split.
  - eapply ordered_recorded; [..|exact Hr]; [auto with effects|]. unfold ReconcileBody.
    rewrite deployer_set, pruner_set, sweeper_set.
    apply ordered_bind_emits; [emits_auto; not_this_call|]. intros cluster.
    apply ordered_bind_emits; [unfold nonNil; emits_auto|]. intros shoot.
    case_decide.
    { apply ordered_emits. eapply emits_impl; [|apply drain_emits].
      intros e He%drain_events_preliminary. apply He. }
    destruct (HibernationIsEnabled shoot).
    { apply ordered_emits, emits_use, emits_wrapf. eapply emits_impl; [|apply scaledown_only].
      intros e [Hc|[d Hc]] (?&?&?); congruence. }
    apply ordered_bind_emits; [unfold egConfigOf, nonNil; emits_auto|]. intros cfg.
    apply ordered_bind_emits; [unfold reconcileSecrets; emits_auto; not_this_call|]. intros bundle.
    apply ordered_bind_emits; [unfold Deploy; emits_auto; not_this_call|]. intros [].
    change (nonNil (Some sweeper) ≫= ?f) with (f sweeper). cbn beta.
    apply ordered_bind_emits.
    { apply emits_attempt. eapply emits_impl; [|apply sweep_only]. intros e He (?&?&Hc).
      destruct He as (?&?&?&?); [|congruence]. unfold mutating. by rewrite Hc. }
    intros swept. change (nonNil (Some deployer) ≫= ?f) with (f deployer). cbn beta.
    destruct (ManageDataPlaneNetworkPolicies cfg).
    + apply ordered_emits, emits_wrapf. eapply emits_impl; [|apply ensure_preliminary]. by intros e (?&?&?).
    + apply teardown_is_ordered; [intros; not_this_call|done].
  - eapply emits_recorded; [..|exact Hr]; [auto with effects|]. apply ReconcileBody_keeps_resource.
Qed.

(** ** Branches of Reconcile *)

(** What is left of Reconcile once the Cluster is known. *)
Lemma ReconcileBody_cluster ex t r :
  runs (ReconcileBody a ex) t r ->
  exists x t', t = ev (GetCluster (ex_Namespace ex)) x :: t' /\
    match x with
    | inl cluster =>
        match cl_Shoot cluster with
        | None => t' = [] /\ exists w, r = Panic w
        | Some sh =>
            if decide (is_Some (sh_DeletionTimestamp sh))
            then runs (drainUserGatewaysForShootDeletion a (ex_Namespace ex)) t' r
            else if HibernationIsEnabled sh
            then runs (wrapf "failed to scale down data-plane NetworkPolicy controller for hibernation: "
                         (ScaleDown deployer (ex_Namespace ex))) t' r
            else True
        end
    | inr e => t' = [] /\ r = Err (wrapError "failed to get cluster: " e "")
    end.
Proof using Type*.
  unfold ReconcileBody. rewrite deployer_set. intros (x&t'&->&Hr)%runs_wrapf_request.
  exists x, t'. split; [done|]. destruct x as [cluster|e]; [|done].
  destruct (cl_Shoot cluster) as [sh|].
  - change (nonNil (Some sh) ≫= ?f) with (f sh) in Hr. cbn beta in Hr.
    case_decide; [done|]. by destruct (HibernationIsEnabled sh).
  - destruct Hr as [-> ->]. eauto.
Qed.

(** a shoot in deletion is only drained: Reconcile changes nothing in the
    seed, and nothing in the shoot but its Gateways and the GatewayClass
    finalizer. *)
Theorem reconcile_deleting_only_drains ex t r :
  runs (Reconcile a ex) t r ->
  (forall cluster, ev (GetCluster (ex_Namespace ex)) (inl cluster) ∈ t ->
     exists sh, cl_Shoot cluster = Some sh /\ is_Some (sh_DeletionTimestamp sh)) ->
  Forall drain_events t.
Proof using Type*.
  intros Hr Hc. apply (Forall_recorded drain_events) in Hr as (tb&Hb&Hin&Hf).
  2: { intros e He%telemetry_not_mutating. unfold drain_events. by intros. }
  apply Hf. apply ReconcileBody_cluster in Hb as (x&t'&->&Hb). constructor; [by unmutating|].
  destruct x as [cluster|e]; [|destruct Hb as [-> _]; constructor].
  destruct (Hc cluster) as (sh&Hsh&Hd); [apply Hin; left|]. rewrite Hsh, decide_True in Hb by done.
  by eapply drain_emits.
Qed.

(** C20: a hibernated shoot is only scaled down.  Reconcile never calls the
    unreachable shoot API server; the only change it makes is to a Deployment that it read
    under the NetworkPolicy controller's name in the Extension's namespace, and
    the change is to set its replicas to zero and nothing else; and when it succeeds,
    that change was made, or there is no such Deployment. *)
Theorem reconcile_hibernated_only_scales ex t r :
  let ns := ex_Namespace ex in
  let name := "envoy-gateway-netpol-controller"%string in
  runs (Reconcile a ex) t r ->
  (forall cluster, ev (GetCluster ns) (inl cluster) ∈ t ->
     exists sh, cl_Shoot cluster = Some sh /\ sh_DeletionTimestamp sh = None /\ HibernationIsEnabled sh = true) ->
  Forall (fun e => seed_only e /\ (mutating e -> exists d modified,
    ecall e = SeedPatchDeployment d modified /\
    ev (SeedGetDeployment ns name) (inl d) ∈ t /\ without_replicas d modified)) t /\
  (r = Ok tt ->
    (exists d modified, ev (SeedGetDeployment ns name) (inl d) ∈ t /\ without_replicas d modified /\
       ev (SeedPatchDeployment d modified) (inl tt) ∈ t) \/
    (exists e, ev (SeedGetDeployment ns name) (inr e) ∈ t /\ IsNotFound e = true)).
Proof using Type*.
  intros ns name Hr Hc. unfold Reconcile in Hr.
  edestruct (Forall_recorded (fun e => seed_only e /\ (mutating e -> exists d modified,
    ecall e = SeedPatchDeployment d modified /\
    ev (SeedGetDeployment ns name) (inl d) ∈ t /\ without_replicas d modified))) as (tb&Hb&Hin&Hf); [|exact Hr|].
  { intros e He. split; [auto with effects|]. by intros ?%telemetry_not_mutating. }
  apply ReconcileBody_cluster in Hb as (x&t'&->&Hb). destruct x as [cluster|e].
  2: { destruct Hb as [-> ->]. split; [|done]. apply Hf. repeat constructor; by unmutating. }
  destruct (Hc cluster) as (sh&Hsh&Hd&Hh); [apply Hin; left|].
  rewrite Hsh, Hd, decide_False, Hh in Hb by (by intros [? ?]).
  apply runs_pbind in Hb as (t1&r1&t2&->&Hs&Hw). apply scaledown_scales in Hs.
  assert (t2 = [] /\ (r = Ok tt -> r1 = Ok tt)) as [-> Hok].
  { destruct r1 as [[]|e|w]; destruct Hw as [-> ->]; by split. }
  rewrite app_nil_r in *. destruct Hs as [(e&->&Hr1)|(d&m&y&->&Hm&Hy)].
  - split; [apply Hf; repeat constructor; by unmutating|]. intros ->%Hok. right. exists e.
    split; [apply Hin; right; by left|]. by destruct (IsNotFound e).
  - split.
    + apply Hf. repeat constructor; try by unmutating. intros _. exists d, m.
      split_and!; [done|apply Hin; right; by left|done].
    + intros ->%Hok. left. exists d, m. destruct (proj1 Hy eq_refl).
      split_and!; [apply Hin; right; by left|done|apply Hin; right; right; by left].
Qed.

(** ** The migration sweep *)

(** The same actuator with a sweeper that does nothing. *)
Definition withoutSweeper : Actuator :=
  mkActuator (client a) (decoder a) (imageVector a) (gardenerVersion a) (gardenletFeatureGates a)
    (gatewayLister a) (netpolReconciler a) (netpolDeployer a) (Some {| Sweep := fun _ => mret tt |}).

(** C22: the sweep is best-effort.  Whatever the sweep does or however it fails,
    Reconcile ends with the outcome, and makes the calls, of an actuator without
    a sweep. *)
Theorem sweep_is_best_effort ex :
  simulated_by (Reconcile a ex) (Reconcile withoutSweeper ex).
Proof using Type*.
  unfold Reconcile, recorded. apply simulated_bind; [apply simulated_refl|]. intros start.
  apply simulated_pbind; [|intros; apply simulated_refl].
  unfold ReconcileBody. rewrite sweeper_set.
  apply simulated_bind; [apply simulated_refl|]. intros cluster.
  apply simulated_bind; [apply simulated_refl|]. intros shoot.
  case_decide; [apply simulated_refl|].
  destruct (HibernationIsEnabled shoot); [apply simulated_refl|].
  apply simulated_bind; [apply simulated_refl|]. intros cfg.
  apply simulated_bind; [apply simulated_refl|]. intros bundle.
  apply simulated_bind; [apply simulated_refl|]. intros [].
  refine (simulated_skip (Sweep sweeper (ex_Namespace ex)) _ _). apply sweep_no_panic.
Qed.

(** ** Leaving the seed *)

Lemma keeping_ordered ns : ordered (keeps_objects ns) deletes_resource (DeleteKeepingObjects ns).
Proof.
  unfold DeleteKeepingObjects. apply ordered_bind_est; [apply ordered_emits; emits_auto; not_this_call|].
  apply establishes_wrapf. intros t x (r&t'&->&Hr). apply Exists_cons. left. unfold keeps_objects.
  destruct r as [[]|e]; [by left|]. cbn in Hr. destruct (IsNotFound e) eqn:E; [by right; exists e|].
  by destruct Hr.
Qed.

Definition leaving (ns : string) (e : event ans) : Prop := seed_only e /\ ~ cleans_secrets e.

Lemma leave_spec (pre1 pre2 op : string) ns t r :
  runs (recorded ns op (dep ← nonNil (netpolDeployer a);
          wrapf pre1 (Teardown dep ns) ;; wrapf pre2 (DeleteKeepingObjects ns))) t r ->
  Forall (leaving ns) t /\ before (keeps_objects ns) deletes_resource t /\
  before (deployment_gone ns) deletes_resource t.
Proof using Type*.
  rewrite deployer_set. intros Hr. split_and!.
  - eapply emits_recorded; [..|exact Hr].
    { intros e He. split; auto with effects. }
    apply emits_use, emits_bind; [apply emits_wrapf|intros []].
    + eapply emits_impl; [|apply teardown_only]. intros e (k&n&Hc).
      split; [unfold seed_only; by rewrite Hc|]. intros [? ?]. congruence.
    + unfold DeleteKeepingObjects, deleteManagedResource. emits_auto; (split; [done|not_this_call]).
  - eapply ordered_recorded; [..|exact Hr]; [auto with effects|].
    change (nonNil (Some deployer) ≫= ?f) with (f deployer). cbn beta.
    apply ordered_bind_emits; [|intros []; apply ordered_wrapf, keeping_ordered].
    apply emits_wrapf. eapply emits_impl; [|apply teardown_only]. intros e (k&n&Hc) (?&?&?&?). congruence.
  - eapply ordered_recorded; [..|exact Hr]; [auto with effects|].
    change (nonNil (Some deployer) ≫= ?f) with (f deployer). cbn beta.
    apply teardown_is_ordered; [intros; not_this_call|done].
Qed.

(** migration and force-deletion leave the shoot alone.  Neither reaches
    the shoot nor cleans up the generated secrets; the ManagedResource is deleted
    only after keepObjects is set on it (or it does not exist), and only after
    the controller's Deployment is gone. *)
Theorem leaving_keeps_shoot_objects ex t r :
  let ns := ex_Namespace ex in
  runs (Migrate a ex) t r \/ runs (ForceDelete a ex) t r ->
  Forall (leaving ns) t /\ before (keeps_objects ns) deletes_resource t /\
  before (deployment_gone ns) deletes_resource t.
Proof using Type*. intros ns [Hr|Hr]; eapply leave_spec; exact Hr. Qed.

(** ** Success *)

Lemma reconcileSecrets_complete cluster ns t bundle :
  runs (reconcileSecrets cluster ns) t (Ok bundle) ->
  bundleComplete bundle = true /\ exists sm, ev (SMCleanup sm) (inl tt) ∈ t.
Proof.
  intros Hr. unfold reconcileSecrets in Hr.
  apply runs_wrapf_request in Hr as (x&t1&->&Hr). destruct x as [sm|e]; [|by destruct Hr].
  apply runs_wrapf_request in Hr as (y&t2&->&Hr). destruct y as [generated|e]; [|by destruct Hr].
  repeat case_hyp; try by destruct Hr.
  apply runs_wrapf_request in Hr as (z&t3&->&Hr). destruct z as [[]|e]; [|by destruct Hr].
  destruct Hr as [-> [= ->]]. split; [by apply negb_false_iff|]. exists sm. set_solver.
Qed.

(** C12: what a successful Reconcile of an awake shoot has done.  It computed a
    valid configuration, obtained a complete TLS bundle, shipped exactly the
    resources built from both in the ManagedResource, and then either applied
    the NetworkPolicy controller or removed it and pruned every policy the shoot
    listed. *)
Theorem reconcile_success ex t :
  let ns := ex_Namespace ex in
  runs (Reconcile a ex) t (Ok tt) ->
  (forall cluster, ev (GetCluster ns) (inl cluster) ∈ t ->
     exists sh, cl_Shoot cluster = Some sh /\ sh_DeletionTimestamp sh = None /\ HibernationIsEnabled sh = false) ->
  exists sh cfg bundle resources data,
    runs (egConfigOf a (sh_KubernetesVersion sh) (ex_ProviderConfig ex)) [] (Ok cfg) /\
    bundleComplete bundle = true /\ buildResources cfg (imageVector a) bundle = Ok resources /\
    ev (SerializedObjects resources) (inl data) ∈ t /\
    ev (CreateForShoot ns ManagedResourceName ManagedResourceName false data) (inl tt) ∈ t /\
    if ManageDataPlaneNetworkPolicies cfg
    then exists f, ev (SeedCreateOrUpdateDeployment ns NetpolControllerName f) (inl tt) ∈ t
    else Exists (deployment_gone ns) t /\ exists t', pruned t' /\ forall e, e ∈ t' -> e ∈ t.
Proof using Type*.
  intros ns Hr Hc.
  apply (Forall_recorded (fun _ => True)) in Hr as (tb&Hr&Hin&_); [|done].
  unfold ReconcileBody in Hr. rewrite deployer_set, pruner_set, sweeper_set in Hr. fold ns in Hr.
  apply runs_wrapf_request in Hr as (x&t1&->&Hr). destruct x as [cluster|e]; [|by destruct Hr].
  destruct (Hc cluster) as (sh&Hsh&Hd&Hh); [apply Hin; left|]. rewrite Hsh in Hr.
  change (nonNil (Some sh) ≫= ?f) with (f sh) in Hr. cbn beta in Hr.
  rewrite decide_False, Hh in Hr by (rewrite Hd; by intros [??]).
  apply runs_bind in Hr as [(t2&cfg&t3&->&Hcfg&Hr)|[(?&?&?)|(?&?&?)]]; [|done..].
  apply runs_bind in Hr as [(t4&bundle&t5&->&Hsec&Hr)|[(?&?&?)|(?&?&?)]]; [|done..].
  apply runs_bind in Hr as [(t6&[]&t7&->&Hdep&Hr)|[(?&?&?)|(?&?&?)]]; [|done..].
  change (nonNil (Some sweeper) ≫= ?f) with (f sweeper) in Hr. cbn beta in Hr.
  apply runs_bind_attempt in Hr as (t8&sw&t9&->&Hr&_); [|apply sweep_no_panic].
  change (nonNil (Some deployer) ≫= ?f) with (f deployer) in Hr. cbn beta in Hr.
  apply runs_wrapf_Ok, reconcileSecrets_complete in Hsec as [Hb _].
  apply runs_wrapf_Ok, Deploy_ships in Hdep as (resources&data&Hres&Hser&Hcre).
  assert (Hcfg0 : t2 = []).
  { unfold egConfigOf in Hcfg. rewrite decoder_set in Hcfg.
    destruct (ex_ProviderConfig ex); [|by destruct Hcfg].
    change (nonNil (Some decode) ≫= ?f) with (f decode) in Hcfg. cbn beta in Hcfg.
    apply runs_bind in Hcfg as [(u1&c&u2&->&[-> _]%runs_wrapf_Ok&[-> _])|[(?&?&?)|(?&?&?)]]; done. }
  subst t2. exists sh, cfg, bundle, resources, data.
  split_and!; [done..|apply Hin; set_solver|apply Hin; set_solver|].
  destruct (ManageDataPlaneNetworkPolicies cfg).
  - apply runs_wrapf_Ok, (ensure_applies (d := deployer)) in Hr as [f Hf].
    exists f. apply Hin. set_solver.
  - apply runs_bind in Hr as [(ta&[]&tb&->&Ht&Hr)|[(?&?&?)|(?&?&?)]]; [|done..].
    apply runs_wrapf_Ok in Ht. apply (teardown_gone (d := deployer)) in Ht.
    change (nonNil (Some pruner) ≫= ?f) with (f pruner) in Hr. cbn beta in Hr.
    apply runs_wrapf_Ok, (prune_done (r := pruner)) in Hr. split.
    + apply Exists_exists in Ht as (e&He&Hg). apply Exists_exists. exists e.
      split; [|done]. apply Hin. set_solver.
    + exists tb. split; [done|]. intros e He. apply Hin. set_solver.
Qed.

(** ** Panics *)

Lemma recorded_no_panic ns op body : no_panic body -> no_panic (recorded ns op body).
Proof. intros Hb. unfold recorded. no_panic_auto. Qed.

Lemma applyConfig_not_panic cfg d : not_panic (applyConfig cfg d).
Proof.
  unfold applyConfig, applyLogLevel.
  repeat first [done|apply not_panic_bind; [|intros ?]|case_goal|case_decide].
Qed.

Lemma egConfigOf_no_panic version pc : no_panic (egConfigOf a version pc).
Proof using Type*.
  unfold egConfigOf. rewrite decoder_set. destruct pc as [raw|]; [|apply no_panic_mret].
  apply no_panic_use, no_panic_bind.
  - apply no_panic_wrapf, no_panic_Ret. auto with effects.
  - intros cfg. apply no_panic_Ret, applyConfig_not_panic.
Qed.

Lemma reconcileSecrets_no_panic cluster ns : no_panic (reconcileSecrets cluster ns).
Proof. unfold reconcileSecrets. no_panic_auto; auto with effects. Qed.

Lemma check_no_panic shoot ns : no_panic (checkNoUserGateways a shoot ns).
Proof using Type*.
  unfold checkNoUserGateways. destruct (shootDeleting shoot); [apply drain_no_panic|].
  rewrite lister_set. apply no_panic_use. no_panic_auto. apply list_no_panic.
Qed.

(** C36: panics.  Delete, ForceDelete and Migrate never panic.  Reconcile panics
    exactly when the Cluster it fetched carries no Shoot, which Delete guards
    against. *)
Theorem panics_exactly_without_shoot ex :
  no_panic (Delete a ex) /\ no_panic (ForceDelete a ex) /\ no_panic (Migrate a ex) /\
  (forall t w, runs (Reconcile a ex) t (Panic w) ->
     exists cluster, ev (GetCluster (ex_Namespace ex)) (inl cluster) ∈ t /\ cl_Shoot cluster = None) /\
  (forall cluster start, cl_Shoot cluster = None -> exists w,
     runs (Reconcile a ex)
       (ev Now start :: ev (GetCluster (ex_Namespace ex)) (inl cluster) ::
        telemetry (ex_Namespace ex) "reconcile" start None) (Panic w)).
Proof using Type*.
  assert (Hleave : forall op pre1 pre2, no_panic (recorded (ex_Namespace ex) op
            (dep ← nonNil (netpolDeployer a); wrapf pre1 (Teardown dep (ex_Namespace ex)) ;;
             wrapf pre2 (DeleteKeepingObjects (ex_Namespace ex))))).
  { intros op pre1 pre2. apply recorded_no_panic. rewrite deployer_set. apply no_panic_use.
    apply no_panic_bind; [apply no_panic_wrapf, teardown_no_panic|]. intros [].
    apply no_panic_wrapf, DeleteKeepingObjects_no_panic. }
  split_and!; [|apply Hleave|apply Hleave|..].
  - apply recorded_no_panic. unfold DeleteBody. rewrite deployer_set, pruner_set.
    apply no_panic_bind; [no_panic_auto; auto with effects|]. intros cluster.
    apply no_panic_bind; [apply check_no_panic|]. intros []. apply no_panic_use.
    apply no_panic_bind; [apply no_panic_wrapf, teardown_no_panic|]. intros [].
    apply no_panic_bind.
    { destruct (shootAlive _); [|apply no_panic_mret]. apply no_panic_use, no_panic_wrapf, prune_no_panic. }
    intros []. apply no_panic_bind.
    { apply no_panic_wrapf, deleteManagedResource_no_panic. }
    intros []. unfold deleteSecrets. no_panic_auto; auto with effects.
  - intros t w (start&tb&->&Hb)%runs_recorded. unfold ReconcileBody in Hb.
    apply runs_wrapf_request in Hb as (x&t'&->&Hb). destruct x as [cluster|e]; [|by destruct Hb].
    exists cluster. split; [set_solver|]. destruct (cl_Shoot cluster) as [sh|]; [|done]. exfalso.
    change (nonNil (Some sh) ≫= ?f) with (f sh) in Hb. cbn beta in Hb.
    rewrite deployer_set, pruner_set, sweeper_set in Hb. revert Hb.
    match goal with |- runs ?m _ _ -> _ => assert (Hnp : no_panic m); [|apply Hnp] end.
    case_decide; [apply drain_no_panic|].
    destruct (HibernationIsEnabled sh).
    { apply no_panic_use, no_panic_wrapf, scaledown_no_panic. }
    apply no_panic_bind; [apply egConfigOf_no_panic|]. intros cfg.
    apply no_panic_bind; [apply no_panic_wrapf, reconcileSecrets_no_panic|]. intros bundle.
    apply no_panic_bind; [apply no_panic_wrapf, Deploy_no_panic|]. intros [].
    apply no_panic_use, no_panic_bind; [apply no_panic_attempt, sweep_no_panic|]. intros swept.
    apply no_panic_use. destruct (ManageDataPlaneNetworkPolicies cfg).
    + apply no_panic_wrapf, ensure_no_panic.
    + apply no_panic_bind; [apply no_panic_wrapf, teardown_no_panic|]. intros [].
      apply no_panic_use, no_panic_wrapf, prune_no_panic.
  - intros cluster start Hsh. eexists. apply runs_recorded.
    exists start, [ev (GetCluster (ex_Namespace ex)) (inl cluster)]. split; [done|].
    exists (inl cluster), []. split; [done|]. cbn. rewrite Hsh. by split.
Qed.

(** ** Metrics *)

(** metrics.  Each operation records itself once, after its body, with the
    error it returns: the error counter moves iff the operation failed, labelled
    with the classified reason.  Restore records the reconcile it runs as well
    as itself. *)
Theorem operations_record_themselves ex t r :
  let ns := ex_Namespace ex in
  (runs (Reconcile a ex) t r -> exists start tb, runs (ReconcileBody a ex) tb r /\
     t = ev Now start :: tb ++ telemetry ns "reconcile" start (errOf r)) /\
  (runs (Delete a ex) t r -> exists start tb, runs (DeleteBody a ex) tb r /\
     t = ev Now start :: tb ++ telemetry ns "delete" start (errOf r)) /\
  (runs (RestoreOp a ex) t r -> exists start start' tb, runs (ReconcileBody a ex) tb r /\
     t = ev Now start :: (ev Now start' :: tb ++ telemetry ns "reconcile" start' (errOf r)) ++
         telemetry ns "restore" start (errOf r)) /\
  (forall op start, length (filter (fun e => bool_decide (is_Some (match ecall e with
       | CounterInc vec _ => if decide (vec = ActuatorOperationErrorsTotal) then Some tt else None
       | _ => None end)) = true) (telemetry ns op start (errOf r))) = if errOf r then 1 else 0).
Proof.
  intros ns. split_and!.
  - intros (start&tb&->&Hb)%runs_recorded. eauto.
  - intros (start&tb&->&Hb)%runs_recorded. eauto.
  - intros (start&tb&->&Hb)%runs_recorded. apply runs_recorded in Hb as (start'&tb'&->&Hb).
    by exists start, start', tb'.
  - intros op start. by destruct r.
Qed.

End properties.
