(* ===== verification/ErrorClasses.v ===== *)
(** * The classification of errors for the metrics

    [classifyError] matches substrings of the rendered message.  The class of an
    error whose cause does not contain any of these substrings is that of its
    wrapper; [FailurePhases.v] applies this to the operations. *)

From S2P Require Import Prelude GoStd Errors Effects KubeObjects Constants Config External.
From S2P Require Import Interfaces Manifests Deployer GatewayGuard OrphanSweep DataplaneNetpol.
From S2P Require Import NetpolDeployer Actuator.

(** The substrings [classifyError] looks for, with the class of each. *)
Definition markers : list string :=
  [ "failed to decode envoy-gateway providerConfig"; "invalid envoy-gateway log level";
    "invalid envoy-gateway channel"; "envoy-gateway TLS secrets"; "envoy-gateway secrets";
    "secrets-manager"; "failed to deploy envoy-gateway"; "failed to delete envoy-gateway";
    "failed to force-delete envoy-gateway"; "failed to get cluster" ]%string.

(** None of the markers [ms] occurs in the text. *)
Definition clean (ms : list string) (s : string) : Prop := Forall (fun m => Contains s m = false) ms.

(** An error whose text contains no marker of [ms], and which is not the guard's. *)
Definition benign_for (ms : list string) (e : error) : Prop :=
  asGatewaysInUse e = None /\ clean ms (Error e).

Definition benign : error -> Prop := benign_for markers.

(** ** Clean texts *)

(** A text that neither contains a marker nor ends within one. *)
Definition quiet_text (ms : list string) (s : string) : bool :=
  forallb (fun m => negb (overlaps s m) && negb (Contains s m)) ms.

Lemma clean_app ms c s : quiet_text ms c = true -> clean ms s -> clean ms (c +:+ s).
Proof.
  unfold quiet_text, clean. rewrite List.forallb_forall, !List.Forall_forall. intros Hc Hs m Hm.
  specialize (Hc m Hm). rewrite andb_true_iff, !negb_true_iff in Hc. destruct Hc as [Ho Hc].
  rewrite Contains_app by done. by rewrite Hc, Hs.
Qed.

(** The characters that occur in no marker separate the texts around them. *)
Lemma prefix_sep (c : Ascii.ascii) m a b :
  no_char c m = true -> m <> ""%string -> String.prefix m (a +:+ String c b) = String.prefix m a.
Proof.
  revert a. induction m as [|d m IH]; intros a Hm Hne; [done|]. simpl in Hm.
  apply andb_true_iff in Hm as [Hd%negb_true_iff Hm]. apply Ascii.eqb_neq in Hd.
  destruct a as [|x a]; [simpl; by destruct (Ascii.ascii_dec d c)|].
  rewrite string_app_cons. simpl. destruct (Ascii.ascii_dec d x); [|done].
  destruct m as [|d' m]; [by destruct (a +:+ String c b), a|]. by apply IH.
Qed.

Lemma Contains_sep (c : Ascii.ascii) m a b :
  no_char c m = true -> m <> ""%string -> Contains (a +:+ String c b) m = Contains a m || Contains b m.
Proof.
  intros Hm Hne. induction a as [|x a IH].
  - rewrite string_app_nil_l. cbn [Contains]. pose proof (prefix_sep c m "" b Hm Hne) as Hp.
    rewrite string_app_nil_l in Hp. by rewrite Hp, orb_false_r.
  - rewrite string_app_cons. cbn [Contains]. rewrite IH, orb_assoc. f_equal. f_equal.
    exact (prefix_sep c m (String x a) b Hm Hne).
Qed.

(** The separators of the texts the program puts together. *)
Definition separator (ms : list string) (c : Ascii.ascii) : bool :=
  forallb (fun m => no_char c m && bool_decide (m <> ""%string)) ms.

Lemma clean_sep ms (c : Ascii.ascii) a b : separator ms c = true -> clean ms a -> clean ms b -> clean ms (a +:+ String c b).
Proof.
  unfold separator, clean. rewrite List.forallb_forall, !List.Forall_forall. intros Hc Ha Hb m Hm.
  specialize (Hc m Hm). apply andb_true_iff in Hc as [Hc Hne%bool_decide_eq_true].
  by rewrite Contains_sep, Ha, Hb by done.
Qed.

Lemma benign_wrap ms pre e : quiet_text ms pre = true -> benign_for ms e -> benign_for ms (wrapError pre e "").
Proof.
  intros Hp [Ht Hc]. split; [done|]. rewrite Error_wrap, string_app_nil_r. by apply clean_app.
Qed.

Lemma benign_sub ms ms' e : (forall m, m ∈ ms' -> m ∈ ms) -> benign_for ms e -> benign_for ms' e.
Proof.
  intros Hms [Ht Hc]. split; [done|]. unfold clean in *. rewrite Forall_forall in *. auto.
Qed.

(** The class the markers of a text give, in [classifyError]'s order. *)
Definition classOf (has : string -> bool) : string :=
  if has "failed to decode envoy-gateway providerConfig"%string ||
     has "invalid envoy-gateway log level"%string || has "invalid envoy-gateway channel"%string
  then ReasonInvalidProviderConfig
  else if has "envoy-gateway TLS secrets"%string || has "envoy-gateway secrets"%string ||
          has "secrets-manager"%string then ReasonSecrets
  else if has "failed to deploy envoy-gateway"%string || has "failed to delete envoy-gateway"%string ||
          has "failed to force-delete envoy-gateway"%string then ReasonManagedResource
  else if has "failed to get cluster"%string then ReasonClusterLookup
  else ReasonOther.

Lemma classOf_ext f g : (forall m, m ∈ markers -> f m = g m) -> classOf f = classOf g.
Proof.
  intros H. unfold classOf. rewrite !H; [done|..]; unfold markers; repeat (first [apply list_elem_of_here|apply list_elem_of_further]).
Qed.

Lemma classifyError_classOf e :
  asGatewaysInUse e = None -> classifyError (Some e) = classOf (Contains (Error e)).
Proof. intros He. unfold classifyError. by rewrite He. Qed.

(** The class that a wrapper gives to errors without markers. *)
Definition phase_class (pre : string) : string := classOf (Contains pre).

Lemma classifyError_wrapped pre e :
  forallb (fun m => negb (overlaps pre m)) markers = true -> benign e ->
  classifyError (Some (wrapError pre e "")) = phase_class pre.
Proof.
  rewrite List.forallb_forall. intros Ho [Ht Hc]. rewrite classifyError_classOf by done. unfold phase_class.
  apply classOf_ext. intros m Hm. pose proof (proj1 (list_elem_of_In _ _) Hm) as Hin.
  specialize (Ho m Hin). apply negb_true_iff in Ho.
  rewrite Error_wrap, string_app_nil_r, Contains_app by done.
  unfold clean in Hc. rewrite Forall_forall in Hc. by rewrite (Hc _ Hm), orb_false_r.
Qed.

(** The markers that are looked for before those of the secrets. *)
Definition configMarkers : list string :=
  [ "failed to decode envoy-gateway providerConfig"; "invalid envoy-gateway log level";
    "invalid envoy-gateway channel" ]%string.

(** The secrets' wrappers decide, whatever else the inner text mentions. *)
Lemma classifyError_secrets pre e :
  quiet_text configMarkers pre = true ->
  Contains pre "envoy-gateway TLS secrets" || Contains pre "envoy-gateway secrets" = true ->
  benign_for configMarkers e -> classifyError (Some (wrapError pre e "")) = ReasonSecrets.
Proof.
  intros Hq Hp He. destruct (benign_wrap _ _ _ Hq He) as [Ht Hc]. rewrite classifyError_classOf by done.
  unfold clean, configMarkers in Hc. rewrite !Forall_cons in Hc. destruct Hc as (H1&H2&H3&_).
  unfold classOf. rewrite H1, H2, H3. cbn [orb].
  rewrite Error_wrap, string_app_nil_r.
  apply orb_true_iff in Hp as [Hp|Hp]; rewrite (Contains_app_l _ _ _ Hp); rewrite ?orb_true_r; done.
Qed.

(** the guard's refusal is recognised by its type through any wrapping, and
    rejected log levels and channels are configuration errors whatever text the
    user supplied. *)
Theorem classifyError_typed :
  (forall names, classifyError (Some (gatewaysInUseError names)) = ReasonGatewaysInUse) /\
  (forall e pre post, classifyError (Some e) = ReasonGatewaysInUse ->
     is_Some (asGatewaysInUse e) -> classifyError (Some (wrapError pre e post)) = ReasonGatewaysInUse) /\
  (forall level target e, applyLogLevel level target = Err e ->
     classifyError (Some e) = ReasonInvalidProviderConfig) /\
  (forall cfg d e, applyConfig cfg d = Err e -> classifyError (Some e) = ReasonInvalidProviderConfig).
Proof.
  assert (Hlvl : forall level target e, applyLogLevel level target = Err e ->
                   classifyError (Some e) = ReasonInvalidProviderConfig).
  { intros level target e He. unfold applyLogLevel in He. case_decide; [done|]. case_decide; [done|].
    injection He as <-. unfold classifyError. cbn [asGatewaysInUse Error].
    rewrite (Contains_of_prefix _ "invalid envoy-gateway log level") by (lazy; reflexivity).
    by rewrite orb_true_r. }
  split_and!; [done| |exact Hlvl|].
  - intros e pre post _ [names Hn]. unfold classifyError. simpl. by rewrite Hn.
  - intros cfg d e He. unfold applyConfig in He.
    case_decide; simpl in He; [|case_decide; simpl in He].
    3:{ injection He as <-. unfold classifyError. cbn [asGatewaysInUse Error].
        rewrite (Contains_of_prefix _ "invalid envoy-gateway channel") by (lazy; reflexivity).
        by rewrite orb_true_r. }
    all: destruct (config.cfg_ControlPlane cfg) as [cp|];
      [destruct (applyLogLevel (config.cp_LogLevel cp) _) eqn:E1; simpl in He|];
      [|injection He as <-; by eapply Hlvl|done|];
      (destruct (config.cfg_DataPlane cfg) as [dp|];
       [destruct (applyLogLevel (config.dp_LogLevel dp) _) eqn:E2; simpl in He|];
       [done|injection He as <-; by eapply Hlvl|done|done]).
Qed.
