(* ===== verification/FailurePhases.v ===== *)
(** * The failing phase of an operation

    The actuator classifies the error of a failed operation by the text of its
    wrappers.  The theorem ties the class to what happened: it is determined by
    the last call the operation made, so a reworded wrapper, or a phase whose text
    imitates another's, would break it. *)

From Stdlib Require Import Ascii.
From S2P Require Import Prelude GoStd Errors Effects KubeObjects Constants Config External.
From S2P Require Import Interfaces Secrets Manifests Deployer GatewayGuard OrphanSweep.
From S2P Require Import DataplaneNetpol.
From S2P Require Import NetpolDeployer Actuator ActuatorSpecs ActuatorLemmas ErrorClasses.

(** ** Events *)

(** The error a call answered, if it failed. *)
Definition failure (e : event ans) : option error :=
  let of_sum {A} (r : A + error) := match r with inl _ => None | inr err => Some err end in
  match e with
  | existT c r =>
      match c as c return ans c -> option error with
      | Now | CounterInc _ _ | GaugeSetSince _ _ _ | PollWait _ => fun _ => None
      | GetCluster _ => of_sum
      | SecretsManagerForCluster _ _ _ => of_sum
      | GenerateAllSecrets _ _ => of_sum
      | SerializedObjects _ => of_sum
      | InjectGenericKubeconfig _ _ _ => of_sum
      | SeedGetDeployment _ _ => of_sum
      | External.ListGateways _ => of_sum
      | GetGatewayClass _ => of_sum
      | ListObjects _ _ => of_sum
      | ListNetworkPolicies _ => of_sum
      | ReconcileShootAccessSecret _ _ _ => of_sum
      | SMCleanup _ | CreateForShoot _ _ _ _ _ | SetKeepObjects _ _ _
      | DeleteManagedResource _ _ _ | WaitUntilManagedResourceDeleted _ _ _
      | SeedCreateOrUpdateDeployment _ _ _ | SeedPatchDeployment _ _ | SeedDelete _ _ _
      | RegisterScheme _ | NewClientForShoot _ | DeleteGateway _ _ | RemoveFinalizers _ _
      | DeleteObject _ _ _ | DeleteNetworkPolicy _ _ | CreateOrUpdateNetworkPolicy _ _ _ => of_sum
      end r
  end.

(** The policies a call listed. *)
Definition listedPolicies (e : event ans) : list NetworkPolicy :=
  match e with existT (ListNetworkPolicies _) (inl l) => l | _ => [] end.

(** Nothing the outside world reports imitates one of the program's messages. *)
Definition plain (e : event ans) : Prop :=
  (forall err, failure e = Some err -> benign err) /\
  Forall (fun p => clean markers (np_Namespace p) /\ clean markers (np_Name p)) (listedPolicies e).

Definition plain_name (ns : string) : Prop := clean markers ns /\ clean markers (fmt_q ns).

(** The class of a failure, by the last call made: the Cluster could not be read;
    or it could and the provider configuration was refused; the secrets could not
    be made or removed; the resources could not be built, or the ManagedResource
    not be written or deleted; the guard refused; or something else failed.  The
    clock and the operation's own metrics are no phase. *)
Definition failurePhase (e : event ans) : string :=
  match e with
  | existT (GetCluster _) (inr _) => "cluster_lookup"
  | existT (GetCluster _) (inl _) => "invalid_provider_config"
  | existT (SecretsManagerForCluster _ _ _) _ | existT (GenerateAllSecrets _ _) _
  | existT (SMCleanup _) (inr _) => "secrets"
  | existT (SMCleanup _) (inl _) | existT (SerializedObjects _) _ | existT (CreateForShoot _ _ _ _ _) _
  | existT (SetKeepObjects _ _ _) _ | existT (DeleteManagedResource _ _ _) _
  | existT (WaitUntilManagedResourceDeleted _ _ _) _ => "managed_resource"
  | existT (CounterInc vec _) _ => if decide (vec = DeleteGuardRejectionsTotal) then "gateways_in_use" else ""
  | existT Now _ | existT (GaugeSetSince _ _ _) _ => ""
  | _ => "other"
  end.

Lemma configMarkers_are_markers m : m ∈ configMarkers -> m ∈ markers.
Proof. unfold configMarkers, markers. set_solver. Qed.

(** ** Errors of the components

    Every error of [m] satisfies [E], as long as nothing imitates a message. *)
Definition errors {A} (E : error -> Prop) (m : IO A) : Prop :=
  forall t e, runs m t (Err e) -> Forall plain t -> E e.

Section errors.
Implicit Types (E : error -> Prop).

Lemma errors_mret {A} E (a : A) : errors E (mret a).
Proof. by intros t e [_ ?]. Qed.

Lemma errors_throw {A} E e : E e -> errors E (throw e : IO A).
Proof. by intros He t e' [_ [= ->]]. Qed.

Lemma errors_Ret {A} E (r : outcome A) : (forall e, r = Err e -> E e) -> errors E (Ret r).
Proof. intros Hr t e [_ He]. auto. Qed.

Lemma errors_lift {A} E (p : prog ans A) : errors E (lift p).
Proof. by intros t e (t1&a&t2&->&_&[_ ?])%runs_pbind. Qed.

Lemma errors_attempt {A} E (m : IO A) : errors E (attempt m).
Proof. intros t e (t1&[a|e'|w]&t2&->&_&[_ ?])%runs_pbind; done. Qed.

(** What follows may rely on what was answered before. *)
Lemma errors_bind {A B} E (m : IO A) (f : A -> IO B) :
  errors E m -> (forall t a, runs m t (Ok a) -> Forall plain t -> errors E (f a)) -> errors E (m ≫= f).
Proof.
  intros Hm Hf t e [(t1&a&t2&->&H1&H2)|[(e'&[= <-]&H)|(w&?&_)]]%runs_bind Ht; [|by eapply Hm|done].
  apply Forall_app in Ht as [Ht1 Ht2]. by eapply Hf.
Qed.

Lemma errors_request {A} ms c (res : ans c -> A + error) :
  (forall m, m ∈ ms -> m ∈ markers) ->
  (forall r e, res r = inr e -> failure (ev c r) = Some e) ->
  errors (benign_for ms) (Call c (fun r => Ret (of_result (res r))) : IO A).
Proof.
  intros Hms Hres t e (r&t'&->&[-> He]) Ht. destruct (res r) as [a|e'] eqn:Hr; [done|]. injection He as <-.
  inv Ht. destruct H1 as [Hb _]. eapply benign_sub; [exact Hms|]. apply Hb. by apply Hres.
Qed.

Lemma errors_wrapf_with {A} E E' pre (m : IO A) :
  errors E m -> (forall e, E e -> E' (wrapError pre e "")) -> errors E' (wrapf pre m).
Proof. intros Hm Hp t e (e'&->&Hr)%runs_wrapf_Err Ht. apply Hp. by eapply Hm. Qed.

Lemma errors_wrapf {A} ms pre (m : IO A) :
  quiet_text ms pre = true -> errors (benign_for ms) m -> errors (benign_for ms) (wrapf pre m).
Proof. intros Hp Hm. apply (errors_wrapf_with (benign_for ms)); [done|]. intros e. by apply benign_wrap. Qed.

Lemma errors_ignoreNotFound E (m : IO unit) : errors E m -> errors E (ignoreNotFound m).
Proof.
  intros Hm t e (t1&[a|e'|w]&t2&->&H1&H2)%runs_pbind Ht; [by destruct H2| |by destruct H2].
  apply Forall_app in Ht as [Ht1 _]. destruct (IsNotFound e'); [by destruct H2|].
  destruct H2 as [_ [= ->]]. by eapply Hm.
Qed.

Lemma errors_for_each {A} E (l : list A) (f : A -> IO unit) :
  (forall x, x ∈ l -> errors E (f x)) -> errors E (for_each l f).
Proof.
  induction l as [|x l IH]; intros H; simpl; [apply errors_mret|].
  apply errors_bind; [apply H; left|]. intros t [] _ _. apply IH. intros y Hy. apply H. by right.
Qed.
End errors.

(** Walks a component: one obligation per text that is put together. *)
Ltac errors_step :=
  lazymatch goal with
  | |- forall _, _ => intro
  | |- errors _ (match ?x with _ => _ end) => destruct x eqn:?
  | |- errors _ (mret _) => apply errors_mret
  | |- errors _ (lift _) => apply errors_lift
  | |- errors _ (attempt _) => apply errors_attempt
  | |- errors _ (ignoreNotFound _) => apply errors_ignoreNotFound
  | |- errors _ (for_each _ _) => apply errors_for_each
  | |- errors _ (wrapf _ _) => apply errors_wrapf; [vm_compute; reflexivity|]
  | |- errors _ (mbind _ _) => apply errors_bind
  | |- errors _ (Call ?c _) =>
      apply (errors_request _ c (fun r => r));
        [first [done|exact configMarkers_are_markers]|intros ? ?; cbn; by intros ->]
  end.

Ltac errors_auto := repeat errors_step.

(** A program that makes at least one call. *)
Definition calls {A} (m : prog ans A) : Prop := forall t r, runs m t r -> t <> [].

Lemma calls_Call {A} c (k : ans c -> prog ans A) : calls (Call c k).
Proof. by intros t r (x&t'&->&_). Qed.

Lemma calls_pbind {A B} (m : prog ans A) (f : A -> prog ans B) : calls m -> calls (pbind m f).
Proof. intros Hm t r (t1&a&t2&->&H1&_)%runs_pbind [Hn _]%app_eq_nil. by eapply Hm. Qed.

Ltac calls_auto := repeat first [apply calls_Call | apply calls_pbind].

(** ** The components *)

Definition other (e : event ans) : Prop := failurePhase e = ReasonOther.

Section lister.
Import realGatewayLister.

Lemma shootClient_errors ns : errors benign (shootClient ns).
Proof. unfold shootClient, newGatewayScheme, benign. errors_auto. Qed.

Lemma fetch_errors ns : errors benign (fetchGatewayList ns).
Proof.
  unfold fetchGatewayList. apply errors_bind; [apply shootClient_errors|]. intros t [] _ _.
  intros t' e (x&t2&->&Hr) Ht. inv Ht. destruct x as [l|e']; [by destruct Hr|]. cbn in Hr.
  destruct (gatewayCRDAbsent e'); destruct Hr as [_ [=]]. subst.
  apply (benign_wrap markers); [vm_compute; reflexivity|]. by apply H1.
Qed.

Lemma ListGateways_errors ns : errors benign (ListGateways ns).
Proof. unfold ListGateways. apply errors_bind; [apply fetch_errors|]. intros. apply errors_mret. Qed.

Lemma fetch_other ns : emits other (fetchGatewayList ns).
Proof. unfold fetchGatewayList, shootClient, newGatewayScheme. emits_auto; done. Qed.

Lemma fetch_calls ns : calls (fetchGatewayList ns).
Proof. unfold fetchGatewayList, shootClient, newGatewayScheme. calls_auto. Qed.

(** Polling keeps what holds of the condition's state. *)
Lemma poll_state {S} (I : S -> Prop) ticks interval (condition : S -> io (outcome (bool * S))) :
  (forall s t b s', I s -> Forall plain t -> runs (condition s) t (Ok (b, s')) -> I s') ->
  (forall s, errors (fun _ => False) (condition s)) ->
  forall s, I s -> errors (fun _ => False) (PollUntilContextCancel ticks interval condition s) /\
    forall t b s', Forall plain t -> runs (PollUntilContextCancel ticks interval condition s) t (Ok (b, s')) -> I s'.
Proof.
  intros Hc Hn. induction ticks as [|ticks IH]; intros s Hs; cbn [PollUntilContextCancel]; (split;
    [apply errors_bind; [apply Hn|]; intros t0 [ok s1] Hr0 Ht0; apply Hc in Hr0; [|done..]
    |intros t b s' Ht; intros [(t1&[ok s1]&t2&->&H1&H2)|[(?&?&_)|(?&?&_)]]%runs_bind; [|done..];
     apply Forall_app in Ht as [Ht1 Ht2]; apply Hc in H1; [|done..]]); destruct ok.
  - apply errors_mret.
  - apply errors_mret.
  - by destruct H2 as [_ [= -> ->]].
  - by destruct H2 as [_ [= -> ->]].
  - apply errors_mret.
  - apply errors_bind; [apply errors_lift|]. intros t1 cancelled _ _.
    destruct cancelled; [apply errors_mret|by apply IH].
  - by destruct H2 as [_ [= -> ->]].
  - apply runs_bind in H2 as [(t3&cancelled&t4&->&_&H2)|[(?&?&_)|(?&?&_)]]; [|done..].
    apply Forall_app in Ht2 as [_ Ht4]. destruct cancelled; [by destruct H2 as [_ [= -> ->]]|by eapply IH].
Qed.

Lemma gatewaysGone_state ns (lastErr : option error) :
  errors (fun _ => False) (gatewaysGone ns lastErr) /\
  forall t b s', Forall plain t -> runs (gatewaysGone ns lastErr) t (Ok (b, s')) -> forall e, s' = Some e -> benign e.
Proof.
  unfold gatewaysGone. split; [errors_auto|].
  intros t b s' Ht (t1&x&t2&->&H1&H2)%runs_pbind e He. apply runs_pbind in H1 as (t3&r&t4&->&H1&H3).
  rewrite !Forall_app in Ht. destruct Ht as [[Ht3 _] _].
  destruct r as [l|e'|w]; destruct H3 as [-> [= ->]]; destruct H2 as [_ [= _ ->]]; [done|].
  injection He as <-. by eapply fetch_errors.
Qed.

Lemma Wait_errors k ns : errors benign (WaitUntilGatewaysDeleted k ns).
Proof.
  unfold WaitUntilGatewaysDeleted.
  destruct (poll_state (fun s : option error => forall e, s = Some e -> benign e) k gatewayDeletionPollInterval
    (gatewaysGone ns)) with (s := None : option error) as [Hn Hs].
  { intros s t b s' _ Ht Hr. by eapply gatewaysGone_state. }
  { intros s. apply gatewaysGone_state. }
  { done. }
  apply errors_bind; [intros t e Hr Ht; by destruct (Hn t e Hr Ht)|].
  intros t [gone lastErr] Hr Ht. specialize (Hs _ _ _ Ht Hr). destruct gone; [apply errors_mret|].
  destruct lastErr as [e|]; apply errors_throw.
  - apply (benign_wrap markers); [vm_compute; reflexivity|]. by apply Hs.
  - split; [done|]. refine (bool_decide_unpack (clean markers _) _). vm_compute. exact I.
Qed.
End lister.

(** Wrappers that name an object. *)
Lemma benign_named c a b e :
  quiet_text markers c = true -> clean markers a -> clean markers b -> benign e ->
  benign (wrapError (c +:+ a +:+ "/" +:+ b +:+ ": ") e "").
Proof.
  intros Hc Ha Hb [Ht He]. split; [done|]. rewrite Error_wrap, string_app_nil_r, !string_app_assoc.
  apply clean_app; [done|]. apply (clean_sep markers "/"%char); [vm_compute; reflexivity|done|].
  apply (clean_sep markers ":"%char); [vm_compute; reflexivity|done|].
  by apply (clean_app markers " ").
Qed.

(** The libraries' own names and errors imitate no message either. *)
Class PlainLibraries `{Libraries} (iv : ImageVector) := {
  plain_prefix : clean markers (SecretNamePrefixShootAccess +:+ NetpolControllerShootAccessSecretName);
  plain_Encode : forall obj e, Encode obj = inr e -> benign e;
  plain_images : forall name e, iv name = inr e -> benign e;
}.

Section components.
Context `{Libraries} (iv : ImageVector) `{!PlainLibraries iv}.

Lemma Teardown_errors ns : clean markers ns -> errors benign (netpolControllerDeployer.Teardown ns).
Proof using Type*.
  intros Hns. unfold netpolControllerDeployer.Teardown. apply errors_for_each. intros [kind name] Hin.
  apply (errors_wrapf_with benign); [unfold benign; errors_auto|]. intros e He.
  apply elem_of_cons in Hin as [[= -> ->]|[= -> ->]%list_elem_of_singleton].
  - apply (benign_named "failed to delete netpol-controller *v1.Deployment "); [vm_compute; reflexivity|done| |done].
    refine (bool_decide_unpack (clean markers _) _). vm_compute. exact I.
  - apply (benign_named "failed to delete netpol-controller *v1.Secret "); [vm_compute; reflexivity|done|apply plain_prefix|done].
Qed.

Lemma Prune_errors ns : errors benign (dataPlaneNetworkPolicyReconciler.Reconcile ns).
Proof.
  unfold dataPlaneNetworkPolicyReconciler.Reconcile, orphanDataPlaneSweeper.kubernetesScheme.
  apply errors_bind; [unfold benign; errors_auto|]. intros t1 [] _ _.
  apply errors_bind; [unfold benign; errors_auto|]. intros t2 [] _ _.
  apply errors_bind; [unfold benign; errors_auto|]. intros t3 l Hr Ht.
  assert (Forall (fun p => clean markers (np_Namespace p) /\ clean markers (np_Name p)) l) as Hl.
  { apply runs_wrapf_Ok in Hr as (x&t'&->&Hr). destruct x as [l'|e]; destruct Hr as [-> [=]]. subst l'.
    by apply Forall_cons in Ht as [[_ Hp] _]. }
  apply errors_for_each. intros p Hp. rewrite Forall_forall in Hl. destruct (Hl p Hp) as [Hns Hname].
  apply (errors_wrapf_with benign); [unfold benign; errors_auto|]. intros e He.
  apply (benign_named "failed to delete managed data-plane NetworkPolicy "); [vm_compute; reflexivity|done..].
Qed.

Lemma Ensure_errors cluster ns : errors benign (netpolControllerDeployer.Ensure iv cluster ns).
Proof using Type*.
  unfold netpolControllerDeployer.Ensure.
  apply errors_bind; [unfold benign; errors_auto|]. intros t1 s _ _.
  apply errors_bind.
  { apply errors_Ret. intros e He. unfold netpolControllerDeployer.deployment in He.
    destruct (iv ExtensionImageName) as [img|err] eqn:E; [done|]. injection He as <-.
    apply (benign_wrap markers); [vm_compute; reflexivity|]. by eapply plain_images. }
  intros t2 d _ _. unfold benign. errors_auto.
Qed.

Lemma ScaleDown_errors ns : errors benign (netpolControllerDeployer.ScaleDown ns).
Proof.
  intros t e (x&t'&->&Hr) Ht. apply Forall_cons in Ht as [[Hx _] Ht]. destruct x as [d|e'].
  - revert Hr Ht. apply (errors_wrapf markers); [vm_compute; reflexivity|]. errors_auto.
  - cbn in Hr. destruct (IsNotFound e'); destruct Hr as [_ [=]]. subst. by apply Hx.
Qed.

Lemma encode_errors name obj m e :
  quiet_text markers ("failed to encode " +:+ name +:+ ": ") = true ->
  encode name obj m = Err e -> benign e.
Proof using Type*.
  intros Hq. unfold encode. destruct (Encode obj) as [|err] eqn:E; [done|]. intros [= <-].
  apply (benign_wrap markers); [done|]. by eapply plain_Encode.
Qed.

Lemma outcome_bind_Err {A B} (r : outcome A) (f : A -> outcome B) e :
  r ≫= f = Err e -> r = Err e \/ exists a, r = Ok a /\ f a = Err e.
Proof. destruct r; naive_solver. Qed.

Lemma encodeAll_errors l m e :
  Forall (fun o => quiet_text markers ("failed to encode " +:+ o.1 +:+ ": ") = true) l ->
  encodeAll l m = Err e -> benign e.
Proof using Type*.
  intros Hl. revert m. induction Hl as [|o l Ho Hl IH]; intros m; [done|]. cbn [encodeAll].
  intros [He|(m'&_&He)]%outcome_bind_Err; [by eapply encode_errors|by eapply IH].
Qed.

Lemma encodeDocs_errors l e : encodeDocs l = Err e -> benign e.
Proof using Type*.
  induction l as [|o l IH]; [done|]. cbn [encodeDocs]. destruct (Encode o) as [data|err] eqn:E.
  - intros [He|(docs&_&[=])]%outcome_bind_Err. by apply IH.
  - intros [= <-]. apply (benign_wrap markers); [vm_compute; reflexivity|]. by eapply plain_Encode.
Qed.

(** The names of the manifests are quiet. *)
Ltac quiet_names := repeat (apply List.Forall_cons; [vm_compute; reflexivity|]); apply List.Forall_nil.

Lemma buildResources_errors cfg tls e : buildResources cfg iv tls = Err e -> benign e.
Proof using Type*.
  unfold buildResources. intros [He|(deploy&_&He)]%outcome_bind_Err.
  { unfold Manifests.deployment in He. destruct (iv ImageName) as [img|err] eqn:E; [done|]. injection He as <-.
    apply (benign_wrap markers); [vm_compute; reflexivity|]. by eapply plain_images. }
  apply outcome_bind_Err in He as [He|(m1&_&He)]; [eapply encodeAll_errors; [|exact He]; quiet_names|].
  apply outcome_bind_Err in He as [He|(m2&_&He)].
  { destruct (_ || _); [|done]. eapply encode_errors; [|exact He]. vm_compute; reflexivity. }
  apply outcome_bind_Err in He as [He|(m3&_&He)].
  { destruct (_ && _); [|done]. eapply encode_errors; [|exact He]. vm_compute; reflexivity. }
  apply outcome_bind_Err in He as [He|(m4&_&He)].
  { destruct (present _); [|done]. eapply encode_errors; [|exact He]. vm_compute; reflexivity. }
  apply outcome_bind_Err in He as [He|(m6&_&He)].
  { destruct (validatingAdmissionPolicySupported cfg); [|done].
    apply outcome_bind_Err in He as [He|(?&_&[=])]. unfold encodeObjects in He.
    apply outcome_bind_Err in He as [He|(?&_&[=])]. by eapply encodeDocs_errors. }
  destruct (ManageDataPlaneNetworkPolicies cfg); [|done]. eapply encodeAll_errors; [|exact He]. quiet_names.
Qed.

Lemma Deploy_errors cfg ns tls : errors benign (Deploy cfg iv ns tls).
Proof using Type*.
  unfold Deploy. apply errors_bind.
  { apply (errors_wrapf markers); [vm_compute; reflexivity|]. apply errors_Ret. intros e. apply buildResources_errors. }
  intros t m _ _. unfold benign. errors_auto.
Qed.

Lemma DeployerDelete_errors ns : errors benign (DeployerDelete ns).
Proof. unfold DeployerDelete, deleteManagedResource, benign. errors_auto. Qed.

Lemma DeleteKeepingObjects_errors ns : errors benign (DeleteKeepingObjects ns).
Proof. unfold DeleteKeepingObjects, deleteManagedResource, benign. errors_auto. Qed.

(** The secrets' errors may mention the secrets, but no configuration. *)
Lemma secrets_quiet_text text ns :
  quiet_text configMarkers text = true -> plain_name ns ->
  benign_for configMarkers (errorString (text +:+ fmt_q ns)).
Proof.
  intros Ht [_ Hq]. split; [done|]. cbn [Error]. apply clean_app; [done|].
  unfold clean, markers, configMarkers in *. rewrite !Forall_cons in *. naive_solver.
Qed.

Ltac errors_config := repeat first [errors_step
  | match goal with |- errors _ (throw _) => apply errors_throw, secrets_quiet_text; [vm_compute; reflexivity|done] end].

Lemma reconcileSecrets_errors cluster ns :
  plain_name ns -> errors (benign_for configMarkers) (reconcileSecrets cluster ns).
Proof.
  intros Hns. unfold reconcileSecrets. errors_config.
Qed.

Lemma deleteSecrets_errors cluster : errors (benign_for configMarkers) (deleteSecrets cluster).
Proof. unfold deleteSecrets. errors_config. Qed.
End components.

(** ** The last call

    Every failure of [m], after the calls [t0], is classified by the last call. *)
Definition classified_by_last (t : list (event ans)) (e : error) : Prop :=
  exists t' x, t = t' ++ [x] /\ classifyError (Some e) = failurePhase x.

(** The calls [t] end with one of the class. *)
Definition ends_with (reason : string) (t : list (event ans)) : Prop :=
  exists t' x, t = t' ++ [x] /\ failurePhase x = reason.

Definition fails {A} (t0 : list (event ans)) (m : IO A) : Prop :=
  forall t e, runs m t (Err e) -> Forall plain t -> classified_by_last (t0 ++ t) e.

Section fails.

Lemma fails_mret {A} t0 (a : A) : fails t0 (mret a).
Proof. by intros t e [_ ?]. Qed.

Lemma fails_attempt {A} t0 (m : IO A) : fails t0 (attempt m).
Proof. intros t e (t1&[a|e'|w]&t2&->&_&[_ ?])%runs_pbind; done. Qed.

Lemma fails_lift {A} t0 (p : prog ans A) : fails t0 (lift p).
Proof. by intros t e (t1&a&t2&->&_&[_ ?])%runs_pbind. Qed.

Lemma fails_bind {A B} t0 (m : IO A) (f : A -> IO B) :
  fails t0 m -> (forall t a, runs m t (Ok a) -> Forall plain t -> fails (t0 ++ t) (f a)) -> fails t0 (m ≫= f).
Proof.
  intros Hm Hf t e [(t1&a&t2&->&H1&H2)|[(e'&[= <-]&H)|(w&?&_)]]%runs_bind Ht; [|by eapply Hm|done].
  apply Forall_app in Ht as [Ht1 Ht2]. rewrite (assoc_L (++)). by eapply Hf.
Qed.

Lemma fails_throw {A} t0 e : classified_by_last t0 e -> fails t0 (throw e : IO A).
Proof. intros Hc t e' [-> [= ->]] _. by rewrite app_nil_r. Qed.

(** A field of the actuator; a nil one panics. *)
Lemma fails_use {A B} t0 (o : option A) (f : A -> IO B) :
  (forall x, o = Some x -> fails t0 (f x)) -> fails t0 (nonNil o ≫= f).
Proof. intros Hf. destruct o as [x|]; [by apply Hf|]. by intros t e [_ ?]. Qed.

(** A phase all of whose calls are of one class, which its wrapper gives to its
    errors. *)
Lemma last_of_class {A} reason t0 (m : IO A) t e :
  emits (fun x => failurePhase x = reason) m -> calls m \/ ends_with reason t0 ->
  runs m t (Err e) -> ends_with reason (t0 ++ t).
Proof.
  intros Hm Hc Hr. specialize (Hm _ _ Hr). destruct t as [|y t _] using rev_ind.
  - rewrite app_nil_r. destruct Hc as [Hc|Hc]; [by destruct (Hc _ _ Hr)|done].
  - exists (t0 ++ t), y. rewrite (assoc_L (++)). split; [done|].
    apply Forall_app in Hm as [_ Hm]. by inv Hm.
Qed.

Lemma fails_wrapf {A} reason t0 pre (m : IO A) :
  emits (fun x => failurePhase x = reason) m -> calls m \/ ends_with reason t0 ->
  errors benign m -> forallb (fun m => negb (overlaps pre m)) markers = true -> phase_class pre = reason ->
  fails t0 (wrapf pre m).
Proof.
  intros Hm Hc He Hq Hp t e (e'&->&Hr)%runs_wrapf_Err Ht.
  destruct (last_of_class reason t0 m t e' Hm Hc Hr) as (t'&x&Hx&Hph). exists t', x. split; [done|].
  rewrite Hph, <- Hp. apply classifyError_wrapped; [done|]. by eapply He.
Qed.
End fails.

(** ** The operations *)

(** The actuator's components are the production ones, and what its decoder
    reports imitates no message. *)
Record plain_actuator `{Libraries} (iv : ImageVector) (a : Actuator) : Prop := {
  pa_images : imageVector a = iv;
  pa_decoder : exists decode, decoder a = Some decode /\ forall raw e, decode raw = inr e -> benign e;
  pa_lister : gatewayLister a = Some realGatewayLister.NewGatewayLister;
  pa_pruner : netpolReconciler a = Some dataPlaneNetworkPolicyReconciler.NewDataPlaneNetworkPolicyReconciler;
  pa_deployer : netpolDeployer a = Some (netpolControllerDeployer.NewNetpolControllerDeployer iv);
}.

Section operations.
Context `{Libraries} (iv : ImageVector) `{!PlainLibraries iv}.
Context (a : Actuator) (decode : string -> config.EnvoyGatewayConfig + error).
Context (Hiv : imageVector a = iv) (Hdecoder : decoder a = Some decode).
Context (Hlister : gatewayLister a = Some realGatewayLister.NewGatewayLister).
Context (Hpruner : netpolReconciler a = Some dataPlaneNetworkPolicyReconciler.NewDataPlaneNetworkPolicyReconciler).
Context (Hdeployer : netpolDeployer a = Some (netpolControllerDeployer.NewNetpolControllerDeployer iv)).
Context (Hdecode : forall raw e, decode raw = inr e -> benign e).

(** A phase with a wrapper: its calls, its errors, and its text. *)
Ltac phase lem :=
  eapply fails_wrapf; [|left; calls_auto| |vm_compute; reflexivity|vm_compute; reflexivity]; [|apply lem].

Lemma GetCluster_fails ns : fails [] (wrapf "failed to get cluster: " (request (GetCluster ns))).
Proof using Type.
  intros t e (e'&->&(x&t'&->&[-> He]))%runs_wrapf_Err Ht. apply Forall_cons in Ht as [[Hx _] _].
  destruct x as [c|e'']; [done|]. injection He as <-. eexists [], _. split; [reflexivity|].
  rewrite classifyError_wrapped; [reflexivity|reflexivity|by apply Hx].
Qed.

Lemma Wait_other k ns : emits other (realGatewayLister.WaitUntilGatewaysDeleted k ns).
Proof using Type.
  unfold realGatewayLister.WaitUntilGatewaysDeleted, realGatewayLister.gatewaysGone.
  apply emits_bind; [|intros [gone lastErr]; emits_auto].
  apply emits_poll; [done|]. intros s. apply emits_bind; [apply emits_attempt, fetch_other|]. emits_auto.
Qed.

Lemma Wait_calls k ns : calls (realGatewayLister.WaitUntilGatewaysDeleted k ns).
Proof using Type.
  unfold realGatewayLister.WaitUntilGatewaysDeleted. apply calls_pbind.
  destruct k; apply calls_pbind, calls_pbind, calls_pbind, fetch_calls.
Qed.

Lemma drain_fails t0 ns : fails t0 (drainUserGatewaysForShootDeletion a ns).
Proof using Hlister.
  unfold drainUserGatewaysForShootDeletion. apply fails_use. rewrite Hlister. intros l [= <-].
  apply fails_bind; [apply fails_attempt|]. intros t1 r1 _ _.
  apply fails_bind; [apply fails_attempt|]. intros t2 r2 _ _.
  apply fails_bind; [apply fails_attempt|]. intros t3 r3 Hr Ht.
  apply fails_bind; [|intros; apply fails_bind; [apply fails_attempt|intros; apply fails_mret]].
  destruct r3 as [[]|err]; [apply fails_mret|].
  destruct (errorsIs err realGatewayLister.ErrGatewaysStillDeleting); [|apply fails_mret].
  apply runs_pbind in Hr as (t4&[[]|e'|w]&t5&->&Hr&[-> [= ->]]). rewrite app_nil_r in *.
  apply fails_throw.
  destruct (last_of_class ReasonOther ((t0 ++ t1) ++ t2) _ t4 _ (Wait_other drainTicks ns)
    (or_introl (Wait_calls drainTicks ns)) Hr) as (t'&x&Heq&Hx).
  exists t', x. split; [exact Heq|]. rewrite Hx.
  rewrite classifyError_wrapped; [reflexivity|vm_compute; reflexivity|by eapply Wait_errors].
Qed.

Lemma egConfigOf_fails ns cluster version raw :
  fails [ev (GetCluster ns) (inl cluster)] (egConfigOf a version raw).
Proof using Hdecoder Hdecode.
  unfold egConfigOf. destruct raw as [raw|]; [|apply fails_mret]. rewrite Hdecoder.
  apply fails_use. intros d [= <-]. intros t e Hr Ht. destruct (decode raw) as [cfg|e'] eqn:E.
  - destruct Hr as [-> He]. exists [], (ev (GetCluster ns) (inl cluster)). split; [done|].
    by eapply classifyError_typed.
  - destruct Hr as [-> [= ->]]. exists [], (ev (GetCluster ns) (inl cluster)). split; [done|].
    rewrite classifyError_wrapped; [reflexivity|vm_compute; reflexivity|by eapply Hdecode].
Qed.

(** The secrets' phases end with a call to the secrets manager. *)
Lemma reconcileSecrets_last cluster ns t r :
  runs (reconcileSecrets cluster ns) t r ->
  match r with
  | Ok _ => ends_with ReasonManagedResource t
  | _ => ends_with ReasonSecrets t
  end.
Proof using Type.
  unfold reconcileSecrets. intros Hr.
  apply (runs_wrapf_request _ (SecretsManagerForCluster _ _ _) (fun r => r)) in Hr as (x&t1&->&Hr).
  destruct x as [sm|e]; [|destruct Hr as [-> ->]; by eexists [], _].
  apply (runs_wrapf_request _ (GenerateAllSecrets _ _) (fun r => r)) in Hr as (y&t2&->&Hr).
  destruct y as [gen|e]; [|destruct Hr as [-> ->]; by eexists [_], _].
  destruct (gen !! CASecretName), (gen !! XDSServerCertSecretName), (gen !! EnvoyClientCertSecretName),
    (gen !! HMACSecretName); try (destruct Hr as [-> ->]; by eexists [_], _).
  cbn zeta in Hr. destruct (negb _); [destruct Hr as [-> ->]; by eexists [_], _|].
  apply (runs_wrapf_request _ (SMCleanup _) (fun r => r)) in Hr as (z&t3&->&Hr).
  destruct z as [[]|e]; destruct Hr as [-> ->]; by eexists [_; _], _.
Qed.

Lemma deleteSecrets_last cluster t e : runs (deleteSecrets cluster) t (Err e) -> ends_with ReasonSecrets t.
Proof using Type.
  unfold deleteSecrets. intros Hr.
  apply (runs_wrapf_request _ (SecretsManagerForCluster _ _ _) (fun r => r)) in Hr as (x&t1&->&Hr).
  destruct x as [sm|e']; [|destruct Hr as [-> _]; by eexists [], _].
  destruct Hr as (y&t2&->&Hr). destruct y as [[]|e']; destruct Hr as [-> [=]]. by eexists [_], _.
Qed.

Lemma secrets_fails {A} t0 pre (m : IO A) :
  quiet_text configMarkers pre = true ->
  Contains pre "envoy-gateway TLS secrets" || Contains pre "envoy-gateway secrets" = true ->
  errors (benign_for configMarkers) m ->
  (forall t e, runs m t (Err e) -> ends_with ReasonSecrets t) -> fails t0 (wrapf pre m).
Proof using Type.
  intros Hq Hp He Hl t e (e'&->&Hr)%runs_wrapf_Err Ht. destruct (Hl _ _ Hr) as (t'&x&->&Hx).
  exists (t0 ++ t'), x. split; [by rewrite (assoc_L (++))|]. rewrite Hx. apply classifyError_secrets; [done..|].
  by eapply He.
Qed.

Lemma ends_with_app reason t0 t : ends_with reason t -> ends_with reason (t0 ++ t).
Proof using Type. intros (t'&x&->&Hx). exists (t0 ++ t'), x. by rewrite (assoc_L (++)). Qed.

(** The bodies. *)
Lemma GetCluster_answer ns t cluster :
  runs (wrapf "failed to get cluster: " (request (GetCluster ns))) t (Ok cluster) ->
  t = [ev (GetCluster ns) (inl cluster)].
Proof using Type. intros (x&t'&->&Hr)%runs_wrapf_Ok. destruct x as [c|e]; by destruct Hr as [-> [= ->]]. Qed.

Ltac other_calls := unfold other; emits_auto; done.

Lemma Teardown_fails t0 pre ns :
  plain_name ns -> forallb (fun m => negb (overlaps pre m)) markers = true -> phase_class pre = ReasonOther ->
  fails t0 (wrapf pre (netpolControllerDeployer.Teardown ns)).
Proof using PlainLibraries0.
  intros [Hns _] Hq Hp. apply (fails_wrapf ReasonOther); [|left|by eapply Teardown_errors|done..].
  - unfold netpolControllerDeployer.Teardown. emits_auto; done.
  - unfold netpolControllerDeployer.Teardown. calls_auto.
Qed.

Lemma Prune_fails t0 pre ns :
  forallb (fun m => negb (overlaps pre m)) markers = true -> phase_class pre = ReasonOther ->
  fails t0 (wrapf pre (dataPlaneNetworkPolicyReconciler.Reconcile ns)).
Proof using Type.
  intros Hq Hp. apply (fails_wrapf ReasonOther); [|left|apply Prune_errors|done..];
    unfold dataPlaneNetworkPolicyReconciler.Reconcile, orphanDataPlaneSweeper.kubernetesScheme,
      dataPlaneNetworkPolicyReconciler.prunePolicy.
  - emits_auto; done.
  - calls_auto.
Qed.

Lemma ReconcileBody_fails ex : plain_name (ex_Namespace ex) -> fails [] (ReconcileBody a ex).
Proof using Type*.
  intros Hns. unfold ReconcileBody. cbn zeta.
  apply fails_bind; [apply GetCluster_fails|]. intros t cluster ->%GetCluster_answer _.
  apply fails_use. intros sh _. case_decide; [apply drain_fails|].
  destruct (HibernationIsEnabled sh).
  { apply fails_use. rewrite Hdeployer. intros d [= <-].
    apply (fails_wrapf ReasonOther); [|left|apply ScaleDown_errors|vm_compute; reflexivity..];
      cbn [ScaleDown netpolControllerDeployer.NewNetpolControllerDeployer]; unfold netpolControllerDeployer.ScaleDown.
    - emits_auto; done.
    - calls_auto. }
  apply fails_bind; [apply egConfigOf_fails|]. intros t1 cfg _ _.
  apply fails_bind.
  { apply secrets_fails; [vm_compute; reflexivity..|by apply reconcileSecrets_errors|].
    intros t2 e Hr. exact (reconcileSecrets_last _ _ _ _ Hr). }
  intros t2 tls Hr%runs_wrapf_Ok _. apply reconcileSecrets_last in Hr.
  apply fails_bind.
  { apply (fails_wrapf ReasonManagedResource); [|right; by apply ends_with_app| |vm_compute; reflexivity..].
    - unfold Deploy. emits_auto; done.
    - rewrite Hiv. by apply Deploy_errors. }
  intros t3 [] _ _. apply fails_use. intros sweeper _.
  apply fails_bind; [apply fails_attempt|]. intros t4 r _ _.
  apply fails_use. rewrite Hdeployer. intros d [= <-].
  destruct (ManageDataPlaneNetworkPolicies cfg).
  - apply (fails_wrapf ReasonOther); [|left|by apply Ensure_errors|vm_compute; reflexivity..];
      cbn [Ensure netpolControllerDeployer.NewNetpolControllerDeployer]; unfold netpolControllerDeployer.Ensure.
    + emits_auto; done.
    + calls_auto.
  - apply fails_bind; [by apply Teardown_fails|]. intros t5 [] _ _.
    apply fails_use. rewrite Hpruner. intros p [= <-]. by apply Prune_fails.
Qed.

Lemma guard_fails t0 shoot ns : fails t0 (checkNoUserGateways a shoot ns).
Proof using Hlister.
  unfold checkNoUserGateways. destruct (shootDeleting shoot); [apply drain_fails|].
  apply fails_use. rewrite Hlister. intros l [= <-]. apply fails_bind.
  { apply (fails_wrapf ReasonOther); [|left|apply ListGateways_errors|vm_compute; reflexivity..].
    - apply emits_bind; [apply fetch_other|]. intros; apply emits_mret.
    - apply calls_pbind, fetch_calls. }
  intros t1 names _ _. destruct names as [|n names]; [apply fails_mret|].
  apply fails_bind; [apply fails_lift|]. intros t2 [] Hr _. apply fails_throw.
  apply runs_pbind in Hr as (t3&[]&t4&->&(x&t5&->&[-> _])&[-> _]).
  eexists (t0 ++ t1), _. by split.
Qed.

Lemma DeleteBody_fails ex : plain_name (ex_Namespace ex) -> fails [] (DeleteBody a ex).
Proof using Type*.
  intros Hns. unfold DeleteBody. cbn zeta.
  apply fails_bind; [apply GetCluster_fails|]. intros t cluster _ _.
  apply fails_bind; [apply guard_fails|]. intros t1 [] _ _.
  apply fails_use. rewrite Hdeployer. intros d [= <-].
  apply fails_bind; [by apply Teardown_fails|]. intros t2 [] _ _.
  apply fails_bind.
  { destruct (shootAlive (cl_Shoot cluster)); [|apply fails_mret].
    apply fails_use. rewrite Hpruner. intros p [= <-]. by apply Prune_fails. }
  intros t3 [] _ _. apply fails_bind.
  { apply (fails_wrapf ReasonManagedResource); [|left|apply DeployerDelete_errors|vm_compute; reflexivity..];
      unfold DeployerDelete, deleteManagedResource; [emits_auto; done|calls_auto]. }
  intros t4 [] _ _.
  apply secrets_fails; [vm_compute; reflexivity..|apply deleteSecrets_errors|apply deleteSecrets_last].
Qed.

(** ForceDelete and Migrate. *)
Lemma leave_fails pre1 pre2 ns :
  plain_name ns ->
  forallb (fun m => negb (overlaps pre1 m)) markers = true -> phase_class pre1 = ReasonOther ->
  forallb (fun m => negb (overlaps pre2 m)) markers = true -> phase_class pre2 = ReasonManagedResource ->
  fails [] (dep ← nonNil (netpolDeployer a); wrapf pre1 (Teardown dep ns) ;; wrapf pre2 (DeleteKeepingObjects ns)).
Proof using Type*.
  intros Hns H1 H2 H3 H4. apply fails_use. rewrite Hdeployer. intros d [= <-].
  apply fails_bind; [by apply Teardown_fails|]. intros t [] _ _.
  apply (fails_wrapf ReasonManagedResource); [|left|apply DeleteKeepingObjects_errors|done..];
    unfold DeleteKeepingObjects, deleteManagedResource; [emits_auto; done|calls_auto].
Qed.
End operations.

(** ** The metrics of a failure *)

(** What an operation records about itself at its end. *)
Definition own_telemetry (e : event ans) : Prop :=
  match ecall e with
  | CounterInc vec _ => vec = ActuatorOperationTotal \/ vec = ActuatorOperationErrorsTotal
  | GaugeSetSince vec _ _ => vec = ActuatorOperationDurationSeconds
  | _ => False
  end.

Lemma classifyError_nonempty e : classifyError (Some e) <> ""%string.
Proof. unfold classifyError. destruct (asGatewaysInUse e); [done|]. by repeat case_match. Qed.

Lemma phase_not_own e x : classifyError (Some e) = failurePhase x -> ~ own_telemetry x.
Proof.
  intros Hc Hx. apply (classifyError_nonempty e). rewrite Hc. destruct x as [c r]. unfold own_telemetry, ecall in Hx.
  cbn [projT1] in Hx. destruct c; try done. by destruct Hx as [->| ->].
Qed.

(** The operation [m] of the kind [op] failed with [e] on the phase of [x]. *)
Definition failed_at (ns op : string) (t : list (event ans)) (e : error) : Prop :=
  exists t1 x t2, t = t1 ++ x :: t2 /\ Forall own_telemetry t2 /\ ~ own_telemetry x /\
    classifyError (Some e) = failurePhase x /\
    ev (CounterInc ActuatorOperationErrorsTotal [ns; op; failurePhase x]) tt ∈ t2.

Section recorded.
Context `{Libraries}.

Lemma telemetry_own ns op start e : Forall own_telemetry (telemetry ns op start e).
Proof.
  unfold telemetry. destruct e; repeat (apply List.Forall_cons; [unfold own_telemetry; cbn; auto|]); apply List.Forall_nil.
Qed.

Lemma recorded_failed ns op body t e :
  fails [] body -> runs (recorded ns op body) t (Err e) -> Forall plain t -> failed_at ns op t e.
Proof.
  intros Hf (start&tb&->&Hb)%runs_recorded Ht. apply Forall_cons in Ht as [_ [Ht _]%Forall_app].
  destruct (Hf _ _ Hb Ht) as (t'&x&Heq&Hc). cbn [app] in Heq. subst tb.
  exists (ev Now start :: t'), x, (telemetry ns op start (Some e)). rewrite <- (assoc_L (++)).
  split_and!; [done|apply telemetry_own|by eapply phase_not_own|done|].
  rewrite <- Hc. unfold telemetry. set_solver.
Qed.

(** An operation within another. *)
Lemma recorded_twice ns op op' body t e :
  fails [] body -> runs (recorded ns op' (recorded ns op body)) t (Err e) -> Forall plain t -> failed_at ns op' t e.
Proof.
  intros Hf (start&tb&->&Hb)%runs_recorded Ht. apply Forall_cons in Ht as [_ [Ht _]%Forall_app].
  destruct (recorded_failed _ _ _ _ _ Hf Hb Ht) as (t1&x&t2&->&Ht2&Hx&Hc&_).
  exists (ev Now start :: t1), x, (t2 ++ telemetry ns op' start (Some e)).
  split_and!; [cbn [app]; by rewrite <- (assoc_L (++))|apply Forall_app; split; [done|apply telemetry_own]|done|done|].
  rewrite <- Hc. unfold telemetry. set_solver.
Qed.
End recorded.

(** C35: the class under which a failure is counted says which phase failed.  For
    each of the five operations, in every execution that fails - as long as
    nothing the outside world reports imitates one of the program's messages -
    the class of the error, and the label of the error counter, is that of the
    last call the operation made before recording itself: "cluster_lookup" where
    the Cluster could not be read, "invalid_provider_config" where it was read and no
    other call was made, "secrets" and "managed_resource" for the secrets manager's and
    the ManagedResource's calls, "gateways_in_use" after the guard's refusal, and
    "other" for every other phase. *)
Theorem failures_classified `{Libraries} iv `{!PlainLibraries iv} a ex op m t e :
  plain_actuator iv a -> plain_name (ex_Namespace ex) ->
  (op, m) ∈ [("reconcile", Reconcile a ex); ("delete", Delete a ex); ("force_delete", ForceDelete a ex);
             ("migrate", Migrate a ex); ("restore", RestoreOp a ex)]%string ->
  runs m t (Err e) -> Forall plain t -> failed_at (ex_Namespace ex) op t e.
Proof.
  intros [Hiv (decode&Hdec&Hdecode) Hl Hp Hd] Hns Hop Hr Ht.
  pose proof (ReconcileBody_fails iv a decode Hiv Hdec Hl Hp Hd Hdecode ex Hns) as Hreconcile.
  repeat (apply elem_of_cons in Hop as [[= -> ->]|Hop]); [..|by apply elem_of_nil in Hop].
  - by eapply recorded_failed.
  - eapply recorded_failed; [|exact Hr|done]. by eapply DeleteBody_fails.
  - eapply recorded_failed; [|exact Hr|done]. eapply leave_fails; [done..|vm_compute; reflexivity| | |];
      vm_compute; reflexivity.
  - eapply recorded_failed; [|exact Hr|done]. eapply leave_fails; [done..|vm_compute; reflexivity| | |];
      vm_compute; reflexivity.
  - by eapply recorded_twice.
Qed.
