(* ===== verification/GuardProps.v ===== *)
(** * Properties of the Gateway lister

    The bounded wait for the Gateways to drain, and their deletion. *)

From S2P Require Import Prelude GoStd Errors Effects KubeObjects Constants Config External.
From S2P Require Import Interfaces Secrets Manifests Deployer DataPlanePolicies GatewayGuard.
From S2P Require Import OrphanSweep DataplaneNetpol NetpolDeployer Actuator ActuatorSpecs.
From S2P Require Import ActuatorLemmas.
Import realGatewayLister.

(** ** Polling *)

Section poll.
Context {S : Type} (interval : Z) (condition : S -> io (outcome (bool * S))).

(** The condition keeps going. *)
Hypothesis condition_Ok : forall s t r, runs (condition s) t r -> exists x, r = Ok x.

(** A poll ends right after a try of the condition: because it held, or
    because the deadline passed or the context was cancelled. *)
Lemma runs_poll ticks s t r :
  runs (PollUntilContextCancel ticks interval condition s) t r ->
  exists b s0 s1 t1 t2 t3, r = Ok (b, s1) /\ t = t1 ++ t2 ++ t3 /\ runs (condition s0) t2 (Ok (b, s1)) /\
    (t3 = [] \/ b = false /\ t3 = [ev (PollWait interval) true]).
Proof using Type*.
  revert s t. induction ticks as [|ticks IH]; intros s t Hr; cbn [PollUntilContextCancel] in Hr.
  - apply runs_bind in Hr as [(t1&[b s1]&t2&->&Hc&Hr)|[(e&->&He)|(w&->&Hw)]].
    + exists b, s, s1, [], t1, []. destruct b; destruct Hr as [-> ->]; auto.
    + by destruct (condition_Ok _ _ _ He).
    + by destruct (condition_Ok _ _ _ Hw).
  - apply runs_bind in Hr as [(t1&[b s1]&t2&->&Hc&Hr)|[(e&->&He)|(w&->&Hw)]].
    2: { by destruct (condition_Ok _ _ _ He). }
    2: { by destruct (condition_Ok _ _ _ Hw). }
    destruct b.
    { destruct Hr as [-> ->]. exists true, s, s1, [], t1, []. auto. }
    destruct Hr as (cancelled&t3&->&Hr). destruct cancelled.
    + destruct Hr as [-> ->]. exists false, s, s1, [], t1, [ev (PollWait interval) true]. auto 10.
    + apply IH in Hr as (b&s0&s2&u1&u2&u3&->&->&Hc'&Hu).
      exists b, s0, s2, (t1 ++ ev (PollWait interval) false :: u1), u2, u3.
      split_and!; [done| |done|done]. by rewrite <- app_assoc.
Qed.

(** The condition is tried at most [ticks + 1] times. *)
Lemma poll_tries (f : list (event ans) -> nat) ticks s t r :
  (forall t1 t2, f (t1 ++ t2) = f t1 + f t2) -> f [] = 0 ->
  (forall x, f [ev (PollWait interval) x] = 0) ->
  (forall s t r, runs (condition s) t r -> f t <= 1) ->
  runs (PollUntilContextCancel ticks interval condition s) t r -> f t <= ticks + 1.
Proof using Type*.
  intros Happ Hnil Hwait Hc. revert s t.
  induction ticks as [|ticks IH]; intros s t Hr; cbn [PollUntilContextCancel] in Hr.
  - apply runs_bind in Hr as [(t1&[b s1]&t2&->&H1&Hr)|[(e&->&He)|(w&->&Hw)]];
      [|by eauto..].
    destruct b; destruct Hr as [-> ->]; rewrite app_nil_r; eauto.
  - apply runs_bind in Hr as [(t1&[b s1]&t2&->&H1&Hr)|[(e&->&He)|(w&->&Hw)]].
    2: { specialize (Hc _ _ _ He). lia. }
    2: { specialize (Hc _ _ _ Hw). lia. }
    specialize (Hc _ _ _ H1) as Hle.
    destruct b.
    { destruct Hr as [-> ->]. rewrite app_nil_r. lia. }
    destruct Hr as (cancelled&t3&->&Hr). rewrite Happ.
    change (f (ev (PollWait interval) cancelled :: t3)) with (f ([ev (PollWait interval) cancelled] ++ t3)).
    rewrite Happ, Hwait. destruct cancelled.
    + destruct Hr as [-> ->]. rewrite Hnil. lia.
    + apply IH in Hr. lia.
Qed.
End poll.

(** ** The wait *)

Definition listings (t : list (event ans)) : nat :=
  length (filter (fun e => match ecall e with External.ListGateways _ => true | _ => false end = true) t).

Lemma listings_app t1 t2 : listings (t1 ++ t2) = listings t1 + listings t2.
Proof. unfold listings. by rewrite list.filter_app, length_app. Qed.

Lemma runs_attempt {A} (m : IO A) t r :
  no_panic m -> runs (attempt m) t r ->
  exists x, r = Ok x /\ match x with inl v => runs m t (Ok v) | inr e => runs m t (Err e) end.
Proof.
  intros Hnp (t1&[v|e|w]&t2&->&H1&[-> ->])%runs_pbind; rewrite app_nil_r; [by exists (inl v)|by exists (inr e)|].
  by destruct (Hnp t1 w).
Qed.

(** The listing is the only one of an execution, and its last call. *)
Lemma fetch_listings ns t r : runs (fetchGatewayList ns) t r -> listings t <= 1.
Proof.
  unfold fetchGatewayList, shootClient, newGatewayScheme. intros Hr.
  assert (Hshoot : forall t r, runs (wrapf "failed to register gateway-api scheme: " (request (RegisterScheme "gateway-api")) ;;
     wrapf "failed to build shoot client: " (request (NewClientForShoot ns))) t r -> listings t = 0).
  { intros u q (x&u1&->&Hu)%runs_wrapf_request. destruct x as [[]|e]; [|by destruct Hu as [-> _]].
    destruct Hu as (y&u2&->&Hu). destruct y as [[]|e]; by destruct Hu as [-> _]. }
  apply runs_bind in Hr as [(t1&[]&t2&->&H1&Hr)|[(e&->&He)|(w&->&Hw)]].
  - rewrite listings_app, (Hshoot _ _ H1). destruct Hr as (x&t3&->&Hr).
    destruct x as [l|e]; cbn in Hr; [destruct Hr as [-> _]; done|].
    by destruct (gatewayCRDAbsent e); destruct Hr as [-> _].
  - rewrite (Hshoot _ _ He). lia.
  - rewrite (Hshoot _ _ Hw). lia.
Qed.

Lemma runs_gatewaysGone ns s t r :
  runs (gatewaysGone ns s) t r ->
  (exists err, runs (fetchGatewayList ns) t (Err err) /\ r = Ok (false, Some err)) \/
  (exists l, runs (fetchGatewayList ns) t (Ok l) /\ r = Ok (bool_decide (l = []), None)).
Proof.
  unfold gatewaysGone. intros Hr.
  apply runs_bind_attempt in Hr as (t1&x&t2&->&Hr&Hx); [|apply fetch_no_panic].
  destruct x as [l|err]; destruct Hr as [-> ->]; rewrite app_nil_r; eauto.
Qed.

(** C23: the wait for the Gateways.  It always ends, after at most [ticks + 1]
    listings of the shoot's Gateways, by a try that decides its result: success
    iff that try saw no Gateway (or that the kind is gone), the retryable
    [ErrGatewaysStillDeleting] iff it saw one, and the unreachable error, which
    wraps that try's error, iff the API server did not answer it. *)
Theorem WaitUntilGatewaysDeleted_outcomes ticks ns t r :
  runs (WaitUntilGatewaysDeleted ticks ns) t r ->
  listings t <= ticks + 1 /\
  exists t1 t2 t3 x, t = t1 ++ t2 ++ t3 /\ runs (fetchGatewayList ns) t2 x /\
    (t3 = [] \/ t3 = [ev (PollWait gatewayDeletionPollInterval) true]) /\
    ((x = Ok [] /\ r = Ok tt) \/
     (exists g l, x = Ok (g :: l) /\ r = Err ErrGatewaysStillDeleting) \/
     (exists e, x = Err e /\
        r = Err (wrapError "shoot API server unreachable while waiting for Gateways to be deleted: " e ""))).
Proof.
  assert (Hok : forall s t r, runs (gatewaysGone ns s) t r -> exists x, r = Ok x).
  { intros s u q [(?&_&->)|(?&_&->)]%runs_gatewaysGone; eauto. }
  unfold WaitUntilGatewaysDeleted. intros Hr.
  apply runs_bind in Hr as [(u1&[gone lastErr]&u2&->&Hp&Hr)|[(e&->&He)|(w&->&Hw)]].
  2: { apply runs_poll in He as (?&?&?&?&?&?&?&_); done. }
  2: { apply runs_poll in Hw as (?&?&?&?&?&?&?&_); done. }
  assert (u2 = []) as ->.
  { destruct gone; [by destruct Hr|]. destruct lastErr; by destruct Hr. }
  rewrite app_nil_r. split.
  - eapply poll_tries in Hp; [exact Hp|exact Hok|apply listings_app|done|done|].
    intros s u q [(?&Hf&_)|(?&Hf&_)]%runs_gatewaysGone; by eapply fetch_listings.
  - apply runs_poll in Hp as (b&s0&s1&t1&t2&t3&[= <- <-]&->&Hc&Ht3); [|exact Hok].
    apply runs_gatewaysGone in Hc as [(err&Hf&[= -> ->])|(l&Hf&[= -> ->])].
    + exists t1, t2, t3, (Err err). split_and!; [done..|naive_solver|].
      destruct Hr as [_ ->]. eauto 10.
    + exists t1, t2, t3, (Ok l). split_and!; [done..|naive_solver|].
      destruct l as [|g l]; destruct Hr as [_ ->]; eauto 10.
Qed.

(** The drain's deadline allows 60 waits between two tries. *)
Example drainTicks_60 : drainTicks = 60.
Proof. reflexivity. Qed.

(** ** Deleting the Gateways *)

(** a successful deletion has asked the shoot to delete every listed
    Gateway that was not already terminating, and no other. *)
Theorem DeleteGateways_complete ns t :
  runs (DeleteGateways ns) t (Ok tt) ->
  exists l, ev (External.ListGateways []) (inl l) ∈ t /\
    (forall g, g ∈ l -> gw_DeletionTimestamp g = None ->
       exists r, ev (DeleteGateway (gw_Namespace g) (gw_Name g)) r ∈ t /\
                 match r with inl _ => True | inr e => IsNotFound e = true end) /\
    Forall (fun e => forall n m, ecall e = DeleteGateway n m ->
       exists g, g ∈ l /\ gw_Namespace g = n /\ gw_Name g = m /\ gw_DeletionTimestamp g = None) t.
Proof.
  unfold DeleteGateways. intros Hr.
  apply runs_bind in Hr as [(t1&[]&t2&->&Hs&Hr)|[(?&?&?)|(?&?&?)]]; [|done..].
  apply runs_wrapf_request in Hr as (x&t3&->&Hr). destruct x as [l|e]; [|by destruct Hr].
  exists l. split; [set_solver|]. split.
  - intros g Hg Hd. destruct (runs_for_each_Ok _ _ _ _ Hr Hg) as (u1&u2&u3&->&Hu). rewrite Hd in Hu.
    apply runs_wrapf_Ok in Hu as (y&u4&->&Hu). exists y. split; [set_solver|].
    destruct y as [[]|e]; [done|]. cbn in Hu. destruct (IsNotFound e); [done|]. by destruct Hu.
  - apply Forall_app. split; [|constructor; [done|]].
    + eapply emits_impl; [|apply (shootClient_reads ns)|exact Hs].
      intros e He n m Hc. destruct He. unfold mutating. by rewrite Hc.
    + refine (emits_for_each _ l _ _ _ _ Hr). intros g Hg.
      destruct (gw_DeletionTimestamp g) eqn:Hd; emits_auto. simplify_eq/=. by exists g.
Qed.
