(* ===== verification/SweepProps.v ===== *)
(** * Properties of the orphan sweep

    The sweep deletes the objects the previous deploy mode left behind, all of
    them, and never one of the extension's own. *)

From S2P Require Import Prelude GoStd Errors Effects KubeObjects Constants Config External.
From S2P Require Import Interfaces Manifests Deployer DataPlanePolicies GatewayGuard OrphanSweep.
From S2P Require Import DataplaneNetpol NetpolDeployer Actuator ActuatorSpecs.
Import orphanDataPlaneSweeper.

(** A per-Gateway data-plane object of envoy-gateway in kube-system. *)
Definition orphan (o : ObjectMeta) : Prop :=
  om_Namespace o = Namespace /\ om_Labels o !! LabelManagedBy = Some EnvoyProxyManagedByValue /\
  is_Some (om_Labels o !! OwningGatewayNameLabel).

(** The API server honours the list options. *)
Definition lists_selected (t : list (event ans)) : Prop :=
  forall kind l, ev (ListObjects kind listOpts) (inl l) ∈ t ->
    Forall (fun o => label_selects listOpts (om_Namespace o) (om_Labels o) = true) l.

Definition deletes_orphan (e : event ans) : Prop :=
  mutating e -> exists kind o, kind ∈ lists /\ orphan o /\
    ecall e = DeleteObject kind (om_Namespace o) (om_Name o).

Definition object_gone (kind : ObjectKind) (o : ObjectMeta) (t : list (event ans)) : Prop :=
  ev (DeleteObject kind (om_Namespace o) (om_Name o)) (inl tt) ∈ t \/
  exists err, ev (DeleteObject kind (om_Namespace o) (om_Name o)) (inr err) ∈ t /\ IsNotFound err = true.

Lemma listOpts_spec o :
  label_selects listOpts (om_Namespace o) (om_Labels o) = true <->
  om_Namespace o = Namespace /\ om_Labels o !! LabelManagedBy = Some EnvoyProxyManagedByValue.
Proof.
  simpl. rewrite !andb_true_iff, !bool_decide_eq_true. unfold listOpts.
  rewrite map_Forall_singleton. naive_solver.
Qed.

(** One object. *)
Lemma sweepObject_spec kind o t r :
  kind ∈ lists -> label_selects listOpts (om_Namespace o) (om_Labels o) = true ->
  runs (sweepObject kind o) t r ->
  Forall deletes_orphan t /\ (r = Ok tt -> isOrphanedDataPlaneObject o = true -> object_gone kind o t).
Proof.
  intros Hk Hsel Hr. unfold sweepObject in Hr. destruct (isOrphanedDataPlaneObject o) eqn:Ho; simpl in Hr.
  2: { destruct Hr as [-> _]. by split; [constructor|]. }
  assert (Horphan : orphan o).
  { apply listOpts_spec in Hsel as [? ?]. split_and!; [done..|]. by apply bool_decide_eq_true in Ho. }
  destruct Hr as (x&t'&->&Hr).
  assert (Ht' : t' = []) by (destruct x as [[]|err]; [by destruct Hr|];
    cbn in Hr; destruct (IsNotFound err); by destruct Hr).
  subst t'. split.
  - constructor; [|constructor]. intros _. by exists kind, o.
  - intros -> _. destruct x as [[]|err]; [left; set_solver|right]. exists err. split; [set_solver|].
    cbn in Hr. destruct (IsNotFound err); [done|]. by destruct Hr.
Qed.

Lemma sweepObjects_spec kind l t r :
  kind ∈ lists -> Forall (fun o => label_selects listOpts (om_Namespace o) (om_Labels o) = true) l ->
  runs (for_each l (sweepObject kind)) t r ->
  Forall deletes_orphan t /\
  (r = Ok tt -> forall o, o ∈ l -> isOrphanedDataPlaneObject o = true -> object_gone kind o t).
Proof.
  intros Hk Hl. revert t r. induction Hl as [|o l Ho Hl IH]; intros t r Hr.
  - destruct Hr as [-> _]. split; [constructor|]. intros _ o Hin. set_solver.
  - cbn [for_each] in Hr. apply runs_bind in Hr as [(t1&[]&t2&->&H1&H2)|[(e&->&He)|(w&->&Hw)]].
    + apply sweepObject_spec in H1 as [Hf1 Hg1]; [|done..]. apply IH in H2 as [Hf2 Hg2].
      split; [by apply Forall_app|]. intros -> o' [->|Hin]%elem_of_cons Hown.
      * destruct (Hg1 eq_refl Hown) as [?|(err&?&?)]; [left|right; exists err]; set_solver.
      * destruct (Hg2 eq_refl _ Hin Hown) as [?|(err&?&?)]; [left|right; exists err]; set_solver.
    + apply sweepObject_spec in He as [Hf _]; [|done..]. by split.
    + apply sweepObject_spec in Hw as [Hf _]; [|done..]. by split.
Qed.

Lemma sweepKinds_spec ks t r :
  (forall k, k ∈ ks -> k ∈ lists) -> lists_selected t ->
  runs (for_each ks (fun kind =>
    objs ← wrapf ("failed to list orphaned data-plane objects in " +:+ fmt_q Namespace +:+ ": ")
             (request (ListObjects kind listOpts));
    for_each objs (sweepObject kind))) t r ->
  Forall deletes_orphan t /\
  (r = Ok tt -> forall kind, kind ∈ ks -> exists l, ev (ListObjects kind listOpts) (inl l) ∈ t /\
     forall o, o ∈ l -> isOrphanedDataPlaneObject o = true -> object_gone kind o t).
Proof.
  revert t r. induction ks as [|k ks IH]; intros t r Hks Hsel Hr.
  - destruct Hr as [-> _]. split; [constructor|]. intros _ k Hk. set_solver.
  - cbn [for_each] in Hr.
    assert (Hone : forall t r, lists_selected t ->
      runs (objs ← wrapf ("failed to list orphaned data-plane objects in " +:+ fmt_q Namespace +:+ ": ")
             (request (ListObjects k listOpts)); for_each objs (sweepObject k)) t r ->
      Forall deletes_orphan t /\ (r = Ok tt -> exists l, ev (ListObjects k listOpts) (inl l) ∈ t /\
        forall o, o ∈ l -> isOrphanedDataPlaneObject o = true -> object_gone k o t)).
    { intros u q Hu (x&u1&->&Hq)%runs_wrapf_request. destruct x as [l|e].
      - apply sweepObjects_spec in Hq as [Hf Hg]; [|set_solver|apply (Hu k); set_solver].
        split; [constructor; [by unmutating|done]|]. intros ->. exists l. split; [set_solver|].
        intros o Ho Hown. destruct (Hg eq_refl _ Ho Hown) as [?|(err&?&?)]; [left|right; exists err]; set_solver.
      - destruct Hq as [-> ->]. split; [|done]. constructor; [by unmutating|constructor]. }
    apply runs_bind in Hr as [(t1&[]&t2&->&H1&H2)|[(e&->&He)|(w&->&Hw)]].
    + apply Hone in H1 as [Hf1 Hg1]; [|intros kind l Hin; apply (Hsel kind); set_solver].
      apply IH in H2 as [Hf2 Hg2]; [|set_solver|intros kind l Hin; apply (Hsel kind); set_solver].
      split; [by apply Forall_app|]. intros -> kind [->|Hin]%elem_of_cons.
      * destruct (Hg1 eq_refl) as (l&Hl&Hall). exists l. split; [set_solver|].
        intros o Ho Hown. destruct (Hall o Ho Hown) as [?|(err&?&?)]; [left|right; exists err]; set_solver.
      * destruct (Hg2 eq_refl kind Hin) as (l&Hl&Hall). exists l. split; [set_solver|].
        intros o Ho Hown. destruct (Hall o Ho Hown) as [?|(err&?&?)]; [left|right; exists err]; set_solver.
    + apply Hone in He as [Hf _]; [|done]. by split.
    + apply Hone in Hw as [Hf _]; [|done]. by split.
Qed.

(** C21: the orphan sweep.  Provided the API server honours the list options,
    every object the sweep deletes lies in kube-system, is managed by
    envoy-gateway and is owned by a Gateway - which none of the control-plane
    objects the extension ships is, by their labels - and a successful sweep has
    listed every kind of the code's own table and left no such object it listed. *)
Theorem Sweep_deletes_exactly_orphans ns t r :
  runs (Sweep ns) t r -> lists_selected t ->
  Forall deletes_orphan t /\
  (r = Ok tt -> forall kind, kind ∈ lists -> exists l, ev (ListObjects kind listOpts) (inl l) ∈ t /\
     forall o, o ∈ l -> orphan o -> object_gone kind o t) /\
  (forall o, om_Labels o = commonLabels -> ~ orphan o).
Proof.
  intros Hr Hsel. unfold Sweep, kubernetesScheme in Hr.
  assert (Hpre : Forall deletes_orphan t /\ (r = Ok tt -> forall kind, kind ∈ lists ->
    exists l, ev (ListObjects kind listOpts) (inl l) ∈ t /\
     forall o, o ∈ l -> isOrphanedDataPlaneObject o = true -> object_gone kind o t)).
  { apply runs_wrapf_request in Hr as (x&t1&->&Hr).
    destruct x as [[]|e]; [|destruct Hr as [-> ->]; split; [by repeat constructor|done]].
    apply runs_wrapf_request in Hr as (y&t2&->&Hr).
    destruct y as [[]|e]; [|destruct Hr as [-> ->]; split; [by repeat constructor|done]].
    apply sweepKinds_spec in Hr as [Hf Hg]; [|done|intros kind l Hin; apply (Hsel kind); set_solver].
    split; [by repeat (apply List.Forall_cons; [by unmutating|])|].
    intros Hok kind Hk. destruct (Hg Hok kind Hk) as (l&Hl&Hall). exists l. split; [set_solver|].
    intros o Ho Hown. destruct (Hall o Ho Hown) as [?|(err&?&?)]; [left|right; exists err]; set_solver. }
  destruct Hpre as [Hf Hg]. split_and!; [done| |].
  - intros Hok kind Hk. destruct (Hg Hok kind Hk) as (l&Hl&Hall). exists l. split; [done|].
    intros o Ho (_&_&Hown). apply Hall; [done|]. unfold isOrphanedDataPlaneObject. by apply bool_decide_eq_true.
  - intros o Hl (_&_&Hown). rewrite Hl in Hown. by destruct Hown.
Qed.
