(* ===== verification/NetpolController.v ===== *)
(** * The data-plane NetworkPolicy controller (pkg/netpolcontroller)

    The reconciler keyed by Gateway namespace (reconciler.go) and the watch
    predicates and mappings that feed its queue (watches.go). *)

From S2P Require Import Prelude GoStd Errors Effects KubeObjects Constants External.
From S2P Require Import DataPlanePolicies.


(** ** reconciler.go *)

Module Reconciler.

(** [namespaceHasManagedGateway]: the loop over the listed Gateways. *)
Fixpoint hasManagedGateway (items : list Gateway) : bool :=
  match items with
  | [] => false
  | gw :: items =>
      if decide (gw_GatewayClassName gw = GatewayClassName) then true
      else hasManagedGateway items
  end.

Definition namespaceHasManagedGateway (namespace : string) : IO bool :=
  gateways ← wrapf ("failed to list Gateways in namespace " +:+ fmt_q namespace +:+ ": ")
               (request (ListGateways [InNamespace namespace]));
  mret (hasManagedGateway gateways).

(** The mutate function [apply] hands to [CreateOrUpdate]. *)
Definition applyMutate (desired obj : NetworkPolicy) : NetworkPolicy :=
  mkNetworkPolicy (np_Name obj) (np_Namespace obj) (np_Labels desired) (np_Spec desired).

(** [Reconciler.apply]. *)
Definition apply (desired : NetworkPolicy) : IO unit :=
  wrapf ("failed to apply NetworkPolicy " +:+ np_Namespace desired +:+ "/" +:+ np_Name desired +:+ ": ")
    (request (CreateOrUpdateNetworkPolicy (np_Namespace desired) (np_Name desired)
                (applyMutate desired))).

(** [Reconciler.pruneNamespace]. *)
Definition pruneNamespace (gatewayNs : string) : IO unit :=
  for_each [DataPlaneNetworkPolicyName; ProxyEgressNetworkPolicyName] (fun name =>
    wrapf ("failed to delete NetworkPolicy " +:+ gatewayNs +:+ "/" +:+ name +:+ ": ")
      (ignoreNotFound (request (DeleteNetworkPolicy gatewayNs name)))).

(** [Reconciler.Reconcile]: the result carries no requeue, so it is [unit]. *)
Definition Reconcile (gatewayNs : string) : IO unit :=
  hasGateway ← namespaceHasManagedGateway gatewayNs;
  if negb hasGateway then pruneNamespace gatewayNs
  else
    apply (DataPlaneProxyIngressPolicy gatewayNs) ;;
    apply (ProxyEgressPolicy gatewayNs).

End Reconciler.

(** ** watches.go *)

Module Watches.

(** controller-runtime's typed watch events; objects are pointers. *)
Inductive event_of (A : Type) : Type :=
  | CreateEvent (Object : option A)
  | UpdateEvent (ObjectOld ObjectNew : option A)
  | DeleteEvent (Object : option A)
  | GenericEvent (Object : option A).
Arguments CreateEvent {A}.
Arguments UpdateEvent {A}.
Arguments DeleteEvent {A}.
Arguments GenericEvent {A}.

(** [requestFor]: a request is a namespace; the name is empty. *)
Definition requestFor (gatewayNamespace : string) : NamespacedName := mkKey gatewayNamespace "".

Definition mapGatewayToRequests (gw : Gateway) : list NamespacedName :=
  [requestFor (gw_Namespace gw)].

(** A missing key reads as the empty string. *)
Definition label (ls : labels) (k : string) : string := default "" (ls !! k).

Definition mapManagedPolicyToRequests (np : NetworkPolicy) : list NamespacedName :=
  let hop := label (np_Labels np) LabelHop in
  if decide (hop = HopProxyIngress \/ hop = HopProxyEgress)
  then [requestFor (np_Namespace np)]
  else [].

Definition isManagedGateway (gw : option Gateway) : bool :=
  match gw with
  | Some gw => bool_decide (gw_GatewayClassName gw = GatewayClassName)
  | None => false
  end.

Definition isManagedPolicy (np : option NetworkPolicy) : bool :=
  match np with
  | Some np =>
      bool_decide (label (np_Labels np) LabelManagedBy = LabelManagedByValue) &&
      bool_decide (label (np_Labels np) LabelHop <> "")
  | None => false
  end.

(** [managedGatewayPredicate]: an update is judged by its new object only. *)
Definition managedGatewayPredicate (e : event_of Gateway) : bool :=
  match e with
  | CreateEvent o => isManagedGateway o
  | UpdateEvent _ n => isManagedGateway n
  | DeleteEvent o => isManagedGateway o
  | GenericEvent o => isManagedGateway o
  end.

(** [managedPolicyPredicate]. *)
Definition managedPolicyPredicate (e : event_of NetworkPolicy) : bool :=
  match e with
  | CreateEvent o => isManagedPolicy o
  | DeleteEvent o => isManagedPolicy o
  | UpdateEvent _ n => isManagedPolicy n
  | GenericEvent o => isManagedPolicy o
  end.

End Watches.

(** ** AddToManager: the two watches

    A watch hands an event that passes its predicate to the map function, for
    the old and for the new object of an update. *)

Module Wiring.
Import Watches.

Definition event_objects {A} (e : event_of A) : list A :=
  match e with
  | CreateEvent o | DeleteEvent o | GenericEvent o => option_list o
  | UpdateEvent o n => option_list o ++ option_list n
  end.

Definition requests {A} (predicate : event_of A -> bool) (mapFn : A -> list NamespacedName)
    (e : event_of A) : list NamespacedName :=
  if predicate e then event_objects e ≫= mapFn else [].

Definition gatewayRequests : event_of Gateway -> list NamespacedName :=
  requests managedGatewayPredicate mapGatewayToRequests.

Definition policyRequests : event_of NetworkPolicy -> list NamespacedName :=
  requests managedPolicyPredicate mapManagedPolicyToRequests.

End Wiring.
