(* ===== verification/ManifestProps.v ===== *)
(** * Properties of the shipped objects

    The control-plane objects refer to each other consistently, the policies on
    both sides of the xDS connection admit it, and the RBAC of the NetworkPolicy
    controller is what its program needs. *)

From Stdlib Require Import Ascii.
From S2P Require Import Prelude GoStd Errors Effects KubeObjects Constants Config External.
From S2P Require Import Interfaces Manifests Deployer DataPlanePolicies NetpolController.

(** ** The control-plane workload *)

(** A Service port resolves to a container port by name, with the same number. *)
Definition resolves (c : Container) (p : ServicePort) : Prop :=
  exists q, q ∈ c_Ports c /\ sp_TargetPort p = FromString (cp_Name q) /\
            cp_ContainerPort q = sp_Port p /\ cp_Protocol q = sp_Protocol p.

(** A policy port is a container port. *)
Definition exposed (c : Container) (p : NetworkPolicyPort) : Prop :=
  exists q, q ∈ c_Ports c /\ npp_Port p = FromInt (cp_ContainerPort q) /\ npp_Protocol p = cp_Protocol q.

Definition hardened (ps : PodSpec) : Prop :=
  psc_RunAsNonRoot (ps_SecurityContext ps) = true /\ (psc_RunAsUser (ps_SecurityContext ps) > 0)%Z /\
  Forall (fun c => sc_AllowPrivilegeEscalation (c_SecurityContext c) = false /\
                   sc_ReadOnlyRootFilesystem (c_SecurityContext c) = true /\
                   "ALL"%string ∈ sc_Drop (c_SecurityContext c)) (ps_Containers ps).

(** C29: the control plane is wired consistently.  For every configuration and
    image: the Deployment, the Service, the PodDisruptionBudget and the
    NetworkPolicy select the pods the Deployment creates; every Service port
    resolves to a container port of the same number and every policy port is
    exposed; every mount has its volume, and the volumes name the ConfigMap and
    the TLS Secret that are shipped; the container reads the configuration file
    at its mount; the pods run under the bound ServiceAccount, unprivileged. *)
Theorem control_plane_wiring `{Libraries} cfg iv d :
  Manifests.deployment cfg iv = Ok d ->
  let pod := ds_TemplateSpec (dep_Spec d) in
  let podLabels := ds_TemplateLabels (dep_Spec d) in
  MatchLabels (ds_Selector (dep_Spec d)) ⊆ podLabels /\
  svc_Selector service ⊆ podLabels /\ MatchLabels (pdb_Selector podDisruptionBudget) ⊆ podLabels /\
  MatchLabels (nps_PodSelector (np_Spec networkPolicy)) ⊆ podLabels /\
  (forall c p, c ∈ ps_Containers pod -> p ∈ svc_Ports service -> resolves c p) /\
  (forall c r p, c ∈ ps_Containers pod -> r ∈ nps_Ingress (np_Spec networkPolicy) -> p ∈ rule_Ports r -> exposed c p) /\
  (forall c m, c ∈ ps_Containers pod -> m ∈ c_VolumeMounts c ->
     exists v, v ∈ ps_Volumes pod /\ vol_Name v = vm_Name m) /\
  mkVolume "config" (ConfigMapVolume (cm_Name (configMap cfg))) ∈ ps_Volumes pod /\
  (forall tls, mkVolume "certs" (SecretVolume (sec_Name (tlsSecret tls))) ∈ ps_Volumes pod) /\
  is_Some (cm_Data (configMap cfg) !! ConfigFileName) /\
  (forall c, c ∈ ps_Containers pod ->
     ("--config-path=" +:+ ConfigMountPath +:+ "/" +:+ ConfigFileName) ∈ c_Args c /\
     mkMount "config" ConfigMountPath true ∈ c_VolumeMounts c) /\
  (forall b, b ∈ [clusterRoleBinding; leaderElectionRoleBinding] ->
     Exists (fun s => subj_Name s = ps_ServiceAccountName pod /\ subj_Namespace s = dep_Namespace d) (rb_Subjects b)) /\
  hardened pod /\ is_Some (ds_Replicas (dep_Spec d)).
Proof.
  intros Hd. unfold Manifests.deployment in Hd. destruct (iv ImageName) as [image|e]; [|done].
  injection Hd as <-. cbn [dep_Spec ds_TemplateSpec ds_TemplateLabels ds_Selector ds_Replicas dep_Namespace
    ps_Containers ps_Volumes ps_ServiceAccountName ps_SecurityContext MatchLabels].
  assert (Hsel : controlPlaneSelector ⊆ podNetworkLabels ∪ commonLabels)
    by (refine (bool_decide_unpack (controlPlaneSelector ⊆ podNetworkLabels ∪ commonLabels) _); vm_compute; exact I).
  split_and!; [exact Hsel..| | | | | | | | | |].
  - intros c p ->%list_elem_of_singleton Hp. cbn in Hp. unfold resolves.
    apply elem_of_cons in Hp as [->| ->%list_elem_of_singleton];
      [exists (mkContainerPort "grpc-xds" 18000 ProtocolTCP)|exists (mkContainerPort "metrics" 19001 ProtocolTCP)];
      (split; [cbn; set_solver|done]).
  - intros c r p ->%list_elem_of_singleton ->%list_elem_of_singleton Hp. cbn in Hp. unfold exposed.
    apply elem_of_cons in Hp as [->| ->%list_elem_of_singleton];
      [exists (mkContainerPort "grpc-xds" 18000 ProtocolTCP)|exists (mkContainerPort "metrics" 19001 ProtocolTCP)];
      (split; [cbn; set_solver|done]).
  - intros c m ->%list_elem_of_singleton Hm. cbn in Hm.
    apply elem_of_cons in Hm as [->|[->| ->%list_elem_of_singleton]%elem_of_cons];
      [eexists (mkVolume "config" _)|eexists (mkVolume "certs" _)|eexists (mkVolume "wasm-cache" _)];
      (split; [|reflexivity]); [left|right; left|right; right; left].
  - set_solver.
  - intros tls. set_solver.
  - unfold configMap. simpl. rewrite lookup_singleton_eq. eauto.
  - intros c ->%list_elem_of_singleton. cbn. set_solver.
  - intros b Hb. repeat (apply elem_of_cons in Hb as [->|Hb]; [by constructor|]). by apply not_elem_of_nil in Hb.
  - unfold hardened. cbn. split_and!; [done|lia|]. apply Forall_singleton. set_solver.
  - destruct (ControlPlaneReplicas cfg); eauto.
Qed.

(** ** The xDS connection *)

(** A data-plane proxy pod, and a control-plane pod, as the program labels and
    places them. *)
Definition proxyPod (p : Pod) : Prop :=
  pod_Labels p !! LabelManagedBy = Some EnvoyProxyManagedByValue /\
  pod_Labels p !! LabelName = Some EnvoyProxyNameValue.

Definition controlPlanePod (p : Pod) : Prop :=
  podNetworkLabels ∪ commonLabels ⊆ pod_Labels p /\ pod_Namespace p = Namespace /\
  pod_NamespaceLabels p !! MetadataNameLabel = Some Namespace.

Section xds.
Context `{!SelectorSemantics}.

Lemma networkPolicy_admits src proto port :
  admits_ingress networkPolicy src proto port = true <->
  proxyPod src /\ proto = ProtocolTCP /\ (port = XDSPort \/ port = 19001%Z).
Proof.
  assert (Hproxy : forall p, {[ LabelManagedBy := EnvoyProxyManagedByValue; LabelName := EnvoyProxyNameValue ]} ⊆ pod_Labels p <-> proxyPod p).
  { intros p. rewrite subseteq_insert, subseteq_singleton by done. done. }
  unfold admits_ingress, concerns, rule_admits, peer_admits. rewrite bool_decide_true by (by left). simpl.
  rewrite !selects_match_labels, !orb_false_r, !andb_true_iff, !orb_true_iff, !port_admits_spec,
    !bool_decide_eq_true, subseteq_empty, Hproxy. naive_solver.
Qed.

Lemma networkPolicy_applies cp : controlPlanePod cp -> applies_to networkPolicy cp = true.
Proof.
  intros (Hl&Hns&Hnl). unfold applies_to. simpl. rewrite selects_match_labels, andb_true_iff, !bool_decide_eq_true.
  split; [done|]. etransitivity; [|exact Hl].
  refine (bool_decide_unpack (controlPlaneSelector ⊆ podNetworkLabels ∪ commonLabels) _); vm_compute; exact I.
Qed.

Lemma networkPolicy_ingress cp src proto port :
  controlPlanePod cp ->
  ingress_allowed [networkPolicy] cp src proto port = admits_ingress networkPolicy src proto port.
Proof.
  intros Hcp%networkPolicy_applies. unfold ingress_allowed, isolates. cbn [existsb]. rewrite Hcp.
  rewrite !orb_false_r. by destruct (admits_ingress _ _ _ _).
Qed.

Lemma networkPolicy_egress cp dst proto port : egress_allowed [networkPolicy] cp dst proto port = true.
Proof. unfold egress_allowed, isolates. cbn [existsb]. by rewrite andb_false_r. Qed.
End xds.

(** C28: the xDS connection is admitted on both sides.  For a proxy pod and a
    control-plane pod, the policies of the proxy's namespace isolate the proxy's egress and
    let through TCP traffic to the control plane on the xDS port; the
    control plane's policy isolates its ingress and lets the same traffic in; it
    lets in traffic from no pod that is not a proxy, and on no other port than
    xDS and metrics; and it restricts none of the control plane's own egress. *)
Theorem xds_admitted_on_both_sides `{!SelectorSemantics} proxy cp :
  proxyPod proxy -> controlPlanePod cp ->
  isolates (ProxyEgressPolicy (pod_Namespace proxy)) PolicyTypeEgress proxy = true /\
  egress_allowed (dataPlanePolicies (pod_Namespace proxy)) proxy cp ProtocolTCP XDSPort = true /\
  isolates networkPolicy PolicyTypeIngress cp = true /\
  ingress_allowed [networkPolicy] cp proxy ProtocolTCP XDSPort = true /\
  (forall src proto port, ingress_allowed [networkPolicy] cp src proto port = true ->
     proxyPod src /\ proto = ProtocolTCP /\ (port = XDSPort \/ port = 19001%Z)) /\
  (forall dst proto port, egress_allowed [networkPolicy] cp dst proto port = true).
Proof.
  intros Hproxy Hcp. pose proof Hcp as (Hl&Hns&Hnl). split_and!.
  - unfold isolates. apply andb_true_iff. split; [|reflexivity].
    apply (dataPlanePolicies_apply (pod_Namespace proxy)); [by right; left|]. by split.
  - apply dataPlanePolicies_egress. intros _. apply egress_admits. right. right.
    split_and!; [done..| |]; (eapply lookup_weaken; [|exact Hl]); reflexivity.
  - unfold isolates. by rewrite networkPolicy_applies.
  - rewrite networkPolicy_ingress by done. apply networkPolicy_admits. split_and!; [exact Hproxy|done|by left].
  - intros src proto port. rewrite networkPolicy_ingress by done. apply networkPolicy_admits.
  - intros. apply networkPolicy_egress.
Qed.

(** ** RBAC *)

Definition allows (role : Role) (group resource verb : string) : Prop :=
  Exists (fun r => group ∈ APIGroups r /\ resource ∈ Resources r /\ verb ∈ Verbs r) (role_Rules role).

(** The API requests behind a call of the controller: its cached reads list and
    watch, [CreateOrUpdate] gets, creates and updates. *)
Definition needs (c : call) (group resource verb : string) : Prop :=
  match c with
  | External.ListGateways _ =>
      group = APIGroupGatewayAPI /\ resource = "gateways"%string /\ verb ∈ [verbGet; verbList; verbWatch]
  | CreateOrUpdateNetworkPolicy _ _ _ =>
      group = "networking.k8s.io"%string /\ resource = "networkpolicies"%string /\
      verb ∈ [verbGet; verbList; verbWatch; verbCreate; verbUpdate]
  | DeleteNetworkPolicy _ _ =>
      group = "networking.k8s.io"%string /\ resource = "networkpolicies"%string /\ verb = verbDelete
  | _ => False
  end.

(** C34: the NetworkPolicy controller's ClusterRole suffices for every call its
    reconciler can make, and grants nothing but reading Gateways and managing
    NetworkPolicies: no Secrets, no workloads, no Gateway writes. *)
Theorem netpol_role_sufficient_and_least :
  (forall ns t r, runs (Reconciler.Reconcile ns) t r ->
     Forall (fun e => forall g res v, needs (ecall e) g res v -> allows netpolControllerClusterRole g res v) t) /\
  (forall g res v, allows netpolControllerClusterRole g res v ->
     (g = APIGroupGatewayAPI /\ res = "gateways"%string /\ v ∈ readVerbs) \/
     (g = "networking.k8s.io"%string /\ res = "networkpolicies"%string /\ v ∈ crudVerbs)) /\
  role_Name netpolControllerClusterRole = ref_Name (rb_RoleRef netpolControllerClusterRoleBinding) /\
  rb_Subjects netpolControllerClusterRoleBinding =
    [ {| subj_Kind := kindServiceAccount; subj_Name := sa_Name netpolControllerServiceAccount;
         subj_Namespace := sa_Namespace netpolControllerServiceAccount |} ].
Proof.
  assert (Hallow : forall g res v, allows netpolControllerClusterRole g res v <->
     (g = APIGroupGatewayAPI /\ res = "gateways"%string /\ v ∈ readVerbs) \/
     (g = "networking.k8s.io"%string /\ res = "networkpolicies"%string /\ v ∈ crudVerbs)).
  { intros g res v. unfold allows. cbn [role_Rules netpolControllerClusterRole].
    rewrite !Exists_cons, Exists_nil. cbn [APIGroups Resources Verbs].
    rewrite !list_elem_of_singleton. tauto. }
  split_and!; [|naive_solver|done..].
  intros ns t r Hr.
  assert (He : emits (fun e => forall g res v, needs (ecall e) g res v -> allows netpolControllerClusterRole g res v)
                 (Reconciler.Reconcile ns)); [|by eapply He].
  unfold Reconciler.Reconcile, Reconciler.namespaceHasManagedGateway, Reconciler.pruneNamespace, Reconciler.apply.
  emits_auto; rewrite Hallow; match goal with Hneed : needs _ _ _ _ |- _ => cbn in Hneed end; deex; subst.
  - left. by split_and!.
  - right. split_and!; [done..|]. unfold crudVerbs. set_solver.
  - right. split_and!; [done..|]. unfold crudVerbs. set_solver.
  - right. split_and!; [done..|]. unfold crudVerbs. set_solver.
Qed.
