(* ===== verification/ControllerSystem.v ===== *)
(** * The NetworkPolicy controller as a concurrent system

    The shoot's API server, the informer caches that lag behind it, the work
    queue and the single worker of the controller, interleaved with arbitrary
    users.  The worker runs [Reconciler.Reconcile] one call at a time, so users
    and watch deliveries interleave with it. *)

From S2P Require Import Prelude GoStd Errors Effects KubeObjects Constants External.
From S2P Require Import DataPlanePolicies NetpolController.
Import Reconciler Watches Wiring.

(** ** Watch streams

    A stream of events over a kind whose objects are keyed by [key]. *)
Section streams.
Context {A : Type} (key : A -> NamespacedName).

(** The effect of an event on a store, when the event fits the store. *)
Definition apply_event (m : gmap NamespacedName A) (e : event_of A) : option (gmap NamespacedName A) :=
  match e with
  | CreateEvent (Some o) => match m !! key o with
                            | None => Some (<[key o := o]> m)
                            | Some _ => None
                            end
  | UpdateEvent (Some o) (Some n) =>
      match m !! key n with
      | Some _ => Some (<[key n := n]> m)
      | None => None
      end
  | DeleteEvent (Some o) => match m !! key o with
                            | Some _ => Some (delete (key o) m)
                            | None => None
                            end
  | _ => None
  end.

(** The event carries the stored object as its old object. *)
Definition event_fits (m : gmap NamespacedName A) (e : event_of A) : Prop :=
  match e with
  | CreateEvent (Some o) => m !! key o = None
  | UpdateEvent (Some o) (Some n) => key o = key n /\ m !! key n = Some o
  | DeleteEvent (Some o) => m !! key o = Some o
  | _ => False
  end.

(** A stream that leads from one store to another. *)
Inductive stream : gmap NamespacedName A -> list (event_of A) -> gmap NamespacedName A -> Prop :=
  | stream_nil m : stream m [] m
  | stream_cons m e m1 es m2 :
      event_fits m e -> apply_event m e = Some m1 -> stream m1 es m2 -> stream m (e :: es) m2.
End streams.

Definition gw_key (g : Gateway) : NamespacedName := mkKey (gw_Namespace g) (gw_Name g).

(** ** The system state *)

Record sys := mkSys {
  gws : gmap NamespacedName Gateway;  (** the API server's Gateways *)
  nps : gmap NamespacedName NetworkPolicy;  (** ... and NetworkPolicies *)
  gw_cache : gmap NamespacedName Gateway;  (** the informer caches *)
  np_cache : gmap NamespacedName NetworkPolicy;
  gw_events : list (event_of Gateway);  (** watch events not yet delivered *)
  np_events : list (event_of NetworkPolicy);
  queue : gset NamespacedName;  (** the work queue *)
  worker : option (NamespacedName * io (outcome unit));  (** the request in work *)
}.

Definition set_queue (q : gset NamespacedName) (s : sys) : sys :=
  mkSys (gws s) (nps s) (gw_cache s) (np_cache s) (gw_events s) (np_events s) q (worker s).
Definition set_worker (w : option (NamespacedName * io (outcome unit))) (s : sys) : sys :=
  mkSys (gws s) (nps s) (gw_cache s) (np_cache s) (gw_events s) (np_events s) (queue s) w.

(** A write to the API server, with the watch event it causes. *)
Definition write_gw (m : gmap NamespacedName Gateway) (e : event_of Gateway) (s : sys) : sys :=
  mkSys m (nps s) (gw_cache s) (np_cache s) (gw_events s ++ [e]) (np_events s) (queue s) (worker s).
Definition write_np (m : gmap NamespacedName NetworkPolicy) (e : event_of NetworkPolicy) (s : sys) : sys :=
  mkSys (gws s) m (gw_cache s) (np_cache s) (gw_events s) (np_events s ++ [e]) (queue s) (worker s).

(** ** The shoot client

    [shoot_step s c r s'] is the client's behaviour: a parameter.  Its
    documented behaviour: reads come from the informer cache, writes go to the
    API server, a write based on a stale read fails, and a failed write may
    still have reached the server. *)
Class ShootClient := shoot_step : sys -> forall c, ans c -> sys -> Prop.

(** The effect on the store of a successful write of [o] at [k]. *)
Definition stored (s : sys) (k : NamespacedName) (o : NetworkPolicy) (s' : sys) : Prop :=
  np_key o = k /\
  ((nps s !! k = None /\ s' = write_np (<[k := o]> (nps s)) (CreateEvent (Some o)) s) \/
   (exists old, nps s !! k = Some old /\
      s' = write_np (<[k := o]> (nps s)) (UpdateEvent (Some old) (Some o)) s)).

Definition removed (s : sys) (k : NamespacedName) (s' : sys) : Prop :=
  exists old, nps s !! k = Some old /\
    s' = write_np (delete k (nps s)) (DeleteEvent (Some old)) s.

Definition documented (s : sys) (c : call) : ans c -> sys -> Prop :=
  match c with
  | ListGateways opts => fun r s' =>
      s' = s /\
      match r with
      | inl l => forall g, g ∈ l <->
          (exists k, gw_cache s !! k = Some g) /\ label_selects opts (gw_Namespace g) ∅ = true
      | inr _ => True
      end
  | CreateOrUpdateNetworkPolicy ns name mutate => fun r s' =>
      let k := mkKey ns name in
      let empty := mkNetworkPolicy name ns ∅
                     {| nps_PodSelector := emptySelector; nps_PolicyTypes := [];
                        nps_Ingress := []; nps_Egress := [] |} in
      match r with
      | inl _ =>
          match np_cache s !! k with
          | None => nps s !! k = None /\ stored s k (mutate empty) s'
          | Some o =>
              if decide (mutate o = o) then s' = s
              else nps s !! k = Some o /\ stored s k (mutate o) s'
          end
      | inr _ => s' = s \/
          stored s k (mutate (default empty (np_cache s !! k))) s'
      end
  | DeleteNetworkPolicy ns name => fun r s' =>
      let k := mkKey ns name in
      match r with
      | inl _ => removed s k s'
      | inr e => if IsNotFound e then s' = s /\ nps s !! k = None
                 else s' = s \/ removed s k s'
      end
  | _ => fun _ s' => s' = s
  end.

Class DocumentedClient `{ShootClient} :=
  shoot_step_documented : forall s c r s', shoot_step s c r s' -> documented s c r s'.

(** ** Steps *)

Section steps.
Context `{ShootClient}.
(** What users may do to Gateways and NetworkPolicies. *)
Variable gw_allowed : event_of Gateway -> Prop.
Variable np_allowed : event_of NetworkPolicy -> Prop.

(** One call of the worker's program. *)
Definition advance {A} (s : sys) (p p' : io A) (s' : sys) : Prop :=
  match p with
  | Ret _ => False
  | Call c k => exists r, shoot_step s c r s' /\ p' = k r
  end.

Inductive step : sys -> sys -> Prop :=
  (* a user creates, updates or deletes a Gateway or a NetworkPolicy *)
  | step_user_gw s e m :
      gw_allowed e -> event_fits gw_key (gws s) e -> apply_event gw_key (gws s) e = Some m ->
      step s (write_gw m e s)
  | step_user_np s e m :
      np_allowed e -> event_fits np_key (nps s) e -> apply_event np_key (nps s) e = Some m ->
      step s (write_np m e s)
  (* the informer receives an event, updates its cache and feeds the queue *)
  | step_deliver_gw s e es m :
      gw_events s = e :: es -> apply_event gw_key (gw_cache s) e = Some m ->
      step s (mkSys (gws s) (nps s) m (np_cache s) es (np_events s)
                (list_to_set (gatewayRequests e) ∪ queue s) (worker s))
  | step_deliver_np s e es m :
      np_events s = e :: es -> apply_event np_key (np_cache s) e = Some m ->
      step s (mkSys (gws s) (nps s) (gw_cache s) m (gw_events s) es
                (list_to_set (policyRequests e) ∪ queue s) (worker s))
  (* the worker takes a request *)
  | step_start s req :
      worker s = None -> req ∈ queue s ->
      step s (set_worker (Some (req, Reconcile (key_Namespace req)))
                (set_queue (queue s ∖ {[req]}) s))
  (* ... makes a call *)
  | step_call s req p p' s' :
      worker s = Some (req, p) -> advance s p p' s' ->
      step s (set_worker (Some (req, p')) s')
  (* ... and finishes; an error requeues the request *)
  | step_done s req :
      worker s = Some (req, Ret (Ok tt)) -> step s (set_worker None s)
  | step_failed s req o :
      worker s = Some (req, Ret o) -> o <> Ok tt ->
      step s (set_worker None (set_queue ({[req]} ∪ queue s) s)).

(** At start-up the informers replay every existing object as a create. *)
Definition initial (s : sys) : Prop :=
  gw_cache s = ∅ /\ np_cache s = ∅ /\ queue s = ∅ /\ worker s = None /\
  stream gw_key ∅ (gw_events s) (gws s) /\
  stream np_key ∅ (np_events s) (nps s) /\
  Forall (fun e => gw_allowed e /\ exists o, e = CreateEvent (Some o)) (gw_events s) /\
  Forall (fun e => np_allowed e /\ exists o, e = CreateEvent (Some o)) (np_events s).

Inductive reachable : sys -> Prop :=
  | reachable_init s : initial s -> reachable s
  | reachable_step s s' : reachable s -> step s s' -> reachable s'.
End steps.

(** Nothing is left to do: every event is delivered, the queue is empty and the
    worker idle. *)
Definition quiescent (s : sys) : Prop :=
  gw_events s = [] /\ np_events s = [] /\ queue s = ∅ /\ worker s = None.

(** ** The abstract specification *)

Definition managed_in (m : gmap NamespacedName Gateway) (ns : string) : Prop :=
  exists k g, m !! k = Some g /\ gw_Namespace g = ns /\ gw_GatewayClassName g = GatewayClassName.

(** [b] says whether the namespace should have the policies. *)
Definition policy_ok (b : bool) (s : sys) (p : NetworkPolicy) : Prop :=
  nps s !! np_key p = if b then Some p else None.

(** The namespace holds both policies if it has a managed Gateway, and neither
    otherwise. *)
Definition converged (s : sys) (ns : string) : Prop :=
  exists b : bool, (b = true <-> managed_in (gws s) ns) /\
    Forall (policy_ok b s) (dataPlanePolicies ns).

(** *** The user actions the predicates can observe *)

(** No Gateway leaves the extension's class by an update. *)
Definition keeps_class (e : event_of Gateway) : Prop :=
  match e with
  | UpdateEvent (Some o) (Some n) =>
      gw_GatewayClassName o = GatewayClassName -> gw_GatewayClassName n = GatewayClassName
  | _ => True
  end.

Definition reserved (k : NamespacedName) : Prop :=
  key_Name k = DataPlaneNetworkPolicyName \/ key_Name k = ProxyEgressNetworkPolicyName.

(** A policy under a reserved name carries the managed labels. *)
Definition labelled (p : NetworkPolicy) : Prop :=
  reserved (np_key p) ->
  label (np_Labels p) LabelManagedBy = LabelManagedByValue /\
  (label (np_Labels p) LabelHop = HopProxyIngress \/ label (np_Labels p) LabelHop = HopProxyEgress).

Definition keeps_labels (e : event_of NetworkPolicy) : Prop := Forall labelled (event_objects e).
