(* ===== verification/ControllerConvergence.v ===== *)
(** * Convergence of the NetworkPolicy controller

    The inductive invariant of the system of ControllerSystem.v: every namespace
    is either settled, in work, or covered by a queued request or an undelivered
    watch event that will enqueue it. *)

From S2P Require Import Prelude GoStd Errors Effects KubeObjects Constants External.
From S2P Require Import DataPlanePolicies NetpolController ControllerSystem.
Import Reconciler Watches Wiring.


(** What is left of [Reconcile] after the Gateways were listed. *)
Definition pruneOne (ns name : string) : IO unit :=
  wrapf ("failed to delete NetworkPolicy " +:+ ns +:+ "/" +:+ name +:+ ": ")
    (ignoreNotFound (request (DeleteNetworkPolicy ns name))).

Fixpoint applyAll (l : list NetworkPolicy) : IO unit :=
  match l with
  | [] => mret tt
  | [p] => apply p
  | p :: l => apply p ;; applyAll l
  end.

Definition remaining (b : bool) (ns : string) (l : list NetworkPolicy) : IO unit :=
  if b then applyAll l else for_each (np_Name <$> l) (pruneOne ns).

(** The programs the worker can be in, and what they mean for the state. *)
Definition shaped (ns : string) (p : IO unit) : Prop :=
  p = Reconcile ns \/ (exists e, p = Ret (Err e)) \/
  exists b past rest, past ++ rest = dataPlanePolicies ns /\ p = remaining b ns rest.

Definition agrees (b : bool) (s : sys) (ns : string) : Prop := b = true <-> managed_in (gws s) ns.

Definition in_work (s : sys) (ns : string) (p : IO unit) : Prop :=
  p = Reconcile ns \/ (exists e, p = Ret (Err e)) \/
  exists b past rest, past ++ rest = dataPlanePolicies ns /\ p = remaining b ns rest /\
    agrees b s ns /\ Forall (policy_ok b s) past.

(** The worker's program for a namespace. *)
Definition work_of (s : sys) (ns : string) : option (IO unit) :=
  match worker s with
  | Some (req, p) => if decide (req = requestFor ns) then Some p else None
  | None => None
  end.

Definition good (s : sys) (ns : string) : Prop :=
  match work_of s ns with
  | Some p => in_work s ns p
  | None => converged s ns
  end.

Definition covered (s : sys) (ns : string) : Prop :=
  requestFor ns ∈ queue s \/
  Exists (fun e => requestFor ns ∈ gatewayRequests e) (gw_events s) \/
  Exists (fun e => requestFor ns ∈ policyRequests e) (np_events s).

Record inv (s : sys) : Prop := {
  inv_gw : stream gw_key (gw_cache s) (gw_events s) (gws s);
  inv_np : stream np_key (np_cache s) (np_events s) (nps s);
  inv_class : Forall keeps_class (gw_events s);
  inv_labels : Forall keeps_labels (np_events s);
  inv_labelled : map_Forall (fun _ => labelled) (nps s);
  inv_keys : map_Forall (fun k p => np_key p = k) (nps s);
  inv_keyed : map_Forall (fun k p => np_key p = k) (np_cache s);
  inv_queue : forall req, req ∈ queue s -> exists ns, req = requestFor ns;
  inv_worker : forall req p, worker s = Some (req, p) -> exists ns, req = requestFor ns /\ shaped ns p;
  inv_good : forall ns, covered s ns \/ good s ns;
}.

(** ** Watch streams *)

Section stream_lemmas.
Context {A : Type} (key : A -> NamespacedName).

Lemma stream_snoc m es m1 e m2 :
  stream key m es m1 -> event_fits key m1 e -> apply_event key m1 e = Some m2 ->
  stream key m (es ++ [e]) m2.
Proof. induction 1; intros; simpl; econstructor; eauto using stream. Qed.

(** A fact that every event preserves holds at the end if it held at the start. *)
Lemma stream_preserves (R : gmap NamespacedName A -> gmap NamespacedName A -> Prop) (P : event_of A -> Prop)
    m es m' :
  (forall m, R m m) -> (forall m1 m2 m3, R m1 m2 -> R m2 m3 -> R m1 m3) ->
  (forall m e m1, P e -> event_fits key m e -> apply_event key m e = Some m1 -> R m m1) ->
  stream key m es m' -> Forall P es -> R m m'.
Proof.
  intros Hrefl Htrans Hstep. induction 1; intros HP; [done|].
  inv HP. eapply Htrans; [by eapply Hstep|by eauto].
Qed.

Lemma apply_event_lookup_ne m e m1 k :
  event_fits key m e -> apply_event key m e = Some m1 ->
  Forall (fun o => key o <> k) (event_objects e) -> m1 !! k = m !! k.
Proof.
  intros Hf He Hk.
  destruct e as [[o|]|[o|] [n|]|[o|]|[o|]]; simpl in *; try done;
    repeat case_hyp; simplify_eq; decompose_Forall_hyps;
    by rewrite ?lookup_insert_ne, ?lookup_delete_ne.
Qed.

Lemma apply_event_Forall (P : NamespacedName -> A -> Prop) m e m1 :
  (forall o, o ∈ event_objects e -> P (key o) o) ->
  apply_event key m e = Some m1 -> map_Forall P m -> map_Forall P m1.
Proof.
  intros HP He Hm.
  destruct e as [[o|]|[o|] [n|]|[o|]|[o|]]; simpl in *; try done;
    repeat case_hyp; simplify_eq;
    first [apply map_Forall_insert_2; [apply HP; set_solver|done]|by apply map_Forall_delete].
Qed.
End stream_lemmas.

(** ** What unobserved events leave unchanged *)

Lemma elem_of_gatewayRequests ns e :
  requestFor ns ∈ gatewayRequests e <->
  managedGatewayPredicate e = true /\ Exists (fun g => gw_Namespace g = ns) (event_objects e).
Proof.
  unfold gatewayRequests, requests. destruct (managedGatewayPredicate e) eqn:E; [|set_solver].
  rewrite list_elem_of_bind, Exists_exists. unfold mapGatewayToRequests, requestFor.
  split.
  - intros (g&Hg%list_elem_of_singleton&Hin). injection Hg as ->. split; [done|]. by exists g.
  - intros (_&g&Hin&<-). exists g. by rewrite list_elem_of_singleton.
Qed.

Lemma elem_of_policyRequests ns e :
  requestFor ns ∈ policyRequests e <->
  managedPolicyPredicate e = true /\
  Exists (fun p => np_Namespace p = ns /\
                   (label (np_Labels p) LabelHop = HopProxyIngress \/
                    label (np_Labels p) LabelHop = HopProxyEgress)) (event_objects e).
Proof.
  unfold policyRequests, requests. destruct (managedPolicyPredicate e) eqn:E; [|set_solver].
  rewrite list_elem_of_bind, Exists_exists. unfold mapManagedPolicyToRequests, requestFor.
  split.
  - intros (p&Hp&Hin). split; [done|]. case_decide; [|set_solver].
    apply list_elem_of_singleton in Hp. injection Hp as ->. by exists p.
  - intros (_&p&Hin&<-&Hhop). exists p. rewrite decide_True by done. by rewrite list_elem_of_singleton.
Qed.

(** An event the Gateway watch ignores does not change which namespaces hold a
    managed Gateway. *)
Lemma unobserved_gateway ns m e m1 :
  keeps_class e -> event_fits gw_key m e -> apply_event gw_key m e = Some m1 ->
  requestFor ns ∉ gatewayRequests e -> managed_in m ns <-> managed_in m1 ns.
Proof.
  rewrite elem_of_gatewayRequests. intros Hc Hf He Hr.
  destruct e as [[o|]|[o|] [n|]|[o|]|[o|]]; simpl in *; try done.
  - (* create *)
    rewrite Hf in He. injection He as <-.
    assert (Hno : ~ (gw_Namespace o = ns /\ gw_GatewayClassName o = GatewayClassName)).
    { intros [? ?]. apply Hr. rewrite bool_decide_eq_true, Exists_cons. auto. }
    split; intros (k&g0&Hk&Hn&Hg).
    + exists k, g0. rewrite lookup_insert_ne; [done|congruence].
    + rewrite lookup_insert in Hk. case_decide; simplify_eq; [by destruct Hno|by exists k, g0].
  - (* update *)
    destruct Hf as [Hkey Hf]. rewrite Hf in He. injection He as <-.
    assert (Hns : gw_Namespace o = gw_Namespace n) by (by injection Hkey).
    assert (Hno : ~ (gw_Namespace n = ns /\ gw_GatewayClassName n = GatewayClassName)).
    { intros [? ?]. apply Hr. rewrite bool_decide_eq_true, !Exists_cons. auto. }
    split; intros (k&g0&Hk&Hn&Hg).
    + exists k, g0. rewrite lookup_insert_ne; [done|]. intros <-. simplify_eq.
      destruct Hno. split; [congruence|auto].
    + rewrite lookup_insert in Hk. case_decide; simplify_eq; [by destruct Hno|by exists k, g0].
  - (* delete *)
    rewrite Hf in He. injection He as <-.
    assert (Hno : ~ (gw_Namespace o = ns /\ gw_GatewayClassName o = GatewayClassName)).
    { intros [? ?]. apply Hr. rewrite bool_decide_eq_true, Exists_cons. auto. }
    split; intros (k&g0&Hk&Hn&Hg).
    + exists k, g0. rewrite lookup_delete_ne; [done|]. intros <-. simplify_eq. by destruct Hno.
    + apply lookup_delete_Some in Hk as [? Hk]. by exists k, g0.
Qed.

Lemma labelled_object_key ns p q :
  p ∈ dataPlanePolicies ns -> np_key q = np_key p -> labelled q ->
  np_Namespace q = ns /\ isManagedPolicy (Some q) = true /\
  (label (np_Labels q) LabelHop = HopProxyIngress \/ label (np_Labels q) LabelHop = HopProxyEgress).
Proof.
  intros Hp Hk Hl. assert (Hns := dataPlanePolicies_namespace _ _ Hp).
  destruct Hl as [Hm Hh].
  { rewrite Hk. apply elem_of_dataPlanePolicies in Hp as [->| ->]; [by left|by right]. }
  split; [injection Hk; congruence|]. split; [|done].
  unfold isManagedPolicy. rewrite andb_true_iff, !bool_decide_eq_true.
  split; [done|]. by destruct Hh as [-> | ->].
Qed.

(** An event the policy watch ignores does not touch the two policies. *)
Lemma unobserved_policy ns p m e m1 :
  p ∈ dataPlanePolicies ns ->
  keeps_labels e -> event_fits np_key m e -> apply_event np_key m e = Some m1 ->
  requestFor ns ∉ policyRequests e -> m1 !! np_key p = m !! np_key p.
Proof.
  intros Hp Hl Hf He Hr. eapply apply_event_lookup_ne; [done..|].
  rewrite elem_of_policyRequests in Hr. unfold keeps_labels in Hl.
  apply Forall_forall. intros q Hq Hk. apply Hr.
  assert (labelled q) by (eapply Forall_forall; eauto).
  destruct (labelled_object_key ns p q) as (Hn&Hm&Hh); [done..|].
  split; [|apply Exists_exists; by exists q].
  destruct e as [[o|]|[o|] [n|]|[o|]|[o|]]; try done;
    cbn [managedPolicyPredicate event_objects option_list app event_fits] in *;
    try (apply list_elem_of_singleton in Hq; congruence).
  (* an update: the new object has the key of the old one *)
  destruct Hf as [Hkey _].
  apply elem_of_cons in Hq as [->|Hq%list_elem_of_singleton]; [|congruence].
  eapply (labelled_object_key _ p n); [done|congruence|]. by decompose_Forall_hyps.
Qed.

(** ** Uncovered namespaces see the true state *)

Lemma uncovered_gateways s ns :
  inv s -> ~ covered s ns -> managed_in (gw_cache s) ns <-> managed_in (gws s) ns.
Proof.
  intros Hi Hc.
  eapply (stream_preserves gw_key (fun m1 m2 => managed_in m1 ns <-> managed_in m2 ns)
            (fun e => keeps_class e /\ requestFor ns ∉ gatewayRequests e));
    [done|naive_solver|..|by apply Hi|].
  - intros m e m1 [??] ??. by eapply unobserved_gateway.
  - apply Forall_and. split; [by apply Hi|]. apply Forall_Exists_neg.
    intros ?. apply Hc. right. by left.
Qed.

Lemma uncovered_policy s ns p :
  inv s -> ~ covered s ns -> p ∈ dataPlanePolicies ns ->
  nps s !! np_key p = np_cache s !! np_key p.
Proof.
  intros Hi Hc Hp. symmetry.
  eapply (stream_preserves np_key (fun m1 m2 => m1 !! np_key p = m2 !! np_key p)
            (fun e => keeps_labels e /\ requestFor ns ∉ policyRequests e));
    [done|congruence|..|by apply Hi|].
  - intros m e m1 [??] ??. symmetry. by eapply unobserved_policy.
  - apply Forall_and. split; [by apply Hi|]. apply Forall_Exists_neg.
    intros ?. apply Hc. right. by right.
Qed.

(** ** The worker's programs, one call at a time *)

Lemma shaped_policies ns past rest :
  past ++ rest = dataPlanePolicies ns ->
  (past = [] /\ rest = dataPlanePolicies ns) \/
  (past = [DataPlaneProxyIngressPolicy ns] /\ rest = [ProxyEgressPolicy ns]) \/
  (past = dataPlanePolicies ns /\ rest = []).
Proof.
  intros H. unfold dataPlanePolicies in *.
  destruct past as [|p1 [|p2 [|p3 past]]]; simplify_eq/=; naive_solver.
Qed.

Section advance.
Context `{ShootClient}.

Lemma advance_Reconcile s ns p' s' :
  advance s (Reconcile ns) p' s' ->
  exists r, shoot_step s (ListGateways [InNamespace ns]) r s' /\
    match r with
    | inl l => p' = remaining (hasManagedGateway l) ns (dataPlanePolicies ns)
    | inr _ => exists e, p' = Ret (Err e)
    end.
Proof.
  intros (r&Hs&->). exists r. split; [done|].
  destruct r as [l|e]; cbn; [by destruct (hasManagedGateway l)|eauto].
Qed.

Lemma advance_apply s p rest ns p' s' :
  advance s (remaining true ns (p :: rest)) p' s' ->
  exists r, shoot_step s (CreateOrUpdateNetworkPolicy (np_Namespace p) (np_Name p) (applyMutate p)) r s' /\
    match r with
    | inl _ => p' = remaining true ns rest
    | inr _ => exists e, p' = Ret (Err e)
    end.
Proof.
  destruct rest as [|p2 rest]; intros (r&Hs&->); exists r; (split; [done|]);
    destruct r as [[]|e]; cbn; eauto.
Qed.

Lemma advance_prune s p rest ns p' s' :
  advance s (remaining false ns (p :: rest)) p' s' ->
  exists r, shoot_step s (DeleteNetworkPolicy ns (np_Name p)) r s' /\
    match r with
    | inl _ => p' = remaining false ns rest
    | inr e => if IsNotFound e then p' = remaining false ns rest
               else exists e, p' = Ret (Err e)
    end.
Proof.
  intros (r&Hs&->). exists r. split; [done|].
  destruct r as [[]|e]; cbn; [done|]. destruct (IsNotFound e); cbn; eauto.
Qed.
End advance.

Lemma hasManagedGateway_spec l :
  hasManagedGateway l = true <-> exists g, g ∈ l /\ gw_GatewayClassName g = GatewayClassName.
Proof.
  induction l as [|g l IH]; simpl; [set_solver|].
  case_decide; [split; [|done]; intros _; exists g; set_solver|].
  rewrite IH. set_solver.
Qed.

(** ** The worker's writes *)

(** A write of the worker for [ns]: an event on one of its two policies. *)
Definition own_write (s : sys) (ns : string) (s' : sys) : Prop :=
  exists p m e, p ∈ dataPlanePolicies ns /\ s' = write_np m e s /\
    event_fits np_key (nps s) e /\ apply_event np_key (nps s) e = Some m /\
    Forall (fun o => np_key o = np_key p /\ labelled o) (event_objects e).

Lemma dataPlanePolicies_labelled ns p : p ∈ dataPlanePolicies ns -> labelled p.
Proof.
  intros [->| ->]%elem_of_dataPlanePolicies _; (split; [done|]); [by left|by right].
Qed.

Lemma stored_own_write s ns p s' :
  inv s -> p ∈ dataPlanePolicies ns -> stored s (np_key p) p s' -> own_write s ns s'.
Proof.
  intros Hi Hp [_ [[Hk ->]|(old&Hk&->)]].
  - exists p, (<[np_key p := p]> (nps s)), (CreateEvent (Some p)). simpl. rewrite Hk.
    split_and!; try done. constructor; [|done]. by eauto using dataPlanePolicies_labelled.
  - assert (Hl := inv_labelled _ Hi _ _ Hk).
    pose proof (inv_keys _ Hi _ _ Hk : np_key old = np_key p) as Hold.
    exists p, (<[np_key p := p]> (nps s)), (UpdateEvent (Some old) (Some p)). simpl. rewrite Hk.
    split_and!; try done. pose proof (dataPlanePolicies_labelled _ _ Hp).
    repeat (apply List.Forall_cons; [done|]). done.
Qed.

Lemma removed_own_write s ns p s' :
  inv s -> p ∈ dataPlanePolicies ns -> removed s (np_key p) s' -> own_write s ns s'.
Proof.
  intros Hi Hp (old&Hk&->).
  assert (Hl := inv_labelled _ Hi _ _ Hk).
  pose proof (inv_keys _ Hi _ _ Hk : np_key old = np_key p) as Hold.
  exists p, (delete (np_key p) (nps s)), (DeleteEvent (Some old)). simpl. rewrite Hold, Hk.
  split_and!; try done. by apply List.Forall_cons.
Qed.

(** The controller observes its own writes. *)
Lemma own_write_covered s ns s' : own_write s ns s' -> covered s' ns.
Proof.
  intros (p&m&e&Hp&->&Hf&He&Ho). right. right. simpl. rewrite Exists_app. right.
  apply Exists_cons. left. destruct (decide (requestFor ns ∈ policyRequests e)) as [|Hno]; [done|].
  exfalso. rewrite elem_of_policyRequests in Hno. apply Hno.
  destruct e as [[o|]|[o|] [n|]|[o|]|[o|]]; try done; simpl in Ho; decompose_Forall_hyps;
    repeat match goal with H : _ /\ _ |- _ => destruct H end;
    cbn [managedPolicyPredicate event_objects option_list app].
  - destruct (labelled_object_key ns p o) as (?&?&?); [done..|]. split; [done|]. apply Exists_cons. auto.
  - destruct (labelled_object_key ns p n) as (?&?&?); [done..|]. split; [done|].
    rewrite !Exists_cons. auto.
  - destruct (labelled_object_key ns p o) as (?&?&?); [done..|]. split; [done|]. apply Exists_cons. auto.
Qed.

(** ... and they leave the other namespaces alone. *)
Lemma own_write_other s ns s' ns' p :
  own_write s ns s' -> ns' <> ns -> p ∈ dataPlanePolicies ns' ->
  nps s' !! np_key p = nps s !! np_key p.
Proof.
  intros (q&m&e&Hq&->&Hf&He&Ho) Hne Hp. simpl. eapply apply_event_lookup_ne; [done..|].
  eapply Forall_impl; [done|]. simpl. intros o [Hk _] Heq. apply Hne.
  rewrite <- (dataPlanePolicies_namespace ns' p), <- (dataPlanePolicies_namespace ns q) by done.
  rewrite Hk in Heq. by injection Heq.
Qed.

Section advance_spec.
Context `{DocumentedClient}.

Lemma list_agrees s ns l s' :
  inv s -> documented s (ListGateways [InNamespace ns]) (inl l) s' ->
  s' = s /\ (~ covered s ns -> agrees (hasManagedGateway l) s ns).
Proof.
  intros Hi [-> Hl]. split; [done|]. intros Hc. unfold agrees.
  rewrite <- uncovered_gateways by done. rewrite hasManagedGateway_spec. unfold managed_in.
  split.
  - intros (g&Hg&Hcl). apply Hl in Hg as [[k Hk] Hns]. simpl in Hns.
    rewrite andb_true_r, bool_decide_eq_true in Hns. by exists k, g.
  - intros (k&g&Hk&Hns&Hcl). exists g. split; [|done]. apply Hl. split; [by exists k|].
    simpl. by rewrite andb_true_r, bool_decide_eq_true.
Qed.

(** What one call on the policy [p] of [ns] does to the system, and that it
    settles [p] when it goes through without a write. *)
Definition settles_call (b : bool) (s : sys) ns p rest (p' : IO unit) (s' : sys) : Prop :=
  (s' = s \/ own_write s ns s') /\
  ((exists e, p' = Ret (Err e)) \/
   p' = remaining b ns rest /\ (s' = s -> ~ covered s ns -> policy_ok b s p)).

Lemma apply_call_settles s ns p rest p' s' :
  inv s -> p ∈ dataPlanePolicies ns ->
  advance s (remaining true ns (p :: rest)) p' s' -> settles_call true s ns p rest p' s'.
Proof using Type*.
  intros Hi Hp Ha. apply advance_apply in Ha as (r&Hs&Hr). apply shoot_step_documented in Hs.
  simpl in Hs. change (mkKey (np_Namespace p) (np_Name p)) with (np_key p) in Hs.
  assert (Hmut : forall o, np_key o = np_key p -> applyMutate p o = p).
  { intros o [= ? ?]. unfold applyMutate. destruct p; simpl in *. congruence. }
  destruct r as [[]|e].
  - destruct (np_cache s !! np_key p) as [o|] eqn:Hc.
    + assert (Ho := inv_keyed _ Hi _ _ Hc). rewrite Hmut in Hs by done.
      case_decide; [subst s'|destruct Hs as [_ Hs]].
      * split; [by left|]. right. split; [done|]. intros _ Hcov.
        unfold policy_ok. rewrite (uncovered_policy s ns), Hc by done. congruence.
      * apply (stored_own_write _ ns) in Hs; [|done..]. split; [by right|]. right.
        split; [done|]. intros -> Hcov. by destruct Hcov; apply own_write_covered in Hs.
    + destruct Hs as [_ Hs]. rewrite Hmut in Hs by done.
      apply (stored_own_write _ ns) in Hs; [|done..]. split; [by right|]. right.
      split; [done|]. intros -> Hcov. by destruct Hcov; apply own_write_covered in Hs.
  - split; [|by left]. destruct Hs as [->|Hs]; [by left|right].
    rewrite Hmut in Hs; [by eapply stored_own_write|].
    destruct (np_cache s !! np_key p) as [o|] eqn:Hc; [by apply (inv_keyed _ Hi _ _ Hc)|done].
Qed.

Lemma prune_call_settles s ns p rest p' s' :
  inv s -> p ∈ dataPlanePolicies ns ->
  advance s (remaining false ns (p :: rest)) p' s' -> settles_call false s ns p rest p' s'.
Proof using Type*.
  intros Hi Hp Ha. assert (Hns := dataPlanePolicies_namespace _ _ Hp).
  apply advance_prune in Ha as (r&Hs&Hr). apply shoot_step_documented in Hs.
  simpl in Hs. rewrite <- Hns in Hs. change (mkKey (np_Namespace p) (np_Name p)) with (np_key p) in Hs.
  destruct r as [[]|e].
  - apply (removed_own_write _ ns) in Hs; [|done..]. split; [by right|]. right.
    split; [done|]. intros -> Hcov. by destruct Hcov; apply own_write_covered in Hs.
  - destruct (IsNotFound e).
    + destruct Hs as [-> Hs]. split; [by left|]. by right.
    + split; [|by left]. destruct Hs as [->|Hs]; [by left|right]. by eapply removed_own_write.
Qed.

(** One call of what remains of [Reconcile]. *)
Lemma advance_remaining s ns b past rest p' s' :
  inv s -> past ++ rest = dataPlanePolicies ns -> advance s (remaining b ns rest) p' s' ->
  (s' = s \/ own_write s ns s') /\ shaped ns p' /\
  (agrees b s ns -> Forall (policy_ok b s) past -> ~ covered s' ns -> in_work s' ns p').
Proof using Type*.
  intros Hi Hsplit Ha. destruct rest as [|p rest]; [by destruct b|].
  assert (Hp : p ∈ dataPlanePolicies ns) by (rewrite <- Hsplit; set_solver).
  assert (Hsplit' : (past ++ [p]) ++ rest = dataPlanePolicies ns) by (by rewrite <- app_assoc).
  assert (Hnext : shaped ns (remaining b ns rest)) by (right; right; eauto).
  assert (Hkey : settles_call b s ns p rest p' s') by (destruct b; eauto using apply_call_settles, prune_call_settles).
  destruct Hkey as [Heff [[e ->]|[-> Hok]]].
  - split; [done|]. split; [right; left; eauto|]. intros _ _ _. right. left. eauto.
  - split; [done|]. split; [done|]. intros Hag Hpast Hcov.
    destruct Heff as [->|Hw]; [|by destruct Hcov; eapply own_write_covered].
    right. right. exists b, (past ++ [p]), rest. split_and!; try done.
    apply Forall_app. split; [done|]. constructor; [by apply Hok|done].
Qed.
End advance_spec.

(** ** The invariant *)

Lemma good_frame s s' ns :
  worker s' = worker s -> (managed_in (gws s) ns <-> managed_in (gws s') ns) ->
  (forall p, p ∈ dataPlanePolicies ns -> nps s' !! np_key p = nps s !! np_key p) ->
  good s ns -> good s' ns.
Proof.
  intros Hw Hg Hp. unfold good, work_of, converged, in_work, agrees. rewrite Hw.
  assert (Hok : forall b l, (forall p, p ∈ l -> p ∈ dataPlanePolicies ns) ->
            Forall (policy_ok b s) l -> Forall (policy_ok b s') l).
  { intros b l Hl. rewrite !Forall_forall. unfold policy_ok. intros H p Hin.
    rewrite Hp by auto. auto. }
  assert (Hconv : converged s ns -> converged s' ns).
  { intros (b&Hb&Hf). exists b. rewrite <- Hg. split; [done|]. by apply (Hok b). }
  destruct (worker s) as [[req p]|]; [|done]. case_decide; [|done].
  intros [?|[?|(b&past&rest&Hsplit&?&Hb&Hf)]]; [by left|by right; left|].
  right. right. exists b, past, rest. rewrite <- Hg. split_and!; try done.
  apply (Hok b); [|done]. intros q Hq. rewrite <- Hsplit. set_solver.
Qed.

(** Events are only appended, and the queue only grows, outside the worker. *)
Lemma covered_mono s s' ns :
  (forall req, req ∈ queue s -> req ∈ queue s') ->
  (exists l, gw_events s' = gw_events s ++ l) -> (exists l, np_events s' = np_events s ++ l) ->
  covered s ns -> covered s' ns.
Proof.
  intros Hq [l1 H1] [l2 H2] [H|[H|H]]; [left; auto|right; left|right; right].
  - rewrite H1, Exists_app. auto.
  - rewrite H2, Exists_app. auto.
Qed.

Lemma stream_create_ne {A} (key : A -> NamespacedName) m es m' (P : A -> Prop) :
  stream key m es m' -> Forall (fun e => Forall P (event_objects e)) es ->
  map_Forall (fun _ => P) m -> map_Forall (fun _ => P) m'.
Proof.
  intros Hs HP.
  eapply (stream_preserves key (fun m m' => map_Forall (fun _ => P) m -> map_Forall (fun _ => P) m')
            (fun e => Forall P (event_objects e))); eauto.
  intros m1 e m2 HPe _ He. eapply apply_event_Forall; [|done].
  intros o Ho. by eapply Forall_forall.
Qed.

Lemma stream_keyed {A} (key : A -> NamespacedName) m es m' :
  stream key m es m' -> map_Forall (fun k o => key o = k) m -> map_Forall (fun k o => key o = k) m'.
Proof.
  induction 1 as [|m1 e m2 es m3 Hf He Hs IH]; intros Hm; [done|].
  apply IH. by eapply apply_event_Forall.
Qed.

Lemma inv_initial s : initial keeps_class keeps_labels s -> inv s.
Proof.
  intros (Hgc&Hnc&Hq&Hw&Hg&Hn&Hge&Hne).
  assert (Hl : Forall keeps_labels (np_events s)) by (eapply Forall_impl; [done|naive_solver]).
  assert (Hc : Forall keeps_class (gw_events s)) by (eapply Forall_impl; [done|naive_solver]).
  constructor; rewrite ?Hgc, ?Hnc, ?Hw; try done.
  - by apply (stream_create_ne _ _ _ _ labelled Hn).
  - by apply (stream_keyed _ _ _ _ Hn).
  - rewrite Hq. set_solver.
  - intros ns. destruct (decide (requestFor ns ∈ queue s \/
      Exists (fun e => requestFor ns ∈ gatewayRequests e) (gw_events s) \/
      Exists (fun e => requestFor ns ∈ policyRequests e) (np_events s))) as [|Hno]; [by left|right].
    unfold good, work_of. rewrite Hw. exists false. split.
    + split; [done|]. intros Hm. exfalso.
      assert (Hiff : managed_in ∅ ns <-> managed_in (gws s) ns).
      { eapply (stream_preserves gw_key (fun m1 m2 => managed_in m1 ns <-> managed_in m2 ns)
            (fun e => keeps_class e /\ requestFor ns ∉ gatewayRequests e));
          [done|naive_solver|..|done|].
        - intros m e m1 [??] ??. by eapply unobserved_gateway.
        - apply Forall_and. split; [done|]. apply Forall_Exists_neg. tauto. }
      apply Hiff in Hm as (k&g&Hk&_). by rewrite lookup_empty in Hk.
    + apply Forall_forall. intros p Hp. unfold policy_ok. rewrite <- (lookup_empty (np_key p)).
      symmetry. eapply (stream_preserves np_key (fun m1 m2 => m1 !! np_key p = m2 !! np_key p)
            (fun e => keeps_labels e /\ requestFor ns ∉ policyRequests e));
        [done|congruence|..|done|].
      * intros m e m1 [??] ??. symmetry. by eapply unobserved_policy.
      * apply Forall_and. split; [done|]. apply Forall_Exists_neg. tauto.
Qed.

Lemma requestFor_inj ns ns' : requestFor ns = requestFor ns' -> ns = ns'.
Proof. by intros [=]. Qed.

Lemma inv_write_gw s e m :
  inv s -> keeps_class e -> event_fits gw_key (gws s) e -> apply_event gw_key (gws s) e = Some m ->
  inv (write_gw m e s).
Proof.
  intros Hi Hc Hf He. destruct Hi. constructor; simpl; try done.
  - by eapply stream_snoc.
  - apply Forall_app. auto.
  - intros ns. destruct (inv_good0 ns) as [Hcov|Hg].
    { left. eapply covered_mono; [..|done]; simpl; eauto. exists []. by rewrite app_nil_r. }
    destruct (decide (requestFor ns ∈ gatewayRequests e)) as [Hr|Hr].
    + left. right. left. simpl. apply Exists_app. right. by constructor.
    + right. eapply good_frame; [..|done]; try done. by eapply unobserved_gateway.
Qed.

Lemma inv_write_np s e m :
  inv s -> keeps_labels e -> event_fits np_key (nps s) e -> apply_event np_key (nps s) e = Some m ->
  inv (write_np m e s).
Proof.
  intros Hi Hl Hf He. destruct Hi. constructor; simpl; try done.
  - by eapply stream_snoc.
  - apply Forall_app. auto.
  - eapply apply_event_Forall; [|done..]. intros o Ho. by eapply Forall_forall in Ho; [|exact Hl].
  - by eapply apply_event_Forall.
  - intros ns. destruct (inv_good0 ns) as [Hcov|Hg].
    { left. eapply covered_mono; [..|done]; simpl; eauto. exists []. by rewrite app_nil_r. }
    destruct (decide (requestFor ns ∈ policyRequests e)) as [Hr|Hr].
    + left. right. right. simpl. apply Exists_app. right. by constructor.
    + right. eapply good_frame; [..|done]; try done. intros p Hp. by eapply unobserved_policy.
Qed.

Lemma inv_deliver_gw s e es m :
  inv s -> gw_events s = e :: es -> apply_event gw_key (gw_cache s) e = Some m ->
  inv (mkSys (gws s) (nps s) m (np_cache s) es (np_events s)
         (list_to_set (gatewayRequests e) ∪ queue s) (worker s)).
Proof.
  intros Hi Hev He. destruct Hi. rewrite Hev in *. constructor; simpl; try done.
  - inv inv_gw0. by simplify_eq.
  - by inv inv_class0.
  - intros req. rewrite elem_of_union, elem_of_list_to_set. intros [Hr|Hr]; [|auto].
    unfold gatewayRequests, requests in Hr. case_hyp; [|set_solver].
    apply list_elem_of_bind in Hr as (g&Hr&_).
    apply list_elem_of_singleton in Hr as ->. by eexists.
  - intros ns. destruct (inv_good0 ns) as [[H|[H|H]]|Hg].
    + left. left. simpl. set_solver.
    + rewrite Hev, Exists_cons in H. left. destruct H as [H|H]; [left|by right; left].
      simpl. set_solver.
    + left. by right; right.
    + right. by eapply good_frame; [..|done].
Qed.

Lemma inv_deliver_np s e es m :
  inv s -> np_events s = e :: es -> apply_event np_key (np_cache s) e = Some m ->
  inv (mkSys (gws s) (nps s) (gw_cache s) m (gw_events s) es
         (list_to_set (policyRequests e) ∪ queue s) (worker s)).
Proof.
  intros Hi Hev He. destruct Hi. rewrite Hev in *. constructor; simpl; try done.
  - inv inv_np0. by simplify_eq.
  - by inv inv_labels0.
  - by eapply apply_event_Forall.
  - intros req. rewrite elem_of_union, elem_of_list_to_set. intros [Hr|Hr]; [|auto].
    unfold policyRequests, requests in Hr. case_hyp; [|set_solver].
    apply list_elem_of_bind in Hr as (g&Hr&_). unfold mapManagedPolicyToRequests in Hr.
    case_decide; [|set_solver]. apply list_elem_of_singleton in Hr as ->. by eexists.
  - intros ns. destruct (inv_good0 ns) as [[H|[H|H]]|Hg].
    + left. left. simpl. set_solver.
    + left. by right; left.
    + rewrite Hev, Exists_cons in H. left. destruct H as [H|H]; [left|by right; right].
      simpl. set_solver.
    + right. by eapply good_frame; [..|done].
Qed.

(** Changing what the worker does for [ns]. *)
Lemma inv_set_worker s ns w q :
  inv s ->
  (forall ns', ns' <> ns -> work_of s ns' = None) ->
  (forall req p, w = Some (req, p) -> req = requestFor ns /\ shaped ns p) ->
  (forall req, req ∈ q -> req ∈ queue s \/ req = requestFor ns) ->
  (forall req, req ∈ queue s -> req = requestFor ns \/ req ∈ q) ->
  let s' := set_worker w (set_queue q s) in
  covered s' ns \/ good s' ns -> inv s'.
Proof.
  intros Hi Hw Hshape Hq Hq' s' Hns. destruct Hi. constructor; simpl; try done.
  - intros req [H| ->]%Hq; eauto.
  - intros req p [-> ?]%Hshape. eauto.
  - intros ns'. destruct (decide (ns' = ns)) as [->|Hne]; [done|].
    destruct (inv_good0 ns') as [[H|[H|H]]|Hg]; [left; left| by left; right; left|by left; right; right|right].
    + simpl. destruct (Hq' _ H) as [?%requestFor_inj|]; [done|set_solver].
    + unfold good in *. rewrite (Hw _ Hne) in Hg.
      destruct (work_of s' ns') eqn:E; [|done]. exfalso. unfold work_of in E. simpl in E.
      destruct w as [[req p]|]; [|done]. case_decide as Hd; [|done].
      destruct (Hshape _ _ eq_refl) as [-> _]. by apply requestFor_inj in Hd.
Qed.

Lemma work_of_None s ns : worker s = None -> work_of s ns = None.
Proof. unfold work_of. by intros ->. Qed.

Lemma work_of_ne s ns ns' p : worker s = Some (requestFor ns, p) -> ns' <> ns -> work_of s ns' = None.
Proof.
  unfold work_of. intros -> Hne. rewrite decide_False; [done|]. by intros ?%requestFor_inj.
Qed.

Lemma work_of_eq s ns p : worker s = Some (requestFor ns, p) -> work_of s ns = Some p.
Proof. unfold work_of. intros ->. by rewrite decide_True. Qed.

Lemma own_write_inv s ns s' : inv s -> own_write s ns s' -> inv s' /\ worker s' = worker s.
Proof.
  intros Hi (p&m&e&_&->&Hf&He&Ho). split; [|done]. apply inv_write_np; try done.
  eapply Forall_impl; [done|]. by intros o [??].
Qed.

Section steps_preserve.
Context `{DocumentedClient}.

(** One call of the worker's program. *)
Lemma advance_shaped s ns p p' s' :
  inv s -> shaped ns p -> advance s p p' s' ->
  (s' = s \/ own_write s ns s') /\ shaped ns p' /\
  (in_work s ns p -> ~ covered s' ns -> in_work s' ns p').
Proof using Type*.
  intros Hi [->|[[e ->]|(b&past&rest&Hsplit&->)]] Ha.
  - apply advance_Reconcile in Ha as (r&Hs%shoot_step_documented&Hr).
    destruct r as [l|e].
    + apply list_agrees in Hs as [-> Hag]; [|done]. subst p'. split; [by left|].
      split; [right; right; by exists (hasManagedGateway l), [], (dataPlanePolicies ns)|].
      intros _ Hc. right. right.
      exists (hasManagedGateway l), [], (dataPlanePolicies ns). auto.
    + destruct Hs as [-> _]. destruct Hr as [e' ->]. split; [by left|].
      split; [right; left; eauto|]. intros _ _. right. left. eauto.
  - done.
  - destruct (advance_remaining _ _ _ _ _ _ _ Hi Hsplit Ha) as (?&?&Hw).
    split; [done|]. split; [done|].
    intros [Hr|[[e Hr]|(b'&past'&rest'&Hsplit'&Hr&Hag&Hf)]] Hc.
    + exfalso. rewrite Hr in Ha. destruct rest as [|q rest]; [by destruct b|].
      destruct b; [destruct rest|]; discriminate Hr.
    + rewrite Hr in Ha. done.
    + rewrite Hr in Ha.
      by destruct (advance_remaining _ _ _ _ _ _ _ Hi Hsplit' Ha) as (_&_&Hw'); auto.
Qed.

Lemma inv_call s req p p' s' :
  inv s -> worker s = Some (req, p) -> advance s p p' s' ->
  inv (set_worker (Some (req, p')) s').
Proof using Type*.
  intros Hi Hw Ha. destruct (inv_worker _ Hi _ _ Hw) as (ns&->&Hsh).
  destruct (advance_shaped _ _ _ _ _ Hi Hsh Ha) as (Hwr&Hsh'&Hin).
  assert (Hi' : inv s' /\ worker s' = Some (requestFor ns, p)).
  { destruct Hwr as [->|Hwr]; [done|]. rewrite <- Hw. by eapply own_write_inv. }
  destruct Hi' as [Hi' Hw']. destruct (inv_good _ Hi ns) as [Hc|Hg].
  - assert (covered s' ns) by (destruct Hwr as [->|?]; [done|by eapply own_write_covered]).
    apply (inv_set_worker s' ns _ (queue s')); auto.
    + intros ns' Hne. by eapply work_of_ne.
    + by intros req p0 [= <- <-].
  - apply (inv_set_worker s' ns _ (queue s')); auto.
    + intros ns' Hne. by eapply work_of_ne.
    + by intros req p0 [= <- <-].
    + destruct (decide (requestFor ns ∈ queue s' \/
        Exists (fun e => requestFor ns ∈ gatewayRequests e) (gw_events s') \/
        Exists (fun e => requestFor ns ∈ policyRequests e) (np_events s'))) as [|Hno]; [by left|right].
      unfold good in *. rewrite (work_of_eq _ _ _ Hw) in Hg.
      rewrite (work_of_eq (set_worker _ _) ns p') by done. exact (Hin Hg Hno).
Qed.

Lemma inv_done s req :
  inv s -> worker s = Some (req, Ret (Ok tt)) -> inv (set_worker None s).
Proof.
  intros Hi Hw. destruct (inv_worker _ Hi _ _ Hw) as (ns&->&_).
  apply (inv_set_worker s ns _ (queue s)); auto.
  - intros ns' Hne. by eapply work_of_ne.
  - by intros ???.
  - destruct (inv_good _ Hi ns) as [Hc|Hg]; [by left|right].
    unfold good in *. rewrite (work_of_eq _ _ _ Hw) in Hg. rewrite work_of_None by done.
    destruct Hg as [?|[[e ?]|(b&past&rest&Hsplit&Hr&Hag&Hf)]]; [done..|].
    exists b. split; [done|]. rewrite <- Hsplit.
    destruct rest as [|q rest]; [by rewrite app_nil_r|].
    destruct b; [destruct rest|]; discriminate Hr.
Qed.

Lemma inv_step s s' : inv s -> step keeps_class keeps_labels s s' -> inv s'.
Proof using Type*.
  intros Hi Hs. destruct Hs.
  - by eapply inv_write_gw.
  - by eapply inv_write_np.
  - by eapply inv_deliver_gw.
  - by eapply inv_deliver_np.
  - destruct (inv_queue _ Hi req) as [ns ->]; [done|].
    apply (inv_set_worker s ns); auto.
    + intros. by apply work_of_None.
    + intros req p [= <- <-]. split; [done|by left].
    + set_solver.
    + intros req Hr. destruct (decide (req = requestFor ns)); set_solver.
    + right. unfold good. rewrite (work_of_eq _ ns (Reconcile ns)) by done. by left.
  - by eapply inv_call.
  - by eapply inv_done.
  - destruct (inv_worker _ Hi _ _ H1) as (ns&->&_).
    apply (inv_set_worker s ns); auto.
    + intros ns' Hne. by eapply work_of_ne.
    + by intros ???.
    + set_solver.
    + set_solver.
    + left. left. simpl. set_solver.
Qed.

Lemma inv_reachable s : reachable keeps_class keeps_labels s -> inv s.
Proof using Type*. induction 1; eauto using inv_initial, inv_step. Qed.
End steps_preserve.

(** Where nothing is in flight, every namespace is settled. *)
Lemma quiescent_converged s ns : inv s -> quiescent s -> converged s ns.
Proof.
  intros Hi (Hg&Hn&Hq&Hw). destruct (inv_good _ Hi ns) as [[Hc|[Hc|Hc]]|Hc].
  - rewrite Hq in Hc. set_solver.
  - rewrite Hg in Hc. by apply Exists_nil in Hc.
  - rewrite Hn in Hc. by apply Exists_nil in Hc.
  - unfold good in Hc. by rewrite work_of_None in Hc.
Qed.
