(* ===== verification/ControllerExecution.v ===== *)
(** * Executions of the NetworkPolicy controller

    A deterministic shoot client that behaves as documented and a scheduler
    that runs a list of moves, so that concrete executions are computed; the
    theorems about the controller's reachable states, and the two user actions
    it does not observe. *)

From S2P Require Import Prelude GoStd Errors Effects KubeObjects Constants External.
From S2P Require Import DataPlanePolicies NetpolController ControllerSystem ControllerConvergence.
Import Reconciler Watches Wiring.

(** ** A client that always answers *)

Definition newNetworkPolicy (k : NamespacedName) : NetworkPolicy :=
  mkNetworkPolicy (key_Name k) (key_Namespace k) ∅
    {| nps_PodSelector := emptySelector; nps_PolicyTypes := [];
       nps_Ingress := []; nps_Egress := [] |}.

Definition conflict : error := apiError ReasonUnknown "the object has been modified".
Definition notFound : error := apiError ReasonNotFound "not found".

(** The write of [o] at [k]. *)
Definition store (s : sys) (k : NamespacedName) (o : NetworkPolicy) : sys :=
  write_np (<[k := o]> (nps s))
    match nps s !! k with
    | None => CreateEvent (Some o)
    | Some old => UpdateEvent (Some old) (Some o)
    end s.

Definition createOrUpdate (s : sys) (k : NamespacedName) (mutate : NetworkPolicy -> NetworkPolicy) :
    (unit + error) * sys :=
  match np_cache s !! k with
  | None =>
      let o := mutate (newNetworkPolicy k) in
      if decide (nps s !! k = None /\ np_key o = k) then (inl tt, store s k o) else (inr conflict, s)
  | Some o =>
      if decide (mutate o = o) then (inl tt, s)
      else if decide (nps s !! k = Some o /\ np_key (mutate o) = k)
           then (inl tt, store s k (mutate o))
           else (inr conflict, s)
  end.

Definition deletePolicy (s : sys) (k : NamespacedName) : (unit + error) * sys :=
  match nps s !! k with
  | None => (inr notFound, s)
  | Some old => (inl tt, write_np (delete k (nps s)) (DeleteEvent (Some old)) s)
  end.

Definition listGateways (s : sys) (opts : list ListOption) : list Gateway :=
  filter (fun g => label_selects opts (gw_Namespace g) ∅ = true) (map_to_list (gw_cache s)).*2.

Definition respond (s : sys) (c : call) : option (ans c * sys) :=
  match c with
  | ListGateways opts => Some (inl (listGateways s opts), s)
  | CreateOrUpdateNetworkPolicy ns name mutate => Some (createOrUpdate s (mkKey ns name) mutate)
  | DeleteNetworkPolicy ns name => Some (deletePolicy s (mkKey ns name))
  | _ => None
  end.

Definition respond_client : ShootClient := fun s c r s' => respond s c = Some (r, s').

Lemma store_stored s k o : np_key o = k -> stored s k o (store s k o).
Proof. intros Hk. split; [done|]. unfold store. destruct (nps s !! k); [right|left]; eauto. Qed.

Lemma respond_documented : DocumentedClient (H := respond_client).
Proof.
  intros s c r s' Hr. unfold shoot_step, respond_client in Hr.
  destruct c; simpl in Hr |- *; try done; apply (inj Some) in Hr.
  - injection Hr as <- <-. split; [done|]. intros g. unfold listGateways.
    rewrite list_elem_of_filter, list_elem_of_fmap. split.
    + intros [Hs ([k g']&->&Hg)]. split; [|done]. exists k. by apply elem_of_map_to_list.
    + intros [[k Hk] Hs]. split; [done|]. exists (k, g). split; [done|]. by apply elem_of_map_to_list.
  - unfold deletePolicy in Hr. destruct (nps s !! mkKey ns name) eqn:E; simplify_eq.
    + by exists n.
    + done.
  - unfold createOrUpdate in Hr. destruct (np_cache s !! mkKey ns name) as [o|] eqn:E.
    + destruct (decide (mutate o = o)) as [Hm|Hm].
      * by injection Hr as <- <-.
      * destruct (decide _) as [[Hn Hk]|]; injection Hr as <- <-; [|by left].
        split; [done|]. by apply store_stored.
    + destruct (decide _) as [[Hn Hk]|]; injection Hr as <- <-; [|by left].
      split; [done|]. by apply store_stored.
Qed.

(** ** A scheduler *)

Inductive move :=
  | UserGateway (e : event_of Gateway)
  | UserPolicy (e : event_of NetworkPolicy)
  | DeliverGateway
  | DeliverPolicy
  | Start
  | CallNext
  | Finish.

(** [event_fits], decided. *)
Definition fits {A} `{EqDecision A} (key : A -> NamespacedName) (m : gmap NamespacedName A)
    (e : event_of A) : bool :=
  match e with
  | CreateEvent (Some o) => bool_decide (m !! key o = None)
  | UpdateEvent (Some o) (Some n) => bool_decide (key o = key n) && bool_decide (m !! key n = Some o)
  | DeleteEvent (Some o) => bool_decide (m !! key o = Some o)
  | _ => false
  end.

Lemma fits_event_fits {A} `{EqDecision A} (key : A -> NamespacedName) m e :
  fits key m e = true -> event_fits key m e.
Proof.
  destruct e as [[o|]|[o|] [n|]|[o|]|[o|]]; simpl;
    rewrite ?andb_true_iff, ?bool_decide_eq_true; done.
Qed.

Definition move_step (s : sys) (m : move) : option sys :=
  match m with
  | UserGateway e =>
      if fits gw_key (gws s) e then m ← apply_event gw_key (gws s) e; Some (write_gw m e s) else None
  | UserPolicy e =>
      if fits np_key (nps s) e then m ← apply_event np_key (nps s) e; Some (write_np m e s) else None
  | DeliverGateway =>
      match gw_events s with
      | [] => None
      | e :: es =>
          m ← apply_event gw_key (gw_cache s) e;
          Some (mkSys (gws s) (nps s) m (np_cache s) es (np_events s)
                  (list_to_set (gatewayRequests e) ∪ queue s) (worker s))
      end
  | DeliverPolicy =>
      match np_events s with
      | [] => None
      | e :: es =>
          m ← apply_event np_key (np_cache s) e;
          Some (mkSys (gws s) (nps s) (gw_cache s) m (gw_events s) es
                  (list_to_set (policyRequests e) ∪ queue s) (worker s))
      end
  | Start =>
      match worker s, elements (queue s) with
      | None, req :: _ =>
          Some (set_worker (Some (req, Reconcile (key_Namespace req))) (set_queue (queue s ∖ {[req]}) s))
      | _, _ => None
      end
  | CallNext =>
      match worker s with
      | Some (req, Call c k) =>
          '(r, s') ← respond s c; Some (set_worker (Some (req, k r)) s')
      | _ => None
      end
  | Finish =>
      match worker s with
      | Some (req, Ret (Ok tt)) => Some (set_worker None s)
      | Some (req, Ret _) => Some (set_worker None (set_queue ({[req]} ∪ queue s) s))
      | _ => None
      end
  end.

Fixpoint moves_run (s : sys) (l : list move) : option sys :=
  match l with
  | [] => Some s
  | m :: l => s' ← move_step s m; moves_run s' l
  end.

Definition user_ok (gw_allowed : event_of Gateway -> Prop) (np_allowed : event_of NetworkPolicy -> Prop)
    (m : move) : Prop :=
  match m with
  | UserGateway e => gw_allowed e
  | UserPolicy e => np_allowed e
  | _ => True
  end.

Lemma move_step_sound ga na s m s' :
  user_ok ga na m -> move_step s m = Some s' -> step (H := respond_client) ga na s s'.
Proof.
  intros Hu Hm. destruct m; simpl in Hm.
  - destruct (fits _ _ _) eqn:Hf; [|done]. apply bind_Some in Hm as (m&He&[= <-]).
    constructor; [done|by apply fits_event_fits|done].
  - destruct (fits _ _ _) eqn:Hf; [|done]. apply bind_Some in Hm as (m&He&[= <-]).
    constructor; [done|by apply fits_event_fits|done].
  - destruct (gw_events s) as [|e es] eqn:E; [done|]. apply bind_Some in Hm as (m&He&[= <-]).
    by apply step_deliver_gw.
  - destruct (np_events s) as [|e es] eqn:E; [done|]. apply bind_Some in Hm as (m&He&[= <-]).
    by apply step_deliver_np.
  - destruct (worker s) eqn:Hw; [done|]. destruct (elements (queue s)) as [|req l] eqn:E; [done|].
    injection Hm as <-. apply step_start; [done|]. apply elem_of_elements. rewrite E. by left.
  - destruct (worker s) as [[req [o|c k]]|] eqn:Hw; [done| |done].
    apply bind_Some in Hm as ([r s1]&Hr&[= <-]). eapply step_call; [done|]. by exists r.
  - destruct (worker s) as [[req [o|c k]]|] eqn:Hw; [|done..].
    destruct o as [[]|e|w]; injection Hm as <-; [by eapply step_done|..];
      (eapply step_failed; [done|by intros ?]).
Qed.

Lemma moves_run_reachable ga na l s s' :
  reachable (H := respond_client) ga na s -> Forall (user_ok ga na) l -> moves_run s l = Some s' ->
  reachable (H := respond_client) ga na s'.
Proof.
  revert s. induction l as [|m l IH]; simpl; intros s Hs Hu Hr; [by injection Hr as <-|].
  apply bind_Some in Hr as (s1&Hm&Hr). inv Hu. eapply IH; [|done..].
  eapply reachable_step; [done|]. by eapply move_step_sound.
Qed.

(** ** Concrete executions *)

Definition demoGateway (class : string) : Gateway :=
  mkGateway "apps" "web" None class.

(** A shoot that holds one managed Gateway when the controller starts. *)
Definition demoInitial : sys :=
  let g := demoGateway GatewayClassName in
  mkSys {[ gw_key g := g ]} ∅ ∅ ∅ [CreateEvent (Some g)] [] ∅ None.

Lemma demoInitial_initial ga na : ga (CreateEvent (Some (demoGateway GatewayClassName))) -> initial ga na demoInitial.
Proof.
  intros Hga. split_and!; try done; simpl.
  - econstructor; [done|done|]. constructor.
  - constructor.
  - repeat constructor; [done|]. by eexists.
Qed.

(** The controller writes both policies, observes its writes and settles. *)
Definition settle : list move :=
  [DeliverGateway; Start; CallNext; CallNext; CallNext; Finish;
   DeliverPolicy; DeliverPolicy; Start; CallNext; CallNext; CallNext; Finish].

Definition demoSettled : sys := default demoInitial (moves_run demoInitial settle).

Definition quietb (s : sys) : bool :=
  match gw_events s, np_events s, worker s with
  | [], [], None => bool_decide (queue s = ∅)
  | _, _, _ => false
  end.

Lemma quietb_quiescent s : quietb s = true -> quiescent s.
Proof.
  unfold quietb, quiescent. destruct (gw_events s), (np_events s), (worker s); try done.
  by rewrite bool_decide_eq_true.
Qed.

(** C2: the controller converges.  Whatever users do to Gateways and policies
    (short of the two actions its predicates do not observe), however the
    watch events and the worker's calls interleave with them, and whichever
    calls fail: once every event is delivered, the queue is empty and the worker
    idle, every namespace holds exactly both policies if it has a managed
    Gateway, and neither policy otherwise. *)
Theorem netpol_controller_converges `{DocumentedClient} s ns :
  reachable keeps_class keeps_labels s -> quiescent s -> converged s ns.
Proof.
  intros Hr%inv_reachable Hq. by apply quiescent_converged.
Qed.

Lemma netpol_controller_converges_witness :
  quietb demoSettled = true /\ converged demoSettled "apps".
Proof.
  split; [vm_compute; reflexivity|].
  apply (netpol_controller_converges (H := respond_client) (H0 := respond_documented)).
  - apply (moves_run_reachable _ _ settle demoInitial).
    + apply reachable_init, demoInitial_initial. exact I.
    + repeat constructor.
    + vm_compute. reflexivity.
  - apply quietb_quiescent. vm_compute. reflexivity.
Defined.

(** ** The two actions the predicates do not observe *)

Definition managedb (m : gmap NamespacedName Gateway) (ns : string) : bool :=
  existsb (fun g => bool_decide (gw_Namespace g = ns) &&
                    bool_decide (gw_GatewayClassName g = GatewayClassName)) (map_to_list m).*2.

Lemma managedb_spec m ns : managedb m ns = true <-> managed_in m ns.
Proof.
  unfold managedb, managed_in. rewrite existsb_exists. split.
  - intros (g&Hg&Hb). apply list_elem_of_In, list_elem_of_fmap in Hg as ([k g']&->&Hk).
    apply elem_of_map_to_list in Hk. rewrite andb_true_iff, !bool_decide_eq_true in Hb. by exists k, g'.
  - intros (k&g&Hk&?&?). exists g. rewrite andb_true_iff, !bool_decide_eq_true. split; [|done].
    apply list_elem_of_In, list_elem_of_fmap. exists (k, g). by rewrite elem_of_map_to_list.
Qed.

Definition convergedb (s : sys) (ns : string) : bool :=
  forallb (fun p => bool_decide (nps s !! np_key p = if managedb (gws s) ns then Some p else None))
    (dataPlanePolicies ns).

Lemma converged_convergedb s ns : converged s ns -> convergedb s ns = true.
Proof.
  intros (b&Hb&Hf). unfold convergedb. apply forallb_forall. intros p Hp%list_elem_of_In.
  rewrite bool_decide_eq_true. assert (Hm : managedb (gws s) ns = b).
  { apply eq_true_iff_eq. by rewrite managedb_spec. }
  rewrite Hm. rewrite Forall_forall in Hf. by apply Hf.
Qed.

(** Moving the only managed Gateway of a namespace to another class. *)
Definition leaveClass : list move :=
  settle ++
  [UserGateway (UpdateEvent (Some (demoGateway GatewayClassName)) (Some (demoGateway "nginx")));
   DeliverGateway].

(** Stripping a policy of its labels while opening it up. *)
Definition stripped (p : NetworkPolicy) : NetworkPolicy :=
  mkNetworkPolicy (np_Name p) (np_Namespace p) ∅
    {| nps_PodSelector := nps_PodSelector (np_Spec p); nps_PolicyTypes := [PolicyTypeIngress];
       nps_Ingress := [mkRule [] []]; nps_Egress := [] |}.

Definition stripLabels : list move :=
  settle ++
  [UserPolicy (UpdateEvent (Some (DataPlaneProxyIngressPolicy "apps"))
                 (Some (stripped (DataPlaneProxyIngressPolicy "apps"))));
   DeliverPolicy].

Lemma moves_run_unconverged ga l ns :
  ga (CreateEvent (Some (demoGateway GatewayClassName))) ->
  Forall (user_ok ga (fun _ => True)) l ->
  match moves_run demoInitial l with
  | Some s => quietb s && negb (convergedb s ns)
  | None => false
  end = true ->
  exists s, reachable (H := respond_client) ga (fun _ => True) s /\ quiescent s /\ ~ converged s ns.
Proof.
  intros Hga Hl He. destruct (moves_run demoInitial l) as [s|] eqn:E; [|done].
  apply andb_true_iff in He as [Hq Hc]. exists s. split_and!.
  - eapply moves_run_reachable; [|done..]. by apply reachable_init, demoInitial_initial.
  - by apply quietb_quiescent.
  - intros ?%converged_convergedb. by rewrite H in Hc.
Qed.

(** without the restriction on class changes the controller does not
    converge: when the only managed Gateway of a namespace leaves the
    extension's class, the update predicate looks at the new object only, no
    request is queued and both policies stay behind. *)
Theorem class_change_not_observed :
  exists s, reachable (H := respond_client) (fun _ => True) (fun _ => True) s /\
    quiescent s /\ ~ converged s "apps".
Proof.
  apply (moves_run_unconverged _ leaveClass); [done| |vm_compute; reflexivity].
  apply Forall_true. by intros [].
Qed.

(** without the restriction on labels the controller does not restore a
    policy: an edit that also strips the managed labels is not observed, even
    when no Gateway changes its class. *)
Theorem stripped_policy_not_restored :
  exists s, reachable (H := respond_client) keeps_class (fun _ => True) s /\
    quiescent s /\ ~ converged s "apps".
Proof.
  apply (moves_run_unconverged _ stripLabels); [done| |vm_compute; reflexivity].
  repeat constructor.
Qed.

(** ** What the reconciler may touch *)

(** a reconcile of a namespace lists that namespace's Gateways and touches
    nothing but its two policies: no other name, no other namespace. *)
Theorem Reconcile_confined ns :
  emits (fun e => match ecall e with
                  | ListGateways opts => opts = [InNamespace ns]
                  | CreateOrUpdateNetworkPolicy n name mutate =>
                      exists p, p ∈ dataPlanePolicies ns /\ mkKey n name = np_key p /\ mutate = applyMutate p
                  | DeleteNetworkPolicy n name => exists p, p ∈ dataPlanePolicies ns /\ mkKey n name = np_key p
                  | _ => False
                  end) (Reconcile ns).
Proof.
  unfold Reconcile, namespaceHasManagedGateway, pruneNamespace, apply.
  emits_auto; simpl; try done.
  - assert (x = DataPlaneNetworkPolicyName \/ x = ProxyEgressNetworkPolicyName) as [->| ->] by set_solver.
    + exists (DataPlaneProxyIngressPolicy ns). set_solver.
    + exists (ProxyEgressPolicy ns). set_solver.
  - exists (DataPlaneProxyIngressPolicy ns). split; [left|done].
  - exists (ProxyEgressPolicy ns). split; [right; left|done].
Qed.

(** One of the two policies brought to its desired state. *)
Definition settles (b : bool) (s : sys) (p : NetworkPolicy) (s' : sys) : Prop :=
  gws s' = gws s /\ np_cache s' = np_cache s /\ policy_ok b s' p /\
  (forall k, k <> np_key p -> nps s' !! k = nps s !! k) /\
  (policy_ok b s p -> s' = s).

Lemma stored_settles s p s' :
  nps s !! np_key p <> Some p -> stored s (np_key p) p s' -> settles true s p s'.
Proof.
  intros Hne [_ [[Hk ->]|(old&Hk&->)]]; (split_and!; try done; unfold policy_ok; simpl;
    [by rewrite lookup_insert_eq|intros k Hd; by rewrite lookup_insert_ne]).
Qed.

Lemma settles_both b s s1 s' ns :
  settles b s (DataPlaneProxyIngressPolicy ns) s1 -> settles b s1 (ProxyEgressPolicy ns) s' ->
  Forall (policy_ok b s') (dataPlanePolicies ns) /\
  (Forall (policy_ok b s) (dataPlanePolicies ns) -> s' = s) /\ gws s' = gws s /\
  (forall k, k ∉ np_key <$> dataPlanePolicies ns -> nps s' !! k = nps s !! k).
Proof.
  intros (Hg1&_&Hp1&Hf1&Hi1) (Hg2&_&Hp2&Hf2&Hi2).
  unfold dataPlanePolicies. rewrite !Forall_cons. split_and!; try done.
  - unfold policy_ok in *. by rewrite Hf2.
  - intros (Ho1&Ho2&_). rewrite Hi2; [auto|]. by rewrite Hi1.
  - congruence.
  - intros k Hk. rewrite Hf2, Hf1; [done|..]; intros ->; apply Hk; set_solver.
Qed.

Section single.
Context `{DocumentedClient}.

Lemma apply_settles s p s' :
  (forall o, np_cache s !! np_key p = Some o -> np_key o = np_key p) ->
  np_cache s !! np_key p = nps s !! np_key p ->
  runs_in shoot_step (apply p) s (Ok tt) s' -> settles true s p s'.
Proof using Type*.
  intros Hkey Hc (r&s1&Hs%shoot_step_documented&Hr). destruct r as [[]|e]; [|by destruct Hr].
  destruct Hr as [-> _]. simpl in Hs. change (mkKey (np_Namespace p) (np_Name p)) with (np_key p) in Hs.
  assert (Hmut : forall o, np_key o = np_key p -> applyMutate p o = p).
  { intros o [= ? ?]. unfold applyMutate. destruct p; simpl in *. congruence. }
  destruct (np_cache s !! np_key p) as [o|] eqn:E; rewrite Hmut in Hs by auto.
  - case_decide as Hd.
    + subst o s1. split_and!; done.
    + apply stored_settles; [congruence|tauto].
  - apply stored_settles; [congruence|tauto].
Qed.

Lemma prune_settles s ns p s' :
  np_Namespace p = ns ->
  runs_in shoot_step (pruneOne ns (np_Name p)) s (Ok tt) s' -> settles false s p s'.
Proof using Type*.
  intros <- (r&s1&Hs%shoot_step_documented&Hr). simpl in Hs.
  change (mkKey (np_Namespace p) (np_Name p)) with (np_key p) in Hs.
  destruct r as [[]|e]; cbn in Hr.
  - destruct Hr as [-> _]. destruct Hs as (old&Hk&->).
    split_and!; try done; unfold policy_ok; simpl; [by rewrite lookup_delete_eq| |congruence].
    intros k Hd. by rewrite lookup_delete_ne.
  - destruct (IsNotFound e); [|by destruct Hr]. destruct Hr as [-> _], Hs as [-> Hs].
    split_and!; done.
Qed.
End single.

(** one successful reconcile of a namespace whose caches are up to date
    brings the namespace to its specification, changes nothing else in the
    cluster, and does nothing at all when the specification already holds. *)
Theorem Reconcile_settles `{DocumentedClient} s ns s' :
  gw_cache s = gws s -> np_cache s = nps s -> map_Forall (fun k p => np_key p = k) (nps s) ->
  runs_in shoot_step (Reconcile ns) s (Ok tt) s' ->
  converged s' ns /\ gws s' = gws s /\ (converged s ns -> s' = s) /\
  (forall k, k ∉ np_key <$> dataPlanePolicies ns -> nps s' !! k = nps s !! k).
Proof.
  intros Hgc Hnc Hkeyed Hr.
  destruct Hr as (r&s1&Hs%shoot_step_documented&Hr). destruct Hs as [-> Hl].
  destruct r as [l|e]; [|by destruct Hr].
  set (b := hasManagedGateway l). assert (Hb : b = true <-> managed_in (gws s) ns).
  { unfold b. rewrite hasManagedGateway_spec, <- Hgc. unfold managed_in. split.
    - intros (g&[[k Hk] Hns]%Hl&Hc). simpl in Hns. rewrite andb_true_r, bool_decide_eq_true in Hns. eauto.
    - intros (k&g&Hk&Hns&Hc). exists g. rewrite Hl. simpl. rewrite andb_true_r, bool_decide_eq_true. eauto. }
  assert (Hsett : exists s1, settles b s (DataPlaneProxyIngressPolicy ns) s1 /\
    settles b s1 (ProxyEgressPolicy ns) s').
  { change (runs_in shoot_step (if negb b then pruneNamespace ns
      else apply (DataPlaneProxyIngressPolicy ns) ;; apply (ProxyEgressPolicy ns)) s (Ok tt) s') in Hr.
    destruct b; simpl negb in Hr; cbv iota in Hr.
    - apply runs_in_bind in Hr as [([]&s1&H1&H2)|[(?&?&?)|(?&?&?)]]; [|done..].
      apply apply_settles in H1 as Hst; [|rewrite Hnc; by apply Hkeyed|by rewrite Hnc].
      exists s1. split; [done|]. destruct Hst as (_&Hc1&_&Hf1&_).
      apply apply_settles in H2; [done|..]; rewrite Hc1, Hnc; [by apply Hkeyed|by rewrite Hf1].
    - apply runs_in_bind in Hr as [([]&s1&H1&Hr)|[(?&?&?)|(?&?&?)]]; [|done..].
      apply runs_in_bind in Hr as [([]&s2&H2&[-> _])|[(?&?&?)|(?&?&?)]]; [|done..].
      exists s1. split; [exact (prune_settles s ns (DataPlaneProxyIngressPolicy ns) s1 eq_refl H1)|exact (prune_settles s1 ns (ProxyEgressPolicy ns) s2 eq_refl H2)]. }
  destruct Hsett as (s1&H1&H2). destruct (settles_both _ _ _ _ _ H1 H2) as (Hok&Hid&Hg&Hf).
  split_and!; [exists b; by rewrite Hg|done| |done].
  intros (b'&Hb'&Hall). apply Hid. assert (b' = b) as <- by (apply eq_true_iff_eq; by rewrite Hb, Hb').
  done.
Qed.

(** A worker that runs to completion against the executable client. *)
Fixpoint respond_all {A} (p : io A) (s : sys) : option (A * sys) :=
  match p with
  | Ret a => Some (a, s)
  | Call c k => '(r, s') ← respond s c; respond_all (k r) s'
  end.

Lemma respond_all_runs_in {A} (p : io A) s a s' :
  respond_all p s = Some (a, s') -> runs_in (shoot_step (ShootClient := respond_client)) p s a s'.
Proof.
  revert s. induction p as [b|c k IH]; intros s; simpl; [by intros [= -> ->]|].
  intros ([r s1]&Hr&H)%bind_Some. exists r, s1. eauto.
Qed.

Definition demoFresh : sys :=
  let g := demoGateway GatewayClassName in
  mkSys {[ gw_key g := g ]} ∅ {[ gw_key g := g ]} ∅ [] [] ∅ None.

Lemma Reconcile_settles_witness :
  exists s', runs_in (shoot_step (ShootClient := respond_client)) (Reconcile "apps") demoFresh (Ok tt) s' /\
    convergedb demoFresh "apps" = false /\ converged s' "apps".
Proof.
  set (r := respond_all (Reconcile "apps") demoFresh).
  exists (default demoFresh (snd <$> r)).
  assert (Hr : runs_in (shoot_step (ShootClient := respond_client)) (Reconcile "apps") demoFresh (Ok tt)
                 (default demoFresh (snd <$> r))).
  { apply respond_all_runs_in. vm_compute. reflexivity. }
  split; [exact Hr|]. split; [vm_compute; reflexivity|].
  apply (Reconcile_settles (H0 := respond_documented) demoFresh "apps" _); [reflexivity|reflexivity| |exact Hr].
  apply map_Forall_empty.
Defined.
