(* ===== verification/ControllerLiveness.v ===== *)
(** * The NetworkPolicy controller comes to rest

    Convergence says what holds once nothing is in flight; here it is shown that
    this happens.  When users pause and the API server answers, every fair
    schedule of the informers and the worker reaches quiescence: conflicts on
    stale caches are retried only finitely often, and the controller does not
    feed itself for ever with the events of its own writes.  The argument counts
    the policies that are wrong. *)

From S2P Require Import Prelude GoStd Errors Effects KubeObjects Constants External.
From S2P Require Import DataPlanePolicies NetpolController ControllerSystem ControllerConvergence.
From S2P Require Import ControllerExecution.
Import Reconciler Watches Wiring.

(** ** A healthy client

    Reads succeed, a well-formed write fails only with a conflict - the cache it
    was based on was stale - and a deletion only if there is nothing to delete. *)
Definition healthy (s : sys) (c : call) : ans c -> sys -> Prop :=
  match c with
  | ListGateways _ => fun r _ => match r with inl _ => True | inr _ => False end
  | CreateOrUpdateNetworkPolicy ns name mutate => fun r s' =>
      let k := mkKey ns name in
      match r with
      | inl _ => True
      | inr _ =>
          (forall o, np_key (mutate o) = np_key o) -> (forall o, np_cache s !! k = Some o -> np_key o = k) ->
          s' = s /\ np_cache s !! k <> nps s !! k
      end
  | DeleteNetworkPolicy _ _ => fun r _ => match r with inl _ => True | inr e => IsNotFound e = true end
  | _ => fun _ _ => True
  end.

Class HealthyClient `{ShootClient} :=
  shoot_step_healthy : forall s c r s', shoot_step s c r s' -> healthy s c r s'.

(** ** Steps of the system, without users *)

Inductive label := InformGateway | InformPolicy | Work.

#[export] Instance label_eq_dec : EqDecision label.
Proof. solve_decision. Defined.

Section system.
Context `{ShootClient}.

(** The informers' and the worker's steps of [step]. *)
Inductive istep : label -> sys -> sys -> Prop :=
  | istep_gw s e es m :
      gw_events s = e :: es -> apply_event gw_key (gw_cache s) e = Some m ->
      istep InformGateway s (mkSys (gws s) (nps s) m (np_cache s) es (np_events s)
                (list_to_set (gatewayRequests e) ∪ queue s) (worker s))
  | istep_np s e es m :
      np_events s = e :: es -> apply_event np_key (np_cache s) e = Some m ->
      istep InformPolicy s (mkSys (gws s) (nps s) (gw_cache s) m (gw_events s) es
                (list_to_set (policyRequests e) ∪ queue s) (worker s))
  | istep_start s req :
      worker s = None -> req ∈ queue s ->
      istep Work s (set_worker (Some (req, Reconcile (key_Namespace req))) (set_queue (queue s ∖ {[req]}) s))
  | istep_call s req p p' s' :
      worker s = Some (req, p) -> advance s p p' s' -> istep Work s (set_worker (Some (req, p')) s')
  | istep_done s req :
      worker s = Some (req, Ret (Ok tt)) -> istep Work s (set_worker None s)
  | istep_failed s req o :
      worker s = Some (req, Ret o) -> o <> Ok tt ->
      istep Work s (set_worker None (set_queue ({[req]} ∪ queue s) s)).

Lemma istep_step ga na l s s' : istep l s s' -> step ga na s s'.
Proof.
  destruct 1; [by apply step_deliver_gw|by apply step_deliver_np|by apply step_start|by eapply step_call|
    by eapply step_done|by eapply step_failed].
Qed.

(** What each component waits for. *)
Definition enabled (l : label) (s : sys) : Prop :=
  match l with
  | InformGateway => gw_events s <> []
  | InformPolicy => np_events s <> []
  | Work => worker s <> None \/ queue s <> ∅
  end.

(** A fair schedule: at every instant one component takes a step, or nothing
    happens; a component that has something to do eventually takes a step. *)
Record fair_run (σ : nat -> sys) (sched : nat -> option label) : Prop := {
  run_step : forall n, match sched n with
                       | Some l => istep l (σ n) (σ (S n))
                       | None => σ (S n) = σ n
                       end;
  run_fair : forall n l, enabled l (σ n) -> exists m, n <= m /\ sched m = Some l;
}.
End system.

(** ** The policies that are wrong *)

(** The policies the Gateways call for. *)
Definition managedNamespaces (m : gmap NamespacedName Gateway) : list string :=
  gw_Namespace <$> filter (fun g => gw_GatewayClassName g = GatewayClassName) (map_to_list m).*2.

Definition desired (m : gmap NamespacedName Gateway) : gmap NamespacedName NetworkPolicy :=
  list_to_map ((fun p => (np_key p, p)) <$> (managedNamespaces m ≫= dataPlanePolicies)).

Lemma elem_of_managedNamespaces m ns : ns ∈ managedNamespaces m <-> managed_in m ns.
Proof.
  unfold managedNamespaces, managed_in. rewrite list_elem_of_fmap. split.
  - intros (g&->&Hg). apply list_elem_of_filter in Hg as [Hc ([k g']&->&Hk)%list_elem_of_fmap].
    exists k, g'. by apply elem_of_map_to_list in Hk.
  - intros (k&g&Hk&<-&Hc). exists g. split; [done|]. apply list_elem_of_filter. split; [done|].
    apply list_elem_of_fmap. exists (k, g). split; [done|]. by apply elem_of_map_to_list.
Qed.

Lemma desired_managed m ns p : p ∈ dataPlanePolicies ns -> managed_in m ns -> desired m !! np_key p = Some p.
Proof.
  intros Hp Hm. unfold desired. apply elem_of_list_to_map_1'.
  - intros q (q'&Heq&(ns'&Hq&_)%list_elem_of_bind)%list_elem_of_fmap.
    pose proof (f_equal snd Heq) as Hqq. apply (f_equal fst) in Heq. simpl in Heq, Hqq. subst q'.
    eapply dataPlanePolicies_key_inj; [exact Hp|exact Hq|exact Heq].
  - apply list_elem_of_fmap. exists p. split; [done|]. apply list_elem_of_bind. exists ns. split; [done|].
    by apply elem_of_managedNamespaces.
Qed.

Lemma desired_unmanaged m ns p : p ∈ dataPlanePolicies ns -> ~ managed_in m ns -> desired m !! np_key p = None.
Proof.
  intros Hp Hm. unfold desired. apply not_elem_of_list_to_map_1.
  intros ([k q]&Hk&(q'&Heq&(ns'&Hq&Hns)%list_elem_of_bind)%list_elem_of_fmap)%list_elem_of_fmap.
  apply (f_equal fst) in Heq. simpl in Heq, Hk. subst k.
  apply Hm. apply elem_of_managedNamespaces.
  assert (p = q') as -> by (eapply dataPlanePolicies_key_inj; [exact Hp|exact Hq|exact Heq]).
  by rewrite <- (dataPlanePolicies_namespace ns q' Hp), (dataPlanePolicies_namespace ns' q' Hq).
Qed.

Lemma desired_agrees b s ns p :
  p ∈ dataPlanePolicies ns -> agrees b s ns -> desired (gws s) !! np_key p = if b then Some p else None.
Proof.
  intros Hp Hb. unfold agrees in Hb. destruct b.
  - eapply desired_managed; [done|by apply Hb].
  - eapply desired_unmanaged; [done|]. intros Hm. by apply Hb in Hm.
Qed.

Definition wrong (s : sys) : gset NamespacedName :=
  filter (fun k => nps s !! k <> desired (gws s) !! k) (dom (nps s) ∪ dom (desired (gws s))).

Lemma elem_of_wrong s k : k ∈ wrong s <-> nps s !! k <> desired (gws s) !! k.
Proof.
  unfold wrong. rewrite elem_of_filter, elem_of_union, !elem_of_dom. split; [by intros [? _]|].
  intros Hne. split; [done|]. destruct (nps s !! k); [by left; eexists|].
  destruct (desired (gws s) !! k); [by right; eexists|done].
Qed.

(** Correcting a wrong policy leaves one less. *)
Lemma wrong_corrected s m e k :
  nps s !! k <> desired (gws s) !! k -> m !! k = desired (gws s) !! k ->
  (forall k', k' <> k -> m !! k' = nps s !! k') -> size (wrong (write_np m e s)) < size (wrong s).
Proof.
  intros Hk Hm Hother. apply subset_size. split.
  - intros k' Hk'%elem_of_wrong. apply elem_of_wrong. simpl in Hk'.
    destruct (decide (k' = k)) as [->|Hne]; [done|]. by rewrite <- (Hother _ Hne).
  - intros Hsub. apply elem_of_wrong, Hsub, elem_of_wrong in Hk. by apply Hk.
Qed.

(** ** The worker, once every Gateway is known *)

(** The worker knows what its namespace calls for. *)
Definition ready (s : sys) (ns : string) (p : IO unit) : Prop :=
  p = Reconcile ns \/
  exists b past rest, past ++ rest = dataPlanePolicies ns /\ p = remaining b ns rest /\ agrees b s ns.

Definition informed (s : sys) : Prop :=
  gw_events s = [] /\
  forall req p, worker s = Some (req, p) -> exists ns, req = requestFor ns /\ (ready s ns p \/ exists e, p = Ret (Err e)).

Definition corrects (s s' : sys) : Prop := exists m e, s' = write_np m e s /\ size (wrong s') < size (wrong s).

(** A program that makes at most [n] calls. *)
Fixpoint bounded {A} (n : nat) (p : io A) {struct p} : Prop :=
  match p with
  | Ret _ => True
  | Call c k => match n with O => False | S n => forall r, bounded n (k r) end
  end.

Lemma bounded_remaining b ns rest n : length rest <= n -> bounded n (remaining b ns rest).
Proof.
  revert n. induction rest as [|p rest IH]; intros n Hn; [by destruct b|].
  destruct n as [|n]; [by inv Hn|]. assert (Hb : bounded n (remaining b ns rest)) by (apply IH; simpl in Hn; lia).
  destruct b.
  - destruct rest as [|q rest]; intros r; destruct r as [[]|e]; cbn; try done; exact Hb.
  - intros r. destruct r as [[]|e]; cbn; [exact Hb|]. destruct (IsNotFound e); [exact Hb|done].
Qed.

Lemma bounded_shaped ns p : shaped ns p -> bounded 3 p.
Proof.
  intros [->|[[e ->]|(b&past&rest&Hsplit&->)]]; [|done|].
  - intros r. destruct r as [l|e]; cbn; [|done].
    destruct (hasManagedGateway l);
      [apply (bounded_remaining true ns (dataPlanePolicies ns) 2)|apply (bounded_remaining false ns (dataPlanePolicies ns) 2)];
      done.
  - apply bounded_remaining. apply (f_equal length) in Hsplit. rewrite length_app in Hsplit. simpl in Hsplit. lia.
Qed.

Lemma bounded_advance `{ShootClient} {A} s n (p p' : io A) s' :
  bounded n p -> advance s p p' s' -> exists n', n = S n' /\ bounded n' p'.
Proof.
  destruct p as [a|c k]; [done|]. intros Hb (r&_&->). destruct n as [|n]; [done|]. exists n. split; [done|]. apply Hb.
Qed.

Section effects.
Context `{DocumentedClient} `{!HealthyClient}.

Lemma informed_cache s : inv s -> gw_events s = [] -> gw_cache s = gws s.
Proof using Type. intros Hi He. pose proof (inv_gw _ Hi) as Hs. rewrite He in Hs. inversion Hs. congruence. Qed.

Lemma synced_cache s : inv s -> np_events s = [] -> np_cache s = nps s.
Proof using Type. intros Hi He. pose proof (inv_np _ Hi) as Hs. rewrite He in Hs. inversion Hs. congruence. Qed.

(** A listing sees the Gateways there are. *)
Lemma listing_agrees s ns l s' :
  inv s -> gw_events s = [] -> documented s (ListGateways [InNamespace ns]) (inl l) s' ->
  s' = s /\ agrees (hasManagedGateway l) s ns.
Proof using Type.
  intros Hi He [-> Hl]. split; [done|]. unfold agrees. rewrite <- (informed_cache s) by done.
  rewrite hasManagedGateway_spec. unfold managed_in. split.
  - intros (g&[[k Hk] Hns]%Hl&Hcl). simpl in Hns.
    rewrite andb_true_r, bool_decide_eq_true in Hns. by exists k, g.
  - intros (k&g&Hk&Hns&Hcl). exists g. split; [|done]. apply Hl. split; [by exists k|].
    simpl. by rewrite andb_true_r, bool_decide_eq_true.
Qed.

Lemma stored_corrects s ns p s' :
  p ∈ dataPlanePolicies ns -> agrees true s ns -> nps s !! np_key p <> Some p ->
  stored s (np_key p) p s' -> corrects s s'.
Proof using Type.
  intros Hp Hag Hne [_ Hs]. pose proof (desired_agrees true s ns p Hp Hag) as Hd.
  assert (forall e, corrects s (write_np (<[np_key p := p]> (nps s)) e s)) as Hc.
  { intros e. exists (<[np_key p := p]> (nps s)), e. split; [done|].
    apply (wrong_corrected _ _ _ (np_key p)); [congruence|by rewrite lookup_insert_eq|].
    intros k Hk. by rewrite lookup_insert_ne. }
  destruct Hs as [[_ ->]|(old&_&->)]; apply Hc.
Qed.

Lemma removed_corrects s ns p s' :
  p ∈ dataPlanePolicies ns -> agrees false s ns -> removed s (np_key p) s' -> corrects s s'.
Proof using Type.
  intros Hp Hag (old&Hold&->). pose proof (desired_agrees false s ns p Hp Hag) as Hd.
  eexists _, _. split; [done|]. apply (wrong_corrected _ _ _ (np_key p)); [congruence|by rewrite lookup_delete_eq|].
  intros k Hk. by rewrite lookup_delete_ne.
Qed.

Lemma applyMutate_key p o : np_key (applyMutate p o) = np_key o.
Proof using Type. done. Qed.

Lemma applyMutate_same p o : np_key o = np_key p -> applyMutate p o = p.
Proof using Type. intros [= ? ?]. unfold applyMutate. destruct p; simpl in *. congruence. Qed.

(** One call of an informed worker: it stays informed, and either changes
    nothing or corrects a policy; it fails only while a cache is stale. *)
Lemma ready_call s ns p p' s' :
  inv s -> gw_events s = [] -> ready s ns p -> advance s p p' s' ->
  (s' = s \/ corrects s s') /\
  (ready s' ns p' \/ np_cache s <> nps s /\ exists e, p' = Ret (Err e)).
Proof using Type*.
  intros Hi He [->|(b&past&rest&Hsplit&->&Hag)] Ha.
  { apply advance_Reconcile in Ha as (r&Hs&Hr). pose proof (shoot_step_healthy _ _ _ _ Hs) as Hh.
    apply shoot_step_documented in Hs. destruct r as [l|e]; [|done].
    apply listing_agrees in Hs as [-> Hag]; [|done..]. subst p'. split; [by left|]. left. right.
    by exists (hasManagedGateway l), [], (dataPlanePolicies ns). }
  destruct rest as [|p rest]; [by destruct b|].
  assert (Hp : p ∈ dataPlanePolicies ns) by (rewrite <- Hsplit; set_solver).
  assert (Hns := dataPlanePolicies_namespace _ _ Hp).
  assert (Hnext : forall s', gws s' = gws s -> ready s' ns (remaining b ns rest)).
  { intros s1 Hg. right. exists b, (past ++ [p]), rest. rewrite <- app_assoc. split_and!; [done..|].
    unfold agrees in *. by rewrite Hg. }
  assert (Hgws : forall s1, s1 = s \/ corrects s s1 -> gws s1 = gws s).
  { by intros s1 [->|(m&e&->&_)]. }
  destruct b.
  - apply advance_apply in Ha as (r&Hs&Hr). pose proof (shoot_step_healthy _ _ _ _ Hs) as Hh.
    apply shoot_step_documented in Hs. simpl in Hs, Hh.
    change (mkKey (np_Namespace p) (np_Name p)) with (np_key p) in Hs, Hh. destruct r as [[]|e].
    + enough (s' = s \/ corrects s s') as Heff.
      { split; [done|]. left. subst p'. auto. }
      destruct (np_cache s !! np_key p) as [o|] eqn:Hc.
      * assert (Ho := inv_keyed _ Hi _ _ Hc). rewrite applyMutate_same in Hs by done.
        case_decide; [by left|right]. destruct Hs as [Hold Hs]. eapply stored_corrects; [done..| |done]. congruence.
      * right. destruct Hs as [Hnone Hs]. rewrite applyMutate_same in Hs by done.
        eapply stored_corrects; [done..| |done]. congruence.
    + destruct Hh as [-> Hstale]; [done|by apply (inv_keyed _ Hi)|].
      split; [by left|]. right. split; [congruence|done].
  - apply advance_prune in Ha as (r&Hs&Hr). pose proof (shoot_step_healthy _ _ _ _ Hs) as Hh.
    apply shoot_step_documented in Hs. simpl in Hs. rewrite <- Hns in Hs.
    change (mkKey (np_Namespace p) (np_Name p)) with (np_key p) in Hs.
    enough ((s' = s \/ corrects s s') /\ p' = remaining false ns rest) as [Heff ->] by auto.
    destruct r as [[]|e].
    + split; [|done]. right. by eapply removed_corrects.
    + cbn in Hh. rewrite Hh in Hs, Hr. split; [left; by destruct Hs|done].
Qed.
End effects.

(** ** Steps of the informed system *)

Lemma ready_gws s s' ns p : gws s' = gws s -> ready s ns p -> ready s' ns p.
Proof.
  intros Hg [->|(b&past&rest&?&->&Hag)]; [by left|right]. exists b, past, rest. unfold agrees in *. by rewrite Hg.
Qed.

Lemma wrong_same s s' : nps s' = nps s -> gws s' = gws s -> wrong s' = wrong s.
Proof. intros Hn Hg. unfold wrong. by rewrite Hn, Hg. Qed.

(** A quiescent system takes no step. *)
Lemma quiescent_stuck `{ShootClient} l s s' : quiescent s -> ~ istep l s s'.
Proof.
  intros (Hg&Hn&Hq&Hw) Hs. destruct Hs; try congruence. rewrite Hq in *. set_solver.
Qed.

Section steps.
Context `{DocumentedClient}.

(** Only the informer consumes the Gateways' events. *)
Lemma istep_gw_events l s s' : inv s -> istep l s s' -> l <> InformGateway -> gw_events s' = gw_events s.
Proof using Type*.
  intros Hi Hs Hl. destruct Hs as [| | |s req p p' s' Hw Ha| |]; try done.
  destruct (inv_worker _ Hi _ _ Hw) as (ns&->&Hsh).
  destruct (advance_shaped _ _ _ _ _ Hi Hsh Ha) as ([->|(q&m&e&_&->&_)]&_); done.
Qed.

Context `{!HealthyClient}.

(** A step of an informed system corrects a policy, or leaves the policies as
    they are; and then only the informer touches their events. *)
Lemma informed_step l s s' :
  inv s -> informed s -> istep l s s' ->
  informed s' /\
  (size (wrong s') < size (wrong s) \/
   size (wrong s') = size (wrong s) /\ nps s' = nps s /\ (l <> InformPolicy -> np_events s' = np_events s)).
Proof using Type*.
  intros Hi [He Hwk] Hs.
  assert (Hsame : forall s0, gw_events s0 = gw_events s -> nps s0 = nps s -> gws s0 = gws s ->
    (worker s0 = None \/ worker s0 = worker s) -> np_events s0 = np_events s ->
    informed s0 /\ (size (wrong s0) < size (wrong s) \/
     size (wrong s0) = size (wrong s) /\ nps s0 = nps s /\ (l <> InformPolicy -> np_events s0 = np_events s))).
  { intros s0 Hge Hn Hg Hw Hne. split; [|right; by rewrite (wrong_same s s0)]. split; [congruence|].
    intros req p Hp. destruct Hw as [Hw|Hw]; [congruence|]. rewrite Hw in Hp.
    destruct (Hwk req p Hp) as (ns&->&[Hr|Hr]); exists ns; (split; [done|]); [left|by right].
    by eapply ready_gws. }
  destruct Hs as [s e es m Hg|s e es m Hn Hm|s req Hw Hq|s req p p' s' Hw Ha|s req Hw|s req o Hw Ho].
  - congruence.
  - split; [|right; by rewrite (wrong_same s)]. split; [done|]. intros req p Hp.
    destruct (Hwk req p Hp) as (ns&->&[Hr|Hr]); exists ns; (split; [done|]); [left|by right]. by eapply ready_gws.
  - split; [|right; by rewrite (wrong_same s)]. split; [done|]. intros req' p [= <- <-].
    destruct (inv_queue _ Hi _ Hq) as [ns ->]. exists ns. split; [done|]. left. by left.
  - destruct (Hwk _ _ Hw) as (ns&->&[Hr|[e ->]]); [|done].
    destruct (ready_call _ _ _ _ _ Hi He Hr Ha) as [Heff Hnext].
    assert (Hge : gw_events s' = gw_events s) by (by destruct Heff as [->|(m&e&->&_)]).
    split.
    + split; [cbn; congruence|]. intros req p0 [= <- <-]. exists ns. split; [done|].
      destruct Hnext as [Hn|[_ Hn]]; [left|by right]. by eapply ready_gws.
    + destruct Heff as [->|(m&e&->&Hlt)]; [right; by rewrite (wrong_same s)|left].
      erewrite wrong_same; [exact Hlt|done|done].
  - apply Hsame; auto.
  - apply Hsame; auto.
Qed.
End steps.

(** ** Fair schedules *)

Section fair.
Context `{DocumentedClient} `{!HealthyClient}.
Context (σ : nat -> sys) (sched : nat -> option label) (Hrun : fair_run σ sched) (Hinit : inv (σ 0)).

Lemma inv_always n : inv (σ n).
Proof using Type*.
  induction n as [|n IH]; [done|]. pose proof (run_step _ _ Hrun n) as Hs.
  destruct (sched n) as [l|]; [|by rewrite Hs]. eapply inv_step; [done|]. by eapply istep_step.
Qed.

(** The first step of a component that has something to do. *)
Lemma first_step l n :
  enabled l (σ n) -> exists d, sched (n + d) = Some l /\ forall k, k < d -> sched (n + k) <> Some l.
Proof using Type*.
  intros (m&Hm&Hl)%(run_fair _ _ Hrun). replace m with (n + (m - n)) in Hl by lia.
  revert Hl. generalize (m - n) as d. clear m Hm. intros d.
  induction d as [d IH] using lt_wf_ind. intros Hl.
  destruct (decide (Exists (fun k => sched (n + k) = Some l) (seq 0 d))) as [Hex|Hno].
  - apply Exists_exists in Hex as (k&Hk%elem_of_seq&Hl'). by apply (IH k); [lia|].
  - exists d. split; [done|]. intros k Hk Hl'. apply Hno, Exists_exists. exists k. split; [|done].
    apply elem_of_seq. lia.
Qed.

(** Progress by rank: while [P k] holds the component [l] has something to do;
    its steps lower the rank, or reach [Q]; those of the others do, too, or
    leave the rank alone. *)
Lemma progress l (P : nat -> sys -> Prop) (Q : sys -> Prop) :
  (forall k s, P k s -> enabled l s) ->
  (forall k l' s s', inv s -> P k s -> istep l' s s' ->
     Q s' \/ (exists k', k' < k /\ P k' s') \/ (l' <> l /\ P k s')) ->
  forall k n, P k (σ n) -> exists m, n <= m /\ Q (σ m).
Proof using Type*.
  intros Hen Hstep k. induction k as [k IH] using lt_wf_ind. intros n HP.
  destruct (first_step l n (Hen _ _ HP)) as (d&Hl&Hnot).
  assert (Hone : forall i, n <= i -> P k (σ i) -> forall l', sched i = Some l' ->
    (exists m, n <= m /\ Q (σ m)) \/ (l' <> l /\ P k (σ (S i)))).
  { intros i Hi HPi l' Hl'. pose proof (run_step _ _ Hrun i) as Hs. rewrite Hl' in Hs.
    destruct (Hstep k l' _ _ (inv_always i) HPi Hs) as [HQ|[(k'&Hk&HP')|Hsame]]; [left|left|by right].
    - exists (S i). split; [lia|done].
    - destruct (IH k' Hk (S i) HP') as (m&Hm&HQ). exists m. split; [lia|done]. }
  assert (Hwait : forall j, j <= d -> (exists m, n <= m /\ Q (σ m)) \/ P k (σ (n + j))).
  { induction j as [|j IHj]; intros Hj; [right; by rewrite Nat.add_0_r|].
    destruct IHj as [HQ|HPj]; [lia|by left|].
    rewrite Nat.add_succ_r. pose proof (run_step _ _ Hrun (n + j)) as Hs.
    destruct (sched (n + j)) as [l'|] eqn:El; [|right; by rewrite Hs].
    destruct (Hone (n + j) ltac:(lia) HPj l' El) as [HQ|[_ HP']]; [by left|by right]. }
  destruct (Hwait d ltac:(lia)) as [HQ|HPd]; [done|].
  by destruct (Hone (n + d) ltac:(lia) HPd l Hl) as [HQ|[? _]].
Qed.

(** *** The phases *)

(** Every Gateway becomes known. *)
Lemma all_informed n : exists m, n <= m /\ gw_events (σ m) = [].
Proof using Type*.
  destruct (gw_events (σ n)) as [|e es] eqn:E; [by exists n|].
  apply (progress InformGateway (fun k s => length (gw_events s) = k /\ gw_events s <> []) (fun s => gw_events s = [])
    ltac:(naive_solver) ) with (k := length (gw_events (σ n))); [|by rewrite E].
  intros k l s s' Hi [Hk Hne] Hs. destruct (decide (l = InformGateway)) as [->|Hl].
  - inversion Hs as [s0 e0 es0 m Hev Hm| | | | |]; subst. simpl. destruct es0 as [|e1 es1]; [by left|right; left].
    rewrite Hev. simpl. eexists. split; [|done]. simpl. lia.
  - right. right. by rewrite (istep_gw_events l s s').
Qed.

(** A worker that has started ends, whatever it knows. *)
Lemma worker_ends (R : sys -> Prop) (Q : sys -> Prop) n :
  (forall l s s', inv s -> R s -> istep l s s' -> R s' \/ Q s') ->
  R (σ n) -> exists m, n <= m /\ (R (σ m) /\ worker (σ m) = None \/ Q (σ m)).
Proof using Type*.
  intros HR HRn. destruct (worker (σ n)) as [[req p]|] eqn:Hw; [|exists n; auto].
  apply (progress Work (fun k s => R s /\ exists req p, worker s = Some (req, p) /\ bounded k p)
           (fun s => R s /\ worker s = None \/ Q s)) with (k := 3).
  - intros k s (_&req0&p0&Hw0&_). left. by rewrite Hw0.
  - intros k l s s' Hi (HRs&req0&p0&Hw0&Hb) Hs. destruct (HR l s s' Hi HRs Hs) as [HRs'|HQ]; [|by left; right].
    destruct Hs as [s e es m He Hm|s e es m He Hm|s req1 Hn|s req1 p1 p1' s' Hw1 Ha|s req1 Hw1|s req1 o Hw1].
    + right. right. split; [done|]. split; [done|]. by exists req0, p0.
    + right. right. split; [done|]. split; [done|]. by exists req0, p0.
    + congruence.
    + rewrite Hw1 in Hw0. injection Hw0 as <- <-. destruct (bounded_advance _ _ _ _ _ Hb Ha) as (k'&->&Hb').
      right. left. exists k'. split; [lia|]. split; [done|]. by exists req1, p1'.
    + left. by left.
    + left. by left.
  - split; [done|]. exists req, p. split; [done|].
    destruct (inv_worker _ (inv_always n) _ _ Hw) as (ns&_&Hsh). by eapply bounded_shaped.
Qed.

(** From then on the worker knows what each namespace calls for. *)
Lemma worker_informed n : gw_events (σ n) = [] -> exists m, n <= m /\ informed (σ m).
Proof using Type*.
  intros He. destruct (worker_ends (fun s => gw_events s = []) (fun _ => False) n) as (m&Hm&[[Hem Hw]|[]]).
  - intros l s s' Hi Hes Hs. left. rewrite (istep_gw_events l s s'); [done..|].
    intros ->. inversion Hs. congruence.
  - done.
  - exists m. split; [done|]. split; [done|]. congruence.
Qed.

(** The number of wrong policies is [w], or has decreased. *)
Definition rests (w : nat) (R : sys -> Prop) (s : sys) : Prop :=
  informed s /\ (size (wrong s) < w \/ size (wrong s) = w /\ R s).

(** The policies' events are delivered, unless a policy is corrected. *)
Lemma policies_delivered w n :
  rests w (fun _ => True) (σ n) -> exists m, n <= m /\ rests w (fun s => np_events s = []) (σ m).
Proof using Type*.
  intros [Hinf [Hlt|[Hw _]]]; [exists n; split; [done|]; split; auto|].
  destruct (np_events (σ n)) as [|e es] eqn:E; [exists n; split; [done|]; split; auto|].
  apply (progress InformPolicy (fun k s => informed s /\ size (wrong s) = w /\ length (np_events s) = k /\ np_events s <> [])
    _ ltac:(naive_solver)) with (k := length (np_events (σ n))); [|by rewrite E].
  intros k l s s' Hi (Hinf'&Hw'&Hk&Hne) Hs.
  destruct (informed_step l s s' Hi Hinf' Hs) as [Hi' [Hlt|(Hsz&_&Hev)]]; [left; split; [done|left; lia]|].
  destruct (decide (l = InformPolicy)) as [->|Hl].
  - inversion Hs as [|s0 e0 es0 m Hev0 Hm| | | |]; subst. simpl. rewrite Hev0.
    destruct es0 as [|e1 es1]; [left; split; [done|right; split; [lia|done]]|right; left].
    eexists. split; [|split; [done|]; split; [done|]; split; done]. simpl. lia.
  - right. right. split; [done|]. rewrite (Hev Hl). split_and!; auto; lia.
Qed.

(** The worker, with its caches up to date, does not fail. *)
Lemma worker_fresh w n :
  rests w (fun s => np_events s = []) (σ n) ->
  exists m, n <= m /\ rests w (fun s => np_events s = [] /\ worker s = None) (σ m).
Proof using Type*.
  intros [Hinf [Hlt|[Hw He]]]; [exists n; split; [done|]; split; auto|].
  destruct (worker_ends (fun s => informed s /\ size (wrong s) = w /\ np_events s = [])
    (rests w (fun s => np_events s = [] /\ worker s = None)) n) as (m&Hm&[[(Hi'&Hw'&He') Hwk]|HQ]).
  - intros l s s' Hi (Hinf'&Hw'&He') Hs.
    destruct (informed_step l s s' Hi Hinf' Hs) as [Hi'' [Hlt|(Hsz&_&Hev)]]; [right; split; [done|left; lia]|left].
    split_and!; [done|lia|]. rewrite Hev; [done|]. intros ->. inversion Hs. congruence.
  - done.
  - exists m. split; [done|]. split; auto.
  - exists m. auto.
Qed.

(** Rank of a system whose policies' events are delivered: what the queue and
    the worker have left. *)
Definition idles (w k : nat) (s : sys) : Prop :=
  informed s /\ size (wrong s) = w /\ np_events s = [] /\
  (worker s = None /\ queue s <> ∅ /\ k = 5 * size (queue s) \/
   exists ns p j, worker s = Some (requestFor ns, p) /\ ready s ns p /\ bounded j p /\ j <= 3 /\
     k = 5 * size (queue s) + 1 + j).

Lemma idles_or_quiescent w s :
  informed s -> size (wrong s) = w -> np_events s = [] -> worker s = None ->
  quiescent s \/ idles w (5 * size (queue s)) s.
Proof using Type.
  intros Hinf Hw He Hwk. destruct (decide (queue s = ∅)) as [Hq|Hq]; [left|right].
  - split_and!; try done. by destruct Hinf.
  - split_and!; try done. left. done.
Qed.

Lemma idles_step w k l s s' :
  inv s -> idles w k s -> istep l s s' ->
  rests w quiescent s' \/ (exists k', k' < k /\ idles w k' s') \/ (l <> Work /\ idles w k s').
Proof using Type*.
  intros Hi (Hinf&Hw&He&Hwork) Hs.
  destruct (informed_step l s s' Hi Hinf Hs) as [Hinf' [Hlt|(Hsz&Hn&Hev)]]; [left; split; [done|left; lia]|].
  assert (l = Work) as ->.
  { destruct l; [|exfalso|done]; inversion Hs; subst; [destruct Hinf|]; congruence. }
  specialize (Hev ltac:(done)). rewrite He in Hev.
  assert (Hdone : forall s0, informed s0 -> size (wrong s0) = w -> np_events s0 = [] -> worker s0 = None ->
    5 * size (queue s0) < k -> rests w quiescent s0 \/ (exists k', k' < k /\ idles w k' s0) \/ (Work <> Work /\ idles w k s0)).
  { intros s0 H1' H2' H3' H4' H5'. destruct (idles_or_quiescent w s0) as [Hq|Hid]; [done..| |].
    - left. split; [done|]. by right.
    - right. left. eauto. }
  inversion Hs as [| |s0 req Hnone Hq|s0 req p p' s1 Hwk Ha|s0 req Hwk|s0 req o Hwk Ho]; subst s0.
  - subst s'. destruct Hwork as [(_&Hne&->)|(ns&p&j&Hwk&_)]; [|congruence].
    destruct (inv_queue _ Hi _ Hq) as [ns ->]. right. left.
    assert (size (queue s) = S (size (queue s ∖ {[requestFor ns]}))) as Hsize.
    { rewrite size_difference by set_solver. rewrite size_singleton.
      assert (size (queue s) <> 0) by (rewrite size_non_empty_iff; set_solver). lia. }
    exists (5 * size (queue s ∖ {[requestFor ns]}) + 1 + 3). split; [lia|].
    split_and!; [done|lia|done|right]. exists ns, (Reconcile ns), 3. split_and!; [done|by left|by apply (bounded_shaped ns); left|done|done].
  - subst s'. destruct Hwork as [(Hnone&_)|(ns&q&j&Hwk'&Hr&Hb&Hj&->)]; [congruence|].
    rewrite Hwk in Hwk'. injection Hwk' as -> ->. destruct (bounded_advance _ _ _ _ _ Hb Ha) as (j'&->&Hb').
    destruct (ready_call _ _ _ _ _ Hi (proj1 Hinf) Hr Ha) as [Heff [Hr'|[Hstale _]]].
    2: { destruct Hstale. by apply synced_cache. }
    right. left. exists (5 * size (queue s1) + 1 + j').
    assert (queue s1 = queue s) as -> by (by destruct Heff as [->|(m&e&->&_)]).
    split; [lia|]. split_and!; [done|lia|done|right].
    exists ns, p', j'. split_and!; [done| |done|lia|].
    + by eapply ready_gws.
    + by destruct Heff as [->|(m&e&->&_)].
  - subst s'. destruct Hwork as [(Hnone&_)|(ns&q&j&Hwk'&Hr&Hb&Hj&->)]; [congruence|].
    apply Hdone; [done|lia|done|done|]. simpl. lia.
  - subst s'. destruct Hwork as [(Hnone&_)|(ns&q&j&Hwk'&Hr&Hb&Hj&->)]; [congruence|].
    rewrite Hwk in Hwk'. injection Hwk' as -> <-. exfalso.
    destruct Hr as [Hr|(b&past&rest&_&Hr&_)]; [done|].
    destruct rest as [|p [|p2 rest]]; destruct b; try discriminate Hr. all: injection Hr as ->; done.
Qed.

(** With every cache up to date the work there is comes to an end. *)
Lemma work_ends w n :
  rests w (fun s => np_events s = [] /\ worker s = None) (σ n) ->
  exists m, n <= m /\ rests w quiescent (σ m).
Proof using Type*.
  intros [Hinf [Hlt|(Hw&He&Hwk)]]; [exists n; split; [done|]; split; auto|].
  destruct (idles_or_quiescent w (σ n)) as [Hq|Hid]; [done..| |].
  - exists n. split; [done|]. split; [done|]. by right.
  - eapply (progress Work (idles w)); [|by intros; eapply idles_step|done].
    intros k s (_&_&_&[(_&Hq&_)|(ns&p&j&Hwk'&_)]); [by right|left]. by rewrite Hwk'.
Qed.

Lemma comes_to_rest n : exists m, n <= m /\ quiescent (σ m).
Proof using Type*.
  destruct (all_informed n) as (n1&Hn1&He). destruct (worker_informed n1 He) as (n2&Hn2&Hinf).
  assert (Hrest : forall w n, informed (σ n) -> size (wrong (σ n)) = w -> exists m, n <= m /\ quiescent (σ m)).
  { induction w as [w IH] using lt_wf_ind. intros n0 Hi0 Hw0.
    assert (Hless : forall R m, n0 <= m -> rests w R (σ m) ->
      (exists m', n0 <= m' /\ quiescent (σ m')) \/ size (wrong (σ m)) = w /\ R (σ m)).
    { intros R m Hm [Hi' [Hlt|?]]; [left|by right].
      destruct (IH _ Hlt m Hi' eq_refl) as (m'&?&?). exists m'. split; [lia|done]. }
    destruct (policies_delivered w n0) as (m1&Hm1&Hr1); [split; auto|].
    destruct (worker_fresh w m1 Hr1) as (m2&Hm2&Hr2). destruct (work_ends w m2 Hr2) as (m3&Hm3&Hr3).
    destruct (Hless _ m3 ltac:(lia) Hr3) as [?|[_ Hq]]; [done|]. exists m3. split; [lia|done]. }
  destruct (Hrest _ n2 Hinf eq_refl) as (m&Hm&Hq). exists m. split; [lia|done].
Qed.
End fair.

(** C3: the controller comes to rest.  From any state that users can have
    brought about, with events undelivered, requests queued and a worker in the
    middle of a reconcile on stale caches: if users pause and the API server
    answers (reads succeed, writes fail only on conflicts), every fair
    interleaving of the informers and the worker reaches, and never leaves, a
    state in which nothing is in flight - and in which every namespace holds
    exactly the policies its Gateways call for.  Retries end, and the events of
    the controller's own writes do not keep it busy for ever. *)
Theorem netpol_controller_comes_to_rest `{DocumentedClient} `{!HealthyClient}
    (σ : nat -> sys) (sched : nat -> option label) :
  reachable keeps_class keeps_labels (σ 0) -> fair_run σ sched ->
  exists n, forall m, n <= m -> quiescent (σ m) /\ σ m = σ n /\ forall ns, converged (σ m) ns.
Proof.
  intros Hreach%inv_reachable Hrun. destruct (comes_to_rest σ sched Hrun Hreach 0) as (n&_&Hq).
  exists n. intros m Hm. assert (σ m = σ n) as Hsame.
  { induction Hm as [|m Hm IH]; [done|]. pose proof (run_step _ _ Hrun m) as Hs.
    destruct (sched m) as [l|]; [|congruence]. rewrite IH in Hs. by destruct (quiescent_stuck l _ _ Hq Hs). }
  rewrite Hsame. split_and!; [done|done|]. intros ns.
  apply quiescent_converged; [by eapply inv_always|done].
Qed.

(** ** A fair run *)

Lemma respond_healthy : HealthyClient (H := respond_client).
Proof.
  intros s c r s' Hr. unfold shoot_step, respond_client in Hr.
  destruct c; simpl in Hr |- *; try done; apply (inj Some) in Hr.
  - by injection Hr as <- <-.
  - unfold deletePolicy in Hr. by destruct (nps s !! mkKey ns name); simplify_eq.
  - unfold createOrUpdate in Hr. destruct (np_cache s !! mkKey ns name) as [o|] eqn:E.
    + destruct (decide (mutate o = o)); [by injection Hr as <- <-|].
      destruct (decide _) as [|Hno]; injection Hr as <- <-; [done|]. intros Hm Hc. split; [done|].
      intros Heq. apply Hno. rewrite Hm. split; [done|by apply Hc].
    + destruct (decide _) as [|Hno]; injection Hr as <- <-; [done|]. intros Hm Hc. split; [done|].
      intros Heq. apply Hno. rewrite Hm. by split.
Qed.

(** The component that makes a move. *)
Definition labelOf (m : move) : option label :=
  match m with
  | UserGateway _ | UserPolicy _ => None
  | DeliverGateway => Some InformGateway
  | DeliverPolicy => Some InformPolicy
  | Start | CallNext | Finish => Some Work
  end.

Lemma move_istep s m s' l :
  move_step s m = Some s' -> labelOf m = Some l -> istep (H := respond_client) l s s'.
Proof.
  intros Hm Hl. destruct m; simplify_eq/=.
  - destruct (gw_events s) as [|e es] eqn:E; [done|]. apply bind_Some in Hm as (m&He&[= <-]). by apply istep_gw.
  - destruct (np_events s) as [|e es] eqn:E; [done|]. apply bind_Some in Hm as (m&He&[= <-]). by apply istep_np.
  - destruct (worker s) eqn:Hw; [done|]. destruct (elements (queue s)) as [|req es] eqn:E; [done|].
    injection Hm as <-. apply istep_start; [done|]. apply elem_of_elements. rewrite E. by left.
  - destruct (worker s) as [[req [o|c k]]|] eqn:Hw; [done| |done].
    apply bind_Some in Hm as ([r s1]&Hr&[= <-]). eapply istep_call; [done|]. by exists r.
  - destruct (worker s) as [[req [o|c k]]|] eqn:Hw; [|done..].
    destruct o as [[]|e|w]; injection Hm as <-; [by eapply istep_done|..];
      (eapply istep_failed; [done|by intros ?]).
Qed.

(** The moves of [settle], then nothing. *)
Definition demoRun (n : nat) : sys := default demoInitial (moves_run demoInitial (take n settle)).
Definition demoSched (n : nat) : option label := settle !! n ≫= labelOf.

Definition enabledb (l : label) (s : sys) : bool :=
  match l with
  | InformGateway => match gw_events s with [] => false | _ => true end
  | InformPolicy => match np_events s with [] => false | _ => true end
  | Work => match worker s with Some _ => true | None => negb (bool_decide (queue s = ∅)) end
  end.

Lemma enabled_enabledb l s : enabled l s -> enabledb l s = true.
Proof.
  destruct l; simpl; [by destruct (gw_events s)|by destruct (np_events s)|].
  destruct (worker s); [done|]. intros [?|Hq]; [done|]. by rewrite bool_decide_eq_false_2.
Qed.

Definition fairb : bool :=
  forallb (fun n => forallb (fun l => implb (enabledb l (demoRun n))
    (existsb (fun m => bool_decide (demoSched m = Some l)) (seq n (length settle)))) [InformGateway; InformPolicy; Work])
    (seq 0 (S (length settle))).

Definition steppedb : bool :=
  forallb (fun n => match settle !! n with
                    | Some m => match labelOf m, move_step (demoRun n) m with Some _, Some _ => true | _, _ => false end
                    | None => false
                    end) (seq 0 (length settle)).

Lemma moves_run_snoc s l m s1 :
  moves_run s l = Some s1 -> moves_run s (l ++ [m]) = move_step s1 m.
Proof.
  revert s. induction l as [|m0 l IH]; simpl; intros s Hr.
  - injection Hr as ->. by destruct (move_step s1 m).
  - apply bind_Some in Hr as (s2&->&Hr). simpl. by apply IH.
Qed.

Definition completes (l : list move) : bool := match moves_run demoInitial l with Some _ => true | None => false end.

Lemma demoRun_Some n : moves_run demoInitial (take n settle) = Some (demoRun n).
Proof.
  unfold demoRun. assert (Hc : completes (take n settle) = true).
  { assert (Hb : forallb (fun n => completes (take n settle)) (seq 0 (S (length settle))) = true) by (vm_compute; reflexivity).
    rewrite forallb_forall in Hb. destruct (decide (n < length settle)) as [Hn|Hn].
    - apply Hb, in_seq. lia.
    - rewrite take_ge by lia. rewrite <- (firstn_all settle). apply Hb, in_seq. lia. }
  unfold completes in Hc. by destruct (moves_run demoInitial (take n settle)).
Qed.

Lemma demoRun_end n : length settle <= n -> demoRun n = demoSettled.
Proof. intros Hn. unfold demoRun. by rewrite take_ge by done. Qed.

Lemma demo_fair : fair_run (H := respond_client) demoRun demoSched.
Proof.
  constructor.
  - intros n. destruct (decide (n < length settle)) as [Hn|Hn].
    + destruct (lookup_lt_is_Some_2 settle n Hn) as [m Hm]. unfold demoSched. rewrite Hm. simpl.
      assert (Hs : demoRun (S n) = default demoInitial (move_step (demoRun n) m)).
      { unfold demoRun at 1. rewrite (take_S_r _ _ _ Hm). by rewrite (moves_run_snoc _ _ _ _ (demoRun_Some n)). }
      assert (Hb : steppedb = true) by (vm_compute; reflexivity). unfold steppedb in Hb.
      rewrite forallb_forall in Hb. specialize (Hb n). rewrite Hm in Hb.
      destruct (labelOf m) as [l|] eqn:El; [|discriminate Hb; apply in_seq; lia].
      destruct (move_step (demoRun n) m) as [s|] eqn:Es; [|discriminate Hb; apply in_seq; lia].
      rewrite Hs. simpl. by eapply move_istep.
    + unfold demoSched. rewrite lookup_ge_None_2 by lia. simpl. by rewrite !demoRun_end by lia.
  - intros n l Hen%enabled_enabledb. destruct (decide (n <= length settle)) as [Hn|Hn].
    + assert (Hb : fairb = true) by (vm_compute; reflexivity). unfold fairb in Hb.
      rewrite forallb_forall in Hb. specialize (Hb n ltac:(apply in_seq; lia)). rewrite forallb_forall in Hb.
      specialize (Hb l ltac:(destruct l; simpl; tauto)). rewrite Hen in Hb. cbn [implb] in Hb.
      apply existsb_exists in Hb as (m&Hm%in_seq&Hl%bool_decide_eq_true). exists m. split; [lia|done].
    + rewrite demoRun_end in Hen by lia. destruct l; vm_compute in Hen; discriminate.
Qed.

Lemma netpol_controller_comes_to_rest_witness :
  fair_run (H := respond_client) demoRun demoSched /\
  exists n, forall m, n <= m -> quiescent (demoRun m) /\ converged (demoRun m) "apps".
Proof.
  split; [exact demo_fair|].
  destruct (netpol_controller_comes_to_rest (H := respond_client) (H0 := respond_documented)
    (H1 := respond_healthy) demoRun demoSched) as [n Hn].
  - apply reachable_init. apply demoInitial_initial. exact I.
  - exact demo_fair.
  - exists n. intros m Hm. destruct (Hn m Hm) as (Hq&_&Hc). split; [exact Hq|apply Hc].
Defined.
