(* ===== verification/ConstructorProps.v ===== *)
(** * Properties of the constructors

    The functional-options constructors of pkg/actuator, pkg/controller and
    pkg/heartbeat: what they accept, what they default, and that an option given
    last wins. *)

From S2P Require Import Prelude GoStd Errors FunctionalOptions Effects KubeObjects Constants.
From S2P Require Import Config External Interfaces Manifests GatewayGuard OrphanSweep.
From S2P Require Import DataplaneNetpol NetpolDeployer Actuator Process Heartbeat Controller.
From S2P Require Import ActuatorSpecs.

(** ** actuator.New *)

(** Every dependency of the actuator is set. *)
Definition complete (a : Actuator) : Prop :=
  is_Some (decoder a) /\ is_Some (gatewayLister a) /\ is_Some (netpolReconciler a) /\
  is_Some (netpolDeployer a) /\ is_Some (orphanSweeper a).

Lemma orElse_is_Some {A} (x : option A) d : is_Some (orElse x d).
Proof. destruct x; eauto. Qed.

(** constructing the actuator.  Without a client or an image vector
    construction fails with ErrInvalidActuator.  Otherwise it returns the error
    of the first option that fails, and else an actuator whose dependencies are
    all set: with no options the production ones, and with options, for every
    dependency, the one the options left, or the production one if they left
    none. *)
Theorem actuator_New_complete `{Libraries} c iv opts :
  (c = None \/ iv = None -> exists e, New c iv opts = Err e /\ errorsIs e ErrInvalidActuator = true) /\
  (forall client images, c = Some client -> iv = Some images ->
     New c iv [] = Ok (productionActuator client images) /\
     (forall e, applyOptions opts (mkActuator client None images "" ∅ None None None None) = Err e ->
        New c iv opts = Err e) /\
     (forall act, applyOptions opts (mkActuator client None images "" ∅ None None None None) = Ok act ->
        exists a, New c iv opts = Ok a /\ complete a /\
          Actuator.client a = Actuator.client act /\ imageVector a = imageVector act /\
          gardenerVersion a = gardenerVersion act /\ gardenletFeatureGates a = gardenletFeatureGates act /\
          (forall d, decoder act = Some d -> decoder a = Some d) /\
          (forall l, gatewayLister act = Some l -> gatewayLister a = Some l) /\
          (forall r, netpolReconciler act = Some r -> netpolReconciler a = Some r) /\
          (forall d, netpolDeployer act = Some d -> netpolDeployer a = Some d) /\
          (forall s, orphanSweeper act = Some s -> orphanSweeper a = Some s) /\
          (gatewayLister act = None -> gatewayLister a = gatewayLister (productionActuator client images)) /\
          (netpolDeployer act = None -> netpolDeployer a = netpolDeployer (productionActuator client images)))).
Proof.
  split.
  - intros [->| ->]; [|destruct c]; eexists; (split; [reflexivity|]); reflexivity.
  - intros client images -> ->. split; [done|]. unfold New. split.
    + by intros e ->.
    + intros act ->. eexists. split; [reflexivity|]. unfold complete.
      cbn [decoder gatewayLister netpolReconciler netpolDeployer orphanSweeper Actuator.client imageVector
           gardenerVersion gardenletFeatureGates].
      split_and!; try apply orElse_is_Some; try done; first [by intros ? -> | by intros ->].
Qed.

(** ** controller.New *)

(** constructing the controller.  The result has an actuator, a name, a type
    and a class - failing with ErrInvalidController names the first that is
    missing - and a finalizer suffix, which is the one given or else the name;
    registering it hands exactly its fields to the extension library, with the
    default predicates iff none were given. *)
Theorem controller_New_valid opts :
  (forall c, controller.New opts = Ok c ->
     is_Some (controller.actuator c) /\ controller.name c <> ""%string /\ controller.extensionType c <> ""%string /\
     controller.extensionClasses c <> [] /\ controller.finalizerSuffix c <> ""%string /\
     forall c0, applyOptions opts controller.initial = Ok c0 ->
       c = c0 <| controller.finalizerSuffix := controller.finalizerSuffix c |> /\
       (controller.finalizerSuffix c0 <> ""%string -> c = c0) /\
       (controller.finalizerSuffix c0 = ""%string -> controller.finalizerSuffix c = controller.name c0)) /\
  (forall c0, applyOptions opts controller.initial = Ok c0 ->
     (exists c, controller.New opts = Ok c) <->
     is_Some (controller.actuator c0) /\ controller.name c0 <> ""%string /\
     controller.extensionType c0 <> ""%string /\ controller.extensionClasses c0 <> []) /\
  (forall c mgr t r, runs (controller.SetupWithManager c mgr) t r ->
     exists preds t1 x, t = t1 ++ [ev (ExtensionAdd mgr (controller.addArgs (c <| controller.predicates := preds |>))) x] /\
       r = of_result x /\
       ((controller.predicates c = [] /\
         t1 = [ev (DefaultPredicates mgr (controller.ignoreOperationAnnotation c)) preds]) \/
        (controller.predicates c <> [] /\ preds = controller.predicates c /\ t1 = []))).
Proof.
  split; [|split].
  - intros c Hc. unfold controller.New in Hc.
    destruct (applyOptions opts controller.initial) as [c0|e|w] eqn:E; [|done..].
    change (controller.validate c0 = Ok c) in Hc. unfold controller.validate in Hc.
    destruct (controller.actuator c0) as [act|] eqn:Ha; [|done].
    repeat case_decide; try done; injection Hc as <-; simplify_eq/=.
    + split_and!; try done. by intros c1 [= <-].
    + split_and!; try done. intros c1 [= <-]. by destruct c0.
  - intros c0 E.
    assert (controller.New opts = controller.validate c0) as -> by (unfold controller.New; by rewrite E).
    unfold controller.validate. destruct (controller.actuator c0) as [act|].
    2: { split; [by intros [? ?]|by intros [[? ?] _]]. }
    repeat case_decide; (split; [intros [? ?]; try done|intros (?&?&?&?); try done]); eauto 10.
  - intros c mgr t r Hr. unfold controller.SetupWithManager in Hr.
    destruct (controller.predicates c) as [|p ps] eqn:Ep.
    + destruct Hr as (preds&t1&->&x&t2&->&[-> ->]). exists preds. eexists [_], x. split_and!; [done..|]. auto.
    + destruct Hr as (x&t2&->&[-> ->]). exists (p :: ps), [], x. split_and!; [|done|].
      * destruct c. cbn in *. by subst.
      * by right.
Qed.

(** ** heartbeat.New *)

(** C38: the heartbeat.  A heartbeat has a name and a namespace, failing with
    ErrInvalidHeartbeat otherwise; its interval is the one given, or 30 seconds,
    and an interval of a whole number of seconds that fits is handed to the
    extension library as exactly that number, although the code goes through
    floating point. *)
Theorem heartbeat_New_valid :
  (forall opts h, heartbeat.New opts = Ok h ->
     heartbeat.extensionName h <> ""%string /\ heartbeat.namespace h <> ""%string) /\
  (forall name ns, exists r, heartbeat.New [heartbeat.WithExtensionName name; heartbeat.WithLeaseNamespace ns] = r /\
     if decide (name <> "" /\ ns <> "")%string
     then exists h, r = Ok h /\ ha_RenewIntervalSeconds (heartbeat.addArgs h) = Some 30%Z
     else exists e, r = Err e /\ errorsIs e heartbeat.ErrInvalidHeartbeat = true) /\
  (forall opts h n, heartbeat.New (opts ++ [heartbeat.WithRenewInterval (n * Second)]) = Ok h ->
     (0 <= n < 2 ^ 31)%Z -> ha_RenewIntervalSeconds (heartbeat.addArgs h) = Some n).
Proof.
  split; [|split].
  - intros opts h Hh. unfold heartbeat.New in Hh. destruct (applyOptions _ _) as [h0|e|w]; [|done..].
    cbn in Hh. do 2 (case_decide; [done|]). by injection Hh as <-.
  - intros name ns. eexists. split; [reflexivity|]. unfold heartbeat.New. cbn -[errorsIs].
    repeat case_decide; try tauto; subst; try (eexists; split; [reflexivity|]); try reflexivity; tauto.
  - intros opts h n Hh Hn. unfold heartbeat.New, heartbeat.Option_ in *. rewrite applyOptions_app in Hh.
    destruct (applyOptions opts _) as [h0|e|w]; [|done..]. cbn in Hh.
    do 2 (case_decide; [done|]). injection Hh as <-. by apply Seconds_whole.
Qed.
