(* ===== verification/ProcessProps.v ===== *)
(** * Properties of process start-up

    A process starts its manager only when everything it needs has been
    registered with it: the theorems describe every execution of the manager
    builder and of the commands, whatever the registrations answer. *)

From S2P Require Import Prelude GoStd Errors FunctionalOptions Effects KubeObjects Constants.
From S2P Require Import Config External Interfaces Actuator Process Mgr Heartbeat Controller.
From S2P Require Import NetpolManager Commands ActuatorSpecs.

(** ** Events *)

Definition starts (e : event reply) : Prop := exists m, projT1 e = Start m.

(** No manager is started. *)
Abbreviation idle := (fun e : event reply => ~ starts e).

(** Finds an event in a trace, instantiating what is unknown of it. *)
Ltac in_trace :=
  lazymatch goal with
  | |- _ ∈ _ ++ _ => apply elem_of_app; first [left; in_trace | right; in_trace]
  | |- _ ∈ _ :: _ => apply elem_of_cons; first [left; reflexivity | right; in_trace]
  | |- _ => solve [eauto]
  end.

Ltac not_start := intros [? ?]; discriminate.

(** The logger is built before anything else: where that fails, the program
    panics having done nothing. *)
Definition logger_panics {A} (level format : string) (t : list (event reply)) (r : outcome A) : Prop :=
  exists e, t = [ev (NewZapLogger level format) (inr e)] /\ r = Panic (Error e).

Lemma MustNewZapLogger_runs {B} level format (k : Handle -> setupIO B) t r :
  runs (MustNewZapLogger level format ≫= k) t r ->
  logger_panics level format t r \/
  exists h t', t = ev (NewZapLogger level format) (inl h) :: t' /\ runs (k h) t' r.
Proof.
  intros (x&t'&->&Hr). destruct x as [h|e].
  - right. exists h, t'. by split.
  - left. exists e. by destruct Hr as [-> ->].
Qed.

Lemma wrapf_ask_idle {A} pre c (res : reply c -> A + error) :
  (forall m, c <> Start m) -> emits idle (wrapf pre (Call c (fun r => Ret (of_result (res r)))) : setupIO A).
Proof.
  intros Hc. apply emits_wrapf, emits_Call; [|intros; apply emits_Ret].
  intros r [m Hm]. by apply (Hc m).
Qed.

Lemma runs_get {B} c (f : reply c -> setupIO B) t r :
  runs ((get c) ≫= f) t r -> exists x t', t = ev c x :: t' /\ runs (f x) t' r.
Proof. by intros (x&t'&->&Hr); exists x, t'. Qed.

(** Executions of a loop over successful registrations. *)
Lemma for_each_registered {A} (l : list A) pre (c : A -> setup) (res : forall a, reply (c a) -> unit + error) t x :
  runs (for_each l (fun a => wrapf pre (Call (c a) (fun r => Ret (of_result (res a r)))))) t (Ok tt) -> x ∈ l ->
  exists r, ev (c x) r ∈ t /\ res x r = inl tt.
Proof.
  intros Hr Hx. destruct (runs_for_each_Ok _ _ _ _ Hr Hx) as (t1&t2&t3&->&Hd).
  apply runs_wrapf_Ok in Hd as (r&t'&->&Hd). exists r. split; [set_solver|].
  destruct (res x r) as [[]|e]; [done|]. by destruct Hd.
Qed.

(** ** Schemes *)

(** The successful registrations of APIs, in order. *)
Definition additions (apis : list string) : list (event reply) :=
  (fun api => ev (ans := reply) (AddToScheme api) (inl tt)) <$> apis.

Definition installations (apis : list string) : list (event reply) :=
  (fun api => ev (ans := reply) (InstallScheme api) tt) <$> apis.

Definition registrations (adds installs : list string) : list (event reply) :=
  additions adds ++ installations installs.

Lemma addToScheme_Ok pre api s t s' :
  runs (wrapf pre (addToScheme api s)) t (Ok s') -> s' = s ++ [api] /\ t = additions [api].
Proof.
  intros Hr%runs_wrapf_Ok. destruct Hr as (x&t'&->&Hr).
  destruct x as [[]|e]; destruct Hr as [-> [=]]. by subst.
Qed.

(** A scheme holds what it held and the APIs whose registrations were called. *)
Lemma addToSchemes_Ok pre apis s t s' :
  runs (threading apis (fun api s => wrapf pre (addToScheme api s)) s) t (Ok s') ->
  s' = s ++ apis /\ t = additions apis.
Proof.
  revert s t. induction apis as [|api apis IH]; intros s t Hr.
  - destruct Hr as [-> [= ->]]. by rewrite app_nil_r.
  - apply runs_bind in Hr as [(t1&s1&t2&->&[-> ->]%addToScheme_Ok&[-> ->]%IH)|[(?&?&?)|(?&?&?)]]; [|done..].
    by rewrite <- app_assoc.
Qed.

Lemma installSchemes_Ok apis s t s' :
  runs (threading apis installScheme s) t (Ok s') -> s' = s ++ apis /\ t = installations apis.
Proof.
  revert s t. induction apis as [|api apis IH]; intros s t Hr.
  - destruct Hr as [-> [= ->]]. by rewrite app_nil_r.
  - apply runs_bind in Hr as [(t1&s1&t2&->&([]&t3&->&[-> [= ->]])&[-> ->]%IH)|[(?&?&?)|(?&?&?)]]; [|done..].
    by rewrite <- app_assoc.
Qed.

(** ** The manager builder *)

Section mgr.
Context `{RangeOrder}.
Import mgr.

Lemma registerSchemes_Ok m t m' :
  runs (registerSchemes m) t (Ok m') ->
  m' = m <| scheme := scheme m ++ addToSchemes m ++ installSchemes m |> /\
  t = registrations (addToSchemes m) (installSchemes m).
Proof using Type.
  unfold registerSchemes. intros Hr.
  apply runs_bind in Hr as [(t1&s1&t2&->&H1&Hr)|[(?&?&?)|(?&?&?)]]; [|done..].
  apply runs_bind in Hr as [(t3&s2&t4&->&H2&[-> Hr])|[(?&?&?)|(?&?&?)]]; [|done..].
  apply addToSchemes_Ok in H1 as [-> ->]. apply installSchemes_Ok in H2 as [-> ->].
  unfold registrations. rewrite app_nil_r, <- app_assoc in *. split; [by injection Hr|done].
Qed.

Definition registered (m : mgr) (crMgr : Handle) (t : list (event reply)) : Prop :=
  (forall name checker, healthzChecks m !! name = Some checker ->
     ev (AddHealthzCheck crMgr name checker) (inl tt) ∈ t) /\
  (forall name checker, readyzChecks m !! name = Some checker ->
     ev (AddReadyzCheck crMgr name checker) (inl tt) ∈ t) /\
  (forall path handler, extraMetricsHandlers m !! path = Some handler ->
     ev (AddMetricsServerExtraHandler crMgr path handler) (inl tt) ∈ t) /\
  (forall r, r ∈ runnables m -> ev (AddRunnable crMgr r) (inl tt) ∈ t).

Lemma range_elem loop {A} (g : gmap string A) k v : g !! k = Some v -> (k, v) ∈ range loop g.
Proof using Type. intros Hk. rewrite range_permutation. by apply elem_of_map_to_list. Qed.

Lemma registered_range loop {A} (g : gmap string A) pre (c : string -> A -> setup)
    (res : forall k v, reply (c k v) -> unit + error) t k v :
  runs (for_each (range loop g) (fun '(k, v) =>
    wrapf pre (Call (c k v) (fun r => Ret (of_result (res k v r)))))) t (Ok tt) ->
  g !! k = Some v -> exists r, ev (c k v) r ∈ t /\ res k v r = inl tt.
Proof using Type.
  intros Hr Hk. destruct (runs_for_each_Ok _ _ _ _ Hr (range_elem loop _ _ _ Hk)) as (t1&t2&t3&->&Hd).
  apply runs_wrapf_Ok in Hd as (r&t'&->&Hd). exists r. split; [set_solver|].
  destruct (res k v r) as [[]|e]; [done|]. by destruct Hd.
Qed.

Lemma registerAll_Ok m crMgr t : runs (registerAll m crMgr) t (Ok tt) -> registered m crMgr t.
Proof using Type.
  unfold registerAll. intros Hr.
  apply runs_bind in Hr as [(t1&[]&t2&->&H1&Hr)|[(?&?&?)|(?&?&?)]]; [|done..].
  apply runs_bind in Hr as [(t3&[]&t4&->&H2&Hr)|[(?&?&?)|(?&?&?)]]; [|done..].
  apply runs_bind in Hr as [(t5&[]&t6&->&H3&H4)|[(?&?&?)|(?&?&?)]]; [|done..].
  split_and!.
  - intros k v Hk. destruct (registered_range _ _ _ (AddHealthzCheck crMgr) (fun _ _ r => r) _ _ _ H1 Hk) as (r&Hin&->). set_solver.
  - intros k v Hk. destruct (registered_range _ _ _ (AddReadyzCheck crMgr) (fun _ _ r => r) _ _ _ H2 Hk) as (r&Hin&->). set_solver.
  - intros k v Hk. destruct (registered_range _ _ _ (AddMetricsServerExtraHandler crMgr) (fun _ _ r => r) _ _ _ H3 Hk) as (r&Hin&->). set_solver.
  - intros x Hx. destruct (for_each_registered _ _ (AddRunnable crMgr) (fun _ r => r) _ _ H4 Hx) as (r&Hin&->). set_solver.
Qed.

Lemma registerAll_idle m crMgr : emits idle (registerAll m crMgr).
Proof using Type. unfold registerAll. emits_auto; not_start. Qed.

Lemma New_idle opts : emits idle (New opts).
Proof using Type.
  unfold New, registerSchemes, addToScheme, installScheme. emits_auto; try not_start. apply registerAll_idle.
Qed.

Lemma New_no_panic opts : (forall w, applyOptions opts initial <> Panic w) -> no_panic (New opts).
Proof using Type.
  intros Hopts. unfold New, registerSchemes, addToScheme, installScheme, registerAll.
  no_panic_auto; auto with effects.
Qed.

(** A successful [New]. *)
Lemma New_Ok opts t crMgr :
  runs (New opts) t (Ok crMgr) ->
  exists m config t1 t2, applyOptions opts initial = Ok m /\
    t = registrations (addToSchemes m) (installSchemes m) ++ t1 ++
      ev (ManagerNew config (managerOptions (m <| scheme := scheme m ++ addToSchemes m ++ installSchemes m |>))) (inl crMgr) :: t2 /\
    ev (ApplyClientConnection (clientConnConfig m) config) tt ∈ t1 /\
    match restConfig m with Some c => config = c | None => ev GetConfig (inl config) ∈ t1 end /\
    registered m crMgr t2.
Proof using Type.
  unfold New. intros Hr. destruct (applyOptions opts initial) as [m|e|w] eqn:E; [|by destruct Hr..].
  change (runs (registerSchemes m ≫= (fun m =>
    config ← match restConfig m with Some config => mret config
             | None => wrapf "failed to get rest config: " (ask GetConfig) end;
    get (ApplyClientConnection (clientConnConfig m) config) ;;
    crMgr ← wrapf "failed to create manager: " (ask (ManagerNew config (managerOptions m)));
    registerAll m crMgr ;; mret crMgr)) t (Ok crMgr)) in Hr.
  apply runs_bind in Hr as [(t1&m'&t2&->&H1&Hr)|[(?&?&?)|(?&?&?)]]; [|done..].
  apply registerSchemes_Ok in H1 as [-> ->].
  apply runs_bind in Hr as [(t3&config&t4&->&Hc&Hr)|[(?&?&?)|(?&?&?)]]; [|done..].
  destruct Hr as ([]&t5&->&Hr). apply (runs_wrapf_request _ (ManagerNew config _) (fun r => r)) in Hr as (x&t6&->&Hr).
  destruct x as [h|e]; [|by destruct Hr].
  apply runs_bind in Hr as [(t7&[]&t8&->&Ha&[-> [= <-]])|[(?&?&?)|(?&?&?)]]; [|done..].
  apply registerAll_Ok in Ha. rewrite app_nil_r.
  eexists m, config, (t3 ++ [ev (ApplyClientConnection (clientConnConfig m) config) tt]), t7.
  split_and!; [done|by rewrite <- !app_assoc|set_solver| |done].
  change (restConfig (m <| scheme := scheme m ++ addToSchemes m ++ installSchemes m |>)) with (restConfig m) in Hc.
  destruct (restConfig m) as [c|]; [by destruct Hc as [_ [= ->]]|].
  apply runs_wrapf_Ok in Hc as (x&t9&->&Hc). destruct x as [c|e]; destruct Hc as [_ [=]]. subst. set_solver.
Qed.
End mgr.

(** C37: the manager builder.  Whatever the outside world answers, [New] never
    starts the manager.  If it returns one, the options were applied without
    error; the calls began with the options' scheme functions - those that can
    fail, then those that install, each exactly once and in order - so that the
    manager's scheme holds exactly what it was given and their APIs; the connection settings
    were applied before the manager was created, on the configured REST config if there is
    one and on the discovered one otherwise, with exactly the options' settings;
    and every health check, readiness check, metrics handler and runnable of
    the options has been registered with it. *)
Theorem mgr_New_registers_everything `{RangeOrder} opts t r :
  runs (mgr.New opts) t r ->
  Forall (fun e => ~ starts e) t /\
  (forall crMgr, r = Ok crMgr -> exists m config t1 t2,
    applyOptions opts mgr.initial = Ok m /\
    t = registrations (mgr.addToSchemes m) (mgr.installSchemes m) ++ t1 ++
        ev (ManagerNew config (mgr.managerOptions
          (m <| mgr.scheme := mgr.scheme m ++ mgr.addToSchemes m ++ mgr.installSchemes m |>))) (inl crMgr) :: t2 /\
    ev (ApplyClientConnection (mgr.clientConnConfig m) config) tt ∈ t1 /\
    match mgr.restConfig m with Some c => config = c | None => ev GetConfig (inl config) ∈ t1 end /\
    registered m crMgr t2).
Proof.
  intros Hr. split; [by eapply New_idle|]. intros crMgr ->. by apply New_Ok.
Qed.

(** The manager [m] was created on [config] with [opts], once the APIs were
    registered with its scheme and the connection settings applied. *)
Definition created_with (adds installs : list string) (conn : ClientConnection) (config : Handle)
    (opts : ManagerOptions) (m : Handle) (t : list (event reply)) : Prop :=
  exists t1 t2, t = t1 ++ ev (ManagerNew config opts) (inl m) :: t2 /\
    registrations adds installs ⊆ t1 /\ ev (ApplyClientConnection (Some conn) config) tt ∈ t1.

Lemma created_with_frame adds installs conn config opts m t t0 t3 :
  created_with adds installs conn config opts m t ->
  created_with adds installs conn config opts m (t0 ++ t ++ t3).
Proof.
  intros (t1&t2&->&Hr&Ha). exists (t0 ++ t1), (t2 ++ t3). split; [by rewrite <- !app_assoc|]. set_solver.
Qed.

(** [WithWebhookCertDir] after [WithWebhookPort] is ignored: only the first of
    the two creates the server. *)
Lemma webhook_cert_dir_ignored port dir m :
  exists m', applyOptions [mgr.WithWebhookPort port; mgr.WithWebhookCertDir dir] m = Ok m' /\
    (mgr.webhookServer m = None -> wh_CertDir <$> mgr.webhookServer m' = Some ""%string).
Proof.
  unfold mgr.WithWebhookPort, mgr.WithWebhookCertDir, assigns. eexists. split; [reflexivity|].
  intros Hm. rewrite Hm. done.
Qed.

(** ** The manager command *)

Section managercmd.
Context `{Libraries} `{RangeOrder}.
Import managercmd.

(** The manager that the flags describe. *)
Definition manager_options (f : flags) (ctx : Handle) : ManagerOptions :=
  {| mo_Scheme := ["kubernetes"; "extensions"; "resources/v1alpha1"; "core/v1beta1"; "config"]%string;
     mo_Metrics := mkMetricsOptions (metricsBindAddr f) 0;
     mo_HealthProbeBindAddress := healthProbeBindAddr f;
     mo_LeaderElection := leaderElection f;
     mo_LeaderElectionID := leaderElectionID f;
     mo_LeaderElectionNamespace := leaderElectionNamespace f;
     mo_LeaderElectionResourceLock := "leases";
     mo_LeaderElectionConfig := None;
     mo_BaseContext := ctx;
     mo_Controller := mkControllerConfig (maxConcurrentReconciles f) (Some true);
     mo_WebhookServer := None;
     mo_Logger := 0;
     mo_PprofBindAddress := pprofBindAddr f;
     mo_Client := 0;
     mo_Cache := 0 |}.

(** It is created on the discovered configuration, with the types of the
    program's own configuration API in its scheme, and has both checks. *)
Definition manager_created (f : flags) (ctx m : Handle) (t : list (event reply)) : Prop :=
  exists config,
    ev GetConfig (inl config) ∈ t /\
    created_with ["kubernetes"; "extensions"; "resources/v1alpha1"; "core/v1beta1"]%string ["config"%string]
      (mkClientConnection (clientConnQPS f) (clientConnBurst f)) config (manager_options f ctx) m t /\
    ev (AddHealthzCheck m "healthz" Ping) (inl tt) ∈ t /\ ev (AddReadyzCheck m "readyz" Ping) (inl tt) ∈ t.

Lemma manager_created_frame f ctx m t t0 t3 :
  manager_created f ctx m t -> manager_created f ctx m (t0 ++ t ++ t3).
Proof using Type.
  intros (config&Hc&Hn&Hh&Hr). exists config. split_and!; [set_solver|by apply created_with_frame|set_solver..].
Qed.

(** What is registered before the manager [m] is started. *)
Definition heartbeat_registered (f : flags) (m : Handle) (t : list (event reply)) : Prop :=
  exists args, ev (HeartbeatAdd m args) (inl tt) ∈ t /\
    ha_ExtensionName args = extensionName f /\ ha_ExtensionName args <> ""%string /\
    ha_Namespace args = heartbeatNamespace f /\ ha_Namespace args <> ""%string /\
    ha_RenewIntervalSeconds args = Float64.int32 (Seconds (heartbeatRenewInterval f)).

Definition controller_registered (iv : ImageVector) (f : flags) (m : Handle) (t : list (event reply)) : Prop :=
  exists c decode args, ev (GetClient m) c ∈ t /\ ev (UniversalDecoder m) decode ∈ t /\
    ev (ExtensionAdd m args) (inl tt) ∈ t /\
    aa_Name args = "envoy-gateway"%string /\ aa_Type args = "envoy-gateway"%string /\
    aa_FinalizerSuffix args = "gardener-extension-envoy-gateway"%string /\
    aa_ExtensionClasses args = ["shoot"%string] /\ aa_Resync args = resyncInterval f /\
    aa_Actuator args = Some ((productionActuator c iv)
      <| Actuator.decoder := Some decode |> <| Actuator.gardenerVersion := gardenerVersion f |>
      <| Actuator.gardenletFeatureGates := gardenletFeatureGates f |>).

Lemma getManager_idle f ctx : emits idle (getManager f ctx).
Proof using Type.
  unfold getManager, heartbeat.SetupWithManager. apply emits_bind; [apply New_idle|].
  intros m. emits_auto; not_start.
Qed.

Lemma managerOpts_applied f ctx :
  exists mg, applyOptions (managerOpts f ctx) mgr.initial = Ok mg /\
    mgr.restConfig mg = None /\
    mgr.clientConnConfig mg = Some (mkClientConnection (clientConnQPS f) (clientConnBurst f)) /\
    mgr.addToSchemes mg = ["kubernetes"; "extensions"; "resources/v1alpha1"; "core/v1beta1"]%string /\
    mgr.installSchemes mg = ["config"%string] /\
    mgr.managerOptions (mg <| mgr.scheme := mgr.scheme mg ++ mgr.addToSchemes mg ++ mgr.installSchemes mg |>) =
      manager_options f ctx /\
    mgr.healthzChecks mg !! "healthz"%string = Some Ping /\ mgr.readyzChecks mg !! "readyz"%string = Some Ping.
Proof using Type. eexists. split; [reflexivity|]. split_and!; reflexivity. Qed.

Lemma getManager_no_panic f ctx : no_panic (getManager f ctx).
Proof using Type.
  unfold getManager, heartbeat.SetupWithManager, heartbeat.New. apply no_panic_bind.
  - apply New_no_panic. destruct (managerOpts_applied f ctx) as (mg&->&_). done.
  - intros m. no_panic_auto; auto with effects. cbn. repeat case_decide; done.
Qed.

Lemma getManager_Ok f ctx t m :
  runs (getManager f ctx) t (Ok m) ->
  manager_created f ctx m t /\ heartbeat_registered f m t.
Proof using Type.
  unfold getManager. intros Hr.
  apply runs_bind in Hr as [(t1&m0&t2&->&H1&Hr)|[(?&?&?)|(?&?&?)]]; [|done..].
  apply New_Ok in H1 as (mg&config&t3&t4&Happ&->&Hconn&Hcfg&(Hhealth&Hready&_)).
  destruct (managerOpts_applied f ctx) as (mg'&Happ'&Hrc&Hcc&Hadd&Hinst&Hopts&Hping1&Hping2). rewrite Happ' in Happ.
  injection Happ as <-. clear Happ'. rewrite Hopts, Hadd, Hinst. rewrite Hrc in Hcfg. rewrite Hcc in Hconn.
  apply Hhealth in Hping1. apply Hready in Hping2.
  unfold heartbeat_registered. unfold heartbeat.New in Hr. cbn -[runs Float64.int32 Seconds] in Hr.
  do 2 (case_decide; [by destruct Hr|]).
  destruct Hr as (x&t5&->&Hr). destruct x as [[]|e]; [|by destruct Hr]. destruct Hr as [-> [= ->]].
  split.
  - exists config. split_and!; [set_solver| |set_solver..].
    eexists (registrations _ _ ++ t3), (t4 ++ _). split; [by rewrite <- !app_assoc|]. set_solver.
  - eexists. split; [apply elem_of_app; right; in_trace|]. done.
Qed.

Lemma controller_Ok iv f c decode act :
  Actuator.New (Some c) (Some iv) (actuatorOpts f decode) = Ok act ->
  exists ctrl, controller.New (controllerOpts f act) = Ok ctrl /\ controller.predicates ctrl = [] /\
    controller.name ctrl = Name /\ controller.extensionType ctrl = ExtensionType /\
    controller.finalizerSuffix ctrl = FinalizerSuffix /\
    controller.extensionClasses ctrl = [ExtensionClassShoot] /\ controller.resync ctrl = resyncInterval f /\
    controller.actuator ctrl = Some ((productionActuator c iv)
      <| Actuator.decoder := Some decode |> <| Actuator.gardenerVersion := gardenerVersion f |>
      <| Actuator.gardenletFeatureGates := gardenletFeatureGates f |>).
Proof using Type. intros [= <-]. eexists. split; [reflexivity|]. done. Qed.

(** The command after the manager is built. *)
Lemma addController_spec iv f m t r :
  runs (decoder ← get (UniversalDecoder m); c ← get (GetClient m);
    act ← wrapf "failed to create actuator: "
        (Ret (Actuator.New (Some c) (Some iv) (actuatorOpts f decoder)));
    ctrl ← wrapf "failed to create a controller: " (Ret (controller.New (controllerOpts f act)));
    wrapf "failed to setup controller with manager: " (controller.SetupWithManager ctrl m) ;;
    wrapf "failed to start manager: " (ask (Start m))) t r ->
  (Forall idle t /\ exists e, r = Err e) \/
  (exists x t1, t = t1 ++ [ev (Start m) x] /\ Forall idle t1 /\ controller_registered iv f m t1 /\
     r = match x with inl _ => Ok tt | inr e => Err (wrapError "failed to start manager: " e "") end).
Proof using Type.
  intros (decode&t3&->&c&t4&->&Hr).
  change (runs (act ← wrapf "failed to create actuator: "
      (Ret (Actuator.New (Some c) (Some iv) (actuatorOpts f decode)));
    ctrl ← wrapf "failed to create a controller: " (Ret (controller.New (controllerOpts f act)));
    wrapf "failed to setup controller with manager: " (controller.SetupWithManager ctrl m) ;;
    wrapf "failed to start manager: " (ask (Start m))) t4 r) in Hr.
  destruct (Actuator.New (Some c) (Some iv) (actuatorOpts f decode)) as [act|e|w] eqn:E; [|done..].
  destruct (controller_Ok iv f c decode act E) as (ctrl&Hctrl&Hpred&Hn&Hty&Hfs&Hcl&Hrs&Hact).
  change (runs (ctrl ← wrapf "failed to create a controller: " (Ret (controller.New (controllerOpts f act)));
    wrapf "failed to setup controller with manager: " (controller.SetupWithManager ctrl m) ;;
    wrapf "failed to start manager: " (ask (Start m))) t4 r) in Hr.
  rewrite Hctrl in Hr.
  change (runs (wrapf "failed to setup controller with manager: " (controller.SetupWithManager ctrl m) ;;
    wrapf "failed to start manager: " (ask (Start m))) t4 r) in Hr.
  unfold controller.SetupWithManager in Hr. rewrite Hpred in Hr.
  destruct Hr as (preds&t5&->&x&t6&->&Hr). destruct x as [[]|e].
  2: { destruct Hr as [-> ->]. left. split; [|eauto].
       repeat (apply List.Forall_cons; [by not_start|]). constructor. }
  destruct Hr as (x&t7&->&Hr). right. exists x. eexists [_; _; _; _].
  assert (t7 = [] /\ r = match x with inl _ => Ok tt | inr e => Err (wrapError "failed to start manager: " e "") end)
    as [-> ->] by (by destruct x as [[]|e]; destruct Hr as [-> ->]).
  split_and!; [done|repeat (apply List.Forall_cons; [by not_start|]); constructor| |done].
  eexists c, decode, _. split_and!; [in_trace|in_trace|in_trace|done..].
Qed.
End managercmd.

(** starting the extension's manager.  Whatever the outside world answers,
    the manager command either fails without starting a manager, or starts the
    manager it created - of its flags, with every API in its scheme and both
    checks - after registering the heartbeat with the flags' non-empty
    name and namespace, and the controller of the Extension resources of this
    type, with the production actuator built from the manager's client, the
    strict decoder of its scheme and the flags' version and feature gates; and
    it returns what the manager returns. *)
Theorem runManager_starts_last `{Libraries} `{RangeOrder} iv f ctx t r :
  runs (managercmd.runManager iv f ctx) t r ->
  (Forall (fun e => ~ starts e) t /\ exists e, r = Err e) \/
  (exists m x t1, t = t1 ++ [ev (Start m) x] /\ Forall (fun e => ~ starts e) t1 /\
     manager_created f ctx m t1 /\
     heartbeat_registered f m t1 /\ controller_registered iv f m t1 /\
     r = match x with inl _ => Ok tt | inr e => Err (wrapError "failed to start manager: " e "") end).
Proof.
  unfold managercmd.runManager. intros Hr.
  apply runs_bind in Hr as [(t0&m&t2&->&H1&Hr)|[(e&->&He)|(w&->&Hw)]].
  2: { left. split; [by eapply getManager_idle|eauto]. }
  2: { by destruct (getManager_no_panic f ctx _ _ Hw). }
  assert (Hidle : Forall (fun e => ~ starts e) t0) by (by eapply getManager_idle).
  apply getManager_Ok in H1 as (Hnew&Hhb).
  apply addController_spec in Hr as [(Hi&e&->)|(x&t1&->&Hi&Hc&->)].
  - left. split; [by apply Forall_app|eauto].
  - right. exists m, x, (t0 ++ t1). rewrite <- app_assoc. split_and!; [done|by apply Forall_app| | | |done].
    + by apply (manager_created_frame _ _ _ _ []).
    + destruct Hhb as (args&?&?). exists args. split; [set_solver|done].
    + destruct Hc as (c&d&args&?&?&?&?). exists c, d, args. split_and!; [set_solver..| | | | | |]; naive_solver.
Qed.

(** ** The NetworkPolicy controller's command *)

Section netpol.
Import netpolcontroller.

(** The manager of the seed that the flags describe. *)
Definition netpol_manager_options (f : flags) (logger ctx : Handle) : ManagerOptions :=
  {| mo_Scheme := ["kubernetes"%string];
     mo_Metrics := mkMetricsOptions (metricsBindAddr f) 0;
     mo_HealthProbeBindAddress := healthProbeBindAddr f;
     mo_LeaderElection := leaderElection f;
     mo_LeaderElectionID := "envoy-gateway-netpol-controller";
     mo_LeaderElectionNamespace := seedNamespace f;
     mo_LeaderElectionResourceLock := "";
     mo_LeaderElectionConfig := None;
     mo_BaseContext := ctx;
     mo_Controller := mkControllerConfig 0 None;
     mo_WebhookServer := None;
     mo_Logger := logger;
     mo_PprofBindAddress := "";
     mo_Client := 0;
     mo_Cache := 0 |}.

(** Both schemes are registered, then the manager is created. *)
Definition seed_created (opts : Options) (logger ctx mgr : Handle) (t : list (event reply)) : Prop :=
  exists t1 t2, t = t1 ++ additions ["kubernetes"; "gateway-api"]%string ++ additions ["kubernetes"%string] ++
    ev (ManagerNew (SeedRESTConfig opts) (seedManagerOptions opts logger ctx ["kubernetes"%string])) (inl mgr) :: t2.

(** What is registered with the manager [mgr] before it is started: the shoot
    cluster, the controller on that cluster's cache, and, where probes are
    served, a health check and a readiness check on its cache. *)
Definition shoot_wired (opts : Options) (mgr : Handle) (t : list (event reply)) : Prop :=
  exists shootCluster cache,
    ev (ClusterNew (ShootRESTConfig opts) (mkClusterOptions None (Some shootAPIs) None)) (inl shootCluster) ∈ t /\
    ev (AddRunnable mgr (ClusterRunnable shootCluster)) (inl tt) ∈ t /\
    ev (GetCache shootCluster) cache ∈ t /\
    ev (BuilderComplete mgr "envoy-gateway-netpol" cache) (inl tt) ∈ t /\
    (HealthProbeBindAddress opts <> "0"%string -> exists cache',
       ev (AddHealthzCheck mgr "ping" Ping) (inl tt) ∈ t /\
       ev (GetCache shootCluster) cache' ∈ t /\
       ev (AddReadyzCheck mgr "shoot-cache-sync" (CacheSyncWithDeadline cache' (5 * Second))) (inl tt) ∈ t).

Lemma NewManager_idle ctx logger opts : emits idle (NewManager ctx logger opts).
Proof.
  unfold NewManager, shootScheme, addToScheme, AddToManager. emits_auto; not_start.
Qed.

Lemma NewManager_no_panic ctx logger opts : no_panic (NewManager ctx logger opts).
Proof.
  unfold NewManager, shootScheme, addToScheme, AddToManager. no_panic_auto; auto with effects.
Qed.

Lemma shootScheme_Ok t s : runs shootScheme t (Ok s) -> s = shootAPIs /\ t = additions shootAPIs.
Proof. unfold shootScheme. by intros [-> ->]%addToSchemes_Ok. Qed.

Lemma NewManager_Ok ctx logger opts t mgr :
  runs (NewManager ctx logger opts) t (Ok mgr) ->
  seed_created opts logger ctx mgr t /\ shoot_wired opts mgr t.
Proof.
  unfold NewManager. intros Hr.
  apply runs_bind in Hr as [(t1&s&t2&->&H1&Hr)|[(?&?&?)|(?&?&?)]]; [|done..].
  apply shootScheme_Ok in H1 as [-> ->].
  apply runs_bind in Hr as [(t1&s&t3&->&[-> ->]%addToScheme_Ok&Hr)|[(?&?&?)|(?&?&?)]]; [|done..].
  apply (runs_wrapf_request _ (ManagerNew _ _) (fun r => r)) in Hr as (x&t4&->&Hr). destruct x as [m|e]; [|by destruct Hr].
  apply (runs_wrapf_request _ (ClusterNew _ _) (fun r => r)) in Hr as (x&t5&->&Hr). destruct x as [c|e]; [|by destruct Hr].
  apply (runs_wrapf_request _ (AddRunnable _ _) (fun r => r)) in Hr as (x&t6&->&Hr). destruct x as [[]|e]; [|by destruct Hr].
  destruct Hr as (cache&t7&->&x&t8&->&Hr). destruct x as [[]|e]; [|by destruct Hr].
  assert (Hm : m = mgr /\ (HealthProbeBindAddress opts <> "0"%string -> exists cache',
      ev (AddHealthzCheck m "ping" Ping) (inl tt) ∈ t8 /\
      ev (GetCache c) cache' ∈ t8 /\
      ev (AddReadyzCheck m "shoot-cache-sync" (CacheSyncWithDeadline cache' (5 * Second))) (inl tt) ∈ t8)).
  { case_decide as Hp; [|by destruct Hr as [_ [= ->]]].
    destruct Hr as (x&t9&->&Hr). destruct x as [[]|e]; [|by destruct Hr].
    destruct Hr as (cache'&t10&->&x&t11&->&Hr). destruct x as [[]|e]; destruct Hr as [-> [=]]. subst.
    split; [done|]. intros _. exists cache'. split_and!; in_trace. }
  destruct Hm as [-> Hprobe]. split; [by eexists [], _|]. exists c, cache.
  split_and!; [in_trace..|]. intros Hp. destruct (Hprobe Hp) as (cache'&?&?&?). exists cache'. split_and!; set_solver.
Qed.
End netpol.

(** starting the NetworkPolicy controller.  Whatever the outside world
    answers, the command either fails without starting a manager, or starts the
    manager it created for the seed - leases in the seed namespace of its flags -
    after adding the shoot cluster to it and building the controller on that
    cluster's cache; and unless probes are disabled, readiness is gated on that
    cluster's cache having synced. *)
Theorem netpol_run_starts_last ctx logger f t r :
  runs (netpolcontroller.run ctx logger f) t r ->
  logger_panics (netpolcontroller.zapLogLevel f) (netpolcontroller.zapLogFormat f) t r \/
  (Forall (fun e => ~ starts e) t /\ exists e, r = Err e) \/
  (exists mgr x t1 opts, t = t1 ++ [ev (Start mgr) x] /\ Forall (fun e => ~ starts e) t1 /\
     netpolcontroller.SeedNamespace opts = netpolcontroller.seedNamespace f /\
     netpolcontroller.HealthProbeBindAddress opts = netpolcontroller.healthProbeBindAddr f /\
     ev GetConfig (inl (netpolcontroller.SeedRESTConfig opts)) ∈ t1 /\
     ev (BuildConfigFromFlags (netpolcontroller.shootKubeconfig f)) (inl (netpolcontroller.ShootRESTConfig opts)) ∈ t1 /\
     netpolcontroller.seedManagerOptions opts logger ctx ["kubernetes"%string] = netpol_manager_options f logger ctx /\
     seed_created opts logger ctx mgr t1 /\ shoot_wired opts mgr t1 /\
     r = match x with inl _ => Ok tt
         | inr e => Err (wrapError "failed to start netpol-controller manager: " e "") end).
Proof.
  unfold netpolcontroller.run. intros [Hr|(h&t0&->&Hr)]%MustNewZapLogger_runs; [by left|right].
  apply (runs_wrapf_request _ GetConfig (fun r => r)) in Hr as (x&t1&->&Hr). destruct x as [seed|e].
  2: { destruct Hr as [-> ->]. left. split; [|eauto]. repeat (apply List.Forall_cons; [not_start|]). constructor. }
  apply (runs_wrapf_request _ (BuildConfigFromFlags _) (fun r => r)) in Hr as (x&t2&->&Hr). destruct x as [shoot|e].
  2: { destruct Hr as [-> ->]. left. split; [|eauto]. repeat (apply List.Forall_cons; [not_start|]). constructor. }
  match type of Hr with runs (wrapf _ (netpolcontroller.NewManager _ _ ?o) ≫= _) _ _ => set (opts := o) in Hr end.
  apply runs_bind in Hr as [(t3&mgr&t4&->&H1%runs_wrapf_Ok&Hr)|[(e&->&He)|(w&->&Hw)]].
  - assert (Hidle : Forall (fun e => ~ starts e) t3) by (by eapply NewManager_idle).
    apply NewManager_Ok in H1 as [Hnew (c&cache&Hc1&Hc2&Hc3&Hc4&Hc5)]. destruct Hr as (x&t5&->&Hr).
    right. exists mgr, x, (ev (NewZapLogger (netpolcontroller.zapLogLevel f) (netpolcontroller.zapLogFormat f)) (inl h)
      :: ev GetConfig (inl seed) :: ev (BuildConfigFromFlags (netpolcontroller.shootKubeconfig f)) (inl shoot) :: t3), opts.
    assert (t5 = []) as -> by (by destruct x as [[]|e]; destruct Hr as [-> _]).
    split_and!; [done|repeat (apply List.Forall_cons; [not_start|]); done|done|done|in_trace|in_trace|done| | |].
    + destruct Hnew as (t6&t7&->). by eexists (_ :: _ :: _ :: t6), t7.
    + exists c, cache. split_and!; [set_solver..|]. intros Hp. destruct (Hc5 Hp) as (cache'&?&?&?). exists cache'. set_solver.
    + by destruct x as [[]|e]; destruct Hr as [_ ->].
  - left. split; [|eauto]. repeat (apply List.Forall_cons; [not_start|]).
    eapply emits_wrapf; [apply NewManager_idle|done].
  - by destruct (no_panic_wrapf _ _ (NewManager_no_panic ctx logger opts) _ _ Hw).
Qed.

(** ** The webhook command *)

Section webhook.
Context `{RangeOrder}.
Import webhookcmd.

(** The manager that the flags describe. *)
Definition webhook_manager_options (f : flags) (ctx sourceConfig : Handle) : ManagerOptions :=
  {| mo_Scheme := ["kubernetes"; "core"; "config"]%string;
     mo_Metrics := mkMetricsOptions (metricsBindAddr f) 0;
     mo_HealthProbeBindAddress := healthProbeBindAddr f;
     mo_LeaderElection := leaderElection f;
     mo_LeaderElectionID := leaderElectionID f;
     mo_LeaderElectionNamespace := leaderElectionNamespace f;
     mo_LeaderElectionResourceLock := "leases";
     mo_LeaderElectionConfig := Some sourceConfig;
     mo_BaseContext := ctx;
     mo_Controller := mkControllerConfig 5 (Some true);
     mo_WebhookServer := Some (mkWebhookOptions (webhookServerHost f) (webhookServerPort f) (webhookServerCertDir f)
       (webhookServerCertName f) (webhookServerKeyName f));
     mo_Logger := 0;
     mo_PprofBindAddress := pprofBindAddr f;
     mo_Client := 0;
     mo_Cache := 0 |}.

(** What [m] is and what is registered with it before it is started. *)
Definition webhook_wired (f : flags) (ctx m : Handle) (t : list (event reply)) : Prop :=
  exists logger sourceConfig targetConfig sourceCluster sourceCache cache,
    ev (NewZapLogger (zapLogLevel f) (zapLogFormat f)) (inl logger) ∈ t /\
    ev GetConfig (inl sourceConfig) ∈ t /\
    ev (BuildConfigFromFlags (gardenKubeconfig f)) (inl targetConfig) ∈ t /\
    ev (ClusterNew sourceConfig (mkClusterOptions (Some logger) None (Some [webhookConfigNamespace f]))) (inl sourceCluster) ∈ t /\
    ev (GetCache sourceCluster) sourceCache ∈ t /\ ev (GetCache m) cache ∈ t /\
    created_with ["kubernetes"%string] ["core"; "config"]%string
      (mkClientConnection (clientConnQPS f) (clientConnBurst f)) targetConfig
      (webhook_manager_options f ctx sourceConfig) m t /\
    ev (AddHealthzCheck m "healthz" Ping) (inl tt) ∈ t /\ ev (AddReadyzCheck m "readyz" Ping) (inl tt) ∈ t /\
    ev (AddRunnable m (ClusterRunnable sourceCluster)) (inl tt) ∈ t /\
    ev (AddReadyzCheck m "webhook-server" (WebhookStarted (webhookOpts f))) (inl tt) ∈ t /\
    ev (AddReadyzCheck m "source-informer-sync" (CacheSync sourceCache)) (inl tt) ∈ t /\
    ev (AddReadyzCheck m "informer-sync" (CacheSync cache)) (inl tt) ∈ t.

Lemma webhook_wired_frame f ctx m t t0 t3 : webhook_wired f ctx m t -> webhook_wired f ctx m (t0 ++ t ++ t3).
Proof using Type.
  intros (h&sc&tc&c&ca&cache&?&?&?&?&?&?&Hnew&Hrest). exists h, sc, tc, c, ca, cache.
  do 6 (split; [set_solver|]). split; [by apply created_with_frame|]. set_solver.
Qed.

Lemma webhookOpts_applied f ctx sc tc cl ca :
  exists mg, applyOptions (managerOpts f ctx sc tc cl ca) mgr.initial = Ok mg /\
    mgr.restConfig mg = Some tc /\
    mgr.clientConnConfig mg = Some (mkClientConnection (clientConnQPS f) (clientConnBurst f)) /\
    mgr.addToSchemes mg = ["kubernetes"%string] /\ mgr.installSchemes mg = ["core"; "config"]%string /\
    mgr.managerOptions (mg <| mgr.scheme := mgr.scheme mg ++ mgr.addToSchemes mg ++ mgr.installSchemes mg |>) =
      webhook_manager_options f ctx sc /\
    mgr.runnables mg = [ClusterRunnable cl] /\
    mgr.healthzChecks mg !! "healthz"%string = Some Ping /\ mgr.readyzChecks mg !! "readyz"%string = Some Ping /\
    mgr.readyzChecks mg !! "webhook-server"%string = Some (WebhookStarted (webhookOpts f)) /\
    mgr.readyzChecks mg !! "source-informer-sync"%string = Some (CacheSync ca).
Proof using Type. eexists. split; [reflexivity|]. split_and!; reflexivity. Qed.

Lemma webhook_getManager_idle f ctx : emits idle (getManager f ctx).
Proof using Type. unfold getManager, getLogger, MustNewZapLogger. emits_auto; try not_start. apply New_idle. Qed.

Lemma webhook_getManager_panics f ctx t w :
  runs (getManager f ctx) t (Panic w) ->
  exists e, t = [ev (NewZapLogger (zapLogLevel f) (zapLogFormat f)) (inr e)] /\ w = Error e.
Proof using Type.
  unfold getManager, getLogger. intros [(e&->&[= ->])|(h&t0&->&Hr)]%MustNewZapLogger_runs; [by exists e|].
  exfalso. revert Hr. match goal with |- runs ?p _ _ -> _ => enough (no_panic p) as Hp by (by intros ?%Hp) end.
  no_panic_auto; auto with effects. apply New_no_panic. intros w'.
  match goal with |- applyOptions (managerOpts _ _ ?a ?b ?c ?d) _ <> _ =>
    destruct (webhookOpts_applied f ctx a b c d) as (mg&->&_) end. done.
Qed.

Lemma webhook_getManager_Ok f ctx t m sourceCluster :
  runs (getManager f ctx) t (Ok (m, sourceCluster)) ->
  webhook_wired f ctx m t /\ ev (AddRunnable m (ClusterRunnable sourceCluster)) (inl tt) ∈ t.
Proof using Type.
  unfold getManager, getLogger. intros [(?&_&[=])|(h&t0&->&Hr)]%MustNewZapLogger_runs.
  apply (runs_wrapf_request _ GetConfig (fun r => r)) in Hr as (x&t1&->&Hr). destruct x as [sc|e]; [|by destruct Hr].
  apply (runs_wrapf_request _ (ClusterNew _ _) (fun r => r)) in Hr as (x&t2&->&Hr). destruct x as [cl|e]; [|by destruct Hr].
  apply (runs_wrapf_request _ (BuildConfigFromFlags _) (fun r => r)) in Hr as (x&t3&->&Hr). destruct x as [tc|e]; [|by destruct Hr].
  apply runs_get in Hr as (ca&t4&->&Hr).
  apply runs_bind in Hr as [(t5&m0&t6&->&H1&Hr)|[(?&?&?)|(?&?&?)]]; [|done..].
  apply New_Ok in H1 as (mg&config&t7&t8&Happ&->&Hconn&Hcfg&(Hhealth&Hready&_&Hrun)).
  destruct (webhookOpts_applied f ctx sc tc cl ca)
    as (mg'&Happ'&Hrc&Hcc&Hadd&Hinst&Hopts&Hruns&Hp1&Hp2&Hr1&Hr2). rewrite Happ' in Happ.
  injection Happ as <-. clear Happ'. rewrite Hrc in Hcfg. subst config. rewrite Hopts, Hadd, Hinst. rewrite Hcc in Hconn.
  destruct Hr as (cache&t9&->&x&t10&->&Hr). destruct x as [[]|e]; destruct Hr as [-> [= <- <-]].
  apply Hready in Hr1, Hr2, Hp2. apply Hhealth in Hp1. assert (Hcl : ev (AddRunnable m (ClusterRunnable sourceCluster)) (inl tt) ∈ t8).
  { apply Hrun. rewrite Hruns. by left. }
  split; [|set_solver]. exists h, sc, tc, sourceCluster, ca, cache.
  split_and!; [in_trace|in_trace|in_trace|in_trace|in_trace|in_trace| |set_solver..].
  match goal with |- created_with _ _ _ _ _ _ (?a :: ?b :: ?c :: ?d :: ?e :: ?u ++ ?w) =>
    apply (created_with_frame _ _ _ _ _ _ u [a; b; c; d; e] w) end.
  exists (registrations ["kubernetes"%string] ["core"; "config"]%string ++ t7), t8.
  split; [by rewrite <- app_assoc|]. set_solver.
Qed.
End webhook.

(** The webhook for Shoots. *)
Definition shootValidator (decode : string -> config.EnvoyGatewayConfig + error) : Webhook :=
  {| wb_Name := "shoot-validator"; wb_Action := "validating"; wb_Path := "/webhooks/validate-envoy-gateway";
     wb_Target := "seed"; wb_Types := ["Shoot"%string]; wb_CfgDecoder := decode; wb_RecoverPanic := Some true |}.

(** starting the admission server.  Whatever the outside world answers, the
    webhook command either fails without starting a manager, or starts a
    manager for the garden cluster whose leases live in the source cluster, with
    the webhook server of its flags, after registering exactly one webhook with
    it - the Shoot validator at its path, which recovers from panics and decodes
    with the manager's strict decoder - and readiness checks on the server and on
    both clusters' caches. *)
Theorem runWebhookServer_starts_last `{RangeOrder} f ctx t r :
  runs (webhookcmd.runWebhookServer f ctx) t r ->
  logger_panics (webhookcmd.zapLogLevel f) (webhookcmd.zapLogFormat f) t r \/
  (Forall (fun e => ~ starts e) t /\ exists e, r = Err e) \/
  (exists m x t1, t = t1 ++ [ev (Start m) x] /\ Forall (fun e => ~ starts e) t1 /\ webhook_wired f ctx m t1 /\
     (exists config wh decode sourceCluster,
        ev (AddRunnable m (ClusterRunnable sourceCluster)) (inl tt) ∈ t1 /\
        ev (CompleteWebhookOptions (webhookcmd.getExtensionWebhookOpts f)) (inl config) ∈ t1 /\
        ev (UniversalDecoder m) decode ∈ t1 /\ wh = shootValidator decode /\
        ev (AddWebhooksToManager config false [wh] m sourceCluster) (inl tt) ∈ t1) /\
     r = match x with inl _ => Ok tt | inr e => Err e end).
Proof.
  unfold webhookcmd.runWebhookServer. intros Hr.
  apply runs_bind in Hr as [(t0&[m cl]&t2&->&H1&Hr)|[(e&->&He)|(w&->&Hw)]].
  2: { right. left. split; [by eapply webhook_getManager_idle|eauto]. }
  2: { left. apply webhook_getManager_panics in Hw as (e&->&->). by exists e. }
  right.
  assert (Hidle : Forall (fun e => ~ starts e) t0) by (by eapply webhook_getManager_idle).
  apply webhook_getManager_Ok in H1 as [Hwired Hcl].
  destruct Hr as (decode&t3&->&x&t4&->&Hr). destruct x as [config|e].
  2: { destruct Hr as [-> ->]. left. split; [|eauto]. apply Forall_app. split; [done|].
       repeat (apply List.Forall_cons; [not_start|]). constructor. }
  destruct Hr as (x&t5&->&Hr). destruct x as [[]|e].
  2: { destruct Hr as [-> ->]. left. split; [|eauto]. apply Forall_app. split; [done|].
       repeat (apply List.Forall_cons; [not_start|]). constructor. }
  destruct Hr as (x&t6&->&Hr). right. exists m, x. eexists (t0 ++ [_; _; _]).
  assert (t6 = [] /\ r = match x with inl _ => Ok tt | inr e => Err e end) as [-> ->]
    by (by destruct x as [[]|e]; destruct Hr as [-> ->]).
  split_and!; [by rewrite <- app_assoc| | | |done].
  - apply Forall_app. split; [done|]. repeat (apply List.Forall_cons; [not_start|]). constructor.
  - apply (webhook_wired_frame _ _ _ _ []), Hwired.
  - eexists config, _, decode, cl. rewrite !elem_of_app.
    split_and!; [auto|right; in_trace|right; in_trace|done|right; in_trace].
Qed.
