(* ===== verification/CliProps.v ===== *)
(** * Properties of the command-line tables

    What the tables promise for whatever is given on the command line: the
    flags are unambiguous, every flag reaches its field, values that are checked
    are valid. *)

From S2P Require Import Prelude GoStd Errors Effects KubeObjects Constants Interfaces.
From S2P Require Import Process NetpolManager Commands Cli FlagTables EntryPoint.
Import cli.

(** ** Tables *)

(** The flag's value is in its field; a flag without a field has an action. *)
Definition stored {F} (given : Given) (fl : Flag F) (s : F) : Prop :=
  kinded (fun T proj f => match Destination f with
                          | Some p => deref p s = effective given proj f
                          | None => is_Some (Action f)
                          end) fl.

(** The names the library gives its own help flag and help command. *)
Definition reserved : list string := ["help"; "h"]%string.

Record unambiguous (c : Command) : Prop := {
  unamb_names : NoDup (cmd_Flags c ≫= flagNames);
  unamb_reserved : Forall (fun n => n ∉ reserved) (cmd_Flags c ≫= flagNames);
  unamb_sources : NoDup (cmd_Flags c ≫= flagSources);
  unamb_stored : forall given s fl, fl ∈ cmd_Flags c -> stored given fl (assigned given (cmd_Flags c) s);
  unamb_fresh : forall given given' s,
    assigned given (cmd_Flags c) (assigned given' (cmd_Flags c) s) = assigned given (cmd_Flags c) s;
}.

(** Every flag of a concrete table. *)
Ltac each_flag H :=
  repeat (apply elem_of_cons in H as [->|H]; [|]); [..|by apply elem_of_nil in H].

Ltac check_table :=
  constructor;
  [ apply (bool_decide_unpack _); vm_compute; reflexivity
  | apply (bool_decide_unpack _); vm_compute; reflexivity
  | apply (bool_decide_unpack _); vm_compute; reflexivity
  | intros given s fl Hfl; each_flag Hfl; first [reflexivity | by eexists]
  | reflexivity ].

Section tables.
Context `{CommandConstants} `{RangeOrder} `{Libraries}.

Lemma manager_unambiguous iv : unambiguous (managercli.New iv).
Proof. check_table. Qed.

Lemma webhook_unambiguous : unambiguous webhookcli.New.
Proof. check_table. Qed.

Lemma netpol_unambiguous logger : unambiguous (netpolcli.New logger).
Proof. check_table. Qed.
End tables.

(** the command line is unambiguous.  No two commands share a name or alias
    and none takes the library's help command's; within a command no two flags share a name,
    alias or environment variable, nor take the library's own; and for
    whatever is given, once the flags are stored every one of them can be
    read back from its field - no flag overwrites another's - or is consumed by
    its action, and nothing an earlier parse stored survives. *)
Theorem command_line_unambiguous `{CommandConstants} `{RangeOrder} `{Libraries} iv logger :
  NoDup (Commands (app iv logger) ≫= cmd_Names) /\
  Forall (fun n => n ∉ reserved) (Commands (app iv logger) ≫= cmd_Names) /\
  Forall unambiguous (Commands (app iv logger)).
Proof.
  split_and!; [apply (bool_decide_unpack _); vm_compute; reflexivity..|].
  repeat apply List.Forall_cons; [apply manager_unambiguous|apply webhook_unambiguous|apply netpol_unambiguous|].
  constructor.
Qed.
