(* ===== verification/MainProps.v ===== *)
(** * Properties of the process

    From the arguments to the start of a manager: whatever is given on the
    command line, the process panics nowhere and starts a manager only as its
    last action, with validated flags and everything registered. *)

From Stdlib Require Import Qcanon.
From S2P Require Import Prelude GoStd Errors FunctionalOptions Effects KubeObjects Constants.
From S2P Require Import Config External Interfaces.
From S2P Require Import Deployer Codec NetpolDeployer Actuator Process Mgr Heartbeat Controller.
From S2P Require Import NetpolManager Commands.
From S2P Require Import Cli FlagTables EntryPoint ActuatorSpecs ProcessProps CliProps.
Import cli.

(** ** Feature gates *)

Section gates.
Context `{RangeOrder}.
Import managercmd managercli.

(** The error of a value that is not a boolean. *)
Definition notBoolean (val : string) : error :=
  wrapError "invalid value for gardenlet feature gate: "
    (wrapError ("strconv.ParseBool: parsing " +:+ fmt_q val +:+ ": ") ErrSyntax "") "".

Lemma addFeatureGates_spec l f :
  NoDup l.*1 ->
  (Forall (fun kv => is_Some (ParseBool kv.2)) l /\
   addFeatureGates l f =
     Ok (f <| gardenletFeatureGates := omap ParseBool (list_to_map (M := gmap string string) l) ∪ gardenletFeatureGates f |>)) \/
  (exists k v, (k, v) ∈ l /\ ParseBool v = None /\ addFeatureGates l f = Err (notBoolean v)).
Proof using Type.
  revert f. induction l as [|[k v] l IH]; intros f Hl.
  - left. split; [constructor|]. cbn. rewrite omap_empty, (left_id_L ∅ (∪)). by destruct f.
  - cbn [fmap list_fmap fst] in Hl. apply NoDup_cons in Hl as [Hk Hl]. cbn [addFeatureGates]. unfold strconv_ParseBool.
    destruct (ParseBool v) as [b|] eqn:Eb; [|right; by exists k, v; split_and!; [left| |]].
    destruct (IH (f <| gardenletFeatureGates := <[k:=b]> (gardenletFeatureGates f) |>) Hl)
      as [[Hall ->]|(k'&v'&Hin&Hv&->)]; [left|right; exists k', v'; split_and!; [by right|done|done]].
    split; [constructor; [by eexists|done]|]. f_equal. unfold update. cbn.
    assert (omap ParseBool (list_to_map (M := gmap string string) l) !! k = None) as Hnone.
    { rewrite lookup_omap, (not_elem_of_list_to_map_1 l k Hk). done. }
    rewrite <- insert_union_r by done. rewrite insert_union_l.
    by rewrite (omap_insert_Some _ _ _ _ b) by done.
Qed.

(** The gardenlet's feature gates.  If every value given is one of Go's
    boolean texts the action adds to the gates exactly the parsed values, those
    given replacing those present; otherwise it fails naming one of the values that
    is not, whichever the iteration meets first; and it has no other effect. *)
Lemma feature_gates_parsed items f t r :
  runs (setFeatureGates items f) t r ->
  t = [] /\
  ((forall feat val, items !! feat = Some val -> is_Some (ParseBool val)) /\
     r = Ok (f <| gardenletFeatureGates := omap ParseBool items ∪ gardenletFeatureGates f |>) \/
   exists feat val, items !! feat = Some val /\ ParseBool val = None /\ r = Err (notBoolean val)).
Proof using Type.
  intros [-> ->]. split; [done|]. pose proof (range_permutation "gardenlet-feature-gate" _ items) as Hp.
  assert (NoDup (range "gardenlet-feature-gate" items).*1) as Hnd.
  { rewrite Hp. apply NoDup_fst_map_to_list. }
  assert (list_to_map (M := gmap string string) (range "gardenlet-feature-gate" items) = items) as Hm.
  { transitivity (list_to_map (M := gmap string string) (map_to_list items)); [|apply list_to_map_to_list].
    by apply list_to_map_proper. }
  destruct (addFeatureGates_spec _ f Hnd) as [[Hall Ha]|(k&v&Hin&Hv&Ha)]; [left|right].
  - split; [|by rewrite Ha, Hm]. intros feat val Hf. rewrite Forall_forall in Hall.
    apply (Hall (feat, val)). rewrite Hp. by apply elem_of_map_to_list.
  - exists k, v. split_and!; [|done|done]. rewrite Hp in Hin. by apply elem_of_map_to_list in Hin.
Qed.
End gates.

(** ** What is valid *)

(** Documented behaviour of the packages whose constants the tables use: the
    default level and format of Gardener's logger are supported ones. *)
Class DocumentedConstants `{CommandConstants} := {
  InfoLevel_supported : InfoLevel ∈ AllLogLevels;
  FormatText_supported : FormatText ∈ AllLogFormats;
}.

(** The logger can be built of supported levels and formats. *)
Definition logger_documented `{CommandConstants} (t : list (event reply)) : Prop :=
  forall level format e, level ∈ AllLogLevels -> format ∈ AllLogFormats ->
    ev (NewZapLogger level format) (inr e) ∉ t.

(** What the default and every valid value satisfy, the accepted value does. *)
Lemma accepted_valid {F T} (k : FlagBase F T -> Flag F) proj valid (P : T -> Prop) (given : Given) flags f :
  (forall R (g : forall T, (value -> option T) -> FlagBase F T -> R), kinded g (k f) = g T proj f) ->
  k f ∈ flags -> accepted given flags -> Validator f = Some valid ->
  P (Value f) -> (forall x, valid x = Ok tt -> P x) -> P (effective given proj f).
Proof.
  intros Hk Hin Hacc Hv Hdef HP. unfold accepted in Hacc. rewrite Forall_forall in Hacc.
  destruct (Hacc _ Hin) as [_ Ha]. unfold flagName in Ha. rewrite Hk in Ha.
  unfold effective, lookupFlag. destruct (given !! Name f) as [v|]; [|done].
  specialize (Ha v eq_refl). rewrite Hk, Hv in Ha. destruct Ha as (x&Hx&Hval). cbn. rewrite Hx. by apply HP.
Qed.

(** The value of the [i]-th flag of a table, a string flag, or an int flag. *)
Lemma accepted_string {F} i (given : Given) (flags : list (Flag F)) valid (P : string -> Prop) x :
  (exists f, flags !! i = Some (StringFlag f) /\ x = effective given asString f /\ Validator f = Some valid /\ P (Value f)) ->
  accepted given flags -> (forall x, valid x = Ok tt -> P x) -> P x.
Proof.
  intros (f&Hi&->&Hv&Hd) Hacc HP. eapply (accepted_valid StringFlag); [done| |done..].
  by eapply list_elem_of_lookup_2.
Qed.

Lemma accepted_int {F} i (given : Given) (flags : list (Flag F)) valid (P : Z -> Prop) x :
  (exists f, flags !! i = Some (IntFlag f) /\ x = effective given asInt f /\ Validator f = Some valid /\ P (Value f)) ->
  accepted given flags -> (forall x, valid x = Ok tt -> P x) -> P x.
Proof.
  intros (f&Hi&->&Hv&Hd) Hacc HP. eapply (accepted_valid IntFlag); [done| |done..].
  by eapply list_elem_of_lookup_2.
Qed.

(** A value that was given passed the validator of its flag. *)
Lemma accepted_given {F T} (k : FlagBase F T -> Flag F) proj valid i (given : Given) (flags : list (Flag F)) name v x :
  (exists f, flags !! i = Some (k f) /\ Name f = name /\ Validator f = Some valid) ->
  (forall f R (g : forall T, (value -> option T) -> FlagBase F T -> R), kinded g (k f) = g T proj f) ->
  accepted given flags -> given !! name = Some v -> proj v = Some x -> valid x = Ok tt.
Proof.
  intros (f&Hi&<-&Hv) Hk Hacc Hg Hx. unfold accepted in Hacc. rewrite Forall_forall in Hacc.
  destruct (Hacc (k f)) as [_ Ha]; [by eapply list_elem_of_lookup_2|].
  unfold flagName in Ha. rewrite Hk in Ha. specialize (Ha v Hg). rewrite Hk, Hv in Ha.
  destruct Ha as (y&Hy&Hval). rewrite Hx in Hy. by injection Hy as <-.
Qed.

(** A required flag was given. *)
Lemma accepted_required {F} i (given : Given) (flags : list (Flag F)) name x :
  (exists f, flags !! i = Some (StringFlag f) /\ Required f = true /\ Name f = name /\ x = effective given asString f) ->
  accepted given flags -> given !! name = Some (VString x).
Proof.
  intros (f&Hi&Hreq&<-&->) Hacc. unfold accepted in Hacc. rewrite Forall_forall in Hacc.
  destruct (Hacc (StringFlag f)) as [Hr Ha]; [by eapply list_elem_of_lookup_2|].
  destruct (Hr Hreq) as [v Hv]. destruct (Ha v Hv) as (x&Hx&_). cbn in Hx, Hv.
  destruct v; try done. injection Hx as ->. unfold effective, lookupFlag. by rewrite Hv.
Qed.

Lemma oneOf_Ok l msg val : oneOf l msg val = Ok tt -> val ∈ l.
Proof. unfold oneOf. by case_decide. Qed.

Lemma oneOf_elem l msg val : val ∈ l -> oneOf l msg val = Ok tt.
Proof. unfold oneOf. by case_decide. Qed.

(** ** Outcomes of a command *)

(** A command either ends in an error without starting anything, or its last
    action is to start a manager [m] after [P m], and it returns what that
    returned. *)
Definition ends (P : Handle -> list (event reply) -> Prop) (t : list (event reply)) (r : outcome unit) : Prop :=
  (Forall idle t /\ exists e, r = Err e) \/
  (exists m x t1, t = t1 ++ [ev (Start m) x] /\ Forall idle t1 /\ P m t1 /\
     match x with inl _ => r = Ok tt | inr e => exists e', r = Err e' /\ e ∈ chain e' end).

Lemma ends_app (P Q : Handle -> list (event reply) -> Prop) t0 t r :
  (forall m t1, P m t1 -> Q m (t0 ++ t1)) -> Forall idle t0 -> ends P t r -> ends Q (t0 ++ t) r.
Proof.
  intros HPQ Hidle [[Hi He]|(m&x&t1&->&Hi&HP&Hx)].
  - left. split; [by apply Forall_app|done].
  - right. exists m, x, (t0 ++ t1). rewrite <- app_assoc. split_and!; [done|by apply Forall_app|auto|done].
Qed.

Lemma ends_mono (P Q : Handle -> list (event reply) -> Prop) t r :
  (forall m t1, P m t1 -> Q m t1) -> ends P t r -> ends Q t r.
Proof. intros HPQ [H|(m&x&t1&?&?&?&?)]; [by left|right]. exists m, x, t1. auto. Qed.

Lemma ends_error P t e : Forall idle t -> ends P t (Err e).
Proof. left. eauto. Qed.

(** ** The commands *)

Section commands.
Context `{CommandConstants} `{!DocumentedConstants} `{RangeOrder} `{Libraries}.

Definition supported (level format : string) : Prop := level ∈ AllLogLevels /\ format ∈ AllLogFormats.

(** The kubeconfig given is in the environment before a configuration is read
    from there. *)
Definition kubeconfig_exported (given : Given) (t : list (event reply)) : Prop :=
  forall v, given !! "kubeconfig"%string = Some (VString v) ->
    before (fun e => e = ev (Setenv RecommendedConfigPathEnvVar v) (inl tt)) (fun e => projT1 e = GetConfig) t.

Lemma runs_bind_mret {A} (m : setupIO A) t r : runs (m ≫= mret) t r -> runs m t r.
Proof using Type.
  intros [(t1&a&t2&->&Hm&[-> ->])|[(e&->&Hm)|(w&->&Hm)]]%runs_bind; [by rewrite app_nil_r|done..].
Qed.

(** What the action of the kubeconfig flag does. *)
Lemma setKubeconfig_spec {F} (given : Given) (f : FlagBase F string) (s : F) t r :
  Name f = "kubeconfig"%string -> Action f = Some setKubeconfig ->
  runs (runFlagAction given (StringFlag f) s) t r ->
  Forall idle t /\ Forall (fun e => projT1 e <> GetConfig) t /\
  ((exists e, r = Err e) \/ r = Ok s /\
   forall v, given !! "kubeconfig"%string = Some (VString v) -> ev (Setenv RecommendedConfigPathEnvVar v) (inl tt) ∈ t).
Proof using Type.
  intros Hn Ha Hr. cbn in Hr. rewrite Ha in Hr. unfold lookupFlag in Hr. rewrite Hn in Hr.
  destruct (given !! "kubeconfig"%string) as [v|] eqn:E; cbn in Hr.
  2: { destruct Hr as [-> ->]. split_and!; [constructor..|]. right. by split. }
  destruct v as [v| | | | | |].
  2-7: destruct Hr as [-> ->]; split_and!; [constructor..|]; right; by split.
  destruct Hr as (x&t'&->&Hr). destruct x as [[]|e]; destruct Hr as [-> ->].
  - split_and!; [apply List.Forall_cons; [not_start|constructor]|apply List.Forall_cons; [done|constructor]|]. right. split; [done|].
    intros w [= ->]. by left.
  - split_and!; [apply List.Forall_cons; [not_start|constructor]|apply List.Forall_cons; [done|constructor]|]. left. eauto.
Qed.

Lemma exported_before given t0 t1 :
  Forall (fun e => projT1 e <> GetConfig) t0 ->
  (forall v, given !! "kubeconfig"%string = Some (VString v) -> ev (Setenv RecommendedConfigPathEnvVar v) (inl tt) ∈ t0) ->
  kubeconfig_exported given (t0 ++ t1).
Proof using Type.
  intros Hno Hset v Hv. apply before_app_est; [by apply before_none|].
  apply Exists_exists. eexists. split; [by apply Hset|done].
Qed.

(** The value given for a flag, or else its default. *)
Definition setting {T} (given : Given) (proj : value -> option T) (name : string) (d : T) : T :=
  default d (given !! name ≫= proj).

(** *** manager *)

Definition gatesGiven (given : Given) : gmap string bool :=
  match given !! "gardenlet-feature-gate"%string with
  | Some (VStringMap items) => omap ParseBool items
  | _ => ∅
  end.

(** What the manager runs with: the value of every flag, by its name. *)
Definition managerFlags (given : Given) : managercmd.flags :=
  let str := setting given asString in
  {| managercmd.extensionName := str "extension-name" "gardener-extension-envoy-gateway";
     managercmd.metricsBindAddr := str "metrics-bind-address" ":8080";
     managercmd.healthProbeBindAddr := str "health-probe-bind-address" ":8081";
     managercmd.heartbeatRenewInterval := setting given asDuration "heartbeat-renew-interval" (30 * Second)%Z;
     managercmd.heartbeatNamespace := str "heartbeat-namespace" "gardener-extension-envoy-gateway";
     managercmd.leaderElection := setting given asBool "leader-election" false;
     managercmd.leaderElectionID := str "leader-election-id" "gardener-extension-envoy-gateway-leader-election";
     managercmd.leaderElectionNamespace := str "leader-election-namespace" "gardener-extension-envoy-gateway";
     managercmd.ignoreOperationAnnotation := setting given asBool "ignore-operation-annotation" false;
     managercmd.maxConcurrentReconciles := setting given asInt "max-concurrent-reconciles" 5%Z;
     managercmd.kubeconfig := str "kubeconfig" "";
     managercmd.zapLogLevel := str "log-level" InfoLevel;
     managercmd.zapLogFormat := str "log-format" FormatText;
     managercmd.resyncInterval := setting given asDuration "resync-interval" (30 * Second)%Z;
     managercmd.pprofBindAddr := str "pprof-bind-address" "";
     managercmd.clientConnQPS := setting given asFloat32 "client-conn-qps" (Q2Qc (QArith_base.inject_Z 100));
     managercmd.clientConnBurst := setting given asInt32 "client-conn-burst" 130%Z;
     managercmd.gardenerVersion := str "gardener-version" "";
     managercmd.gardenletFeatureGates := gatesGiven given |}.

(** The table stores them. *)
Lemma managerFlags_eq given :
  managerFlags given =
  (assigned given managercli.Flags managercmd.zeroFlags) <| managercmd.gardenletFeatureGates := gatesGiven given |>.
Proof using Type. reflexivity. Qed.

Definition manager_wired (iv : ImageVector) (f : managercmd.flags) (ctx m : Handle) (t : list (event reply)) : Prop :=
  manager_created f ctx m t /\ heartbeat_registered f m t /\ controller_registered iv f m t.

Lemma manager_wired_after iv f ctx m t0 t : manager_wired iv f ctx m t -> manager_wired iv f ctx m (t0 ++ t).
Proof using Type.
  intros (Hnew&(args&Hhb&Hargs)&(c&d&cargs&Hc1&Hc2&Hc3&Hrest)). split_and!.
  - rewrite <- (app_nil_r t). by apply manager_created_frame.
  - exists args. rewrite elem_of_app. auto.
  - exists c, d, cargs. rewrite !elem_of_app. naive_solver.
Qed.

Lemma runManager_ends iv f ctx t r :
  runs (managercmd.runManager iv f ctx) t r -> ends (manager_wired iv f ctx) t r.
Proof using Type.
  intros [Hid|(m&x&t1&->&Hid&Hnew&Hhb&Hc&->)]%runManager_starts_last; [by left|right].
  exists m, x, t1. split_and!; [done|done|by split_and!|]. destruct x as [[]|e]; [done|].
  eexists. split; [done|]. simpl. right. destruct e; by left.
Qed.

Lemma managerLogs given (s := assigned given managercli.Flags managercmd.zeroFlags) :
  accepted given managercli.Flags -> supported (managercmd.zapLogLevel s) (managercmd.zapLogFormat s).
Proof using Type*.
  intros Hacc. split.
  - apply (accepted_string 12 given managercli.Flags validLogLevel (fun x => x ∈ AllLogLevels)); [|done|apply oneOf_Ok].
    eexists. split_and!; try reflexivity. apply InfoLevel_supported.
  - apply (accepted_string 13 given managercli.Flags managercli.validLogFormat (fun x => x ∈ AllLogFormats)); [|done|apply oneOf_Ok].
    eexists. split_and!; try reflexivity. apply FormatText_supported.
Qed.

Lemma gates_keep_logs (f : managercmd.flags) g :
  supported (managercmd.zapLogLevel f) (managercmd.zapLogFormat f) ->
  supported (managercmd.zapLogLevel (f <| managercmd.gardenletFeatureGates := g |>))
    (managercmd.zapLogFormat (f <| managercmd.gardenletFeatureGates := g |>)).
Proof using Type. done. Qed.

Lemma managerFlags_supported given :
  accepted given managercli.Flags ->
  supported (managercmd.zapLogLevel (managerFlags given)) (managercmd.zapLogFormat (managerFlags given)).
Proof using Type*. intros Hacc. apply gates_keep_logs. by apply managerLogs. Qed.

Lemma gatesAction_spec given (f : FlagBase managercmd.flags (gmap string string)) s t r :
  Name f = "gardenlet-feature-gate"%string -> Action f = Some managercli.setFeatureGates ->
  runs (runFlagAction given (StringMapFlag f) s) t r ->
  t = [] /\ ((exists e, r = Err e) \/
    r = Ok (s <| managercmd.gardenletFeatureGates := gatesGiven given ∪ managercmd.gardenletFeatureGates s |>)).
Proof using Type.
  intros Hn Ha. unfold runFlagAction, kinded, lookupFlag, gatesGiven. rewrite Ha, Hn.
  assert (s <| managercmd.gardenletFeatureGates := ∅ ∪ managercmd.gardenletFeatureGates s |> = s) as Hs.
  { rewrite (left_id_L ∅ (∪)). by destruct s. }
  destruct (given !! "gardenlet-feature-gate"%string) as [[| | | | | |items]|]; cbn [mbind option_bind asStringMap];
    try (intros [-> ->]; split; [done|]; right; by rewrite Hs).
  intros [-> [[_ ->]|(?&?&_&_&->)]]%feature_gates_parsed; (split; [done|]); [by right|left; eauto].
Qed.

(** The actions of the manager's flags. *)
Lemma managerActions given t r :
  runs (runFlagActions given managercli.Flags (assigned given managercli.Flags managercmd.zeroFlags)) t r ->
  Forall idle t /\ Forall (fun e => projT1 e <> GetConfig) t /\
  ((exists e, r = Err e) \/ r = Ok (managerFlags given) /\
   forall v, given !! "kubeconfig"%string = Some (VString v) -> ev (Setenv RecommendedConfigPathEnvVar v) (inl tt) ∈ t).
Proof using Type.
  set (s := assigned given managercli.Flags managercmd.zeroFlags).
  assert (exists f g, managercli.Flags !! 11 = Some (StringFlag f) /\ managercli.Flags !! 18 = Some (StringMapFlag g) /\
    Name f = "kubeconfig"%string /\ Action f = Some setKubeconfig /\
    Name g = "gardenlet-feature-gate"%string /\ Action g = Some managercli.setFeatureGates /\
    runFlagActions given managercli.Flags s =
      (s ← runFlagAction given (StringFlag f) s; runFlagAction given (StringMapFlag g) s ≫= mret))
    as (f&g&_&_&Hf&Hfa&Hg&Hga&->) by (do 2 eexists; split_and!; reflexivity).
  intros [(t1&s1&t2&->&Hk&Hr)|[(e&->&Hk)|(w&->&Hk)]]%runs_bind;
    apply (setKubeconfig_spec _ f _ _ _ Hf Hfa) in Hk as (Hi&Hn&[[e' He]|[He Hset]]); simplify_eq.
  2: { split_and!; [done|done|]. left. eauto. }
  apply runs_bind in Hr as [(t3&s2&t4&->&Ha&[-> ->])|[(e&->&Ha)|(w&->&Ha)]];
    apply (gatesAction_spec _ g _ _ _ Hg Hga) in Ha as [-> [[? ?]|?]]; simplify_eq; rewrite !app_nil_r.
  - split_and!; [done..|]. right. split; [|done]. rewrite managerFlags_eq. fold s.
    change (managercmd.gardenletFeatureGates s) with (∅ : gmap string bool). by rewrite (right_id_L ∅ (∪)).
  - split_and!; [done..|]. left. eauto.
Qed.

Lemma supported_logger level format t (h : reply (NewZapLogger level format)) :
  supported level format -> logger_documented t -> ev (NewZapLogger level format) h ∈ t -> exists l, h = inl l.
Proof using Type.
  intros [Hl Hf] Hdoc Hin. destruct h as [l|e]; [eauto|]. by destruct (Hdoc _ _ e Hl Hf).
Qed.

Lemma logger_idle level format (h : reply (NewZapLogger level format)) :
  Forall idle [ev (NewZapLogger level format) h] /\ Forall (fun e => projT1 e <> GetConfig) [ev (NewZapLogger level format) h].
Proof using Type. split; (apply List.Forall_cons; [|constructor]); [not_start|done]. Qed.

(** A [Before] that builds the logger. *)
Lemma logged_runs {A B} level format (a : A) (k : A -> setupIO B) t r :
  runs ((MustNewZapLogger level format ;; mret a) ≫= k) t r ->
  logger_panics level format t r \/
  exists h t', t = ev (NewZapLogger level format) (inl h) :: t' /\ runs (k a) t' r.
Proof using Type.
  intros (x&t'&->&Hr). destruct x as [h|e].
  - right. exists h, t'. by split.
  - left. exists e. by destruct Hr as [-> ->].
Qed.

Lemma logged_supported {A B} level format (a : A) (k : A -> setupIO B) t r :
  supported level format -> logger_documented t ->
  runs ((MustNewZapLogger level format ;; mret a) ≫= k) t r ->
  exists t0 t', t = t0 ++ t' /\ Forall idle t0 /\ Forall (fun e => projT1 e <> GetConfig) t0 /\ runs (k a) t' r.
Proof using Type.
  intros Hs Hdoc [(e&->&_)|(h&t0&->&Hr)]%logged_runs.
  - destruct (supported_logger level format [ev (NewZapLogger level format) (inr e)] (inr e) Hs Hdoc) as [? [=]]. by left.
  - destruct (logger_idle level format (inl h)) as [Hi Hn]. by exists [ev (NewZapLogger level format) (inl h)], t0.
Qed.

Lemma invoke_manager iv ctx given (s := assigned given managercli.Flags managercmd.zeroFlags) :
  invoke (managercli.New iv) ctx given =
    (ctx ← managercli.Before ctx s;
     s ← runFlagActions given managercli.Flags s;
     managercmd.runManager iv (managercmd.getFlags (if flagsKey ctx then Some s else None)) (baseContext ctx)).
Proof using Type. reflexivity. Qed.

Lemma managercmd_stored iv h f :
  managercmd.runManager iv (managercmd.getFlags (if flagsKey (mkContext h true) then Some f else None))
    (baseContext (mkContext h true)) = managercmd.runManager iv f h.
Proof using Type. reflexivity. Qed.

Lemma runManager_exported iv f given t1 t2 h r :
  (forall v, given !! "kubeconfig"%string = Some (VString v) -> ev (Setenv RecommendedConfigPathEnvVar v) (inl tt) ∈ t1) ->
  Forall idle t1 -> Forall (fun e => projT1 e <> GetConfig) t1 ->
  runs (managercmd.runManager iv f h) t2 r ->
  ends (fun m t => kubeconfig_exported given t /\ manager_wired iv f h m t) (t1 ++ t2) r.
Proof using Type*.
  intros Hset Hi Hn Hr%runManager_ends. eapply ends_app; [|done|exact Hr].
  intros m t Hw. split; [by apply exported_before|]. by apply manager_wired_after.
Qed.

Lemma manager_after_logger iv f h given t0 t r :
  Forall idle t0 -> Forall (fun e => projT1 e <> GetConfig) t0 ->
  ends (fun m t => kubeconfig_exported given t /\ manager_wired iv f h m t) t r ->
  ends (fun m t => kubeconfig_exported given t /\ manager_wired iv f h m t) (t0 ++ t) r.
Proof using Type*.
  intros Hi Hn. apply ends_app; [|done]. intros m t1 [Hk Hw]. split.
  - intros v Hv. apply before_app; [by apply before_none|by apply Hk].
  - by apply manager_wired_after.
Qed.

Lemma manager_invoked iv ctx given t r :
  accepted given managercli.Flags -> logger_documented t ->
  runs (invoke (managercli.New iv) ctx given) t r ->
  ends (fun m t1 => kubeconfig_exported given t1 /\ manager_wired iv (managerFlags given) (baseContext ctx) m t1) t r.
Proof using Type*.
  intros Hacc Hdoc Hr. rewrite invoke_manager in Hr.
  apply logged_supported in Hr as (t0&t'&->&Hi0&Hn0&Hr); [|by apply managerLogs|done].
  apply manager_after_logger; [exact Hi0|exact Hn0|].
  apply runs_bind in Hr as [(t1&s&t2&->&Ha&Hr)|[(e&->&Ha)|(w&->&Ha)]];
    apply managerActions in Ha as (Hi&Hn&[[e' He]|[He Hset]]); simplify_eq; [|by apply ends_error].
  rewrite managercmd_stored in Hr. by eapply runManager_exported.
Qed.

(** *** webhook *)

(** What the webhook command runs with. *)
Definition webhookFlags (given : Given) : webhookcmd.flags :=
  let str := setting given asString in
  {| webhookcmd.extensionName := str "extension-name" "envoy-gateway-admission";
     webhookcmd.metricsBindAddr := str "metrics-bind-address" ":8080";
     webhookcmd.healthProbeBindAddr := str "health-probe-bind-address" ":8081";
     webhookcmd.leaderElection := setting given asBool "leader-election" false;
     webhookcmd.leaderElectionID := str "leader-election-id" "envoy-gateway-admission";
     webhookcmd.leaderElectionNamespace := str "leader-election-namespace" "gardener-extension-envoy-gateway";
     webhookcmd.kubeconfig := str "kubeconfig" "";
     webhookcmd.gardenKubeconfig := str "garden-kubeconfig" "";
     webhookcmd.zapLogLevel := str "log-level" InfoLevel;
     webhookcmd.zapLogFormat := str "log-format" FormatText;
     webhookcmd.pprofBindAddr := str "pprof-bind-address" "";
     webhookcmd.clientConnQPS := setting given asFloat32 "client-conn-qps" (Q2Qc (QArith_base.inject_Z (-1)));
     webhookcmd.clientConnBurst := setting given asInt32 "client-conn-burst" 0%Z;
     webhookcmd.webhookServerHost := str "webhook-server-host" "";
     webhookcmd.webhookServerPort := setting given asInt "webhook-server-port" 9443%Z;
     webhookcmd.webhookServerCertDir := str "webhook-server-cert-dir" "";
     webhookcmd.webhookServerCertName := str "webhook-server-cert-name" "tls.crt";
     webhookcmd.webhookServerKeyName := str "webhook-server-key-name" "tls.key";
     webhookcmd.webhookConfigNamespace := str "webhook-config-namespace" "garden";
     webhookcmd.webhookConfigMode := str "webhook-config-mode" ModeService;
     webhookcmd.webhookConfigURL := str "webhook-config-url" "";
     webhookcmd.webhookConfigServicePort := setting given asInt "webhook-config-service-port" 0%Z;
     webhookcmd.webhookConfigOwnerNamespace := str "webhook-config-owner-namespace" "";
     webhookcmd.gardenerVersion := str "gardener-version" "";
     webhookcmd.selfHostedShootCluster := setting given asBool "self-hosted-shoot-cluster" false |}.

(** How the flags say to register the webhook with the garden cluster. *)
Definition registration_options (f : webhookcmd.flags) : AddToManagerOptions :=
  mkAddToManagerOptions (webhookcmd.extensionName f) (webhookcmd.webhookConfigMode f) (webhookcmd.webhookConfigURL f)
    (webhookcmd.webhookConfigServicePort f) (webhookcmd.webhookConfigNamespace f)
    (webhookcmd.webhookConfigOwnerNamespace f) (webhookcmd.gardenerVersion f) (webhookcmd.selfHostedShootCluster f).

(** What the admission server needs, and the one webhook it serves. *)
Definition webhook_serving (f : webhookcmd.flags) (ctx m : Handle) (t : list (event reply)) : Prop :=
  webhook_wired f ctx m t /\
  exists config wh decode sourceCluster,
    ev (AddRunnable m (ClusterRunnable sourceCluster)) (inl tt) ∈ t /\
    ev (CompleteWebhookOptions (registration_options f)) (inl config) ∈ t /\
    ev (UniversalDecoder m) decode ∈ t /\ wh = shootValidator decode /\
    ev (AddWebhooksToManager config false [wh] m sourceCluster) (inl tt) ∈ t.

Lemma webhook_serving_after f ctx m t0 t : webhook_serving f ctx m t -> webhook_serving f ctx m (t0 ++ t).
Proof using Type.
  intros [Hw (config&wh&d&cl&Hwh)]. split.
  - rewrite <- (app_nil_r t). by apply webhook_wired_frame.
  - exists config, wh, d, cl. rewrite !elem_of_app. naive_solver.
Qed.

(** The values the webhook command checks: the defaults are valid, but for the
    URL and the port, which are unset unless given. *)
Definition webhookFlags_valid (given : Given) (f : webhookcmd.flags) : Prop :=
  supported (webhookcmd.zapLogLevel f) (webhookcmd.zapLogFormat f) /\
  webhookcmd.webhookConfigMode f ∈ [ModeService; ModeURL; ModeURLWithServiceName] /\
  (webhookcmd.webhookConfigURL f = ""%string \/ url_Parse (webhookcmd.webhookConfigURL f) = inl tt) /\
  (forall u, given !! "webhook-config-url"%string = Some (VString u) -> url_Parse u = inl tt) /\
  (webhookcmd.webhookConfigServicePort f = 0 \/ 0 < webhookcmd.webhookConfigServicePort f)%Z /\
  (forall port, given !! "webhook-config-service-port"%string = Some (VInt port) -> 0 < port)%Z.

Lemma validURL_Ok u : webhookcli.validURL u = Ok tt -> url_Parse u = inl tt.
Proof using Type. unfold webhookcli.validURL. by destruct (url_Parse u) as [[]|]. Qed.

Lemma validServicePort_Ok port : webhookcli.validServicePort port = Ok tt -> (0 < port)%Z.
Proof using Type. unfold webhookcli.validServicePort. case_decide; [done|lia]. Qed.

Lemma webhook_valid given : accepted given webhookcli.Flags -> webhookFlags_valid given (webhookFlags given).
Proof using Type*.
  intros Hacc. split_and!; [split|..].
  - apply (accepted_string 9 given webhookcli.Flags validLogLevel (fun x => x ∈ AllLogLevels)); [|done|apply oneOf_Ok].
    eexists. split_and!; try reflexivity. apply InfoLevel_supported.
  - apply (accepted_string 10 given webhookcli.Flags webhookcli.validLogFormat (fun x => x ∈ AllLogFormats)); [|done|apply oneOf_Ok].
    eexists. split_and!; try reflexivity. apply FormatText_supported.
  - apply (accepted_string 21 given webhookcli.Flags webhookcli.validMode
      (fun x => x ∈ [ModeService; ModeURL; ModeURLWithServiceName])); [|done|apply oneOf_Ok].
    eexists. split_and!; try reflexivity. by left.
  - apply (accepted_string 22 given webhookcli.Flags webhookcli.validURL
      (fun u => u = ""%string \/ url_Parse u = inl tt)); [|done|intros u Hu; right; by apply validURL_Ok].
    eexists. split_and!; try reflexivity. by left.
  - intros u Hu. apply validURL_Ok.
    eapply (accepted_given StringFlag asString _ 22 given webhookcli.Flags); [|done|done|exact Hu|done].
    eexists. split_and!; reflexivity.
  - apply (accepted_int 23 given webhookcli.Flags webhookcli.validServicePort (fun x => x = 0 \/ 0 < x)%Z);
      [|done|intros x Hx; right; by apply validServicePort_Ok].
    eexists. split_and!; try reflexivity. by left.
  - intros x Hx. apply validServicePort_Ok.
    eapply (accepted_given IntFlag asInt _ 23 given webhookcli.Flags); [|done|done|exact Hx|done].
    eexists. split_and!; reflexivity.
Qed.

Lemma chain_self e : e ∈ chain e.
Proof using Type. destruct e; by left. Qed.

Lemma runWebhookServer_ends f ctx t r :
  supported (webhookcmd.zapLogLevel f) (webhookcmd.zapLogFormat f) -> logger_documented t ->
  runs (webhookcmd.runWebhookServer f ctx) t r -> ends (webhook_serving f ctx) t r.
Proof using Type.
  intros Hs Hdoc [(e&->&_)|[Hid|(m&x&t1&->&Hid&Hw&Hwh&->)]]%runWebhookServer_starts_last; [|by left|right].
  - destruct (supported_logger _ _ _ (inr e) Hs Hdoc) as [? [=]]. by left.
  - exists m, x, t1. split_and!; [done|done|by split|]. destruct x as [[]|e]; [done|]. exists e. split; [done|apply chain_self].
Qed.

Lemma webhook_exported f given t1 t2 h r :
  supported (webhookcmd.zapLogLevel f) (webhookcmd.zapLogFormat f) -> logger_documented t2 ->
  (forall v, given !! "kubeconfig"%string = Some (VString v) -> ev (Setenv RecommendedConfigPathEnvVar v) (inl tt) ∈ t1) ->
  Forall idle t1 -> Forall (fun e => projT1 e <> GetConfig) t1 ->
  runs (webhookcmd.runWebhookServer f h) t2 r ->
  ends (fun m t => kubeconfig_exported given t /\ webhook_serving f h m t) (t1 ++ t2) r.
Proof using Type*.
  intros Hs Hdoc Hset Hi Hn Hr%runWebhookServer_ends; [|done..]. eapply ends_app; [|done|exact Hr].
  intros m t Hw. split; [by apply exported_before|]. by apply webhook_serving_after.
Qed.

Lemma webhook_after_logger f h given t0 t r :
  Forall idle t0 -> Forall (fun e => projT1 e <> GetConfig) t0 ->
  ends (fun m t => kubeconfig_exported given t /\ webhook_serving f h m t) t r ->
  ends (fun m t => kubeconfig_exported given t /\ webhook_serving f h m t) (t0 ++ t) r.
Proof using Type*.
  intros Hi Hn. apply ends_app; [|done]. intros m t1 [Hk Hw]. split.
  - intros v Hv. apply before_app; [by apply before_none|by apply Hk].
  - by apply webhook_serving_after.
Qed.

Lemma webhookFlags_eq given : webhookFlags given = assigned given webhookcli.Flags webhookcmd.zeroFlags.
Proof using Type. reflexivity. Qed.

Lemma invoke_webhook ctx given (s := assigned given webhookcli.Flags webhookcmd.zeroFlags) :
  exists f, Name f = "kubeconfig"%string /\ Action f = Some setKubeconfig /\
  invoke webhookcli.New ctx given =
    (ctx ← (MustNewZapLogger (webhookcmd.zapLogLevel s) (webhookcmd.zapLogFormat s) ;;
            mret (mkContext (baseContext ctx) true));
     s ← (runFlagAction given (StringFlag f) s ≫= mret);
     webhookcmd.runWebhookServer (webhookcmd.getFlags (if flagsKey ctx then Some s else None)) (baseContext ctx)).
Proof using Type.
  assert (exists f, webhookcli.Flags !! 7 = Some (StringFlag f)) as [f Hf] by (eexists; reflexivity).
  exists f. injection Hf as <-. split_and!; reflexivity.
Qed.

Lemma webhookcmd_stored h f :
  webhookcmd.runWebhookServer (webhookcmd.getFlags (if flagsKey (mkContext h true) then Some f else None))
    (baseContext (mkContext h true)) = webhookcmd.runWebhookServer f h.
Proof using Type. reflexivity. Qed.

Lemma logger_documented_app t1 t2 : logger_documented (t1 ++ t2) <-> logger_documented t1 /\ logger_documented t2.
Proof using Type.
  split.
  - intros Hd. split; intros l f e Hl Hf Hin; apply (Hd l f e Hl Hf), elem_of_app; auto.
  - intros [H1' H2'] l f e Hl Hf [Hin|Hin]%elem_of_app; [by apply (H1' l f e)|by apply (H2' l f e)].
Qed.

Lemma webhook_invoked ctx given t r :
  accepted given webhookcli.Flags -> logger_documented t ->
  runs (invoke webhookcli.New ctx given) t r ->
  ends (fun m t1 => kubeconfig_exported given t1 /\ webhook_serving (webhookFlags given) (baseContext ctx) m t1) t r.
Proof using Type*.
  intros Hacc Hdoc Hr. pose proof (webhook_valid given Hacc) as (Hs&_).
  destruct (invoke_webhook ctx given) as (f&Hf&Hfa&Heq). rewrite Heq in Hr. clear Heq.
  rewrite <- webhookFlags_eq in Hr.
  apply logged_supported in Hr as (t0&t'&->&Hi0&Hn0&Hr); [|done|done].
  apply logger_documented_app in Hdoc as [_ Hdoc].
  apply webhook_after_logger; [exact Hi0|exact Hn0|].
  apply runs_bind in Hr as [(t1&s&t2&->&Ha&Hr)|[(e&->&Ha)|(w&->&Ha)]];
    apply runs_bind_mret in Ha;
    apply (setKubeconfig_spec _ f _ _ _ Hf Hfa) in Ha as (Hi&Hn&[[e' He]|[He Hset]]); simplify_eq; [|by apply ends_error].
  rewrite webhookcmd_stored in Hr. apply logger_documented_app in Hdoc as [_ Hdoc]. by eapply webhook_exported.
Qed.

(** *** netpol-controller *)

(** What the netpol-controller command runs with. *)
Definition netpolFlags (given : Given) : netpolcontroller.flags :=
  let str := setting given asString in
  {| netpolcontroller.seedNamespace := str "seed-namespace" "";
     netpolcontroller.shootKubeconfig := str "shoot-kubeconfig" PathGenericKubeconfig;
     netpolcontroller.leaderElection := setting given asBool "leader-election" false;
     netpolcontroller.metricsBindAddr := str "metrics-bind-address" ":8080";
     netpolcontroller.healthProbeBindAddr := str "health-probe-bind-address" ":8081";
     netpolcontroller.zapLogLevel := str "log-level" InfoLevel;
     netpolcontroller.zapLogFormat := str "log-format" FormatText |}.

(** The manager of the seed, its leases in the flags' namespace, with the shoot
    of the flags' kubeconfig and the controller on its cache. *)
Definition netpol_wired (logger : Handle) (ctx : Handle) (f : netpolcontroller.flags) (m : Handle)
    (t : list (event reply)) : Prop :=
  exists opts,
    netpolcontroller.SeedNamespace opts = netpolcontroller.seedNamespace f /\
    netpolcontroller.HealthProbeBindAddress opts = netpolcontroller.healthProbeBindAddr f /\
    ev GetConfig (inl (netpolcontroller.SeedRESTConfig opts)) ∈ t /\
    ev (BuildConfigFromFlags (netpolcontroller.shootKubeconfig f)) (inl (netpolcontroller.ShootRESTConfig opts)) ∈ t /\
    netpolcontroller.seedManagerOptions opts logger ctx ["kubernetes"%string] = netpol_manager_options f logger ctx /\
    seed_created opts logger ctx m t /\ shoot_wired opts m t.

Lemma netpolLogs given :
  accepted given netpolcli.Flags ->
  supported (netpolcontroller.zapLogLevel (netpolFlags given)) (netpolcontroller.zapLogFormat (netpolFlags given)).
Proof using Type*.
  intros Hacc. split.
  - apply (accepted_string 5 given netpolcli.Flags validLogLevel (fun x => x ∈ AllLogLevels)); [|done|apply oneOf_Ok].
    eexists. split_and!; try reflexivity. apply InfoLevel_supported.
  - apply (accepted_string 6 given netpolcli.Flags netpolcli.validLogFormat (fun x => x ∈ AllLogFormats)); [|done|apply oneOf_Ok].
    eexists. split_and!; try reflexivity. apply FormatText_supported.
Qed.

Lemma netpol_run_ends ctx logger f t r :
  supported (netpolcontroller.zapLogLevel f) (netpolcontroller.zapLogFormat f) -> logger_documented t ->
  runs (netpolcontroller.run ctx logger f) t r -> ends (netpol_wired logger ctx f) t r.
Proof using Type.
  intros Hs Hdoc [(e&->&_)|[Hid|(m&x&t1&opts&->&Hid&H1'&H2'&H3'&H4'&H5'&H6'&H7'&->)]]%netpol_run_starts_last; [|by left|right].
  - destruct (supported_logger _ _ _ (inr e) Hs Hdoc) as [? [=]]. by left.
  - exists m, x, t1. split_and!; [done|done|by exists opts|]. destruct x as [[]|e]; [done|].
    eexists. split; [done|]. simpl. right. apply chain_self.
Qed.

Lemma invoke_netpol logger ctx given :
  invoke (netpolcli.New logger) ctx given = netpolcontroller.run (baseContext ctx) logger (netpolFlags given).
Proof using Type. reflexivity. Qed.

Lemma netpol_invoked logger ctx given t r :
  accepted given netpolcli.Flags -> logger_documented t ->
  runs (invoke (netpolcli.New logger) ctx given) t r ->
  ends (netpol_wired logger (baseContext ctx) (netpolFlags given)) t r.
Proof using Type*.
  intros Hacc Hdoc Hr. rewrite invoke_netpol in Hr. pose proof (netpolLogs given Hacc). by apply netpol_run_ends.
Qed.

End commands.

(** ** main *)

Section main.
Context `{CommandConstants} `{!DocumentedConstants} `{RangeOrder} `{Libraries}.
Context `{CommandLine} `{!DocumentedCommandLine}.

(** What holds when the process, called with [args], starts the manager [m]
    after the events [t]. *)
Inductive started (iv : ImageVector) (logger ctx : Handle) (args : list string) (m : Handle) (t : list (event reply)) : Prop :=
  | started_manager name rest given :
      args = name :: rest -> name ∈ ["manager"; "m"]%string -> reads managercli.Flags rest given ->
      supported (managercmd.zapLogLevel (managerFlags given)) (managercmd.zapLogFormat (managerFlags given)) ->
      kubeconfig_exported given t -> manager_wired iv (managerFlags given) ctx m t ->
      started iv logger ctx args m t
  | started_webhook name rest given :
      args = name :: rest -> name ∈ ["webhook"; "w"]%string -> reads webhookcli.Flags rest given ->
      given !! "garden-kubeconfig"%string = Some (VString (webhookcmd.gardenKubeconfig (webhookFlags given))) ->
      webhookFlags_valid given (webhookFlags given) ->
      kubeconfig_exported given t -> webhook_serving (webhookFlags given) ctx m t ->
      started iv logger ctx args m t
  | started_netpol rest given :
      args = "netpol-controller"%string :: rest -> reads netpolcli.Flags rest given ->
      given !! "seed-namespace"%string = Some (VString (netpolcontroller.seedNamespace (netpolFlags given))) ->
      supported (netpolcontroller.zapLogLevel (netpolFlags given)) (netpolcontroller.zapLogFormat (netpolFlags given)) ->
      netpol_wired logger ctx (netpolFlags given) m t ->
      started iv logger ctx args m t.

Lemma webhook_required given :
  accepted given webhookcli.Flags ->
  given !! "garden-kubeconfig"%string = Some (VString (webhookcmd.gardenKubeconfig (webhookFlags given))).
Proof using Type. apply (accepted_required 8). eexists. split_and!; reflexivity. Qed.

Lemma netpol_required given :
  accepted given netpolcli.Flags ->
  given !! "seed-namespace"%string = Some (VString (netpolcontroller.seedNamespace (netpolFlags given))).
Proof using Type. apply (accepted_required 0). eexists. split_and!; reflexivity. Qed.

(** The command [c] was invoked on the arguments, with what they gave for its
    flags, and ended with [r]. *)
Definition invoked (iv : ImageVector) (logger ctx : Handle) (args : list string) (t : list (event reply))
    (r : outcome unit) : Prop :=
  exists c name rest given, c ∈ Commands (app iv logger) /\ name ∈ cmd_Names c /\ args = name :: rest /\
    reads (cmd_Flags c) rest given /\ accepted given (cmd_Flags c) /\
    runs (invoke c (mkContext ctx false) given) t r.

Lemma invoked_ends iv logger ctx args t r :
  invoked iv logger ctx args t r -> logger_documented t -> ends (started iv logger ctx args) t r.
Proof using Type*.
  intros (c&name&rest&given&Hc&Hname&->&Hreads&Hacc&Hr) Hdoc.
  apply elem_of_cons in Hc as [->|[->|[->|[]%elem_of_nil]%elem_of_cons]%elem_of_cons].
  - eapply ends_mono; [|by eapply manager_invoked]. intros m t1 [Hk Hw].
    eapply started_manager; [done|done|done|by apply managerFlags_supported|done|done].
  - eapply ends_mono; [|by eapply webhook_invoked]. intros m t1 [Hk Hw].
    eapply started_webhook; [done|done|done|by apply webhook_required|by apply webhook_valid|done|done].
  - apply list_elem_of_singleton in Hname as ->.
    eapply ends_mono; [|by eapply netpol_invoked]. intros m t1 Hw.
    eapply started_netpol; [done|done|by apply netpol_required|by apply netpolLogs|done].
Qed.

(** Running the command line: nothing happens, or a command runs. *)
Lemma Run_ends iv logger ctx args t r :
  runs (Run (app iv logger) (mkContext ctx false) args) t r ->
  (t = [] /\ not_panic r) \/ exists r', invoked iv logger ctx args t r' /\ r = handled r'.
Proof using Type*.
  intros [Hnone|(c&name&rest&given&r'&Hc&Hname&Hargs&Hreads&Hacc&Hr&->)]%Run_invokes; [by left|right].
  exists r'. split; [|done]. by exists c, name, rest, given.
Qed.

Lemma attempt_runs {A} (m : setupIO A) t r :
  runs (attempt m) t r -> exists r', runs m t r' /\
    r = match r' with Ok a => Ok (inl a) | Err e => Ok (inr e) | Panic w => Panic w end.
Proof using Type. 
  intros (t1&r'&t2&->&Hm&Hr)%runs_pbind. exists r'.
  by destruct r'; destruct Hr as [-> ->]; rewrite app_nil_r.
Qed.

(** The exit code of a command that failed with [e]. *)
Definition failureCode (e : error) : Z := default 1%Z (ExitCoder e).

Definition exitCode (r : outcome RunEnd) : Z :=
  match r with Ok Returned => 0 | Ok (Exited code) => code | _ => 1 end%Z.

Lemma main_runs iv logger ctx args t r :
  runs (main iv logger ctx args) t r -> exists r',
    runs (Run (app iv logger) (mkContext ctx false) args) t r' /\
    ((exists w, r' = Panic w) \/ r = Ok (exitCode r')).
Proof using Type.
  intros Hr. unfold main in Hr.
  apply runs_bind in Hr as [(t1&x&t2&->&Ha&Hr)|[(e&->&Ha)|(w&->&Ha)]];
    apply attempt_runs in Ha as (r'&Ha&Hx).
  - exists r'. assert (t2 = []) as -> by (by destruct x as [[|]|]; destruct Hr as [-> _]).
    rewrite app_nil_r. split; [done|]. right.
    destruct r' as [a|e|w]; [..|done]; injection Hx as ->; [destruct a|]; by destruct Hr as [_ ->].
  - by destruct r'.
  - exists r'. split; [done|]. left. destruct r'; naive_solver.
Qed.

(** [main] exits, whether it started nothing or a manager. *)
Lemma main_ends iv logger ctx args t r :
  runs (main iv logger ctx args) t r -> logger_documented t ->
  (t = [] /\ exists code, r = Ok code) \/
  (Forall idle t /\ exists e, invoked iv logger ctx args t (Err e) /\ r = Ok (failureCode e)) \/
  (exists m x t1, t = t1 ++ [ev (Start m) x] /\ Forall idle t1 /\ started iv logger ctx args m t1 /\
    match x with inl _ => r = Ok 0%Z | inr e => exists e', e ∈ chain e' /\ r = Ok (failureCode e') end).
Proof using Type*.
  intros Hr Hdoc. apply main_runs in Hr as (r'&Hr&Hcode).
  apply Run_ends in Hr as [[-> Hp]|(r1&Hinv&->)].
  { left. split; [done|]. destruct Hcode as [[w Hw]| ->]; [by destruct (Hp w)|eauto]. }
  right. pose proof (invoked_ends _ _ _ _ _ _ Hinv Hdoc) as [[Hid [e ->]]|(m&x&t1&->&Hid&Hs&Hx)]; [left|right].
  - split; [done|]. exists e. split; [done|]. unfold failureCode. cbn in Hcode.
    destruct (ExitCoder e); by destruct Hcode as [[? ?]| ->].
  - exists m, x, t1. split_and!; [done..|]. destruct x as [[]|e].
    + subst r1. by destruct Hcode as [[? ?]| ->].
    + destruct Hx as (e'&->&He). exists e'. split; [done|]. unfold failureCode. cbn in Hcode.
      destruct (ExitCoder e'); by destruct Hcode as [[? ?]| ->].
Qed.
End main.

(** C16: the process.  Called with any arguments, and whatever the outside world
    answers (a logger of a supported level and format can be built), [main] does
    not panic, and it exits.  Either no command is invoked and nothing happens; or
    the command that the arguments name, by its name or alias, fails before it
    starts anything, and the exit code is that command's failure code - 1, unless
    its error carries another; or the last action is to start one manager, and
    the exit code is 0 or the failure code of an error wrapping the manager's.  A
    manager is started only as such a command, with the required flags given and
    the checked ones valid (log levels and formats, and the webhook's mode, URL and
    port); after the kubeconfig given was put into the environment, all APIs the command needs -
    the extension's own among them - were registered with the scheme, the
    connection settings were applied, the manager was created with exactly the options the
    flags describe - each by its name, with the value given for it or else its default -
    and health and readiness checks, clusters, controllers,
    heartbeat and webhook were registered with it. *)
Theorem main_starts_validated `{CommandConstants} `{!DocumentedConstants} `{RangeOrder} `{Libraries}
    `{CommandLine} `{!DocumentedCommandLine} iv logger ctx args t r :
  runs (main iv logger ctx args) t r -> logger_documented t ->
  exists code, r = Ok code /\
    (t = [] \/
     (Forall idle t /\ exists e, invoked iv logger ctx args t (Err e) /\ code = failureCode e) \/
     (exists m x t1, t = t1 ++ [ev (Start m) x] /\ Forall idle t1 /\ started iv logger ctx args m t1 /\
       match x with inl _ => code = 0%Z | inr e => exists e', e ∈ chain e' /\ code = failureCode e' end)).
Proof.
  intros Hr Hdoc. apply main_ends in Hr
    as [[-> [code ->]]|[(Hid&e&Hinv&->)|(m&x&t1&->&Hid&Hs&Hx)]]; [..|done].
  - exists code. auto.
  - eexists. split; [done|]. right. left. eauto.
  - destruct x as [[]|e]; [subst r|destruct Hx as (e'&He&->)]; (eexists; split; [done|]); right; right;
      [exists m, (inl tt), t1|exists m, (inr e), t1]; eauto 10.
Qed.

(** ** The process in the controller's Deployment *)

(** C32: the Deployment that the actuator ships for the NetworkPolicy controller
    runs the right command: whatever the environment gives for the other flags, the
    process its container's arguments start is the netpol-controller command with
    the seed namespace of the Deployment - never another command, and never refused
    for want of the required flag - so that the manager it starts keeps its leases
    in that namespace and watches the shoot of its kubeconfig. *)
Theorem netpol_deployment_starts_controller `{CommandConstants} `{!DocumentedConstants} `{RangeOrder} `{Libraries}
    `{CommandLine} `{!DocumentedCommandLine} images iv seedNamespace d c logger ctx t r :
  netpolControllerDeployer.deployment images seedNamespace = Ok d ->
  c ∈ ps_Containers (ds_TemplateSpec (dep_Spec d)) ->
  runs (main iv logger ctx (c_Args c)) t r -> logger_documented t ->
  dep_Namespace d = seedNamespace /\
  (forall rest given, c_Args c = "netpol-controller"%string :: rest -> reads netpolcli.Flags rest given ->
     is_Some (given !! "seed-namespace"%string)) /\
  (~ Forall idle t -> exists m x t1 f opts, t = t1 ++ [ev (Start m) x] /\ netpol_wired logger ctx f m t1 /\
     netpolcontroller.seedNamespace f = seedNamespace /\
     ev (ManagerNew (netpolcontroller.SeedRESTConfig opts)
           (netpolcontroller.seedManagerOptions opts logger ctx ["kubernetes"%string])) (inl m) ∈ t1 /\
     mo_LeaderElectionNamespace
       (netpolcontroller.seedManagerOptions opts logger ctx ["kubernetes"%string]) = seedNamespace).
Proof.
  intros Hd Hc Hr Hdoc. unfold netpolControllerDeployer.deployment in Hd.
  destruct (images ExtensionImageName) as [img|]; [|done]. injection Hd as <-.
  cbn [dep_Spec ds_TemplateSpec ps_Containers] in Hc. apply list_elem_of_singleton in Hc as ->. cbn [c_Args] in *.
  assert (forall rest given, netpolControllerDeployer.args seedNamespace = "netpol-controller"%string :: rest ->
    reads netpolcli.Flags rest given -> given !! "seed-namespace"%string = Some (VString seedNamespace)) as Hgiven.
  { intros rest given [= <-] Hreads.
    assert (exists f, netpolcli.Flags !! 0 = Some (StringFlag f) /\ Name f = "seed-namespace"%string) as (f&Hf&Hn)
      by (eexists; split; reflexivity).
    rewrite <- Hn. eapply reads_argument; [exact Hreads|by eapply list_elem_of_lookup_2| |]; rewrite Hn.
    - by apply list_elem_of_singleton.
    - intros v Hv%list_elem_of_singleton. unfold argument in Hv. by injection Hv. }
  split; [done|]. split; [intros rest given Hargs Hreads; eauto|]. intros Hact.
  apply main_ends in Hr as [[-> _]|[[Hid _]|(m&x&t1&->&_&Hs&_)]]; [by destruct Hact|done| |done].
  destruct Hs as [name rest given Hargs Hname _ _ _ _|name rest given Hargs Hname _ _ _ _ _|rest given Hargs Hreads Hns _ Hw].
  1,2: injection Hargs as <- _; by rewrite !elem_of_cons, elem_of_nil in Hname; destruct Hname as [|[|]].
  pose proof Hw as (opts&Ho&_&_&_&_&(t2&t3&Hnew)&_).
  assert (netpolcontroller.seedNamespace (netpolFlags given) = seedNamespace) as Hsn.
  { rewrite (Hgiven rest given Hargs Hreads) in Hns. by injection Hns. }
  exists m, x, t1, (netpolFlags given), opts. split_and!; [done|done|done| |cbn; by rewrite Ho].
  rewrite Hnew. set_solver.
Qed.

(** ** The images *)

(** The file lists the images the program looks up. *)
Lemma images_listed name :
  name ∈ [ImageName; ExtensionImageName] -> exists s, s ∈ imagevector.imagesYAML /\ imagevector.is_Name s = name.
Proof.
  intros [->|[->|[]%elem_of_nil]%elem_of_cons]%elem_of_cons; eexists.
  - split; [by left|reflexivity].
  - split; [by right; left|reflexivity].
Qed.

(** the embedded images.  Package initialisation panics only where the
    override of the environment cannot be read; once it succeeded, with whatever
    override, the image vector has every image the program looks up, so that the
    Deployment of the NetworkPolicy controller can be built for every namespace
    and the resources of every configuration and every TLS bundle: neither the
    NetworkPolicy controller's nor the control plane's deployment ever fails for
    want of an image. *)
Theorem embedded_images_suffice `{Libraries} `{imagevector.DocumentedLibrary} :
  codec_encodes shootSchemeAPIs shootCodecVersions ->
  (forall e, imagevector.init <> Err e) /\
  (forall w, imagevector.init = Panic w -> exists iv ca e,
     imagevector.WithEnvOverride iv ca imagevector.OverrideEnv = inr e /\ w = Error e) /\
  (forall iv, imagevector.init = Ok iv ->
     (forall seedNamespace, exists d, netpolControllerDeployer.deployment iv seedNamespace = Ok d) /\
     (forall cfg tls, exists m, buildResources cfg iv tls = Ok m)).
Proof.
  intros Hcodec. unfold imagevector.init.
  destruct (imagevector.Read_finds imagevector.imagesYAML) as (iv0&ca&->&Hfound).
  cbn [imagevector.Must mbind outcome_bind].
  destruct (imagevector.WithEnvOverride iv0 ca imagevector.OverrideEnv) as [[iv1 ca1]|e] eqn:E;
    cbn [imagevector.Must mbind outcome_bind]; (split; [done|]); (split; [|]); [done| |intros w [= <-]; eauto|done].
  intros iv [= <-].
  assert (forall name, name ∈ [ImageName; ExtensionImageName] -> exists img, iv1 name = inl img) as Himg.
  { intros name (s&Hs&<-)%images_listed. destruct (Hfound s Hs) as [img Hi].
    by eapply imagevector.WithEnvOverride_keeps. }
  split.
  - intros ns. unfold netpolControllerDeployer.deployment. destruct (Himg ExtensionImageName) as [img ->]; [by right; left|].
    by eexists.
  - intros cfg tls. destruct (Himg ImageName) as [img Hi]; [by left|]. by eapply buildResources_Ok.
Qed.
