(* ===== verification/Landscape.v ===== *)
(** * A concrete landscape

    Concrete libraries, a concrete Shoot and API servers that answer every call,
    against which the operations execute: the theorems' hypotheses are
    discharged here by evaluation in Witnesses.v. *)

From S2P Require Import Prelude GoStd Errors Effects KubeObjects Constants Config External.
From S2P Require Import Interfaces Secrets Manifests Deployer GatewayGuard OrphanSweep.
From S2P Require Import DataplaneNetpol NetpolDeployer Actuator Process Commands ActuatorSpecs.

(** ** Recording executions *)

Section record.
Context {C : Type} {ans : C -> Type} (h : forall c, ans c).

(** The trace and the result of a program whose calls are answered by [h]. *)
Fixpoint record {A} (p : prog ans A) : list (event ans) * A :=
  match p with
  | Ret a => ([], a)
  | Call c k => let '(t, a) := record (k (h c)) in (ev c (h c) :: t, a)
  end.

Lemma record_runs {A} (p : prog ans A) : runs p (record p).1 (record p).2.
Proof.
  induction p as [a|c k IH]; simpl; [done|]. specialize (IH (h c)).
  destruct (record (k (h c))) as [t a]. by exists (h c), t.
Qed.

Lemma record_answers {A} (p : prog ans A) e : e ∈ (record p).1 -> exists c, e = ev c (h c).
Proof.
  induction p as [a|c k IH]; simpl; [by intros ?%elem_of_nil|].
  specialize (IH (h c)). destruct (record (k (h c))) as [t a].
  intros [->|Hin]%elem_of_cons; [by exists c|by apply IH].
Qed.
End record.

Lemma recorded_runs {C} {ans : C -> Type} {A} (h : forall c, ans c) (p : prog ans A) r :
  (record h p).2 = r -> runs p (record h p).1 r.
Proof. intros <-. apply record_runs. Qed.

Ltac by_execution := apply recorded_runs; vm_compute; reflexivity.

(** ** Libraries *)

Definition demoCRDs (s : string) : list CRD :=
  if decide (s = "standard"%string) then [mkCRD "CustomResourceDefinition" "gateways" APIGroupGatewayAPI "standard channel"]
  else if decide (s = "envoy"%string) then [mkCRD "CustomResourceDefinition" "envoyproxies" apiGroupEnvoyGateway "v1alpha1"]
  else [].

#[export] Instance demoLibraries : Libraries :=
  {| HibernationIsEnabled := fun s => match sh_HibernationEnabled s with Some (Some b) => b | _ => false end;
     GenericTokenKubeconfigSecretNameFromCluster := fun _ => "generic-token-kubeconfig"%string;
     DataKeyCertificate := "tls.crt"; DataKeyPrivateKey := "tls.key"; DataKeyCertificateCA := "ca.crt";
     SecretNamePrefixShootAccess := "shoot-access-"; ShootPurposeEvaluation := "evaluation";
     CompareVersions := fun _ _ _ => inl true;
     LabelHostname := "kubernetes.io/hostname"; LabelTopologyZone := "topology.kubernetes.io/zone";
     Encode := fun _ => inl "object"%string; MarshalResources := fun _ => inl "resources"%string;
     decodeDocuments := fun s => inl <$> demoCRDs s; MarshalCRD := fun c => inl (crd_Name c +:+ ": " +:+ crd_Rest c);
     gatewayAPIStandardYAML := "standard"; gatewayAPIExperimentalYAML := "experimental";
     envoyGatewayCRDsYAML := "envoy" |}.

Definition demoImages : ImageVector := fun name => inl name.

(** The decoder knows one document, which enables the network policies. *)
Definition demoConfig : config.EnvoyGatewayConfig :=
  config.mkEnvoyGatewayConfig (config.cfg_TypeMeta config.emptyConfig) None None "standard" (Some true) None (Some true).

Definition demoDecode (raw : string) : config.EnvoyGatewayConfig + error :=
  if decide (raw = "policies"%string) then inl demoConfig
  else inr (apiError ReasonUnknown "couldn't decode").

Definition demoActuator : Actuator := productionActuator (mkClient demoDecode) demoImages.

(** ** Shoots *)

Definition aliveShoot : Shoot :=
  mkShoot None "1.33.0" None (Some "evaluation"%string) [mkShootExtension ExtensionType (Some "policies"%string) None].
Definition deletedShoot : Shoot := mkShoot (Some 1%Z) "1.33.0" None (Some "evaluation"%string) [].
Definition hibernatedShoot : Shoot := mkShoot None "1.33.0" (Some (Some true)) (Some "evaluation"%string) [].

Definition demoExtension : Extension := mkExtension "envoy-gateway" "shoot--demo" None.
Definition configuredExtension : Extension := mkExtension "envoy-gateway" "shoot--demo" (Some "policies"%string).

(** ** Answers *)

Definition demoSecrets : gmap string (gmap string string) :=
  let pair : gmap string string := {[ "tls.crt"%string := "certificate"%string; "tls.key"%string := "key"%string ]} in
  {[ CASecretName := {[ "ca.crt"%string := "ca"%string ]}; XDSServerCertSecretName := pair;
     EnvoyClientCertSecretName := pair; HMACSecretName := {[ HMACSecretKey := "hmac"%string ]} ]}.

(** An API server that serves [shoot], lists [gws] and [objs] and has stored
    the controller's Deployment. *)
Definition answer (shoot : Shoot) (gws : list Gateway) (objs : list ObjectMeta) (c : call) : ans c :=
  match c with
  | Now => 0%Z
  | CounterInc _ _ | GaugeSetSince _ _ _ => tt
  | PollWait _ => false
  | GetCluster name => inl (mkCluster name (Some shoot))
  | SecretsManagerForCluster _ _ _ => inl 0
  | GenerateAllSecrets _ _ => inl demoSecrets
  | SerializedObjects resources => inl resources
  | InjectGenericKubeconfig d _ _ => inl d
  | SeedGetDeployment _ _ => 
      match netpolControllerDeployer.deployment demoImages "shoot--demo" with
      | Ok d => inl d
      | _ => inr (apiError ReasonNotFound "not found")
      end
  | External.ListGateways _ => inl gws
  | GetGatewayClass _ => inl gatewayClass
  | ListObjects _ _ => inl objs
  | ListNetworkPolicies _ => inl []
  | ReconcileShootAccessSecret name _ _ => inl (("shoot-access-" +:+ name)%string)
  | SMCleanup _ | CreateForShoot _ _ _ _ _ | SetKeepObjects _ _ _
  | DeleteManagedResource _ _ _ | WaitUntilManagedResourceDeleted _ _ _
  | SeedCreateOrUpdateDeployment _ _ _ | SeedPatchDeployment _ _ | SeedDelete _ _ _
  | RegisterScheme _ | NewClientForShoot _ | DeleteGateway _ _ | RemoveFinalizers _ _
  | DeleteObject _ _ _ | DeleteNetworkPolicy _ _ | CreateOrUpdateNetworkPolicy _ _ _ => inl tt
  end.

Definition userGateway : Gateway := mkGateway "apps" "web" None GatewayClassName.

Definition orphanedService : ObjectMeta :=
  mkMeta Namespace "envoy-apps-web"
    {[ LabelManagedBy := EnvoyProxyManagedByValue; OwningGatewayNameLabel := "web"%string ]}.

(** The cluster an event reports. *)
Definition clusterOf (e : event ans) : option Cluster :=
  match e with existT (GetCluster _) (inl cluster) => Some cluster | _ => None end.

Lemma answered_cluster {A} shoot gws objs (p : io A) ns cluster :
  ev (GetCluster ns) (inl cluster) ∈ (record (answer shoot gws objs) p).1 ->
  cl_Shoot cluster = Some shoot.
Proof.
  intros [c Hc]%record_answers. apply (f_equal clusterOf) in Hc. simpl in Hc.
  destruct c; try done. by injection Hc as ->.
Qed.

(** The objects an event lists. *)
Definition objectsOf (e : event ans) : option (list ObjectMeta) :=
  match e with existT (ListObjects _ _) (inl l) => Some l | _ => None end.

Lemma answered_objects {A} shoot gws objs (p : io A) kind opts l :
  ev (ListObjects kind opts) (inl l) ∈ (record (answer shoot gws objs) p).1 -> l = objs.
Proof.
  intros [c Hc]%record_answers. apply (f_equal objectsOf) in Hc. simpl in Hc.
  destruct c; try done. by injection Hc as ->.
Qed.

(** ** Process start-up *)

#[export] Instance demoRangeOrder : RangeOrder.
Proof. refine {| range := fun _ A m => map_to_list m |}. done. Defined.

(** Every registration succeeds. *)
Definition willing (c : setup) : reply c :=
  match c with
  | GetConfig => inl 1
  | BuildConfigFromFlags _ => inl 2
  | ManagerNew _ _ => inl 7
  | ClusterNew _ _ => inl 3
  | NewZapLogger _ _ => inl 6
  | CompleteWebhookOptions _ => inl 4
  | GetCache c => c + 10
  | DefaultPredicates _ _ => [5]
  | GetClient _ => mkClient demoDecode
  | UniversalDecoder _ => demoDecode
  | InstallScheme _ | ApplyClientConnection _ _ => tt
  | Setenv _ _ | AddToScheme _ | AddHealthzCheck _ _ _ | AddReadyzCheck _ _ _ | AddMetricsServerExtraHandler _ _ _
  | AddRunnable _ _ | BuilderComplete _ _ _ | Start _ | ExtensionAdd _ _ | HeartbeatAdd _ _
  | AddWebhooksToManager _ _ _ _ _ => inl tt
  end.

Definition demoFlags : managercmd.flags :=
  managercmd.mkFlags "gardener-extension-envoy-gateway" ":8080" ":8081" (30 * Second)
    "gardener-extension-envoy-gateway" true "leader" "garden" false 5 "" "info" "text" (30 * Second) "" (Qcanon.Q2Qc (QArith_base.inject_Z 100)) 130 "" ∅.

Definition demoWebhookFlags : webhookcmd.flags :=
  webhookcmd.mkFlags "envoy-gateway-admission" ":8080" ":8081" false "" "" "" "/garden" "info" "text" "" (Qcanon.Q2Qc (QArith_base.inject_Z (-1))) 0
    "" 9443 "" "tls.crt" "tls.key" "garden" "service" "" 443 "" "" false.
