(* ===== verification/NetpolLifecycle.v ===== *)
(** * The life cycle of the NetworkPolicy controller's Deployment

    What pkg/actuator/netpol_deployer.go promises to the actuator, as a state
    machine with three states per seed namespace - absent, running, scaled to
    zero - and the proof that the deployer implements it against a seed API
    server that may fail at any call, before or after having made the change. *)

From S2P Require Import Prelude GoStd Errors Effects KubeObjects Constants External Interfaces.
From S2P Require Import NetpolDeployer Landscape.
Import netpolControllerDeployer.

(** ** The seed *)

Record seed := mkSeed {
  deployments : gmap (string * string) Deployment;  (** by namespace and name *)
  secrets : gset (string * string);
}.

Definition emptyDeployment (ns name : string) : Deployment :=
  mkDeployment name ns ∅
    {| ds_Replicas := None; ds_Selector := mkSelector ∅ []; ds_TemplateLabels := ∅;
       ds_TemplateSpec :=
         {| ps_ServiceAccountName := ""; ps_PodAntiAffinity := []; ps_TopologySpreadConstraints := [];
            ps_SecurityContext := {| psc_RunAsNonRoot := false; psc_RunAsUser := 0; psc_RunAsGroup := 0; psc_FSGroup := 0 |};
            ps_Volumes := []; ps_Containers := [] |} |}.

Definition put_deployment (k : string * string) (d : Deployment) (s : seed) : seed :=
  mkSeed (<[k := d]> (deployments s)) (secrets s).
Definition drop_deployment (k : string * string) (s : seed) : seed := mkSeed (delete k (deployments s)) (secrets s).
Definition put_secret (k : string * string) (s : seed) : seed := mkSeed (deployments s) ({[k]} ∪ secrets s).
Definition drop_secret (k : string * string) (s : seed) : seed := mkSeed (deployments s) (secrets s ∖ {[k]}).

(** A write: after an error it may or may not have been made. *)
Definition write (A : Type) (s made : seed) (ok : A -> Prop) (r : A + error) (s' : seed) : Prop :=
  match r with
  | inl a => s' = made /\ ok a
  | inr _ => s' = s \/ s' = made
  end.

Section lifecycle.
Context `{Libraries}.

Definition accessSecretName : string := SecretNamePrefixShootAccess +:+ NetpolControllerShootAccessSecretName.

(** The documented behaviour of the seed's API server and of the library
    functions that the deployer calls. *)
Definition seed_documented (s : seed) (c : call) : ans c -> seed -> Prop :=
  match c with
  | ReconcileShootAccessSecret name ns _ => fun r s' =>
      let full := SecretNamePrefixShootAccess +:+ name in
      write _ s (put_secret (ns, full) s) (fun n => n = full) r s'
  | InjectGenericKubeconfig d _ _ => fun r s' =>
      s' = s /\
      match r with
      | inl d' => dep_Name d' = dep_Name d /\ dep_Namespace d' = dep_Namespace d /\ dep_Labels d' = dep_Labels d /\
          ds_Replicas (dep_Spec d') = ds_Replicas (dep_Spec d) /\ ds_Selector (dep_Spec d') = ds_Selector (dep_Spec d)
      | inr _ => True
      end
  | SeedCreateOrUpdateDeployment ns name mutate => fun r s' =>
      write _ s (put_deployment (ns, name) (mutate (default (emptyDeployment ns name) (deployments s !! (ns, name)))) s)
        (fun _ => True) r s'
  | SeedGetDeployment ns name => fun r s' =>
      s' = s /\
      match r with
      | inl d => deployments s !! (ns, name) = Some d
      | inr e => IsNotFound e = true -> deployments s !! (ns, name) = None
      end
  | SeedPatchDeployment original modified => fun r s' =>
      let k := (dep_Namespace modified, dep_Name modified) in
      match r with
      | inl _ => deployments s !! k = Some original -> s' = put_deployment k modified s
      | inr _ => deployments s !! k = Some original -> s' = s \/ s' = put_deployment k modified s
      end
  | SeedDelete KDeployment ns name => fun r s' =>
      match r with
      | inl _ => s' = drop_deployment (ns, name) s
      | inr e => if IsNotFound e then s' = s /\ deployments s !! (ns, name) = None
                 else s' = s \/ s' = drop_deployment (ns, name) s
      end
  | SeedDelete KSecret ns name => fun r s' =>
      match r with
      | inl _ => s' = drop_secret (ns, name) s
      | inr e => if IsNotFound e then s' = s /\ (ns, name) ∉ secrets s
                 else s' = s \/ s' = drop_secret (ns, name) s
      end
  | _ => fun _ s' => s' = s
  end.

Class SeedStep := seed_step : seed -> forall c, ans c -> seed -> Prop.
Class DocumentedSeed `{SeedStep} :=
  seed_step_documented : forall s c r s', seed_step s c r s' -> seed_documented s c r s'.

(** ** The specification *)

Inductive status := Absent | Running | Asleep.

Inductive op := OpEnsure (cluster : Cluster) | OpTeardown | OpScaleDown.

Definition spec (o : op) (st : status) : status :=
  match o, st with
  | OpEnsure _, _ => Running
  | OpTeardown, _ => Absent
  | OpScaleDown, Running => Asleep
  | OpScaleDown, st => st
  end.

(** A history of operations with their results: a success takes the state where
    the specification says, a failure there or nowhere, and nothing panics. *)
Inductive lifecycle_spec : list (op * outcome unit) -> status -> status -> Prop :=
  | spec_nil st : lifecycle_spec [] st st
  | spec_ok o h st st' :
      lifecycle_spec h (spec o st) st' -> lifecycle_spec ((o, Ok tt) :: h) st st'
  | spec_err o e h st st1 st' :
      st1 = st \/ st1 = spec o st -> lifecycle_spec h st1 st' -> lifecycle_spec ((o, Err e) :: h) st st'.

(** ** The implementation *)

Context `{SeedStep}.

Definition run_op (iv : ImageVector) (o : op) (ns : string) : IO unit :=
  let d := NewNetpolControllerDeployer iv in
  match o with
  | OpEnsure cluster => Interfaces.Ensure d cluster ns
  | OpTeardown => Interfaces.Teardown d ns
  | OpScaleDown => Interfaces.ScaleDown d ns
  end.

Inductive lifecycle (iv : ImageVector) (ns : string) : list (op * outcome unit) -> seed -> seed -> Prop :=
  | lifecycle_nil s : lifecycle iv ns [] s s
  | lifecycle_cons o r h s s1 s' :
      runs_in seed_step (run_op iv o ns) s r s1 -> lifecycle iv ns h s1 s' -> lifecycle iv ns ((o, r) :: h) s s'.

(** *** Abstraction *)

Definition key (ns : string) : string * string := (ns, NetpolControllerName).

Definition abs (s : seed) (ns : string) : status :=
  match deployments s !! key ns with
  | None => Absent
  | Some d => if decide (ds_Replicas (dep_Spec d) = Some 0%Z) then Asleep else Running
  end.

(** Objects are stored under their names, and a Deployment of the controller has
    the secret it mounts. *)
Record seed_ok (s : seed) : Prop := {
  ok_keyed : map_Forall (fun k d => (dep_Namespace d, dep_Name d) = k) (deployments s);
  ok_secret : forall ns, is_Some (deployments s !! key ns) -> (ns, accessSecretName) ∈ secrets s;
}.

(** What is not of the controller in [ns] is left alone. *)
Definition others_kept (ns : string) (s s' : seed) : Prop :=
  (forall k, k <> key ns -> deployments s' !! k = deployments s !! k) /\
  (forall k, k <> (ns, accessSecretName) -> k ∈ secrets s' <-> k ∈ secrets s).

#[local] Instance others_kept_preorder ns : PreOrder (others_kept ns).
Proof.
  split; [by intros s|]. intros s1 s2 s3 [Hd1 Hs1] [Hd2 Hs2]. split.
  - intros k Hk. by rewrite Hd2, Hd1.
  - intros k Hk. by rewrite Hs2, Hs1.
Qed.

Lemma abs_put s ns d :
  abs (put_deployment (key ns) d s) ns = if decide (ds_Replicas (dep_Spec d) = Some 0%Z) then Asleep else Running.
Proof. unfold abs. simpl. by rewrite lookup_insert_eq. Qed.

Lemma abs_drop s ns : abs (drop_deployment (key ns) s) ns = Absent.
Proof. unfold abs. simpl. by rewrite lookup_delete_eq. Qed.

Lemma put_secret_ok s ns :
  seed_ok s -> seed_ok (put_secret (ns, accessSecretName) s) /\ others_kept ns s (put_secret (ns, accessSecretName) s).
Proof.
  intros [Hk Hs]. split; [split; [done|]|split; [done|]].
  - intros ns' Hd. apply elem_of_union. right. by apply Hs.
  - intros k Hne. simpl. set_solver.
Qed.

Lemma put_deployment_ok s ns d :
  seed_ok s -> dep_Namespace d = ns -> dep_Name d = NetpolControllerName -> (ns, accessSecretName) ∈ secrets s ->
  seed_ok (put_deployment (key ns) d s) /\ others_kept ns s (put_deployment (key ns) d s).
Proof.
  intros [Hk Hs] Hns Hname Hsec. split; [split|split; [|done]].
  - apply map_Forall_insert_2; [|done]. unfold key. by rewrite Hns, Hname.
  - intros ns' Hd. simpl in *. destruct (decide (ns' = ns)) as [->|Hne]; [done|].
    rewrite lookup_insert_ne in Hd by (unfold key; congruence). by apply Hs.
  - intros k Hne. simpl. by rewrite lookup_insert_ne.
Qed.

Lemma drop_deployment_ok s ns :
  seed_ok s -> seed_ok (drop_deployment (key ns) s) /\ others_kept ns s (drop_deployment (key ns) s).
Proof.
  intros [Hk Hs]. split; [split|split; [|done]].
  - by apply map_Forall_delete.
  - intros ns' [d Hd]. simpl in Hd. apply lookup_delete_Some in Hd as [_ Hd]. by apply Hs; exists d.
  - intros k Hne. simpl. by rewrite lookup_delete_ne.
Qed.

Lemma drop_secret_ok s ns :
  seed_ok s -> deployments s !! key ns = None ->
  seed_ok (drop_secret (ns, accessSecretName) s) /\ others_kept ns s (drop_secret (ns, accessSecretName) s).
Proof.
  intros [Hk Hs] Hnone. split; [split; [done|]|split; [done|]].
  - intros ns' Hd. simpl in *. apply elem_of_difference. split; [by apply Hs|].
    intros Heq%elem_of_singleton. injection Heq as ->. rewrite Hnone in Hd. by destruct Hd.
  - intros k Hne. simpl. set_solver.
Qed.

(** *** The operations *)

(** The controller's own Deployment, as [deployment] describes it. *)
Definition as_described (ns : string) (d : Deployment) : Prop :=
  dep_Name d = NetpolControllerName /\ dep_Namespace d = ns /\ dep_Labels d = netpolLabels /\
  ds_Replicas (dep_Spec d) = Some 1%Z /\ ds_Selector (dep_Spec d) = mkSelector {[ LabelName := NetpolControllerName ]} [].

(** What an operation leaves behind. *)
Definition implements (o : op) (ns : string) (s : seed) (r : outcome unit) (s' : seed) : Prop :=
  seed_ok s' /\ others_kept ns s s' /\
  match r with
  | Ok _ => abs s' ns = spec o (abs s ns) /\
      match o with
      | OpEnsure _ => exists d, deployments s' !! key ns = Some d /\ as_described ns d
      | OpTeardown => (ns, accessSecretName) ∉ secrets s'
      | OpScaleDown => secrets s' = secrets s
      end
  | Err _ => abs s' ns = abs s ns \/ abs s' ns = spec o (abs s ns)
  | Panic _ => False
  end.

Lemma implements_error o ns s s' e :
  seed_ok s' -> others_kept ns s s' -> abs s' ns = abs s ns \/ abs s' ns = spec o (abs s ns) ->
  implements o ns s (Err e) s'.
Proof. done. Qed.

(** A request, answered. *)
Lemma runs_request {B} pre c (f : ans c -> outcome B) (k : B -> IO unit) s r s' :
  runs_in seed_step (wrapf pre (Call c (fun x => Ret (f x))) ≫= k) s r s' ->
  exists x s1, seed_step s c x s1 /\
    match f x with
    | Ok b => runs_in seed_step (k b) s1 r s'
    | Err e => s' = s1 /\ r = Err (wrapError pre e "")
    | Panic w => s' = s1 /\ r = Panic w
    end.
Proof.
  intros (x&s1&Hs&Hr). exists x, s1. split; [done|]. destruct (f x); [done|..]; by destruct Hr as [-> ->].
Qed.

Lemma deployment_described iv ns d : deployment iv ns = Ok d -> as_described ns d.
Proof. unfold deployment. destruct (iv ExtensionImageName); [|done]. by intros [= <-]. Qed.

Context `{!DocumentedSeed}.

(** Applying the Deployment. *)
Lemma apply_implements cluster ns s d r s' pre :
  seed_ok s -> (ns, accessSecretName) ∈ secrets s ->
  dep_Labels d = netpolLabels -> ds_Replicas (dep_Spec d) = Some 1%Z ->
  ds_Selector (dep_Spec d) = mkSelector {[ LabelName := NetpolControllerName ]} [] ->
  runs_in seed_step (wrapf pre (request (SeedCreateOrUpdateDeployment ns NetpolControllerName (applyDeployment d)))) s r s' ->
  implements (OpEnsure cluster) ns s r s'.
Proof using Type*.
  intros Hok Hsec Hl Hrep Hsel (x&s1&Hs%seed_step_documented&Hr). simpl in Hs.
  change (ns, NetpolControllerName) with (key ns) in Hs.
  set (cur := default (emptyDeployment ns NetpolControllerName) (deployments s !! key ns)) in Hs.
  assert (dep_Namespace cur = ns /\ dep_Name cur = NetpolControllerName) as [Hns Hname].
  { unfold cur. destruct (deployments s !! key ns) as [c|] eqn:E; [|done].
    pose proof (ok_keyed _ Hok _ _ E) as Hk. by injection Hk. }
  destruct (put_deployment_ok s ns (applyDeployment d cur)) as [Hok' Hothers]; [done..|].
  assert (abs (put_deployment (key ns) (applyDeployment d cur) s) ns = spec (OpEnsure cluster) (abs s ns)) as Habs.
  { rewrite abs_put. simpl. by rewrite Hrep. }
  destruct x as [[]|e]; destruct Hr as [-> ->].
  - destruct Hs as [-> _]. split; [done|]. split; [done|]. split; [exact Habs|]. exists (applyDeployment d cur).
    split; [by apply lookup_insert_eq|]. by split_and!.
  - destruct Hs as [->| ->]; (split; [done|]); (split; [done|]); [by left|right; exact Habs].
Qed.

Lemma Ensure_implements iv cluster ns s r s' :
  seed_ok s -> runs_in seed_step (run_op iv (OpEnsure cluster) ns) s r s' -> implements (OpEnsure cluster) ns s r s'.
Proof using Type*.
  intros Hok Hr. apply runs_request in Hr as (x&s1&Hs%seed_step_documented&Hr). simpl in Hs.
  destruct (put_secret_ok s ns Hok) as [Hok1 Ho1].
  destruct x as [access|e]; cbn [of_result] in Hr.
  2: { destruct Hr as [-> ->]. destruct Hs as [->| ->]; (split_and!; [done..|by left]). }
  destruct Hs as [-> ->]. set (s1 := put_secret (ns, accessSecretName) s) in *.
  apply (runs_in_bind seed_step (Ret (deployment iv ns))) in Hr as [(d&s2&[-> Hd]&Hr)|[(e&->&[-> Hd])|(w&->&[-> Hd])]].
  2: { by split_and!; [..|left]. }
  2: { unfold deployment in Hd. by destruct (iv ExtensionImageName). }
  symmetry in Hd. apply deployment_described in Hd as (Hn&Hns&Hl&Hrep&Hsel).
  apply runs_request in Hr as (x&s2&Hs%seed_step_documented&Hr). destruct Hs as [-> Hs].
  destruct x as [d'|e]; cbn [of_result] in Hr.
  2: { destruct Hr as [-> ->]. by split_and!; [..|left]. }
  destruct Hs as (Hn'&Hns'&Hl'&Hrep'&Hsel').
  apply (apply_implements cluster) in Hr; [|done|by apply elem_of_union; left; apply elem_of_singleton|congruence..].
  destruct Hr as (Hok'&Ho'&Hres). split; [done|]. split; [by etrans|]. exact Hres.
Qed.

(** Deleting an object that may be gone. *)
Lemma runs_delete {B} pre c (k : unit -> IO B) s r s' (f : ans c -> unit + error) :
  runs_in seed_step (wrapf pre (ignoreNotFound (Call c (fun x => Ret (of_result (f x))))) ≫= k) s r s' ->
  exists x s1, seed_step s c x s1 /\
    match f x with
    | inl _ => runs_in seed_step (k tt) s1 r s'
    | inr e => if IsNotFound e then runs_in seed_step (k tt) s1 r s'
               else s' = s1 /\ r = Err (wrapError pre e "")
    end.
Proof.
  intros (x&s1&Hs&Hr). exists x, s1. split; [done|].
  destruct (f x) as [[]|e]; cbn in Hr; [done|]. destruct (IsNotFound e); [done|]. by destruct Hr as [-> ->].
Qed.

Lemma Teardown_implements iv ns s r s' :
  seed_ok s -> runs_in seed_step (run_op iv OpTeardown ns) s r s' -> implements OpTeardown ns s r s'.
Proof using Type*.
  intros Hok Hr. apply (runs_delete _ (SeedDelete KDeployment ns NetpolControllerName) _ _ _ _ (fun x => x)) in Hr as (x&s1&Hs%seed_step_documented&Hr).
  simpl in Hs. change (ns, NetpolControllerName) with (key ns) in Hs.
  destruct (drop_deployment_ok s ns Hok) as [Hok1 Ho1].
  assert (Hend : forall s1, seed_ok s1 -> others_kept ns s s1 -> deployments s1 !! key ns = None ->
    runs_in seed_step (for_each [(KSecret, accessSecretName)] (fun '(kind, name) =>
      wrapf ("failed to delete netpol-controller " +:+ kindTypeName kind +:+ " " +:+ ns +:+ "/" +:+ name +:+ ": ")
        (ignoreNotFound (request (SeedDelete kind ns name))))) s1 r s' ->
    implements OpTeardown ns s r s').
  { intros s2 Hok2 Ho2 Hnone Hr2.
    apply (runs_delete _ (SeedDelete KSecret ns accessSecretName) _ _ _ _ (fun x => x)) in Hr2 as (y&s3&Hs2%seed_step_documented&Hr2). simpl in Hs2.
    destruct (drop_secret_ok s2 ns Hok2 Hnone) as [Hok3 Ho3].
    assert (Habs2 : abs s2 ns = Absent) by (unfold abs; by rewrite Hnone).
    assert (Hnosec : (ns, accessSecretName) ∉ secrets (drop_secret (ns, accessSecretName) s2)) by (simpl; set_solver).
    destruct y as [[]|e]; [|destruct (IsNotFound e)].
    - destruct Hr2 as [-> ->]. subst s3. split_and!; [done|by etrans|done|done].
    - destruct Hr2 as [-> ->], Hs2 as [-> Hno]. by split_and!.
    - destruct Hr2 as [-> ->]. destruct Hs2 as [->| ->]; (split_and!; [done|first [done|by etrans]|by right]). }
  destruct x as [[]|e]; [|destruct (IsNotFound e)].
  - subst s1. apply (Hend _ Hok1 Ho1); [by apply lookup_delete_eq|exact Hr].
  - destruct Hs as [-> Hnone]. by apply (Hend _ Hok).
  - destruct Hr as [-> ->]. destruct Hs as [->| ->]; (split_and!; [done|done|]); [by left|right; apply abs_drop].
Qed.

Lemma ScaleDown_implements iv ns s r s' :
  seed_ok s -> runs_in seed_step (run_op iv OpScaleDown ns) s r s' -> implements OpScaleDown ns s r s'.
Proof using Type*.
  intros Hok (x&s1&Hs%seed_step_documented&Hr). destruct Hs as [-> Hget].
  change (ns, NetpolControllerName) with (key ns) in Hget. destruct x as [d|e]; cbn in Hr.
  2: { destruct (IsNotFound e) eqn:Ee; destruct Hr as [-> ->]; (split; [done|]); (split; [done|]); [|by left].
       split; [|done]. unfold abs. by rewrite Hget. }
  pose proof (ok_keyed _ Hok _ _ Hget) as Hk.
  destruct Hr as (y&s2&Hs%seed_step_documented&Hr). simpl in Hs. rewrite Hk in Hs.
  destruct (put_deployment_ok s ns (scaledToZero d)) as [Hok' Ho']; [done|by injection Hk..|by apply (ok_secret _ Hok); exists d|].
  assert (Habs : abs (put_deployment (key ns) (scaledToZero d) s) ns = spec OpScaleDown (abs s ns)).
  { rewrite abs_put. simpl. unfold abs. rewrite Hget. by case_decide. }
  destruct y as [[]|e]; destruct Hr as [-> ->]; specialize (Hs Hget).
  - subst s2. by split_and!.
  - destruct Hs as [->| ->]; (split_and!; [done|done|]); [by left|by right].
Qed.

Lemma run_op_implements iv o ns s r s' :
  seed_ok s -> runs_in seed_step (run_op iv o ns) s r s' -> implements o ns s r s'.
Proof using Type*.
  destruct o; [apply Ensure_implements|apply Teardown_implements|apply ScaleDown_implements].
Qed.

Lemma lifecycle_app iv ns h1 h2 s s' :
  lifecycle iv ns (h1 ++ h2) s s' -> exists s1, lifecycle iv ns h1 s s1 /\ lifecycle iv ns h2 s1 s'.
Proof using Type.
  revert s. induction h1 as [|[o r] h1 IH]; intros s Hl; [by exists s; split; [constructor|]|].
  inversion Hl as [|? ? ? ? s1 ? Hr Hrest]; subst. destruct (IH s1 Hrest) as (s2&H1'&H2').
  exists s2. split; [by econstructor|done].
Qed.

Lemma lifecycle_implements iv ns h s s' :
  seed_ok s -> lifecycle iv ns h s s' ->
  seed_ok s' /\ others_kept ns s s' /\ lifecycle_spec h (abs s ns) (abs s' ns).
Proof using Type*.
  intros Hok Hl. induction Hl as [s|o r h s s1 s' Hr Hl IH]; [split_and!; [done|done|constructor]|].
  apply (run_op_implements iv) in Hr as (Hok1&Ho1&Hres); [|done].
  destruct (IH Hok1) as (Hok'&Ho'&Hspec). split; [done|]. split; [by etrans|].
  destruct r as [[]|e|w]; [|by eapply spec_err|done]. destruct Hres as [Hres _]. apply spec_ok. by rewrite <- Hres.
Qed.
End lifecycle.

(** C15: the deployer implements its life cycle.  Against a seed that may fail
    any call, before or after having made the change, every history of Ensure,
    ScaleDown and Teardown in a namespace runs through the states of the
    specification - absent, running, scaled to zero - where a failed operation
    has happened or not, and nothing in between; nothing outside the
    controller's Deployment and secret of the namespace changes; the Deployment never
    lacks the secret it mounts, whatever failed; and what the last operation
    leaves, if it succeeded, does not depend on the failures before it: after
    Ensure the Deployment is as described, with its one replica back after a
    hibernation, and after Teardown both objects are gone. *)
Theorem netpol_lifecycle_refines `{Libraries} `{SeedStep} `{!DocumentedSeed} iv ns h s s' :
  seed_ok s -> lifecycle iv ns h s s' ->
  lifecycle_spec h (abs s ns) (abs s' ns) /\ others_kept ns s s' /\ seed_ok s' /\
  (forall h' cluster, h = h' ++ [(OpEnsure cluster, Ok tt)] ->
     exists d, deployments s' !! key ns = Some d /\ as_described ns d) /\
  (forall h', h = h' ++ [(OpTeardown, Ok tt)] ->
     deployments s' !! key ns = None /\ (ns, accessSecretName) ∉ secrets s').
Proof.
  intros Hok Hl. destruct (lifecycle_implements iv ns h s s' Hok Hl) as (Hok'&Ho&Hspec).
  assert (Hlast : forall h' o r, h = h' ++ [(o, r)] -> exists s1, seed_ok s1 /\ implements o ns s1 r s').
  { intros h' o r ->. apply lifecycle_app in Hl as (s1&H1'&H2').
    inversion H2' as [|? ? ? ? s2 ? Hr Hnil]; subst. inversion Hnil; subst.
    destruct (lifecycle_implements iv ns h' s s1 Hok H1') as (Hok1&_&_). exists s1. split; [done|].
    by eapply run_op_implements. }
  split_and!; [done|done|done| |].
  - intros h' cluster Hh. destruct (Hlast _ _ _ Hh) as (s1&_&_&_&_&Hd). exact Hd.
  - intros h' Hh. destruct (Hlast _ _ _ Hh) as (s1&_&_&_&Habs&Hsec). split; [|done].
    unfold abs in Habs. destruct (deployments s' !! key ns); [|done]. by case_decide.
Qed.

(** ** A history *)

(** A seed that answers every call. *)
Definition demoSeed (s : seed) (c : call) : ans c * seed :=
  match c with
  | ReconcileShootAccessSecret name ns _ =>
      let full := SecretNamePrefixShootAccess +:+ name in (inl full, put_secret (ns, full) s)
  | InjectGenericKubeconfig d _ _ => (inl d, s)
  | SeedCreateOrUpdateDeployment ns name mutate =>
      (inl tt, put_deployment (ns, name) (mutate (default (emptyDeployment ns name) (deployments s !! (ns, name)))) s)
  | SeedGetDeployment ns name =>
      (match deployments s !! (ns, name) with
       | Some d => inl d
       | None => inr (apiError ReasonNotFound "not found")
       end, s)
  | SeedPatchDeployment _ modified => (inl tt, put_deployment (dep_Namespace modified, dep_Name modified) modified s)
  | SeedDelete KDeployment ns name => (inl tt, drop_deployment (ns, name) s)
  | SeedDelete KSecret ns name => (inl tt, drop_secret (ns, name) s)
  | c => (answer aliveShoot [] [] c, s)
  end.

#[export] Instance demoSeedStep : SeedStep := fun s c r s' => demoSeed s c = (r, s').

#[export] Instance demoSeedStep_documented : DocumentedSeed.
Proof.
  intros s c r s' Hs. unfold seed_step, demoSeedStep in Hs.
  destruct c; simpl in Hs; try (injection Hs as <- <-; done);
    [|destruct kind; injection Hs as <- <-; done].
  injection Hs as <- <-. split; [done|]. by destruct (deployments s !! (ns, name)).
Qed.

Definition demoCluster : Cluster := mkCluster "shoot--demo" (Some aliveShoot).

Definition demoOps : list op := [OpEnsure demoCluster; OpScaleDown; OpEnsure demoCluster].

Fixpoint demoHistory (ops : list op) (s : seed) : list (op * outcome unit) * seed :=
  match ops with
  | [] => ([], s)
  | o :: ops =>
      let '(r, s1) := exec demoSeed (run_op demoImages o "shoot--demo") s in
      let '(h, s') := demoHistory ops s1 in ((o, r) :: h, s')
  end.

Lemma demoHistory_lifecycle ops s :
  lifecycle demoImages "shoot--demo" (demoHistory ops s).1 s (demoHistory ops s).2.
Proof.
  revert s. induction ops as [|o ops IH]; intros s; [constructor|]. cbn [demoHistory].
  destruct (exec demoSeed (run_op demoImages o "shoot--demo") s) as [r s1] eqn:E.
  specialize (IH s1). destruct (demoHistory ops s1) as [h s']. econstructor; [|exact IH].
  by apply exec_runs_in.
Qed.

Lemma netpol_lifecycle_refines_witness :
  let h := demoHistory demoOps (mkSeed ∅ ∅) in
  h.1 = [(OpEnsure demoCluster, Ok tt); (OpScaleDown, Ok tt); (OpEnsure demoCluster, Ok tt)] /\
  exists d, deployments h.2 !! key "shoot--demo" = Some d /\ as_described "shoot--demo" d.
Proof.
  intros h. assert (Hh : h.1 = [(OpEnsure demoCluster, Ok tt); (OpScaleDown, Ok tt); (OpEnsure demoCluster, Ok tt)])
    by (vm_compute; reflexivity).
  split; [exact Hh|].
  destruct (netpol_lifecycle_refines demoImages "shoot--demo" h.1 (mkSeed ∅ ∅) h.2) as (_&_&_&Hlast&_).
  - split; [intros k d Hk; discriminate Hk|intros ns [d Hd]; discriminate Hd].
  - apply demoHistory_lifecycle.
  - apply (Hlast [(OpEnsure demoCluster, Ok tt); (OpScaleDown, Ok tt)] demoCluster). exact Hh.
Defined.
