(* ===== verification/ProcessWitnesses.v ===== *)
(** * A concrete command line

    An instance of the command-line library, of the constants of the tables and
    of the image-vector library, and the theorems on the process applied to
    executions with them. *)

From S2P Require Import Prelude GoStd Errors Effects KubeObjects Constants Config External.
From S2P Require Import Interfaces.
From S2P Require Import Secrets Manifests Deployer Codec NetpolDeployer Actuator Process.
From S2P Require Import NetpolManager Commands.
From S2P Require Import Cli FlagTables EntryPoint ActuatorSpecs ProcessProps CliProps MainProps.
From S2P Require Import Landscape.
Import cli.

(** ** The image vector *)

#[export] Instance demoImageLibrary : imagevector.Library :=
  {| imagevector.CABundle := unit;
     imagevector.Read := fun images =>
       inl (fun name => match list_find (fun s => imagevector.is_Name s = name) images with
                        | Some (_, s) => inl (imagevector.is_Repository s)
                        | None => inr (apiError ReasonNotFound "could not find image")
                        end, None);
     imagevector.WithEnvOverride := fun iv ca _ => inl (iv, ca);
     imagevector.OverrideEnv := "IMAGEVECTOR_OVERWRITE" |}.

#[export] Instance demoImageLibrary_documented : imagevector.DocumentedLibrary.
Proof.
  constructor.
  - intros l. eexists _, _. split; [reflexivity|]. intros s Hs. cbn.
    destruct (list_find _ l) as [[i s']|] eqn:E; [by eexists|].
    apply list_find_None in E. rewrite Forall_forall in E. by destruct (E s Hs).
  - intros iv ca env iv' ca' [= <- <-]. eauto.
Qed.

Lemma demo_codec : codec_encodes shootSchemeAPIs shootCodecVersions.
Proof. intros obj _ _. by eexists. Qed.

Definition emptyBundle : TLSBundle := mkTLSBundle "" "" "" "" "" "".

Lemma embedded_images_suffice_witness :
  exists iv, imagevector.init = Ok iv /\
    (exists d, netpolControllerDeployer.deployment iv "shoot--demo" = Ok d) /\
    (exists m, buildResources DefaultConfig iv emptyBundle = Ok m).
Proof.
  destruct (embedded_images_suffice demo_codec) as [_ [_ Hiv]].
  eexists. split; [reflexivity|]. split; [|]; by apply Hiv.
Defined.

Lemma buildResources_total_witness :
  codec_encodes shootSchemeAPIs shootCodecVersions /\
  ((exists m, buildResources DefaultConfig demoImages emptyBundle = Ok m) <->
   exists img, demoImages ImageName = inl img).
Proof.
  split; [exact demo_codec|].
  by destruct (buildResources_total DefaultConfig demoImages emptyBundle demo_codec) as (H&_).
Defined.

(** ** The command line *)

#[export] Instance demoConstants : CommandConstants :=
  {| InfoLevel := "info"; AllLogLevels := ["debug"; "info"; "error"];
     FormatText := "text"; AllLogFormats := ["json"; "text"];
     ModeService := "service"; ModeURL := "url"; ModeURLWithServiceName := "url-service";
     PathGenericKubeconfig := "/var/run/secrets/gardener.cloud/shoot/generic-kubeconfig/kubeconfig";
     RecommendedConfigPathEnvVar := "KUBECONFIG"; url_Parse := fun _ => inl tt |}.

#[export] Instance demoConstants_documented : DocumentedConstants.
Proof. constructor; apply (bool_decide_unpack _); vm_compute; reflexivity. Qed.

(** The library: it knows flags of the form [--name=value], and no environment. *)
Fixpoint strip (p s : string) : option string :=
  match p, s with
  | EmptyString, s => Some s
  | String c p, String d s => if Ascii.ascii_dec c d then strip p s else None
  | _, _ => None
  end.

Lemma strip_Some p s v : strip p s = Some v <-> s = p +:+ v.
Proof.
  revert s. induction p as [|c p IH]; intros s; cbn [strip].
  - rewrite string_app_nil_l. naive_solver.
  - rewrite string_app_cons. destruct s as [|d s]; [done|]. destruct (Ascii.ascii_dec c d) as [->|Hne]; [|naive_solver].
    rewrite IH. naive_solver.
Qed.

Definition valueOf (name : string) (args : list string) : option string :=
  head (omap (strip ("--" +:+ name +:+ "=")) args).

Lemma argument_prefix name v : argument name v = ("--" +:+ name +:+ "=") +:+ v.
Proof. unfold argument. by rewrite !string_app_assoc. Qed.

Lemma valueOf_unique name v args :
  argument name v ∈ args -> (forall v', argument name v' ∈ args -> v' = v) -> valueOf name args = Some v.
Proof.
  intros Hin Huniq. unfold valueOf. destruct (omap (strip ("--" +:+ name +:+ "=")) args) as [|v' l] eqn:E.
  - assert (v ∈ omap (strip ("--" +:+ name +:+ "=")) args) as Hv.
    { apply list_elem_of_omap. exists (argument name v). split; [done|]. apply strip_Some, argument_prefix. }
    rewrite E in Hv. by apply elem_of_nil in Hv.
  - assert (v' ∈ omap (strip ("--" +:+ name +:+ "=")) args) as Hv by (rewrite E; by left).
    apply list_elem_of_omap in Hv as (s&Hs&Hstrip%strip_Some). rewrite <- argument_prefix in Hstrip. subst s.
    cbn. f_equal. by apply Huniq.
Qed.

Definition demoParse {F} (flags : list (Flag F)) (args : list string) : Given :=
  list_to_map (omap (fun fl => match fl with
                               | StringFlag f => (fun v => (Name f, VString v)) <$> valueOf (Name f) args
                               | _ => None
                               end) flags).

Definition acceptableb {F} (given : Given) (fl : Flag F) : bool :=
  implb (flagRequired fl) (bool_decide (is_Some (given !! flagName fl))) &&
  match given !! flagName fl with
  | Some v => kinded (fun T proj f => match proj v, Validator f with
                                      | Some x, Some valid => match valid x with Ok _ => true | _ => false end
                                      | Some _, None => true
                                      | None, _ => false
                                      end) fl
  | None => true
  end.

Lemma acceptableb_sound {F} given (fl : Flag F) : acceptableb given fl = true -> acceptable given fl.
Proof.
  unfold acceptableb. rewrite andb_true_iff. intros [Hreq Hv]. split.
  - intros Hr. rewrite Hr in Hreq. by apply bool_decide_eq_true in Hreq.
  - intros v Hg. rewrite Hg in Hv. clear Hreq Hg. destruct fl as [f|f|f|f|f|f|f]; cbn in *;
      destruct v; cbn in *; try done; eexists; (split; [reflexivity|]); destruct (Validator f) as [valid|]; try done;
      by destruct (valid _) as [[]| |].
Qed.

#[export] Instance demoExitCodes : ExitCodes :=
  {| ExitCoder := fun e => if decide (e = errorsNew "exit 2") then Some 2%Z else None |}.

#[export] Instance demoCommandLine : CommandLine :=
  {| exitCodes := demoExitCodes;
     reads := fun F flags args given => forall (f : FlagBase F string) v, StringFlag f ∈ flags ->
       argument (Name f) v ∈ args -> (forall v', argument (Name f) v' ∈ args -> v' = v) ->
       given !! Name f = Some (VString v);
     Run := fun a ctx args =>
       match args with
       | [] => mret Returned
       | name :: rest =>
           match list_find (fun c => name ∈ cmd_Names c) (Commands a) with
           | Some (_, c) =>
               let given := demoParse (cmd_Flags c) rest in
               if forallb (acceptableb given) (cmd_Flags c) then pbind (invoke c ctx given) (fun r => Ret (handled r))
               else throw (errorString "usage")
           | None => mret (Exited 3)
           end
       end |}.

Lemma demoParse_reads {F} (flags : list (Flag F)) args : reads flags args (demoParse flags args).
Proof.
  intros f v Hf Hin Huniq. unfold demoParse.
  apply elem_of_list_to_map_1'.
  - intros y (fl&_&Hy)%list_elem_of_omap. destruct fl as [g| | | | | |]; try done.
    destruct (valueOf (Name g) args) as [w|] eqn:E; [|done]. cbn in Hy. injection Hy as Hn <-.
    rewrite Hn, (valueOf_unique _ v) in E by done. by injection E as <-.
  - apply list_elem_of_omap. exists (StringFlag f). split; [done|]. by rewrite (valueOf_unique _ v).
Qed.

#[export] Instance demoCommandLine_documented : DocumentedCommandLine.
Proof.
  constructor.
  - intros a ctx args t r Hr. cbn in Hr. destruct args as [|name rest]; [destruct Hr as [-> ->]; by left|].
    destruct (list_find _ (Commands a)) as [[i c]|] eqn:E; [|destruct Hr as [-> ->]; by left].
    destruct (forallb _ _) eqn:Ha; [|destruct Hr as [-> ->]; by left]. right.
    apply list_find_Some in E as (Hc&Hn&_).
    apply runs_pbind in Hr as (t1&r'&t2&->&Hr&[-> ->]). rewrite app_nil_r.
    exists c, name, rest, (demoParse (cmd_Flags c) rest), r'.
    split_and!; [by eapply list_elem_of_lookup_2|done|done|apply demoParse_reads| |done|done].
    unfold accepted. rewrite List.forallb_forall in Ha. apply List.Forall_forall. intros fl Hfl.
    apply acceptableb_sound. by apply Ha.
  - intros F flags args given f v Hreads. apply Hreads.
Qed.

(** ** Executions *)

Definition demoArgs : list string := ["netpol-controller"; "--seed-namespace=shoot--demo"]%string.

(** Where every registration succeeds, the logger is built. *)
Lemma willing_documented {A} (p : setupIO A) : logger_documented (record willing p).1.
Proof.
  intros level format e _ _ [c Hc]%record_answers.
  apply (f_equal (fun e => match e with existT (NewZapLogger _ _) (inr _) => true | _ => false end)) in Hc.
  by destruct c.
Qed.

Definition is_start (e : event reply) : bool := match projT1 e with Start _ => true | _ => false end.

Lemma some_start (t : list (event reply)) : existsb is_start t = true -> ~ Forall (fun e => ~ starts e) t.
Proof.
  intros (e&Hin&He)%existsb_exists Hid. rewrite List.Forall_forall in Hid. apply (Hid e Hin).
  unfold is_start in He. destruct (projT1 e) eqn:E; try done. by eexists.
Qed.

Lemma main_starts_validated_witness :
  let p := main demoImages 0 1 demoArgs in
  runs p (record willing p).1 (Ok 0%Z) /\
  exists m x t1, (record willing p).1 = t1 ++ [ev (Start m) x] /\ started demoImages 0 1 demoArgs m t1.
Proof.
  intros p. assert (Hr : runs p (record willing p).1 (Ok 0%Z)) by by_execution. split; [exact Hr|].
  destruct (main_starts_validated demoImages 0 1 demoArgs _ _ Hr (willing_documented p)) as (code&_&[Hid|[[Hid _]|Hs]]).
  - exfalso. revert Hid. vm_compute. discriminate.
  - exfalso. revert Hid. apply some_start. vm_compute. reflexivity.
  - destruct Hs as (m&x&t1&Ht&_&Hs&_). exists m, x, t1. split; [exact Ht|exact Hs].
Defined.

Lemma netpol_deployment_starts_controller_witness :
  exists d c, netpolControllerDeployer.deployment demoImages "shoot--demo" = Ok d /\
    c ∈ ps_Containers (ds_TemplateSpec (dep_Spec d)) /\
    let p := main demoImages 0 1 (c_Args c) in
    runs p (record willing p).1 (Ok 0%Z) /\
    exists m x t1 f, (record willing p).1 = t1 ++ [ev (Start m) x] /\ netpol_wired 0 1 f m t1 /\
      netpolcontroller.seedNamespace f = "shoot--demo"%string.
Proof.
  destruct (netpolControllerDeployer.deployment demoImages "shoot--demo") as [d| |] eqn:Hd; [|discriminate..].
  assert (exists c, c ∈ ps_Containers (ds_TemplateSpec (dep_Spec d)) /\ c_Args c = demoArgs) as (c&Hc&Hargs)
    by (injection Hd as <-; eexists; split; [by left|reflexivity]).
  exists d, c. split; [done|]. split; [exact Hc|]. intros p.
  assert (Hr : runs p (record willing p).1 (Ok 0%Z)) by (unfold p; rewrite Hargs; by_execution). split; [exact Hr|].
  destruct (netpol_deployment_starts_controller demoImages demoImages "shoot--demo" d c 0 1 _ _ Hd Hc Hr
    (willing_documented p)) as (_&_&Hs).
  destruct Hs as (m&x&t1&f&opts&Ht&Hw&Hns&_); 
    [|exists m, x, t1, f; split_and!; [exact Ht|exact Hw|exact Hns]].
  unfold p. rewrite Hargs. apply some_start. vm_compute. reflexivity.
Defined.
