(* ===== verification/Scripts.v ===== *)
(** * Programs and scripts

    A program logic for programs that call the outside world: [scripted p L]
    says that every execution of [p] against a world amounts to a list of
    abstract actions that [L] allows for its result.  The rules follow the
    constructs of the effect monad; [preserves_calls] handles programs of which
    only the calls they make matter. *)

From S2P Require Import Prelude Errors Effects External.

(** ** What a program's calls preserve *)

Section calls.
Context {C : Type} {ans : C -> Type} {W : Type} (step : W -> forall c, ans c -> W -> Prop).

(** If every call a program makes takes the world along [R], so does the program. *)
Lemma preserves_calls {A} (R : relation W) (P : event ans -> Prop) (p : prog ans A) w a w' :
  PreOrder R -> (forall w c r w', P (ev c r) -> step w c r w' -> R w w') ->
  emits P p -> runs_in step p w a w' -> R w w'.
Proof.
  intros HR Hstep. revert w. induction p as [b|c k IH]; intros w Hp Hr; simpl in Hr.
  - destruct Hr as [-> ->]. reflexivity.
  - destruct Hr as (r&w1&Hs&Hr). assert (Hev : P (ev c r) /\ emits P (k r)).
    { destruct (runs_in_runs _ _ _ _ _ Hr) as [t Ht].
      assert (Hall : forall t' a', runs (k r) t' a' -> Forall P (ev c r :: t')) by (intros t' a' Ht'; eapply Hp; by exists r, t').
      split; [by apply Hall, Forall_cons in Ht as []|]. intros t' a' Ht'. by apply Hall, Forall_cons in Ht' as []. }
    destruct Hev as [Hev Hk]. transitivity w1; [by eapply Hstep|by eapply IH].
Qed.

(** A wrapped request at the head of a program. *)
Lemma runs_in_request {A B} pre c (res : ans c -> A + error) (f : A -> @M C ans B) w r w' :
  runs_in step (wrapf pre (Call c (fun x => Ret (of_result (res x)))) ≫= f) w r w' ->
  exists x w1, step w c x w1 /\
    match res x with
    | inl a => runs_in step (f a) w1 r w'
    | inr e => w' = w1 /\ r = Err (wrapError pre e "")
    end.
Proof.
  intros (x&w1&Hs&Hr). exists x, w1. split; [done|]. destruct (res x) as [a|e]; [done|]. by destruct Hr as [-> ->].
Qed.

(** Inverting successful executions. *)
Lemma runs_in_bind_Ok {A B} (m : @M C ans A) (f : A -> @M C ans B) w b w' :
  runs_in step (m ≫= f) w (Ok b) w' -> exists a w1, runs_in step m w (Ok a) w1 /\ runs_in step (f a) w1 (Ok b) w'.
Proof. intros [?|[(?&?&?)|(?&?&?)]]%runs_in_bind; done. Qed.

Lemma runs_in_wrapf_Ok {A} pre (m : @M C ans A) w a w' :
  runs_in step (wrapf pre m) w (Ok a) w' -> runs_in step m w (Ok a) w'.
Proof. intros ([b|e|x]&w1&Hr&[-> ?])%runs_in_pbind; by simplify_eq. Qed.

(** A property that every call preserves. *)
Lemma keeps_calls {A} (I : W -> Prop) (P : event ans -> Prop) (p : prog ans A) w a w' :
  (forall w c r w', P (ev c r) -> step w c r w' -> I w -> I w') ->
  emits P p -> runs_in step p w a w' -> I w -> I w'.
Proof.
  intros Hstep. apply (preserves_calls (fun w w' => I w -> I w') P); [|done].
  split; [by intros w1|]. intros w1 w2 w3 H12 H23. auto.
Qed.

Lemma keeps_always {A} (I : W -> Prop) (p : prog ans A) w a w' :
  (forall w c r w', step w c r w' -> I w -> I w') -> runs_in step p w a w' -> I w -> I w'.
Proof.
  intros Hstep Hr. apply (keeps_calls I (fun _ => True) p w a w'); [|by intros t b _; apply Forall_true|done].
  intros w1 c r w2 _. apply Hstep.
Qed.

(** A step relation that allows more has more executions. *)
Lemma runs_in_mono (step' : W -> forall c, ans c -> W -> Prop) {A} (p : prog ans A) w a w' :
  (forall w c r w', step w c r w' -> step' w c r w') -> runs_in step p w a w' -> runs_in step' p w a w'.
Proof.
  intros Hs. revert w. induction p as [b|c k IH]; intros w; simpl; [done|].
  intros (r&w1&Hc&Hr). exists r, w1. split; [by apply Hs|by apply IH].
Qed.

(** ** Success and failure *)

(** From [I], a success of [m] ends in [Q] and anything else in [E]. *)
Definition ensures {A} (I : W -> Prop) (m : @M C ans A) (Q : A -> W -> Prop) (E : W -> Prop) : Prop :=
  forall w r w', I w -> runs_in step m w r w' -> match r with Ok a => Q a w' | _ => E w' end.

Lemma ensures_bind {A B} (I E : W -> Prop) (m : @M C ans A) (f : A -> @M C ans B) P (Q : B -> W -> Prop) :
  ensures I m P E -> (forall a, ensures (P a) (f a) Q E) -> ensures I (m ≫= f) Q E.
Proof.
  intros Hm Hf w r w' HI [(a&w1&H1&H2)|[(e&->&H1)|(x&->&H1)]]%runs_in_bind.
  - exact (Hf a _ _ _ (Hm _ _ _ HI H1) H2).
  - exact (Hm _ _ _ HI H1).
  - exact (Hm _ _ _ HI H1).
Qed.

Lemma ensures_wrapf {A} pre I (m : @M C ans A) Q E : ensures I m Q E -> ensures I (wrapf pre m) Q E.
Proof.
  intros Hm w r w' HI (x&w1&H1&H2)%runs_in_pbind. specialize (Hm _ _ _ HI H1).
  destruct x as [a|e|p]; destruct H2 as [-> ->]; exact Hm.
Qed.

Lemma ensures_attempt {A} (I E : W -> Prop) (m : @M C ans A) :
  ensures I m (fun _ => I) I -> (forall w, I w -> E w) -> ensures I (attempt m) (fun _ => I) E.
Proof.
  intros Hm HE w r w' HI (x&w1&H1&H2)%runs_in_pbind. specialize (Hm _ _ _ HI H1).
  destruct x as [a|e|p]; destruct H2 as [-> ->]; [exact Hm..|exact (HE _ Hm)].
Qed.

Lemma ensures_mret {A} (a : A) (I E : W -> Prop) : ensures I (mret a) (fun _ => I) E.
Proof. by intros w r w' HI [-> ->]. Qed.

(** A program that keeps [I] ensures it, and what it implies. *)
Lemma ensures_keeps {A} (I E : W -> Prop) (P : event ans -> Prop) (m : @M C ans A) :
  (forall w c r w', P (ev c r) -> step w c r w' -> I w -> I w') -> (forall w, I w -> E w) ->
  emits P m -> ensures I m (fun _ => I) E.
Proof.
  intros Hstep HE Hm w r w' HI Hr. pose proof (keeps_calls I P m w r w' Hstep Hm Hr HI) as Hw.
  destruct r; [exact Hw|exact (HE _ Hw)..].
Qed.

Lemma ensures_weaken {A} (I I' : W -> Prop) (m : @M C ans A) (Q Q' : A -> W -> Prop) (E E' : W -> Prop) :
  (forall w, I' w -> I w) -> (forall a w, Q a w -> Q' a w) -> (forall w, E w -> E' w) ->
  ensures I m Q E -> ensures I' m Q' E'.
Proof. intros HI HQ HE Hm w [a|e|p] w' Hw Hr; [apply HQ|apply HE..]; exact (Hm _ _ _ (HI _ Hw) Hr). Qed.

(** Whatever the result. *)
Lemma ensures_any {A} (I E : W -> Prop) (m : @M C ans A) w r w' :
  ensures I m (fun _ => E) E -> I w -> runs_in step m w r w' -> E w'.
Proof. intros Hm HI Hr. specialize (Hm _ _ _ HI Hr). by destruct r. Qed.
End calls.

(** ** Scripts *)

Section scripted.
Context {C : Type} {ans : C -> Type} {W Act : Type} (step : W -> forall c, ans c -> W -> Prop).

(** [I]: the worlds considered; [R l w w']: the actions [l] lead from [w] to [w']. *)
Class Actions (I : W -> Prop) (R : list Act -> relation W) := {
  actions_nil w : R [] w w;
  actions_app l1 l2 w1 w2 w3 : R l1 w1 w2 -> R l2 w2 w3 -> R (l1 ++ l2) w1 w3;
  actions_inv l w w' : R l w w' -> I w -> I w';
}.

Context (I : W -> Prop) (R : list Act -> relation W) `{!Actions I R}.

Definition scripted {A} (p : prog ans A) (L : A -> list Act -> Prop) : Prop :=
  forall w a w', I w -> runs_in step p w a w' -> exists l, L a l /\ R l w w'.

(** The scripts of a program that does not panic: what it has done when it
    succeeds, and what it may have done when it fails. *)
Definition stage {A} (full : A -> list Act -> Prop) (part : list Act -> Prop) (r : outcome A) (l : list Act) : Prop :=
  match r with
  | Ok a => full a l
  | Err _ => part l
  | Panic _ => False
  end.

(** It performs the list, or a beginning of it. *)
Definition performing {A} (l : list Act) : outcome A -> list Act -> Prop :=
  stage (fun _ l' => l' = l) (fun l' => l' `prefix_of` l).

Lemma scripted_mono {A} (p : prog ans A) (L L' : A -> list Act -> Prop) :
  (forall a l, L a l -> L' a l) -> scripted p L -> scripted p L'.
Proof. intros HL Hp w a w' HI Hr. destruct (Hp _ _ _ HI Hr) as (l&Hl&?). eauto. Qed.

Lemma scripted_Ret {A} (a : A) (L : A -> list Act -> Prop) : L a [] -> scripted (Ret a) L.
Proof using Type*. intros HL w b w' HI [-> ->]. exists []. split; [done|apply actions_nil]. Qed.

Lemma scripted_pbind {A B} (p : prog ans A) (f : A -> prog ans B) L1 (L : B -> list Act -> Prop) :
  scripted p L1 -> (forall a l1, L1 a l1 -> scripted (f a) (fun b l2 => L b (l1 ++ l2))) -> scripted (pbind p f) L.
Proof using Type*.
  intros Hp Hf w b w' HI (a&w1&H1&H2)%runs_in_pbind. destruct (Hp _ _ _ HI H1) as (l1&HL1&HR1).
  destruct (Hf _ _ HL1 _ _ _ (actions_inv _ _ _ HR1 HI) H2) as (l2&HL2&HR2). exists (l1 ++ l2). split; [done|by eapply actions_app].
Qed.

(** What the executions of a program return is known as well. *)
Lemma scripted_returns {A} (p : prog ans A) (L : A -> list Act -> Prop) (Q : A -> Prop) :
  scripted p L -> returns Q p -> scripted p (fun a l => L a l /\ Q a).
Proof.
  intros Hp HQ w a w' HI Hr. destruct (Hp _ _ _ HI Hr) as (l&Hl&?). exists l. split; [|done].
  destruct (runs_in_runs _ _ _ _ _ Hr) as [t Ht]. split; [done|by eapply HQ].
Qed.

(** A program whose calls do nothing that matters. *)
Lemma scripted_calls {A} (P : event ans -> Prop) (p : prog ans A) :
  (forall w c r w', P (ev c r) -> step w c r w' -> R [] w w') -> emits P p ->
  scripted p (fun _ l => l = []).
Proof using Type*.
  intros Hstep Hp w a w' _ Hr. exists []. split; [done|].
  eapply (preserves_calls step (R [])); [|exact Hstep|exact Hp|exact Hr].
  split; [exact actions_nil|]. intros w1 w2 w3 H1 H2. by apply (actions_app [] [] w1 w2 w3).
Qed.

Lemma stage_calls {A} (P : event ans -> Prop) (m : @M C ans A) :
  (forall w c r w', P (ev c r) -> step w c r w' -> R [] w w') -> emits P m -> no_panic m ->
  scripted m (performing []).
Proof using Type*.
  intros Hstep Hp Hn. eapply scripted_mono; [|eapply scripted_returns; [by eapply scripted_calls|]].
  2: { instantiate (1 := fun r => forall w, r <> Panic w). intros t r Hr w ->. by eapply Hn. }
  intros [a|e|w] l [-> Hr]; [done|by apply prefix_nil|by destruct (Hr w)].
Qed.

(** *** Rules for stages *)

Lemma stage_mono {A} (m : @M C ans A) f1 p1 (f2 : A -> list Act -> Prop) (p2 : list Act -> Prop) :
  (forall a l, f1 a l -> f2 a l) -> (forall l, p1 l -> p2 l) ->
  scripted m (stage f1 p1) -> scripted m (stage f2 p2).
Proof. intros Hf Hp. apply scripted_mono. intros [a|e|w] l; simpl; auto. Qed.

Lemma stage_bind {A B} (m : @M C ans A) (f : A -> @M C ans B) f1 p1 (f2 : B -> list Act -> Prop) (p2 : list Act -> Prop) :
  scripted m (stage f1 p1) -> (forall l, p1 l -> p2 l) ->
  (forall a l1, f1 a l1 -> scripted (f a) (stage (fun b l2 => f2 b (l1 ++ l2)) (fun l2 => p2 (l1 ++ l2)))) ->
  scripted (m ≫= f) (stage f2 p2).
Proof using Type*.
  intros Hm Hp Hf. eapply scripted_pbind; [exact Hm|]. intros [a|e|w] l1 Hl; simpl in Hl.
  - eapply scripted_mono; [|by apply Hf]. intros [b|e|w] l; done.
  - apply scripted_Ret. simpl. rewrite app_nil_r. auto.
  - done.
Qed.

Lemma stage_wrapf {A} pre (m : @M C ans A) f p : scripted m (stage f p) -> scripted (wrapf pre m) (stage f p).
Proof using Type*.
  intros Hm. eapply scripted_pbind; [exact Hm|].
  intros [a|e|w] l Hl; apply scripted_Ret; simpl in *; by rewrite ?app_nil_r.
Qed.

Lemma stage_attempt {A} (m : @M C ans A) f p :
  scripted m (stage f p) ->
  scripted (attempt m) (stage (fun r l => match r with inl a => f a l | inr _ => p l end) (fun _ => False)).
Proof using Type*.
  intros Hm. eapply scripted_pbind; [exact Hm|].
  intros [a|e|w] l Hl; apply scripted_Ret; simpl in *; by rewrite ?app_nil_r.
Qed.

(** One script after another. *)
Lemma performing_bind {A B} l1 l2 (m : @M C ans A) (f : A -> @M C ans B) :
  scripted m (performing l1) -> (forall a, scripted (f a) (performing l2)) ->
  scripted (m ≫= f) (performing (l1 ++ l2)).
Proof using Type*.
  intros Hm Hf. eapply stage_bind; [exact Hm|intros l Hl; by apply prefix_app_r|].
  intros a l -> . eapply scripted_mono; [|apply Hf]. intros [b|e|w] l; simpl; [by intros ->|by apply prefix_app|done].
Qed.

Lemma performing_mret {A} (a : A) : scripted (mret a : @M C ans A) (performing []).
Proof using Type*. by apply scripted_Ret. Qed.

Lemma performing_throw {A} e l : scripted (throw e : @M C ans A) (performing l).
Proof using Type*. apply scripted_Ret. apply prefix_nil. Qed.

Lemma performing_wrapf {A} pre (m : @M C ans A) l :
  scripted m (performing l) -> scripted (wrapf pre m) (performing l).
Proof using Type*. apply stage_wrapf. Qed.

(** A call that performs its actions when it succeeds, and some of them when it
    fails. *)
Lemma performing_request c {A} (res : ans c -> A + error) l :
  (forall w r w', step w c r w' ->
     match res r with inl _ => R l w w' | inr _ => exists l', l' `prefix_of` l /\ R l' w w' end) ->
  scripted (Call c (fun r => Ret (of_result (res r)))) (performing l).
Proof.
  intros Hc w a w' _ (r&w1&Hs&[-> ->]). specialize (Hc _ _ _ Hs).
  destruct (res r) as [x|e]; simpl; [by exists l|]. destruct Hc as (l'&?&?). by exists l'.
Qed.
End scripted.
