(* ===== verification/ExtensionWorld.v ===== *)
(** * The world of one extension

    The seed and the shoot as far as the life cycle of one Extension touches
    them: the ManagedResource that ships the control plane, the generated
    secrets, the NetworkPolicy controller, the shipped objects and the policies
    in the shoot.  [documented_effect] says what each call does to them; between
    calls gardener-resource-manager, the NetworkPolicy controller and the users
    act ([env]). *)

From S2P Require Import Prelude GoStd Errors Effects KubeObjects Constants External Interfaces.
From S2P Require Import DataPlanePolicies NetpolDeployer NetpolLifecycle.

(** ** The state *)

(** A ManagedResource: what its secret holds, whether its objects outlive it,
    whether it is being deleted, and the objects gardener-resource-manager has
    created for it. *)
Record resource := mkResource {
  manifests : gmap string string;
  keepObjects : bool;
  deleting : bool;
  applied : gset string;
}.

#[export] Instance resource_eta : Eta resource := fun m =>
  mkResource (manifests m) (keepObjects m) (deleting m) (applied m).

Record world := mkWorld {
  w_seed : seed;                                            (** Deployments and access secrets *)
  w_resources : gmap (string * string) resource;            (** by namespace and name *)
  w_generated : gmap (string * string) (gset string);       (** secrets by namespace and identity *)
  w_managers : gmap nat (string * string * gset string);    (** secrets-managers in use *)
  w_cluster : Cluster;
  w_objects : gmap string string;                           (** shipped objects in the shoot *)
  w_policies : gmap NamespacedName NetworkPolicy;           (** in the shoot *)
  w_running : bool;                                         (** a pod of the controller runs *)
}.

#[export] Instance world_eta : Eta world := fun w =>
  mkWorld (w_seed w) (w_resources w) (w_generated w) (w_managers w) (w_cluster w) (w_objects w)
    (w_policies w) (w_running w).

Definition managed (p : NetworkPolicy) : Prop :=
  label_selects ManagedDataPlanePolicyListOptions (np_Namespace p) (np_Labels p) = true.

(** The objects that [data], as [CreateForShoot] receives it, describes. *)
Class Serialization := contents : gmap string string -> gmap string string.

Section world.
Context `{Libraries} `{Serialization}.
Variable ns : string.  (** the shoot's namespace on the seed *)

Definition resourceKey : string * string := (ns, ManagedResourceName).
Definition secretsKey : string * string := (ns, ExtensionType).

Definition set_resource (k : string * string) (m : resource) (w : world) : world :=
  w <| w_resources := <[k := m]> (w_resources w) |>.

(** ** What happens between calls *)

(** gardener-resource-manager applies the objects of a ManagedResource, removes
    those it no longer contains and, once it is being deleted and does not keep
    them, all of them; then it lets it go.  A pod of the controller runs while
    its Deployment asks for one, may outlive it and may stop at any time.  While
    it runs it writes managed policies.  Users do what they like to the other
    policies, and may delete managed ones. *)
Inductive env : world -> world -> Prop :=
  | env_apply w m k data :
      w_resources w !! resourceKey = Some m -> deleting m = false -> manifests m !! k = Some data ->
      env w (set_resource resourceKey (m <| applied := {[k]} ∪ applied m |>)
               (w <| w_objects := <[k := data]> (w_objects w) |>))
  | env_prune w m k :
      w_resources w !! resourceKey = Some m -> k ∈ applied m ->
      (if deleting m then keepObjects m = false else manifests m !! k = None) ->
      env w (set_resource resourceKey (m <| applied := applied m ∖ {[k]} |>)
               (w <| w_objects := delete k (w_objects w) |>))
  | env_release w m :
      w_resources w !! resourceKey = Some m -> deleting m = true -> keepObjects m = true \/ applied m = ∅ ->
      env w (w <| w_resources := delete resourceKey (w_resources w) |>)
  | env_start w d :
      deployments (w_seed w) !! key ns = Some d -> ds_Replicas (dep_Spec d) <> Some 0%Z ->
      env w (w <| w_running := true |>)
  | env_stop w : env w (w <| w_running := false |>)
  | env_policy_put w p :
      w_running w = true -> managed p -> env w (w <| w_policies := <[np_key p := p]> (w_policies w) |>)
  | env_users w m :
      (forall k p, m !! k = Some p -> np_key p = k) ->
      (forall k p, m !! k = Some p -> managed p -> w_policies w !! k = Some p) ->
      env w (w <| w_policies := m |>).

(** ** What the calls do *)

Definition secretNames (configs : list SecretConfigWithOptions) : gset string :=
  list_to_set ((fun c => match sco_Config c with
                         | CertificateSecretConfig name _ _ _ _ | HMACSecretConfig name => name
                         end) <$> configs).

Definition generatedIn (w : world) (k : string * string) : gset string := default ∅ (w_generated w !! k).

(** A write that may fail halfway leaves one of the states [made]. *)
Definition outcomes {A} (made : world -> Prop) (failed : world -> Prop) (r : A + error) (w' : world) : Prop :=
  match r with
  | inl _ => made w'
  | inr _ => failed w'
  end.

(** A write to something that may be missing, which may be an error or not. *)
Definition on_existing {V} (found : option V) (w : world) (made : V -> world) (r : unit + error) (w' : world) : Prop :=
  match r with
  | inl _ => (exists v, found = Some v /\ w' = made v) \/ (w' = w /\ found = None)
  | inr e =>
      if IsNotFound e then w' = w /\ found = None
      else w' = w \/ exists v, found = Some v /\ w' = made v
  end.

Definition shipped (n name : string) (keep : bool) (data : gmap string string) (w : world) : world :=
  let old := w_resources w !! (n, name) in
  set_resource (n, name)
    (mkResource (contents data) keep (default false (deleting <$> old)) (default ∅ (applied <$> old))) w.

Definition marked (n name : string) (w : world) : world :=
  match w_resources w !! (n, name) with
  | Some m => set_resource (n, name) (m <| deleting := true |>) w
  | None => w
  end.

Definition documented_effect (w : world) (c : call) : ans c -> world -> Prop :=
  match c with
  | GetCluster name => fun r w' =>
      w' = w /\ match r with inl cluster => name = cl_Name (w_cluster w) -> cluster = w_cluster w | inr _ => True end
  | SecretsManagerForCluster cluster identity _ => fun r w' =>
      match r with
      | inl h => w_managers w !! h = None /\
          w' = w <| w_managers := <[h := (cl_Name cluster, identity, ∅)]> (w_managers w) |>
      | inr _ => w' = w
      end
  | GenerateAllSecrets h configs => fun r w' =>
      match w_managers w !! h with
      | Some (n, identity, made) =>
          exists new : gset string, new ⊆ secretNames configs /\
            (match r with inl _ => new = secretNames configs | inr _ => True end) /\
            w' = (w <| w_generated := <[(n, identity) := generatedIn w (n, identity) ∪ new]> (w_generated w) |>)
                   <| w_managers := <[h := (n, identity, made ∪ new)]> (w_managers w) |>
      | None => w' = w
      end
  | SMCleanup h => fun r w' =>
      match w_managers w !! h with
      | Some (n, identity, made) =>
          exists left : gset string, generatedIn w (n, identity) ∩ made ⊆ left /\ left ⊆ generatedIn w (n, identity) /\
            (match r with inl _ => left ⊆ made | inr _ => True end) /\
            w' = w <| w_generated := <[(n, identity) := left]> (w_generated w) |>
      | None => w' = w
      end
  | SerializedObjects resources => fun r w' =>
      w' = w /\ match r with inl data => contents data = resources | inr _ => True end
  | CreateForShoot n name _ keep data => fun r w' =>
      outcomes (fun w' => w' = shipped n name keep data w)
        (fun w' => w' = w \/ w' = shipped n name keep data w \/
           exists m, w_resources w !! (n, name) = Some m /\
             w' = set_resource (n, name) (m <| manifests := contents data |>) w) r w'
  | SetKeepObjects n name keep => fun r w' =>
      on_existing (w_resources w !! (n, name)) w
        (fun m => set_resource (n, name) (m <| keepObjects := keep |>) w) r w'
  | DeleteManagedResource n name _ => fun r w' =>
      outcomes (fun w' => w' = marked n name w) (fun w' => w' = w \/ w' = marked n name w) r w'
  | WaitUntilManagedResourceDeleted n name _ => fun r w' =>
      w' = w /\ match r with inl _ => w_resources w !! (n, name) = None | inr _ => True end
  | ListNetworkPolicies opts => fun r w' =>
      w' = w /\
      match r with
      | inl l => forall p, p ∈ l <->
          (exists k, w_policies w !! k = Some p) /\ label_selects opts (np_Namespace p) (np_Labels p) = true
      | inr _ => True
      end
  | DeleteNetworkPolicy n name => fun r w' =>
      on_existing (w_policies w !! mkKey n name) w
        (fun _ => w <| w_policies := delete (mkKey n name) (w_policies w) |>) r w'
  | CreateOrUpdateNetworkPolicy n name mutate => fun r w' =>
      w' = w \/ exists p, np_key p = mkKey n name /\
        w' = w <| w_policies := <[mkKey n name := p]> (w_policies w) |>
  | c => fun r w' => exists s, seed_documented (w_seed w) c r s /\ w' = w <| w_seed := s |>
  end.

Class WorldStep := world_step : world -> forall c, ans c -> world -> Prop.

(** Calls happen one at a time, and the environment acts before and after. *)
Class DocumentedWorld `{WorldStep} :=
  world_step_documented : forall w c r w', world_step w c r w' ->
    exists w1 w2, rtc env w w1 /\ documented_effect w1 c r w2 /\ rtc env w2 w'.

(** What a cluster in which pods are stopped together with their Deployment
    would do.  Kubernetes does not promise it. *)
Definition attended (w : world) : Prop := w_running w = true -> is_Some (deployments (w_seed w) !! key ns).

Class PromptTermination `{WorldStep} :=
  prompt : forall w c r w', world_step w c r w' -> attended w -> attended w'.

End world.
