(* ===== verification/ExtensionSpec.v ===== *)
(** * The life cycle of an Extension, abstractly

    What the actuator's operations amount to, as scripts of atomic actions on
    three things in the seed: the NetworkPolicy controller, the ManagedResource
    and the generated secrets.  An operation that succeeds performs its whole
    script; one that fails, a beginning of it.  Meanwhile
    gardener-resource-manager lets go a ManagedResource that is being deleted. *)

From S2P Require Import Prelude GoStd Errors Effects KubeObjects Constants Config External.
From S2P Require Import Interfaces.
From S2P Require Import Secrets Manifests Deployer NetpolLifecycle Actuator ExtensionWorld.

(** ** The abstract state *)

Record state := mkState {
  controller : status;
  shipping : option (gmap string string * bool * bool);  (** contents, whether kept, whether being deleted *)
  generated : gset string;
}.

#[export] Instance state_eta : Eta state := fun s => mkState (controller s) (shipping s) (generated s).

Inductive action :=
  | Stop | Sleep | Start
  | Generating (names : gset string) | Generated (names : gset string)
  | Cleaning (keep : gset string) | Cleaned (keep : gset string)
  | Fill (m : gmap string string) | Own (m : gmap string string)
  | Keep | Mark | Await.

(** [Generating] and [Cleaning] may get anywhere between nothing and all;
    [Generated], [Cleaned] and [Await] change nothing and say how far. *)
Definition act (x : action) (s s' : state) : Prop :=
  match x with
  | Stop => s' = s <| controller := Absent |>
  | Sleep => s' = s <| controller := spec OpScaleDown (controller s) |>
  | Start => s' = s <| controller := Running |>
  | Generating names => exists g, generated s ⊆ g /\ g ⊆ generated s ∪ names /\ s' = s <| generated := g |>
  | Generated names => names ⊆ generated s /\ s' = s
  | Cleaning keep => exists g, generated s ∩ keep ⊆ g /\ g ⊆ generated s /\ s' = s <| generated := g |>
  | Cleaned keep => generated s ⊆ keep /\ s' = s
  | Fill m => s' = s <| shipping := (fun '(_, k, d) => (m, k, d)) <$> shipping s |>
  | Own m => s' = s <| shipping := Some (m, false, match shipping s with Some (_, _, d) => d | None => false end) |>
  | Keep => s' = s <| shipping := (fun '(m, _, d) => (m, true, d)) <$> shipping s |>
  | Mark => s' = s <| shipping := (fun '(m, k, _) => (m, k, true)) <$> shipping s |>
  | Await => shipping s = None /\ s' = s
  end.

Inductive performs : list action -> state -> state -> Prop :=
  | performs_nil s : performs [] s s
  | performs_release s s' l m k :
      shipping s = Some (m, k, true) -> performs l (s <| shipping := None |>) s' -> performs l s s'
  | performs_act x l s s1 s' : act x s s1 -> performs l s1 s' -> performs (x :: l) s s'.

Lemma performs_app l1 l2 s s1 s' : performs l1 s s1 -> performs l2 s1 s' -> performs (l1 ++ l2) s s'.
Proof.
  intros H1 H2. induction H1 as [s|s s1 l m k Hs _ IH|x l s s0 s1 Ha _ IH]; [done| |].
  - eapply performs_release; [done|]. by apply IH.
  - simpl. eapply performs_act; [done|]. by apply IH.
Qed.

Lemma performs_one x s s' : act x s s' -> performs [x] s s'.
Proof. intros Ha. eapply performs_act; [done|]. constructor. Qed.

(** Where the script of a deletion ends, whatever went before. *)
Lemma performs_inv x l s s' :
  performs (x :: l) s s' ->
  exists s0 s1, performs [] s s0 /\ act x s0 s1 /\ performs l s1 s'.
Proof.
  intros Hp. remember (x :: l) as xl eqn:E. revert x l E.
  induction Hp as [s|s s1 xl m k Hs _ IH|y yl s s0 s1 Ha Hp IH]; intros x l E; [done| |].
  - destruct (IH _ _ E) as (s2&s3&H2&?&?). exists s2, s3. split; [by eapply performs_release|done].
  - injection E as -> ->. exists s, s0. split; [constructor|done].
Qed.

Lemma performs_nothing s s' : performs [] s s' -> shipping s = None -> s' = s.
Proof. intros Hp. remember [] as l eqn:E. destruct Hp; [done|congruence|done]. Qed.

(** ** Operations *)

Inductive verb := VReconcile | VRestore | VDelete | VForceDelete | VMigrate.

(** What an operation sets out to do. *)
Inductive plan :=
  | Drain                                                (** the shoot is being deleted *)
  | Hibernate
  | Install (m : gmap string string) (policies : bool)
  | Uninstall
  | Leave.

Definition script (p : plan) : list action :=
  let names := secretNames SecretConfigs in
  match p with
  | Drain => []
  | Hibernate => [Sleep]
  | Install m policies =>
      [Generating names; Generated names; Cleaning names; Cleaned names; Fill m; Own m;
       if policies then Start else Stop]
  | Uninstall => [Stop; Mark; Await; Cleaning ∅; Cleaned ∅]
  | Leave => [Stop; Keep; Mark; Await]
  end.

Section spec.
Context `{Libraries}.

(** The manifests a Reconcile may ship: built from the configuration that the
    Extension gives and from a complete TLS bundle. *)
Definition builds (a : Actuator) (ex : Extension) (sh : Shoot) (m : gmap string string) (policies : bool) : Prop :=
  exists cfg tls,
    egConfigOf a (sh_KubernetesVersion sh) (ex_ProviderConfig ex) = mret cfg /\
    bundleComplete tls = true /\ buildResources cfg (imageVector a) tls = Ok m /\
    policies = ManageDataPlaneNetworkPolicies cfg.

Definition plans (v : verb) (cluster : Cluster) (p : plan) : Prop :=
  match v, cl_Shoot cluster with
  | (VReconcile | VRestore), Some sh =>
      if shootDeleting (Some sh) then p = Drain
      else if HibernationIsEnabled sh then p = Hibernate
      else exists m policies, p = Install m policies
  | (VReconcile | VRestore), None => p = Drain
  | VDelete, _ => p = Uninstall
  | (VForceDelete | VMigrate), _ => p = Leave
  end.

(** The actions that an operation with the result [r] may have performed. *)
Definition allowed (a : Actuator) (v : verb) (ex : Extension) (cluster : Cluster) (r : outcome unit)
    (l : list action) : Prop :=
  exists p, plans v cluster p /\
    (forall m policies, p = Install m policies -> Fill m ∈ l ->
       exists sh, cl_Shoot cluster = Some sh /\ builds a ex sh m policies) /\
    match r with
    | Ok _ => l = script p
    | Err _ => l `prefix_of` script p
    | Panic _ => l = [] /\ cl_Shoot cluster = None
    end.

(** Nothing but a release happens by itself. *)
Lemma performs_idle s s' :
  performs [] s s' -> s' = s \/ exists m k, shipping s = Some (m, k, true) /\ s' = s <| shipping := None |>.
Proof.
  intros Hp. remember [] as l eqn:E. induction Hp as [s|s s' l m k Hs Hp IH|]; [by left| |done].
  right. exists m, k. split; [done|]. subst l. by apply performs_nothing in Hp.
Qed.

(** Where a deletion ends, whatever went before. *)
Lemma uninstalled s s' : performs (script Uninstall) s s' -> s' = mkState Absent None ∅.
Proof.
  intros Hp. unfold script in Hp.
  apply performs_inv in Hp as (s0&s1&H0&->&Hp). apply performs_inv in Hp as (s2&s3&H2&->&Hp).
  apply performs_inv in Hp as (s4&s5&H4&[Hnone ->]&Hp).
  assert (Hc : controller s4 = Absent).
  { destruct (performs_idle _ _ H2) as [->|(?&?&_&->)], (performs_idle _ _ H4) as [->|(?&?&_&->)]; done. }
  apply performs_inv in Hp as (s6&s7&H6&(g&_&_&->)&Hp). apply performs_nothing in H6 as ->; [|done].
  apply performs_inv in Hp as (s8&s9&H8&[Hg ->]&Hp). apply performs_nothing in H8 as ->; [|done].
  apply performs_nothing in Hp as ->; [|done]. unfold update in *; simpl in *.
  f_equal; [done|done|]. set_solver.
Qed.


(** A history: operations with the Cluster they met and their results. *)
Inductive history_spec (a : Actuator) (ex : Extension) : list (verb * Cluster * outcome unit) -> state -> state -> Prop :=
  | history_spec_nil s s' : performs [] s s' -> history_spec a ex [] s s'
  | history_spec_cons v cluster r l h s s1 s' :
      allowed a v ex cluster r l -> performs l s s1 -> history_spec a ex h s1 s' ->
      history_spec a ex ((v, cluster, r) :: h) s s'.
End spec.
