(* ===== verification/ExtensionActions.v ===== *)
(** * What the actuator's parts do to the life cycle

    The abstraction of the world of an Extension, and the actions that the
    deployer, the secrets-manager and the NetworkPolicy controller's deployer
    perform on it when any call may fail and everything else goes on. *)

From S2P Require Import Prelude GoStd Errors Effects KubeObjects Constants Config External.
From S2P Require Import Interfaces.
From S2P Require Import Secrets Manifests Deployer GatewayGuard OrphanSweep DataPlanePolicies.
From S2P Require Import DataplaneNetpol.
From S2P Require Import NetpolDeployer Actuator ActuatorSpecs ActuatorLemmas ActuatorProps.
From S2P Require Import NetpolLifecycle.
From S2P Require Import Scripts ExtensionWorld ExtensionSpec.

Section actions.
Context `{Libraries} `{Serialization}.
Variable ns : string.
Variable cluster : Cluster.  (** as it is during the operation *)

(** ** Abstraction *)

Definition view (w : world) : state :=
  mkState (NetpolLifecycle.abs (w_seed w) ns)
    ((fun m => (manifests m, keepObjects m, deleting m)) <$> w_resources w !! resourceKey ns)
    (generatedIn w (secretsKey ns)).

Record world_ok (w : world) : Prop := {
  ok_seed : seed_ok (w_seed w);
  ok_cluster : w_cluster w = cluster;
}.

(** Nothing of another Extension is touched. *)
Record isolated (w w' : world) : Prop := {
  isolated_seed : others_kept ns (w_seed w) (w_seed w');
  isolated_resources : forall k, k <> resourceKey ns -> w_resources w' !! k = w_resources w !! k;
  isolated_secrets : forall k, k <> secretsKey ns -> w_generated w' !! k = w_generated w !! k;
}.

#[local] Existing Instance others_kept_preorder.

#[local] Instance isolated_preorder : PreOrder isolated.
Proof.
  split; [by intros w|]. intros w1 w2 w3 [Hs1 Hr1 Hg1] [Hs2 Hr2 Hg2]. split.
  - by etrans.
  - intros k Hk. by rewrite Hr2, Hr1.
  - intros k Hk. by rewrite Hg2, Hg1.
Qed.

(** The actions [l] lead from [w] to [w']. *)
Definition leads (l : list action) (w w' : world) : Prop :=
  world_ok w ->
  world_ok w' /\ w_cluster w' = w_cluster w /\ isolated w w' /\ performs l (view w) (view w').

#[local] Instance leads_actions : Actions world_ok leads.
Proof.
  split.
  - intros w Hok. split_and!; try done. constructor.
  - intros l1 l2 w1 w2 w3 H1 H2 Hok. destruct (H1 Hok) as (Hok2&Hc2&Hi2&Hp2).
    destruct (H2 Hok2) as (Hok3&Hc3&Hi3&Hp3). split_and!; [done|congruence|by etrans|by eapply performs_app].
  - intros l w w' Hl Hok. apply (Hl Hok).
Qed.

Lemma leads_trans l1 l2 w1 w2 w3 : leads l1 w1 w2 -> leads l2 w2 w3 -> leads (l1 ++ l2) w1 w3.
Proof. apply actions_app. Qed.

(** *** What goes on besides *)

(** The ManagedResource is as it was, or let go. *)
Definition released (x y : option (gmap string string * bool * bool)) : Prop :=
  y = x \/ exists m k, x = Some (m, k, true) /\ y = None.

#[local] Instance released_preorder : PreOrder released.
Proof.
  split; [by left|]. intros x y z [->|(m&k&->&->)] [->|(m'&k'&Hy&->)]; unfold released; [by left|by right; eauto..|done].
Qed.

(** Whatever happens to the controller, nothing of the rest is done. *)
Record steady (w w' : world) : Prop := {
  steady_cluster : w_cluster w' = w_cluster w;
  steady_resources : forall k, k <> resourceKey ns -> w_resources w' !! k = w_resources w !! k;
  steady_secrets : forall k, w_generated w' !! k = w_generated w !! k;
  steady_shipping : released (shipping (view w)) (shipping (view w'));
}.

#[local] Instance steady_preorder : PreOrder steady.
Proof.
  split; [by intros w|]. intros w1 w2 w3 [Hc1 Hr1 Hg1 Hs1] [Hc2 Hr2 Hg2 Hs2].
  split; [congruence|intros k Hk; by rewrite Hr2, Hr1|intros k; by rewrite Hg2, Hg1|by etrans].
Qed.

Lemma steady_performs w w' :
  steady w w' -> performs [] (view w) ((view w') <| controller := controller (view w) |>).
Proof.
  intros [_ _ Hg Hs]. assert (Hgen : generated (view w') = generated (view w)) by (simpl; unfold generatedIn; by rewrite Hg).
  destruct (view w) as [c x g], (view w') as [c' x' g']. unfold update; simpl in *. subst g'.
  destruct Hs as [->|(m&k&->&->)]; [constructor|]. eapply performs_release; [done|constructor].
Qed.

(** A program that only does something to the controller. *)
Lemma steady_leads l w w' :
  steady w w' -> (seed_ok (w_seed w) -> seed_ok (w_seed w') /\ others_kept ns (w_seed w) (w_seed w')) ->
  (forall s, controller s = controller (view w) -> performs l s (s <| controller := controller (view w') |>)) ->
  leads l w w'.
Proof.
  intros Hst Hseed Hl [Hok Hname]. destruct (Hseed Hok) as [Hok' Ho]. split_and!.
  - split; [done|]. by rewrite (steady_cluster _ _ Hst).
  - apply Hst.
  - split; [done|apply Hst|]. intros k _. apply Hst.
  - apply (performs_app [] l _ ((view w') <| controller := controller (view w) |>)); [by apply steady_performs|].
    specialize (Hl ((view w') <| controller := controller (view w) |>)). unfold update in Hl. simpl in Hl.
    unfold update. simpl. by apply Hl.
Qed.

Definition silent (w w' : world) : Prop := w_seed w' = w_seed w /\ steady w w'.

#[local] Instance silent_preorder : PreOrder silent.
Proof. split; [by intros w|]. intros w1 w2 w3 [Hs1 Hst1] [Hs2 Hst2]. split; [congruence|by etrans]. Qed.

Lemma silent_leads w w' : silent w w' -> leads [] w w'.
Proof.
  intros [Hs Hst]. apply steady_leads; [done|by rewrite Hs|]. intros s Hc.
  assert (controller (view w') = controller s) as -> by (rewrite Hc; simpl; by rewrite Hs). destruct s. constructor.
Qed.

(** A change of what the view does not show. *)
Lemma silent_hidden w w' :
  w_seed w' = w_seed w -> w_resources w' = w_resources w -> w_generated w' = w_generated w ->
  w_cluster w' = w_cluster w -> silent w w'.
Proof.
  intros Hs Hr Hg Hc. split; [done|]. split; [done|intros; congruence..|]. simpl. rewrite Hr. by left.
Qed.

(** *** The ManagedResource *)

Lemma view_set_resource m w :
  view (set_resource (resourceKey ns) m w) = (view w) <| shipping := Some (manifests m, keepObjects m, deleting m) |>.
Proof. unfold view, set_resource, generatedIn. simpl. by rewrite lookup_insert_eq. Qed.

Lemma leads_set_resource l m w :
  performs l (view w) ((view w) <| shipping := Some (manifests m, keepObjects m, deleting m) |>) ->
  leads l w (set_resource (resourceKey ns) m w).
Proof.
  intros Hp [Hseed Hname]. split_and!; [done|done| |by rewrite view_set_resource].
  split; [done| |done]. intros k Hk. simpl. by rewrite lookup_insert_ne.
Qed.

Lemma view_shipping w m :
  w_resources w !! resourceKey ns = Some m -> shipping (view w) = Some (manifests m, keepObjects m, deleting m).
Proof. intros Hm. simpl. by rewrite Hm. Qed.

(** What gardener-resource-manager records while it works on the shoot. *)
Lemma silent_recorded w m m' objects :
  w_resources w !! resourceKey ns = Some m -> manifests m' = manifests m -> keepObjects m' = keepObjects m ->
  deleting m' = deleting m -> silent w (set_resource (resourceKey ns) m' (w <| w_objects := objects |>)).
Proof.
  intros Hm Hc Hk Hd. split; [done|]. split; [done| |done|].
  - intros k Hne. simpl. by rewrite lookup_insert_ne.
  - simpl. rewrite lookup_insert_eq, Hm. simpl. rewrite Hc, Hk, Hd. by left.
Qed.

(** *** The environment *)

Lemma env_silent w w' : env ns w w' -> silent w w'.
Proof.
  intros Henv. destruct Henv.
  - by apply (silent_recorded w m).
  - by apply (silent_recorded w m).
  - split; [done|]. split; [done| |done|].
    + intros k Hk. simpl. by rewrite lookup_delete_ne.
    + right. exists (manifests m), (keepObjects m). rewrite (view_shipping _ m) by done. simpl.
      split; [congruence|by rewrite lookup_delete_eq].
  - by apply silent_hidden.
  - by apply silent_hidden.
  - by apply silent_hidden.
  - by apply silent_hidden.
Qed.

Lemma envs_silent w w' : rtc (env ns) w w' -> silent w w'.
Proof. induction 1 as [w|w1 w2 w3 He _ IH]; [done|]. etrans; [by apply env_silent|done]. Qed.

Context `{WorldStep} `{!DocumentedWorld ns}.

(** A call leads where its effect leads. *)
Lemma step_leads l w c r w' :
  world_step w c r w' -> (forall w1 w2, documented_effect w1 c r w2 -> leads l w1 w2) -> leads l w w'.
Proof using Type*.
  intros Hs Hl. apply (world_step_documented ns) in Hs as (w1&w2&Hbefore&Heff&Hafter).
  eapply (leads_trans []); [by apply silent_leads, envs_silent|]. rewrite <- (app_nil_r l).
  eapply leads_trans; [by apply Hl|by apply silent_leads, envs_silent].
Qed.

(** ** Quiet calls *)

(** Calls that leave the view alone. *)
Definition quiet (c : call) : bool :=
  match c with
  | GenerateAllSecrets _ _ | SMCleanup _ | CreateForShoot _ _ _ _ _ | SetKeepObjects _ _ _
  | DeleteManagedResource _ _ _ | ReconcileShootAccessSecret _ _ _ | SeedCreateOrUpdateDeployment _ _ _
  | SeedPatchDeployment _ _ | SeedDelete _ _ _ => false
  | _ => true
  end.

Lemma quiet_effect w c r w' : quiet c = true -> documented_effect w c r w' -> silent w w'.
Proof.
  intros Hq He.
  assert (Hsame : forall w', w' = w -> silent w w') by (by intros ? ->).
  assert (Hseed : forall s, s = w_seed w -> w' = w <| w_seed := s |> -> silent w w').
  { intros s -> ->. by apply silent_hidden. }
  destruct c; try discriminate Hq; cbn in He; unfold on_existing in He; deex; try by eauto.
  - destruct r as [h|e]; [|by apply Hsame]. deex. subst. by apply silent_hidden.
  - destruct r as [|e]; [|destruct (IsNotFound e)]; [destruct He as [(?&?&->)|[-> _]]|destruct He as [-> _]|destruct He as [->|(?&?&->)]];
      try (by apply Hsame); by apply silent_hidden.
  - destruct He as [->|(?&?&->)]; [by apply Hsame|by apply silent_hidden].
Qed.

Definition quiet_event (e : event ans) : Prop := quiet (ecall e) = true.

Lemma quiet_step w c r w' : quiet_event (ev c r) -> world_step w c r w' -> leads [] w w'.
Proof using Type*. intros Hq Hs. eapply step_leads; [done|]. intros w1 w2 He. by eapply silent_leads, quiet_effect. Qed.

Lemma quietly {A} (m : IO A) : emits quiet_event m -> no_panic m -> scripted world_step world_ok leads m (performing []).
Proof using Type*. apply stage_calls; [apply _|apply quiet_step]. Qed.

(** ** The NetworkPolicy controller *)

(** The seed sees an execution against the whole world as one of its own. *)
#[local] Instance seed_of_world : SeedStep := seed_documented.
#[local] Instance seed_of_world_documented : DocumentedSeed.
Proof. by intros s c r s'. Qed.

Lemma effect_seed w c r w' : documented_effect w c r w' -> seed_documented (w_seed w) c r (w_seed w').
Proof.
  intros He. destruct c; try (destruct He as (s&Hs&->); exact Hs);
    cbn in He; unfold outcomes, on_existing, shipped, marked in He;
    repeat first [progress deex | case_hyp | progress subst | progress destruct_or? He]; done.
Qed.

Lemma seed_execution {A} (p : io A) w a w' :
  runs_in world_step p w a w' -> runs_in seed_step p (w_seed w) a (w_seed w').
Proof using Type*.
  revert w. induction p as [b|c k IH]; intros w Hr; simpl in *.
  - by destruct Hr as [-> ->].
  - destruct Hr as (r&w1&Hs&Hr). exists r, (w_seed w1). split; [|by apply IH].
    apply (world_step_documented ns) in Hs as (w2&w3&Hbefore&Heff&Hafter).
    apply envs_silent in Hbefore as [<- _]. apply envs_silent in Hafter as [-> _]. by apply effect_seed.
Qed.

(** Calls of the NetworkPolicy controller's deployer. *)
Definition controller_call (c : call) : bool :=
  match c with
  | ReconcileShootAccessSecret _ _ _ | InjectGenericKubeconfig _ _ _ | SeedCreateOrUpdateDeployment _ _ _
  | SeedGetDeployment _ _ | SeedPatchDeployment _ _ | SeedDelete _ _ _ => true
  | _ => false
  end.

Lemma controller_step w c r w' : controller_call c = true -> world_step w c r w' -> steady w w'.
Proof using Type*.
  intros Hc Hs. apply (world_step_documented ns) in Hs as (w1&w2&Hbefore&Heff&Hafter).
  apply envs_silent in Hbefore as [_ Hbefore]. apply envs_silent in Hafter as [_ Hafter].
  trans w1; [done|]. trans w2; [|done]. assert (exists s, w2 = w1 <| w_seed := s |>) as [s ->].
  { destruct c; try discriminate Hc; cbn in Heff; deex; by eexists. }
  split; [done..|by left].
Qed.

Definition action_of (o : op) : action :=
  match o with OpEnsure _ => Start | OpTeardown => Stop | OpScaleDown => Sleep end.

Lemma run_op_calls iv o : emits (fun e => controller_call (ecall e) = true) (run_op iv o ns).
Proof.
  destruct o; simpl; unfold netpolControllerDeployer.Ensure, netpolControllerDeployer.Teardown,
    netpolControllerDeployer.ScaleDown; emits_auto; done.
Qed.

Lemma controller_implements iv o w r w' :
  seed_ok (w_seed w) -> runs_in world_step (run_op iv o ns) w r w' -> implements o ns (w_seed w) r (w_seed w').
Proof using Type*. intros Hok Hr. by apply (run_op_implements iv), seed_execution. Qed.

#[local] Instance status_eq_dec : EqDecision status.
Proof. solve_decision. Defined.

Lemma act_controller o s st :
  controller s = st -> act (action_of o) s (s <| controller := spec o st |>).
Proof. intros <-. destruct o; simpl; done. Qed.

Lemma controller_performs iv o : scripted world_step world_ok leads (run_op iv o ns) (performing [action_of o]).
Proof using Type*.
  intros w r w' _ Hr. assert (Hst : steady w w').
  { eapply (preserves_calls world_step); [apply _| |apply run_op_calls|exact Hr]. intros ????. apply controller_step. }
  assert (Him : seed_ok (w_seed w) -> implements o ns (w_seed w) r (w_seed w')).
  { intros Hok. by eapply controller_implements. }
  assert (Hlead : forall l,
    (seed_ok (w_seed w) -> forall s, controller s = controller (view w) -> performs l s (s <| controller := controller (view w') |>)) ->
    leads l w w').
  { intros l Hl [Hok Hname]. apply (steady_leads l w w' Hst); [|by apply Hl|done].
    intros _. by destruct (Him Hok) as (Hok'&Ho&_). }
  destruct r as [[]|e|p].
  - exists [action_of o]. split; [done|]. apply Hlead. intros Hok s Hs. destruct (Him Hok) as (_&_&Habs&_).
    apply performs_one. simpl. rewrite Habs. by apply act_controller.
  - destruct (decide (controller (view w') = controller (view w))) as [Heq|Hne].
    + exists []. split; [apply prefix_nil|]. apply Hlead. intros _ s Hs. rewrite Heq, <- Hs. destruct s. constructor.
    + exists [action_of o]. split; [apply (reflexivity (R := prefix))|]. apply Hlead. intros Hok s Hs. destruct (Him Hok) as (_&_&Habs).
      apply performs_one. simpl in *. destruct Habs as [Habs|Habs]; [done|]. rewrite Habs. by apply act_controller.
  - exfalso. destruct (runs_in_runs _ _ _ _ _ Hr) as [t Ht]. revert Ht.
    destruct o; simpl; apply (NewNetpolControllerDeployer_spec iv).
Qed.

(** ** The ManagedResource *)

(** A call, by its effect. *)
Lemma scripted_effect c {A} (k : ans c -> prog ans A) L :
  (forall w r w', world_ok w -> documented_effect w c r w' ->
     exists l, leads l w w' /\ scripted world_step world_ok leads (k r) (fun a l' => L a (l ++ l'))) ->
  scripted world_step world_ok leads (Call c k) L.
Proof using Type*.
  intros He w a w' Hok (r&w3&Hs&Hr). apply (world_step_documented ns) in Hs as (w1&w2&Hbefore&Heff&Hafter).
  apply envs_silent, silent_leads in Hbefore. apply envs_silent, silent_leads in Hafter.
  destruct (He w1 r w2) as (l&Hl&Hk); [by apply Hbefore|done|].
  assert (Hl3 : leads l w w3).
  { apply (leads_trans [] l _ _ _ Hbefore). rewrite <- (app_nil_r l). by eapply leads_trans. }
  destruct (Hk _ _ _ (actions_inv _ _ _ Hl3 Hok) Hr) as (l'&HL&Hl').
  exists (l ++ l'). split; [done|]. by eapply leads_trans.
Qed.

(** A request, by its effect. *)
Lemma request_performs c {A} (res : ans c -> A + error) l :
  (forall w r w', documented_effect w c r w' ->
     match res r with inl _ => leads l w w' | inr _ => exists l', l' `prefix_of` l /\ leads l' w w' end) ->
  scripted world_step world_ok leads (Call c (fun r => Ret (of_result (res r)))) (performing l).
Proof using Type*.
  intros He. apply scripted_effect. intros w r w' _ Heff. specialize (He _ _ _ Heff). destruct (res r) as [a|e].
  - exists l. split; [done|]. apply scripted_Ret; [apply _|]. simpl. by rewrite app_nil_r.
  - destruct He as (l'&Hp&Hl). exists l'. split; [done|]. apply scripted_Ret; [apply _|]. simpl. by rewrite app_nil_r.
Qed.

(** ... and one whose NotFound counts as success. *)
Lemma ignoring_performs c (res : ans c -> unit + error) l :
  (forall w r w', documented_effect w c r w' ->
     match res r with
     | inl _ => leads l w w'
     | inr e => if IsNotFound e then leads l w w' else exists l', l' `prefix_of` l /\ leads l' w w'
     end) ->
  scripted world_step world_ok leads (ignoreNotFound (Call c (fun r => Ret (of_result (res r))))) (performing l).
Proof using Type*.
  intros He. apply scripted_effect. intros w r w' _ Heff. specialize (He _ _ _ Heff). destruct (res r) as [[]|e]; simpl.
  - exists l. split; [done|]. apply scripted_Ret; [apply _|]. simpl. by rewrite app_nil_r.
  - destruct (IsNotFound e).
    + exists l. split; [done|]. apply scripted_Ret; [apply _|]. simpl. by rewrite app_nil_r.
    + destruct He as (l'&Hp&Hl). exists l'. split; [done|]. apply scripted_Ret; [apply _|]. simpl. by rewrite app_nil_r.
Qed.

Lemma leads_nothing w w' : w' = w -> leads [] w w'.
Proof. intros ->. apply actions_nil. Qed.

Lemma leads_one x m w :
  act x (view w) ((view w) <| shipping := Some (manifests m, keepObjects m, deleting m) |>) ->
  leads [x] w (set_resource (resourceKey ns) m w).
Proof. intros Ha. by apply leads_set_resource, performs_one. Qed.

(** An action on a ManagedResource that does not exist. *)
Lemma leads_missing x w :
  (forall s, shipping s = None -> act x s s) -> w_resources w !! resourceKey ns = None -> leads [x] w w.
Proof.
  intros Ha Hm Hok. split_and!; try done. apply performs_one, Ha. simpl. by rewrite Hm.
Qed.

Definition shipForShoot (data : gmap string string) : call :=
  CreateForShoot ns ManagedResourceName ManagedResourceName false data.

Lemma shipped_performs keep data w :
  let s := view w in
  shipping (view (shipped ns ManagedResourceName keep data w)) =
    Some (contents data, keep, match shipping s with Some (_, _, d) => d | None => false end).
Proof.
  simpl. change (ns, ManagedResourceName) with (resourceKey ns). rewrite lookup_insert_eq.
  by destruct (w_resources w !! resourceKey ns).
Qed.

Lemma ship_performs data :
  scripted world_step world_ok leads (request (shipForShoot data)) (performing [Fill (contents data); Own (contents data)]).
Proof using Type*.
  apply (request_performs (shipForShoot data) (fun r => r)). intros w r w' He. cbn in He. unfold outcomes in He.
  assert (Hfull : leads [Fill (contents data); Own (contents data)] w (shipped ns ManagedResourceName false data w)).
  { unfold shipped. change (ns, ManagedResourceName) with (resourceKey ns). apply leads_set_resource.
    eapply performs_act; [done|]. apply performs_one. simpl.
    by destruct (w_resources w !! resourceKey ns). }
  destruct r as [[]|e]; [by subst|]. destruct He as [->|[->|(m&Hm&->)]].
  - exists []. split; [apply prefix_nil|apply actions_nil].
  - by eexists; split; [|exact Hfull].
  - exists [Fill (contents data)]. split; [by eexists|]. change (ns, ManagedResourceName) with (resourceKey ns) in *.
    apply leads_one. cbn [act]. by rewrite (view_shipping _ _ Hm).
Qed.

(** A call on a ManagedResource that may be missing. *)
Lemma keep_performs :
  scripted world_step world_ok leads
    (ignoreNotFound (request (SetKeepObjects ns ManagedResourceName true))) (performing [Keep]).
Proof using Type*.
  apply (ignoring_performs (SetKeepObjects ns ManagedResourceName true) (fun r => r)). intros w r w' He.
  cbn in He. unfold on_existing in He. change (ns, ManagedResourceName) with (resourceKey ns) in He.
  assert (Hkeep : forall m, w_resources w !! resourceKey ns = Some m ->
    leads [Keep] w (set_resource (resourceKey ns) (m <| keepObjects := true |>) w)).
  { intros m Hm. apply leads_one. cbn [act]. by rewrite (view_shipping _ _ Hm). }
  assert (Hmissing : w_resources w !! resourceKey ns = None -> leads [Keep] w w).
  { apply leads_missing. by intros [c x g]; simpl; intros ->. }
  destruct r as [[]|e]; [by destruct He as [(m&Hm&->)|[-> Hnone]]; [apply Hkeep|apply Hmissing]|]. destruct (IsNotFound e).
  - destruct He as [-> Hnone]. by apply Hmissing.
  - destruct He as [->|(m&Hm&->)]; [exists []; split; [apply prefix_nil|apply actions_nil]|].
    exists [Keep]. split; [done|]. by apply Hkeep.
Qed.

Lemma mark_performs :
  scripted world_step world_ok leads (request (DeleteManagedResource ns ManagedResourceName true)) (performing [Mark]).
Proof using Type*.
  apply (request_performs (DeleteManagedResource ns ManagedResourceName true) (fun r => r)). intros w r w' He.
  cbn in He. unfold outcomes, marked in He. change (ns, ManagedResourceName) with (resourceKey ns) in He.
  assert (Hmark : leads [Mark] w (match w_resources w !! resourceKey ns with
      | Some m => set_resource (resourceKey ns) (m <| deleting := true |>) w | None => w end)).
  { destruct (w_resources w !! resourceKey ns) as [m|] eqn:E.
    - apply leads_one. cbn [act]. by rewrite (view_shipping _ _ E).
    - apply leads_missing; [|done]. by intros [c x g]; simpl; intros ->. }
  destruct r as [[]|e]; [by subst|]. destruct He as [->| ->].
  - exists []. split; [apply prefix_nil|apply actions_nil].
  - by exists [Mark].
Qed.

Lemma await_performs timeout :
  scripted world_step world_ok leads (request (WaitUntilManagedResourceDeleted ns ManagedResourceName timeout)) (performing [Await]).
Proof using Type*.
  apply (request_performs (WaitUntilManagedResourceDeleted ns ManagedResourceName timeout) (fun r => r)).
  intros w r w' He. cbn in He. destruct He as [-> He]. destruct r as [[]|e].
  - by apply leads_missing.
  - exists []. split; [apply prefix_nil|apply actions_nil].
Qed.

Lemma deleteManagedResource_performs :
  scripted world_step world_ok leads (deleteManagedResource ns) (performing [Mark; Await]).
Proof using Type*.
  apply (performing_bind _ _ _ [Mark] [Await]); [apply performing_wrapf; [apply _|apply mark_performs]|].
  intros []. apply performing_wrapf; [apply _|apply await_performs].
Qed.

(** ** The generated secrets *)

Lemma envs_managers w w' : rtc (env ns) w w' -> w_managers w' = w_managers w.
Proof. induction 1 as [w|w1 w2 w3 He _ IH]; [done|]. rewrite IH. by destruct He. Qed.

(** A secrets-manager for this Extension, and what it has made. *)
Definition manager (w : world) (h : nat) (made : gset string) : Prop :=
  w_managers w !! h = Some (ns, ExtensionType, made).

Lemma leads_generated l g w managers :
  performs l (view w) ((view w) <| generated := g |>) ->
  leads l w ((w <| w_generated := <[secretsKey ns := g]> (w_generated w) |>) <| w_managers := managers |>).
Proof.
  intros Hp [Hseed Hname]. split_and!; [done|done| |].
  - split; [done|done|]. intros k Hk. simpl. by rewrite lookup_insert_ne.
  - match goal with |- performs _ _ ?v => assert (v = (view w) <| generated := g |>) as ->; [|done] end.
    unfold view, generatedIn, update. simpl. by rewrite lookup_insert_eq.
Qed.

Lemma construct_step w cl configs r w' :
  cl_Name cl = ns -> world_step w (SecretsManagerForCluster cl ExtensionType configs) r w' ->
  leads [] w w' /\ forall h, r = inl h -> manager w' h ∅.
Proof using Type*.
  intros Hname Hs. split; [by refine (quiet_step w _ r w' _ Hs)|]. intros h ->.
  apply (world_step_documented ns) in Hs as (w1&w2&_&[_ Heff]&Hafter).
  unfold manager. rewrite (envs_managers _ _ Hafter), Heff, Hname. simpl. by rewrite lookup_insert_eq.
Qed.

Lemma generate_step w h made r w' :
  manager w h made -> world_step w (GenerateAllSecrets h SecretConfigs) r w' ->
  let names := secretNames SecretConfigs in
  match r with
  | inl _ => leads [Generating names; Generated names] w w' /\ manager w' h (made ∪ names)
  | inr _ => leads [Generating names] w w'
  end.
Proof using Type*.
  intros Hm Hs names. apply (world_step_documented ns) in Hs as (w1&w2&Hbefore&Heff&Hafter).
  assert (Hm1 : manager w1 h made) by (unfold manager; by rewrite (envs_managers _ _ Hbefore)).
  cbn in Heff. rewrite Hm1 in Heff. destruct Heff as (new&Hnew&Hall&->).
  apply envs_silent, silent_leads in Hbefore.
  pose proof (envs_managers _ _ Hafter) as Hm2. apply envs_silent, silent_leads in Hafter.
  assert (Hround : forall l, performs l (view w1) ((view w1) <| generated := generated (view w1) ∪ new |>) -> leads l w w').
  { intros l Hl. apply (leads_trans [] l _ _ _ Hbefore). rewrite <- (app_nil_r l). eapply leads_trans; [|exact Hafter].
    by apply leads_generated. }
  assert (Hact : act (Generating names) (view w1) ((view w1) <| generated := generated (view w1) ∪ new |>)).
  { exists (generated (view w1) ∪ new). split; [apply union_subseteq_l|]. split; [by apply union_mono_l|done]. }
  destruct r as [data|e]; [split|].
  - apply Hround. eapply performs_act; [exact Hact|]. apply performs_one. subst new. split; [apply union_subseteq_r|done].
  - unfold manager. rewrite Hm2. simpl. rewrite lookup_insert_eq. by rewrite Hall.
  - apply Hround. by apply performs_one.
Qed.

Lemma cleanup_step w h made r w' :
  manager w h made -> world_step w (SMCleanup h) r w' ->
  match r with
  | inl _ => leads [Cleaning made; Cleaned made] w w'
  | inr _ => leads [Cleaning made] w w'
  end.
Proof using Type*.
  intros Hm Hs. apply (world_step_documented ns) in Hs as (w1&w2&Hbefore&Heff&Hafter).
  assert (Hm1 : manager w1 h made) by (unfold manager; by rewrite (envs_managers _ _ Hbefore)).
  cbn in Heff. rewrite Hm1 in Heff. destruct Heff as (left&Hin&Hout&Hall&->).
  apply envs_silent, silent_leads in Hbefore. apply envs_silent, silent_leads in Hafter.
  assert (Hround : forall l, performs l (view w1) ((view w1) <| generated := left |>) -> leads l w w').
  { intros l Hl. apply (leads_trans [] l _ _ _ Hbefore). rewrite <- (app_nil_r l). eapply leads_trans; [|exact Hafter].
    by apply (leads_generated l left w1 (w_managers w1)). }
  assert (Hact : act (Cleaning made) (view w1) ((view w1) <| generated := left |>)) by by exists left.
  destruct r as [[]|e]; apply Hround; [|by apply performs_one].
  eapply performs_act; [exact Hact|]. by apply performs_one.
Qed.

Definition generation : list action :=
  let names := secretNames SecretConfigs in
  [Generating names; Generated names; Cleaning names; Cleaned names].

(** What the checks between generation and cleanup make of the secrets. *)
Lemma reconcileSecrets_inv cl w r w' :
  runs_in world_step (reconcileSecrets cl ns) w r w' ->
  exists x w1, world_step w (SecretsManagerForCluster cl ExtensionType SecretConfigs) x w1 /\
    match x with
    | inr _ => w' = w1 /\ exists e, r = Err e
    | inl h => exists y w2, world_step w1 (GenerateAllSecrets h SecretConfigs) y w2 /\
        ((w' = w2 /\ exists e, r = Err e) \/
         exists data z, y = inl data /\ world_step w2 (SMCleanup h) z w' /\
           match z with inl _ => exists bundle, r = Ok bundle | inr _ => exists e, r = Err e end)
    end.
Proof using Type.
  unfold reconcileSecrets. intros Hr. apply runs_in_request in Hr as (x&w1&Hs&Hr). exists x, w1. split; [done|].
  destruct x as [h|e]; [|by destruct Hr as [-> ->]; eauto].
  apply runs_in_request in Hr as (y&w2&Hg&Hr). exists y, w2. split; [done|].
  destruct y as [data|e]; [|by destruct Hr as [-> ->]; eauto].
  repeat case_hyp; try (destruct Hr as [-> ->]; by eauto).
  apply runs_in_request in Hr as (z&w3&Hc&Hr). right. exists data, z.
  destruct z as [[]|e]; destruct Hr as [-> ->]; eauto.
Qed.

Lemma reconcileSecrets_performs cl :
  cl_Name cl = ns -> scripted world_step world_ok leads (reconcileSecrets cl ns) (performing generation).
Proof using Type*.
  intros Hname w r w' _ Hr. apply reconcileSecrets_inv in Hr as (x&w1&Hs&Hr).
  apply construct_step in Hs as [Hl1 Hm]; [|done]. destruct x as [h|e].
  2: { destruct Hr as [-> [e' ->]]. exists []. split; [apply prefix_nil|done]. }
  specialize (Hm h eq_refl). destruct Hr as (y&w2&Hg&Hr). apply (generate_step _ _ ∅) in Hg; [|done].
  destruct Hr as [(->&e&->)|(data&z&->&Hc&Hr)].
  - destruct y as [data|e']; [destruct Hg as [Hg _]|]; (eexists; split; [|by eapply (leads_trans [])]).
    + by eexists.
    + by eexists.
  - destruct Hg as [Hg Hm2]. rewrite union_empty_l_L in Hm2. apply (cleanup_step _ _ (secretNames SecretConfigs)) in Hc; [|done].
    pose proof (leads_trans [] _ _ _ _ Hl1 Hg) as Hl2.
    destruct z as [[]|e]; deex; subst r; (eexists; split; [|by eapply leads_trans]); [done|by eexists].
Qed.

Lemma deleteSecrets_performs cl :
  cl_Name cl = ns -> scripted world_step world_ok leads (deleteSecrets cl) (performing [Cleaning ∅; Cleaned ∅]).
Proof using Type*.
  intros Hname w r w' _ Hr. apply runs_in_request in Hr as (x&w1&Hs&Hr).
  apply construct_step in Hs as [Hl1 Hm]; [|done]. destruct x as [h|e].
  2: { destruct Hr as [-> ->]. exists []. split; [apply prefix_nil|done]. }
  destruct Hr as (z&w2&Hc&[-> ->]). apply (cleanup_step _ _ ∅) in Hc; [|by apply Hm].
  destruct z as [[]|e]; (eexists; split; [|by eapply (leads_trans [])]); [done|by eexists].
Qed.
End actions.
