(* ===== verification/ExtensionLifecycle.v ===== *)
(** * The actuator implements the life cycle

    Every operation of the actuator, against a world in which any call may fail
    and everything else goes on, performs the script of its plan. *)

From S2P Require Import Prelude GoStd Errors Effects KubeObjects Constants Config External.
From S2P Require Import Interfaces.
From S2P Require Import Secrets Manifests Deployer GatewayGuard OrphanSweep DataPlanePolicies.
From S2P Require Import DataplaneNetpol.
From S2P Require Import NetpolDeployer Actuator ActuatorSpecs ActuatorLemmas ActuatorProps.
From S2P Require Import NetpolLifecycle.
From S2P Require Import Scripts ExtensionWorld ExtensionSpec ExtensionActions.

Section lifecycle.
Context `{Libraries} `{Serialization}.
Context (ns : string) (cluster : Cluster) `{WorldStep} `{!DocumentedWorld ns}.

#[local] Abbreviation world_ok := (world_ok cluster).
#[local] Abbreviation leads := (leads ns cluster).
#[local] Existing Instance leads_actions.

(** ** The operations *)

Variables (c : Client) (iv : ImageVector) (ex : Extension).
Hypothesis Hns : ex_Namespace ex = ns.
Hypothesis Hcluster : cl_Name cluster = ns.

Definition theActuator : Actuator := productionActuator c iv.

#[local] Instance theActuator_spec : ActuatorSpec theActuator := productionActuator_spec c iv.

Definition run_verb (v : verb) : IO unit :=
  match v with
  | VReconcile => Reconcile theActuator ex
  | VRestore => RestoreOp theActuator ex
  | VDelete => Delete theActuator ex
  | VForceDelete => ForceDelete theActuator ex
  | VMigrate => Migrate theActuator ex
  end.

Lemma recorded_scripted op body L :
  scripted world_step world_ok leads body L -> scripted world_step world_ok leads (recorded ns op body) L.
Proof using Type*.
  intros Hb. eapply (scripted_pbind _ _ _ _ _ (fun r l => l = [] /\ exists start, r = Ok start)).
  { eapply scripted_mono; [|eapply scripted_returns; [apply (scripted_calls world_step world_ok leads quiet_event); [exact (quiet_step ns cluster)|]|]].
    - intros r l [-> Hr]. split; [done|exact Hr].
    - emits_auto. done.
    - intros t r (x&t'&->&[-> ->]). by exists x. }
  intros ? l1 [-> [start ->]]. eapply scripted_pbind; [apply _|exact Hb|]. intros r l Hl.
  eapply (scripted_pbind _ _ _ _ _ (fun _ l' => l' = [])).
  { apply (scripted_calls world_step world_ok leads quiet_event); [exact (quiet_step ns cluster)|]. unfold recordOperation. emits_auto; done. }
  intros [] ? ->. apply scripted_Ret; [apply _|]. by rewrite app_nil_r.
Qed.

Lemma leaving_performs op pre1 pre2 :
  scripted world_step world_ok leads
    (recorded ns op (wrapf pre1 (Interfaces.Teardown (netpolControllerDeployer.NewNetpolControllerDeployer iv) ns) ;;
       wrapf pre2 (DeleteKeepingObjects ns)))
    (performing (script Leave)).
Proof using Type*.
  apply recorded_scripted. apply (performing_bind _ _ _ [Stop] [Keep; Mark; Await]).
  { apply performing_wrapf; [apply _|]. apply (controller_performs ns cluster iv OpTeardown). }
  intros []. apply performing_wrapf; [apply _|]. apply (performing_bind _ _ _ [Keep] [Mark; Await]).
  { apply performing_wrapf; [apply _|apply (keep_performs ns cluster)]. }
  intros []. apply (deleteManagedResource_performs ns cluster).
Qed.

Lemma use_scripted {A B} (o : option A) x (f : A -> IO B) L :
  o = Some x -> scripted world_step world_ok leads (f x) L -> scripted world_step world_ok leads (nonNil o ≫= f) L.
Proof. by intros ->. Qed.

Lemma get_cluster {A} pre (k : Cluster -> IO A) L :
  (forall e, L (Err e) []) -> scripted world_step world_ok leads (k cluster) L ->
  scripted world_step world_ok leads (wrapf pre (request (GetCluster ns)) ≫= k) L.
Proof using Type*.
  intros Herr Hk. apply (scripted_effect ns cluster). intros w r w' Hok [-> Hr]. exists []. split; [apply (actions_nil (I := world_ok))|].
  destruct r as [cl|e]; [|by apply scripted_Ret; [apply _|]].
  rewrite (Hr ltac:(by rewrite (ok_cluster cluster _ Hok))), (ok_cluster cluster _ Hok). exact Hk.
Qed.

Lemma allowed_performing v p r l :
  plans v cluster p -> (forall m policies, p <> Install m policies) -> performing (script p) r l ->
  allowed theActuator v ex cluster r l.
Proof.
  intros Hp Hne Hl. exists p. split; [done|]. split; [intros m policies ->; by destruct (Hne m policies)|].
  by destruct r.
Qed.

Lemma drain_quiet : scripted world_step world_ok leads (drainUserGatewaysForShootDeletion theActuator ns) (performing []).
Proof using Type*.
  apply (quietly ns cluster); [|apply (drain_no_panic theActuator)].
  eapply emits_impl; [|apply (drain_emits theActuator)]. intros [call r] He. unfold drain_events, quiet_event, mutating in *. simpl in *.
  destruct call; try done; exfalso; destruct (He eq_refl) as [(?&?&?)|(?&?)]; done.
Qed.

Lemma check_quiet shoot : scripted world_step world_ok leads (checkNoUserGateways theActuator shoot ns) (performing []).
Proof using Type*.
  unfold checkNoUserGateways. destruct (shootDeleting shoot); [apply drain_quiet|].
  apply (quietly ns cluster).
  - apply emits_use, emits_bind; [apply emits_wrapf; eapply emits_impl; [|apply list_reads]|].
    + intros [call r]. unfold read_only, mutating, quiet_event. simpl. destruct call; simpl; try done; intros He; by destruct He.
    + intros [|n names]; emits_auto; done.
  - apply no_panic_use. no_panic_auto. apply list_no_panic.
Qed.

Lemma prune_quiet : scripted world_step world_ok leads (dataPlaneNetworkPolicyReconciler.Reconcile ns) (performing []).
Proof using Type*.
  apply (quietly ns cluster); [|apply NewDataPlaneNetworkPolicyReconciler_spec].
  unfold dataPlaneNetworkPolicyReconciler.Reconcile, orphanDataPlaneSweeper.kubernetesScheme,
    dataPlaneNetworkPolicyReconciler.prunePolicy. emits_auto; done.
Qed.

Lemma Delete_scripted : scripted world_step world_ok leads (Delete theActuator ex) (allowed theActuator VDelete ex cluster).
Proof using Type*.
  eapply scripted_mono; [intros r l; by apply (allowed_performing VDelete Uninstall)|].
  unfold Delete. rewrite Hns. apply recorded_scripted. unfold DeleteBody. rewrite Hns.
  apply get_cluster; [intros e; apply prefix_nil|].
  apply (performing_bind _ _ _ [] (script Uninstall)); [apply check_quiet|]. intros [].
  apply (use_scripted _ _ _ _ eq_refl).
  apply (performing_bind _ _ _ [Stop] [Mark; Await; Cleaning ∅; Cleaned ∅]).
  { apply performing_wrapf; [apply _|]. apply (controller_performs ns cluster iv OpTeardown). }
  intros []. apply (performing_bind _ _ _ [] [Mark; Await; Cleaning ∅; Cleaned ∅]).
  { destruct (shootAlive (cl_Shoot cluster)).
    { apply (use_scripted _ _ _ _ eq_refl). apply performing_wrapf; [apply _|apply prune_quiet]. }
    apply performing_mret. apply _. }
  intros []. apply (performing_bind _ _ _ [Mark; Await] [Cleaning ∅; Cleaned ∅]).
  { apply performing_wrapf; [apply _|apply (deleteManagedResource_performs ns cluster)]. }
  intros []. apply performing_wrapf; [apply _|by apply (deleteSecrets_performs ns cluster)].
Qed.

Lemma egConfigOf_pure version raw :
  exists o, egConfigOf theActuator version raw = Ret o /\ not_panic o.
Proof using Type.
  unfold egConfigOf. destruct raw as [raw|]; [|by eexists; split; [reflexivity|]]. cbn.
  destruct (client_UniversalDecoder c raw) as [cfg|e]; cbn; (eexists; split; [reflexivity|]); [|done].
  apply applyConfig_not_panic.
Qed.

Lemma Deploy_performs cfg tls m :
  buildResources cfg iv tls = Ok m ->
  scripted world_step world_ok leads (Deploy cfg iv ns tls) (performing [Fill m; Own m]).
Proof using Type*.
  intros Hm. unfold Deploy. rewrite Hm. apply (scripted_effect ns cluster). intros w r w' _ [-> Hr].
  exists []. split; [apply (actions_nil (I := world_ok))|]. destruct r as [data|e]; cbn [of_result].
  - rewrite <- Hr. apply performing_wrapf; [apply _|apply (ship_performs ns cluster)].
  - apply scripted_Ret; [apply _|]. apply prefix_nil.
Qed.

Lemma sweep_quiet {A} (k : unit + error -> IO A) l :
  (forall r, scripted world_step world_ok leads (k r) (performing l)) ->
  scripted world_step world_ok leads
    (attempt (orphanDataPlaneSweeper.Sweep ns) ≫= k) (performing l).
Proof using Type*.
  intros Hk. apply (performing_bind _ _ _ [] l); [|apply Hk]. apply (quietly ns cluster).
  - unfold orphanDataPlaneSweeper.Sweep, orphanDataPlaneSweeper.kubernetesScheme,
      orphanDataPlaneSweeper.sweepOrphans, orphanDataPlaneSweeper.sweepObject. emits_auto; done.
  - apply no_panic_attempt. apply (sweep_no_panic (s := orphanDataPlaneSweeper.NewOrphanDataPlaneSweeper)).
Qed.

(** What a Reconcile of an awake shoot may have done. *)
Definition installing (sh : Shoot) (r : outcome unit) (l : list action) : Prop :=
  exists m policies, (Fill m ∈ l -> builds theActuator ex sh m policies) /\ performing (script (Install m policies)) r l.

Lemma generation_installing sh e l : l `prefix_of` generation -> installing sh (Err e) l.
Proof using Type.
  intros Hl. exists ∅, true. split.
  - intros Hin. exfalso. apply (elem_of_prefix _ _ _ Hin) in Hl. revert Hl. unfold generation.
    intros Hl. by repeat (apply elem_of_cons in Hl as [Hl|Hl]; [discriminate Hl|]); apply elem_of_nil in Hl.
  - by apply (prefix_app_r l generation [Fill ∅; Own ∅; Start]).
Qed.

Lemma install_scripted sh cfg :
  egConfigOf theActuator (sh_KubernetesVersion sh) (ex_ProviderConfig ex) = mret cfg ->
  scripted world_step world_ok leads
    (tlsBundle ← wrapf "failed to reconcile envoy-gateway TLS secrets: " (reconcileSecrets cluster ns);
     wrapf "failed to deploy envoy-gateway: " (Deploy cfg iv ns tlsBundle) ;;
     attempt (orphanDataPlaneSweeper.Sweep ns) ;;
     if ManageDataPlaneNetworkPolicies cfg then
       wrapf "failed to ensure data-plane NetworkPolicy controller: "
         (netpolControllerDeployer.Ensure iv cluster ns)
     else
       wrapf "failed to tear down data-plane NetworkPolicy controller: "
         (netpolControllerDeployer.Teardown ns) ;;
       wrapf "failed to prune data-plane NetworkPolicies after disabling the feature: "
         (dataPlaneNetworkPolicyReconciler.Reconcile ns)) (installing sh).
Proof using Type*.
  intros Hcfg.
  eapply (scripted_pbind _ _ _ _ _ (fun r l => performing generation r l /\ (forall tls, r = Ok tls -> bundleComplete tls = true))).
  { apply scripted_returns; [apply performing_wrapf; [apply _|by apply (reconcileSecrets_performs ns cluster)]|].
    intros t r Hr tls ->. apply runs_wrapf_Ok in Hr. by apply reconcileSecrets_complete in Hr as [? _]. }
  intros [tls|e|w] l1 [Hl1 Htls]; [|apply scripted_Ret; [apply _|]; rewrite app_nil_r; by apply generation_installing|done].
  simpl in Hl1. subst l1. specialize (Htls tls eq_refl).
  pose proof (buildResources_not_panic cfg iv tls) as Hnp.
  destruct (buildResources cfg iv tls) as [m|e|w] eqn:Hm; [|clear Hnp|by destruct (Hnp w)].
  - eapply scripted_mono; cycle 1.
    + apply (performing_bind _ _ _ [Fill m; Own m] [if ManageDataPlaneNetworkPolicies cfg then Start else Stop]).
      { apply performing_wrapf; [apply _|by apply Deploy_performs]. }
      intros []. apply sweep_quiet. intros _. destruct (ManageDataPlaneNetworkPolicies cfg).
      * apply performing_wrapf; [apply _|]. apply (controller_performs ns cluster iv (OpEnsure cluster)).
      * apply (performing_bind _ _ _ [Stop] []); [apply performing_wrapf; [apply _|apply (controller_performs ns cluster iv OpTeardown)]|].
        intros []. apply performing_wrapf; [apply _|apply prune_quiet].
    + intros r l Hl. exists m, (ManageDataPlaneNetworkPolicies cfg). split; [by exists cfg, tls|].
      destruct r as [[]|e|w]; [by rewrite Hl| |done]. by apply (stdpp.list_relations.list.prefix_app generation) in Hl.
  - unfold Deploy. rewrite Hm. apply scripted_Ret; [apply _|]. rewrite app_nil_r. by apply generation_installing.
Qed.

Lemma ReconcileBody_scripted v :
  v = VReconcile \/ v = VRestore ->
  scripted world_step world_ok leads (ReconcileBody theActuator ex) (allowed theActuator v ex cluster).
Proof using Type*.
  intros Hv. unfold ReconcileBody. rewrite Hns. apply get_cluster.
  { intros e. destruct (cl_Shoot cluster) as [sh|] eqn:Hsh.
    - destruct (shootDeleting (Some sh)) eqn:Hd; [exists Drain|destruct (HibernationIsEnabled sh) eqn:Hh; [exists Hibernate|exists (Install ∅ true)]].
      all: (split; [destruct Hv as [->| ->]; unfold plans; rewrite Hsh, Hd, ?Hh; by eauto|]).
      all: split; [intros m policies _ Hin; by apply elem_of_nil in Hin|apply prefix_nil].
    - exists Drain. split; [destruct Hv as [->| ->]; unfold plans; by rewrite Hsh|]. split; [done|apply prefix_nil]. }
  destruct (cl_Shoot cluster) as [sh|] eqn:Hsh.
  2: { apply scripted_Ret; [apply _|]. exists Drain. split; [destruct Hv as [->| ->]; unfold plans; by rewrite Hsh|done]. }
  apply (use_scripted _ _ _ _ eq_refl).
  assert (Hdel : shootDeleting (Some sh) = bool_decide (is_Some (sh_DeletionTimestamp sh))) by done.
  case_decide as Hd; [rewrite bool_decide_true in Hdel by done|rewrite bool_decide_false in Hdel by done].
  { eapply scripted_mono; [intros r l; apply (allowed_performing v Drain)|apply drain_quiet]; [|done].
    destruct Hv as [->| ->]; unfold plans; by rewrite Hsh, Hdel. }
  destruct (HibernationIsEnabled sh) eqn:Hh.
  { eapply scripted_mono; [intros r l; apply (allowed_performing v Hibernate)|]; [|done|].
    - destruct Hv as [->| ->]; unfold plans; by rewrite Hsh, Hdel, Hh.
    - apply (use_scripted _ _ _ _ eq_refl). apply performing_wrapf; [apply _|]. apply (controller_performs ns cluster iv OpScaleDown). }
  assert (Hlift : forall r l, installing sh r l -> allowed theActuator v ex cluster r l).
  { intros r l (m&policies&Hb&Hl). exists (Install m policies).
    split; [destruct Hv as [->| ->]; unfold plans; rewrite Hsh, Hdel, Hh; by eauto|].
    split; [|by destruct r]. intros m' policies' [= <- <-] Hin. exists sh. by split; [|apply Hb]. }
  eapply scripted_mono; [exact Hlift|].
  destruct (egConfigOf_pure (sh_KubernetesVersion sh) (ex_ProviderConfig ex)) as ([cfg|e|w]&Hcfg&Hnp); [| |by destruct (Hnp w)].
  - rewrite Hcfg. by apply install_scripted.
  - rewrite Hcfg. apply scripted_Ret; [apply _|]. apply generation_installing, prefix_nil.
Qed.

(** Every operation does what its plan says. *)
Lemma run_verb_scripted v : scripted world_step world_ok leads (run_verb v) (allowed theActuator v ex cluster).
Proof using Type*.
  destruct v; simpl.
  - unfold Reconcile. rewrite Hns. apply recorded_scripted. apply ReconcileBody_scripted. by left.
  - unfold RestoreOp, Reconcile. rewrite Hns. apply recorded_scripted, recorded_scripted, ReconcileBody_scripted. by right.
  - apply Delete_scripted.
  - eapply scripted_mono; [intros r l; by apply (allowed_performing VForceDelete Leave)|].
    unfold ForceDelete. rewrite Hns. apply (leaving_performs "force_delete").
  - eapply scripted_mono; [intros r l; by apply (allowed_performing VMigrate Leave)|].
    unfold Migrate. rewrite Hns. apply (leaving_performs "migrate").
Qed.
End lifecycle.

(** ** Histories *)

Section histories.
Context `{Libraries} `{Serialization}.
Context (ns : string) `{WorldStep} `{!DocumentedWorld ns}.
Context (c : Client) (iv : ImageVector) (ex : Extension).

(** Operations on an Extension, one after the other, each on the Cluster as it is
    then. *)
Fixpoint history (h : list (verb * Cluster * outcome unit)) (w w' : world) : Prop :=
  match h with
  | [] => rtc (env ns) w w'
  | (v, cluster, r) :: h =>
      cl_Name cluster = ns /\
      exists w1 : world, runs_in world_step (run_verb c iv ex v) (w <| w_cluster := cluster |>) r w1 /\ history h w1 w'
  end.

Lemma history_snoc h v cluster r w w' :
  history (h ++ [(v, cluster, r)]) w w' ->
  exists w1 w2 : world, history h w w1 /\ cl_Name cluster = ns /\
    runs_in world_step (run_verb c iv ex v) (w1 <| w_cluster := cluster |>) r w2 /\ rtc (env ns) w2 w'.
Proof using Type.
  revert w. induction h as [|[[v0 cluster0] r0] h IH]; intros w.
  - intros (Hname&w2&Hr&Henv). exists w, w2. split; [constructor|done].
  - intros (Hname0&w0&Hr0&Hh). destruct (IH _ Hh) as (w1&w2&Hh1&Hrest). exists w1, w2. split; [|done].
    split; [done|by exists w0].
Qed.

(** What goes on after the last operation belongs to the history. *)
Lemma history_envs h w w1 w2 : history h w w1 -> rtc (env ns) w1 w2 -> history h w w2.
Proof using Type.
  intros Hh Henv. revert w Hh. induction h as [|[[v cluster] r] h IH]; intros w Hh.
  { change (rtc (env ns) w w2). etrans; [exact Hh|exact Henv]. }
  destruct Hh as (Hname&w0&Hr&Hh). split; [exact Hname|]. exists w0. split; [exact Hr|by apply IH].
Qed.

Lemma envs_view w w' :
  rtc (env ns) w w' -> seed_ok (w_seed w) ->
  performs [] (view ns w) (view ns w') /\ seed_ok (w_seed w') /\ isolated ns w w'.
Proof using Type.
  intros Henv Hok. apply envs_silent, (silent_leads ns (w_cluster w)) in Henv.
  destruct (Henv (Build_world_ok _ w Hok eq_refl)) as (Hok'&_&Hi&Hp). split_and!; [done|apply Hok'|done].
Qed.

Hypothesis Hns : ex_Namespace ex = ns.

Lemma run_verb_view v cluster r w w' :
  cl_Name cluster = ns -> seed_ok (w_seed w) ->
  runs_in world_step (run_verb c iv ex v) (w <| w_cluster := cluster |>) r w' ->
  (exists l, allowed (theActuator c iv) v ex cluster r l /\ performs l (view ns w) (view ns w')) /\
  seed_ok (w_seed w') /\ isolated ns w w'.
Proof using Type*.
  intros Hname Hok Hr. assert (Hw : world_ok cluster (w <| w_cluster := cluster |>)) by done.
  destruct (run_verb_scripted ns cluster c iv ex Hns Hname v _ _ _ Hw Hr) as (l&Hl&Hlead).
  destruct (Hlead Hw) as (Hok'&_&Hi&Hp). split_and!; [by exists l|apply Hok'|destruct Hi; by split].
Qed.

Lemma history_refines h w w' :
  seed_ok (w_seed w) -> history h w w' ->
  history_spec (theActuator c iv) ex h (view ns w) (view ns w') /\ seed_ok (w_seed w') /\ isolated ns w w'.
Proof using Type*.
  revert w. induction h as [|[[v cluster] r] h IH]; intros w Hok Hh.
  - apply envs_view in Hh as (Hp&Hok'&Hi); [|done]. split_and!; [by constructor|done|done].
  - destruct Hh as (Hname&w1&Hr&Hh). destruct (run_verb_view _ _ _ _ _ Hname Hok Hr) as ((l&Hl&Hp)&Hok1&Hi1).
    destruct (IH _ Hok1 Hh) as (Hspec&Hok'&Hi2). split_and!; [by econstructor|done|].
    destruct Hi1 as [Hs1 Hr1 Hg1], Hi2 as [Hs2 Hr2 Hg2]. split.
    + pose proof (others_kept_preorder ns). by etrans.
    + intros k Hk. by rewrite Hr2, Hr1.
    + intros k Hk. by rewrite Hg2, Hg1.
Qed.
End histories.

(** C5: the actuator implements the life cycle.  Whatever call fails, and
    whatever gardener-resource-manager, the controller and the users do
    meanwhile, every history of Reconcile, Restore, Delete, ForceDelete and
    Migrate on an Extension amounts, on the controller, the ManagedResource and the
    generated secrets, to the scripts of the operations' plans: a successful
    operation performs its script, a failed one a beginning of it, and a panic
    nothing; what is shipped was built from the Extension's configuration and a
    complete TLS bundle; and nothing of another Extension on the seed is
    touched. *)
Theorem extension_lifecycle_refines `{Libraries} `{Serialization} ns `{WorldStep} `{!DocumentedWorld ns}
    c iv ex h w w' :
  ex_Namespace ex = ns -> seed_ok (w_seed w) -> history ns c iv ex h w w' ->
  history_spec (theActuator c iv) ex h (view ns w) (view ns w') /\ seed_ok (w_seed w') /\ isolated ns w w'.
Proof. intros Hns. by apply history_refines. Qed.
