(* ===== verification/ExtensionProps.v ===== *)
(** * What is left behind

    A deletion, phase by phase, in the world of an Extension: the controller is
    gone before its policies are pruned, nothing brings it back, and the
    ManagedResource takes the shipped objects along.  So a deletion leaves
    nothing behind in the seed or the shoot. *)

From S2P Require Import Prelude GoStd Errors Effects KubeObjects Constants Config External.
From S2P Require Import Interfaces.
From S2P Require Import Secrets Manifests Deployer GatewayGuard OrphanSweep DataPlanePolicies.
From S2P Require Import DataplaneNetpol.
From S2P Require Import NetpolDeployer Actuator ActuatorSpecs ActuatorLemmas ActuatorProps.
From S2P Require Import NetpolLifecycle.
From S2P Require Import Scripts ExtensionWorld ExtensionSpec ExtensionActions ExtensionLifecycle.

(** ** The calls of the production operations *)

(** Unfold the component or the operation at hand. *)
Ltac unfold_component :=
  progress (
    cbn [netpolDeployer netpolReconciler orphanSweeper gatewayLister decoder productionActuator theActuator
       Interfaces.Teardown Interfaces.Ensure Interfaces.ScaleDown Interfaces.PruneReconcile Interfaces.Sweep
       Interfaces.ListGateways Interfaces.DeleteGateways Interfaces.WaitUntilGatewaysDeleted
       Interfaces.ClearGatewayClassFinalizer
       netpolControllerDeployer.NewNetpolControllerDeployer realGatewayLister.NewGatewayLister
       dataPlaneNetworkPolicyReconciler.NewDataPlaneNetworkPolicyReconciler
       orphanDataPlaneSweeper.NewOrphanDataPlaneSweeper];
    unfold netpolControllerDeployer.Ensure, netpolControllerDeployer.Teardown, netpolControllerDeployer.ScaleDown,
      realGatewayLister.ListGateways, realGatewayLister.DeleteGateways, realGatewayLister.WaitUntilGatewaysDeleted,
      realGatewayLister.ClearGatewayClassFinalizer, realGatewayLister.gatewaysGone, realGatewayLister.fetchGatewayList,
      realGatewayLister.shootClient, realGatewayLister.newGatewayScheme,
      dataPlaneNetworkPolicyReconciler.Reconcile, dataPlaneNetworkPolicyReconciler.prunePolicy,
      orphanDataPlaneSweeper.kubernetesScheme, orphanDataPlaneSweeper.Sweep, orphanDataPlaneSweeper.sweepOrphans,
      orphanDataPlaneSweeper.sweepObject, nonNil).

(** [production_calls] leaves one obligation per call of a production operation. *)
Ltac production_calls :=
  unfold RestoreOp, Delete, Reconcile, ForceDelete, Migrate, recorded, DeleteBody, ReconcileBody, recordOperation,
    egConfigOf, reconcileSecrets, deleteSecrets, Deploy, DeployerDelete, DeleteKeepingObjects, deleteManagedResource,
    checkNoUserGateways, drainUserGatewaysForShootDeletion;
  cbn [netpolDeployer netpolReconciler orphanSweeper gatewayLister decoder productionActuator theActuator];
  repeat lazymatch goal with
         | |- emits _ (mbind _ (nonNil (Some _))) => apply emits_use
         | |- emits _ (PollUntilContextCancel _ _ _ _) => apply emits_poll
         | |- _ => first [emits_step | unfold_component]
         end.

Section calls.
Context `{Libraries}.
Context (c : Client) (iv : ImageVector) (ex : Extension).

(** Operations that keep the ManagedResource's objects under its control. *)
Definition owning (v : verb) : bool := match v with VForceDelete | VMigrate => false | _ => true end.

Definition owning_call (call : call) : bool :=
  match call with
  | SetKeepObjects _ _ _ => false
  | CreateForShoot _ _ _ keep _ => negb keep
  | _ => true
  end.

Lemma owning_calls v : owning v = true -> emits (fun e => owning_call (ecall e) = true) (run_verb c iv ex v).
Proof. destruct v; try done; intros _; cbn [run_verb]; production_calls; done. Qed.
End calls.

(** ** The shipped objects *)

Section tracked.
Context `{Libraries} `{Serialization}.
Context (ns : string).

(** Every shipped object in the shoot is accounted for by the ManagedResource,
    which will take it along. *)
Definition tracked (w : world) : Prop :=
  match w_resources w !! resourceKey ns with
  | Some m => keepObjects m = false /\ dom (w_objects w) ⊆ applied m
  | None => w_objects w = ∅
  end.

Lemma tracked_resource w m m' :
  w_resources w !! resourceKey ns = Some m -> tracked w -> keepObjects m' = false -> applied m' = applied m ->
  tracked (set_resource (resourceKey ns) m' w).
Proof. unfold tracked. simpl. intros Hm. rewrite lookup_insert_eq, Hm. by intros [_ Hd] Hk ->. Qed.

Lemma tracked_other k m w : k <> resourceKey ns -> tracked w -> tracked (set_resource k m w).
Proof. unfold tracked. simpl. intros Hk. by rewrite lookup_insert_ne. Qed.

Lemma env_tracked w w' : env ns w w' -> tracked w -> tracked w'.
Proof.
  intros Henv Ht. destruct Henv as [w m k data Hm Hdel Hk|w m k Hm Hk Hdel|w m Hm Hdel Happ|w d Hd Hr|w|w p Hr Hp|w m Hk Hm];
    try exact Ht; unfold tracked in *; simpl; rewrite Hm in Ht; destruct Ht as [Hkeep Hdom].
  - rewrite lookup_insert_eq. split; [done|]. simpl. rewrite dom_insert_L. set_solver.
  - rewrite lookup_insert_eq. split; [done|]. simpl. rewrite dom_delete_L. set_solver.
  - rewrite lookup_delete_eq. destruct Happ as [Happ|Happ]; [congruence|]. apply dom_empty_iff_L. set_solver.
Qed.

Lemma shipped_tracked n name data w : tracked w -> tracked (shipped n name false data w).
Proof.
  intros Ht. unfold shipped. destruct (decide ((n, name) = resourceKey ns)) as [->|Hne]; [|by apply tracked_other].
  unfold tracked in *. simpl. rewrite lookup_insert_eq. split; [done|]. simpl.
  destruct (w_resources w !! resourceKey ns) as [m|]; [apply Ht|]. rewrite Ht. by rewrite dom_empty_L.
Qed.

(** A change of one ManagedResource that keeps what it tracks. *)
Lemma changed_tracked k m f w :
  w_resources w !! k = Some m -> keepObjects (f m) = keepObjects m -> applied (f m) = applied m ->
  tracked w -> tracked (set_resource k (f m) w).
Proof.
  intros Hm Hk Ha Ht. destruct (decide (k = resourceKey ns)) as [->|Hne]; [|by apply tracked_other].
  apply (tracked_resource w m); [done..| |done]. rewrite Hk. unfold tracked in Ht. rewrite Hm in Ht. apply Ht.
Qed.

Lemma effect_tracked w c r w' : owning_call c = true -> documented_effect w c r w' -> tracked w -> tracked w'.
Proof.
  intros Hc He Ht. destruct c; try discriminate Hc; try (destruct He as (s&_&->); exact Ht); cbn [documented_effect] in He;
    unfold outcomes, on_existing in He; try (destruct He as [-> _]; exact Ht).
  - repeat case_hyp; deex; subst; exact Ht.
  - repeat case_hyp; deex; subst; exact Ht.
  - repeat case_hyp; deex; subst; exact Ht.
  - apply negb_true_iff in Hc as ->. destruct r as [[]|e]; [subst; by apply shipped_tracked|].
    destruct He as [->|[->|(m&Hm&->)]]; [done|by apply shipped_tracked|by apply changed_tracked with (f := fun m => m <| manifests := contents data |>)].
  - assert (tracked (marked ns0 name w)) as Hmark.
    { unfold marked. destruct (w_resources w !! (ns0, name)) as [m|] eqn:Hm; [|done].
      by apply changed_tracked with (f := fun m => m <| deleting := true |>). }
    destruct r as [[]|e]; [by subst|]. by destruct He as [->| ->].
  - repeat case_hyp; repeat first [progress deex|progress destruct_or? He|progress subst]; exact Ht.
  - destruct He as [->|(p&_&->)]; exact Ht.
Qed.

Context `{WorldStep} `{!DocumentedWorld ns}.

Lemma envs_tracked w w' : rtc (env ns) w w' -> tracked w -> tracked w'.
Proof. induction 1 as [w|w1 w2 w3 He _ IH]; [done|]. intros Ht. by eapply IH, env_tracked. Qed.

Lemma step_tracked w c r w' : owning_call c = true -> world_step w c r w' -> tracked w -> tracked w'.
Proof using Type*.
  intros Hc Hs Ht. apply (world_step_documented ns) in Hs as (w1&w2&Hbefore&Heff&Hafter).
  eapply envs_tracked; [done|]. eapply effect_tracked; [done..|]. by eapply envs_tracked.
Qed.

Lemma run_tracked c iv ex v w r w' :
  owning v = true -> runs_in world_step (run_verb c iv ex v) w r w' -> tracked w -> tracked w'.
Proof using Type*.
  intros Hv Hr. eapply (keeps_calls world_step); [|by apply owning_calls|exact Hr].
  intros w1 call x w2 Hc Hs. exact (step_tracked _ _ _ _ Hc Hs).
Qed.

Lemma history_tracked c iv ex h w w' :
  Forall (fun '(v, _, _) => owning v = true) h -> history ns c iv ex h w w' -> tracked w -> tracked w'.
Proof using Type*.
  revert w. induction h as [|[[v cluster] r] h IH]; intros w Hall Hh Ht; [by eapply envs_tracked|].
  apply Forall_cons in Hall as [Hv Hall]. destruct Hh as (_&w1&Hr&Hh). eapply IH; [done..|].
  by eapply run_tracked.
Qed.
End tracked.

(** ** The controller and its policies *)

Section cleared.
Context `{Libraries} `{Serialization}.
Context (ns : string) `{WorldStep} `{!DocumentedWorld ns}.

(** Both objects of the controller are gone. *)
Definition torn_down (w : world) : Prop :=
  deployments (w_seed w) !! key ns = None /\ (ns, accessSecretName) ∉ secrets (w_seed w).

(** Policies are stored under their names. *)
Definition policies_keyed (w : world) : Prop := forall k p, w_policies w !! k = Some p -> np_key p = k.

(** The controller is gone and idle, and the managed policies are among [l]. *)
Record cleared (l : list NetworkPolicy) (w : world) : Prop := {
  cleared_seed : torn_down w;
  cleared_idle : w_running w = false;
  cleared_keyed : policies_keyed w;
  cleared_policies : forall k p, w_policies w !! k = Some p -> managed p -> p ∈ l;
}.

(** Calls after which a controller that is gone may be back, or a policy. *)
Definition reviving (c : call) : bool :=
  match c with
  | ReconcileShootAccessSecret _ _ _ | SeedCreateOrUpdateDeployment _ _ _ | SeedPatchDeployment _ _
  | CreateOrUpdateNetworkPolicy _ _ _ => true
  | _ => false
  end.

Lemma env_cleared l w w' : env ns w w' -> cleared l w -> cleared l w'.
Proof using Type.
  intros Henv [[Hd Hs] Hr Hk Hl].
  destruct Henv as [w m k data Hm Hdel Hdata|w m k Hm Happ Hdel|w m Hm Hdel Happ|w d Hdep _|w|w p Hrun _|w m Hkeyed Hold].
  - split; [exact (conj Hd Hs)|exact Hr|exact Hk|exact Hl].
  - split; [exact (conj Hd Hs)|exact Hr|exact Hk|exact Hl].
  - split; [exact (conj Hd Hs)|exact Hr|exact Hk|exact Hl].
  - rewrite Hd in Hdep. discriminate Hdep.
  - split; [exact (conj Hd Hs)|reflexivity|exact Hk|exact Hl].
  - rewrite Hr in Hrun. discriminate Hrun.
  - split; [by split|exact Hr|exact Hkeyed|]. intros k p Hp Hmp. apply (Hl k); [by apply Hold|exact Hmp].
Qed.

Lemma envs_cleared l w w' : rtc (env ns) w w' -> cleared l w -> cleared l w'.
Proof using Type. induction 1 as [w|w1 w2 w3 He _ IH]; [done|]. intros Hc. by eapply IH, env_cleared. Qed.

Lemma seed_torn_down s c r s' :
  reviving c = false -> seed_documented s c r s' ->
  deployments s !! key ns = None /\ (ns, accessSecretName) ∉ secrets s ->
  deployments s' !! key ns = None /\ (ns, accessSecretName) ∉ secrets s'.
Proof using Type*.
  intros Hc Hs [Hd Hn].
  assert (Hdrop : forall k, deployments (drop_deployment k s) !! key ns = None).
  { intros k. simpl. destruct (decide (key ns = k)) as [->|Hne]; [apply lookup_delete_eq|by rewrite lookup_delete_ne]. }
  assert (Hdrop2 : forall k, (ns, accessSecretName) ∉ secrets (drop_secret k s)) by (intros k; simpl; set_solver).
  destruct c; try discriminate Hc; try (cbn in Hs; by subst s'); try (destruct Hs as [-> _]; done).
  destruct kind; try (cbn in Hs; by subst s'); cbn in Hs; repeat case_hyp; deex; destruct_or?; subst s'; done.
Qed.

(** Deleting policies, if anything. *)
Definition fewer (w w' : world) : Prop :=
  w_running w' = w_running w /\ w_policies w' ⊆ w_policies w.

Lemma effect_fewer w c r w' : reviving c = false -> documented_effect w c r w' -> fewer w w'.
Proof using Type.
  intros Hc He. destruct c; try discriminate Hc; try (destruct He as (s&_&->); done); cbn [documented_effect] in He;
    unfold outcomes, on_existing, shipped, marked in He;
    repeat first [progress deex | case_hyp | progress subst | progress destruct_or? He]; try done.
  all: split; [done|apply delete_subseteq].
Qed.

Lemma effect_cleared l w c r w' : reviving c = false -> documented_effect w c r w' -> cleared l w -> cleared l w'.
Proof using Type*.
  intros Hc He [Hs Hr Hk Hl]. destruct (effect_fewer _ _ _ _ Hc He) as [Hrun Hp].
  apply effect_seed in He. split.
  - by eapply seed_torn_down.
  - congruence.
  - intros k p Hkp. eapply Hk, lookup_weaken; done.
  - intros k p Hkp. eapply Hl, lookup_weaken; done.
Qed.

Lemma step_cleared l w c r w' : reviving c = false -> world_step w c r w' -> cleared l w -> cleared l w'.
Proof using Type*.
  intros Hc Hs Hl. apply (world_step_documented ns) in Hs as (w1&w2&Hbefore&Heff&Hafter).
  eapply envs_cleared; [done|]. eapply effect_cleared; [done..|]. by eapply envs_cleared.
Qed.

Lemma run_cleared {A} l (p : io A) w a w' :
  emits (fun e => reviving (ecall e) = false) p -> runs_in world_step p w a w' -> cleared l w -> cleared l w'.
Proof using Type*.
  intros Hp Hr. eapply (keeps_calls world_step); [|exact Hp|exact Hr].
  intros w1 call x w2 Hc Hs. exact (step_cleared l _ _ _ _ Hc Hs).
Qed.

Lemma step_torn_down w c r w' : reviving c = false -> world_step w c r w' -> torn_down w -> torn_down w'.
Proof using Type*.
  intros Hc Hs Ht. apply (world_step_documented ns) in Hs as (w1&w2&Hbefore&Heff&Hafter).
  apply envs_silent in Hbefore as [Hb _]. apply envs_silent in Hafter as [Ha _]. apply effect_seed in Heff.
  unfold torn_down in *. rewrite Ha. eapply seed_torn_down; [done..|]. by rewrite Hb.
Qed.

(** Teardown leaves neither object. *)
Lemma Teardown_torn_down iv w w' :
  seed_ok (w_seed w) -> runs_in world_step (run_op iv OpTeardown ns) w (Ok tt) w' -> torn_down w'.
Proof using Type*.
  intros Hok Hr. apply (controller_implements ns iv OpTeardown) in Hr as (_&_&Habs&Hsec); [|done].
  split; [|done]. unfold NetpolLifecycle.abs in Habs. destruct (deployments (w_seed w') !! key ns); [|done].
  by case_decide.
Qed.
(** *** Pruning *)

Lemma prune_revives_nothing :
  emits (fun e => reviving (ecall e) = false) (dataPlaneNetworkPolicyReconciler.Reconcile ns).
Proof using Type.
  unfold dataPlaneNetworkPolicyReconciler.Reconcile, orphanDataPlaneSweeper.kubernetesScheme,
    dataPlaneNetworkPolicyReconciler.prunePolicy. emits_auto; done.
Qed.

Lemma list_cleared l w r w' :
  world_step w (ListNetworkPolicies ManagedDataPlanePolicyListOptions) (inl r) w' -> cleared l w -> cleared r w'.
Proof using Type*.
  intros Hs Hl. apply (world_step_documented ns) in Hs as (w1&w2&Hbefore&[-> Hlist]&Hafter).
  eapply envs_cleared; [done|]. destruct (envs_cleared _ _ _ Hbefore Hl) as [Hsd Hr Hk _]. split; [done..|].
  intros k p Hp Hm. apply Hlist. split; [by exists k|exact Hm].
Qed.

Lemma delete_cleared p l w r w' :
  world_step w (DeleteNetworkPolicy (np_Namespace p) (np_Name p)) r w' -> cleared (p :: l) w ->
  match r with inl _ => cleared l w' | inr e => IsNotFound e = true -> cleared l w' end.
Proof using Type*.
  intros Hs Hl. apply (world_step_documented ns) in Hs as (w1&w2&Hbefore&Heff&Hafter).
  destruct (envs_cleared _ _ _ Hbefore Hl) as [Hsd Hrun Hk Hold]. cbn in Heff. unfold on_existing in Heff.
  change (mkKey (np_Namespace p) (np_Name p)) with (np_key p) in Heff.
  assert (Hgone : forall w2, w_seed w2 = w_seed w1 -> w_running w2 = w_running w1 ->
    w_policies w2 = delete (np_key p) (w_policies w1) -> cleared l w2).
  { intros w3 Hseed Hrun3 Hpol. split; [by unfold torn_down; rewrite Hseed|congruence| |].
    - intros k q Hq. rewrite Hpol in Hq. apply lookup_delete_Some in Hq as [_ Hq]. by apply Hk.
    - intros k q Hq Hm. rewrite Hpol in Hq. apply lookup_delete_Some in Hq as [Hne Hq].
      apply (Hold k) in Hm as [->|Hin]%elem_of_cons; [|done|done]. by destruct Hne; apply Hk. }
  assert (Hmissing : w_policies w1 !! np_key p = None -> cleared l w1).
  { intros Hnone. apply Hgone; [done..|]. by rewrite delete_id. }
  destruct r as [[]|e].
  - destruct Heff as [(v&_&->)|[-> Hnone]]; (eapply envs_cleared; [done|]); [by apply Hgone|by apply Hmissing].
  - intros He. rewrite He in Heff. destruct Heff as [-> Hnone]. eapply envs_cleared; [done|by apply Hmissing].
Qed.

Lemma prune_each_cleared l w w' :
  runs_in world_step (for_each l dataPlaneNetworkPolicyReconciler.prunePolicy) w (Ok tt) w' ->
  cleared l w -> cleared [] w'.
Proof using Type*.
  revert w. induction l as [|p l IH]; intros w Hr Hc; [by destruct Hr as [-> _]|].
  apply runs_in_bind_Ok in Hr as ([]&w1&Hp&Hr). apply (IH w1); [done|].
  apply runs_in_wrapf_Ok in Hp as (x&w2&Hs&Hx). eapply delete_cleared in Hs; [|done].
  destruct x as [[]|e]; cbn in Hx; [by destruct Hx as [-> _]|].
  destruct (IsNotFound e); [|by destruct Hx]. destruct Hx as [-> _]. by apply Hs.
Qed.

Lemma prune_cleared l w w' :
  runs_in world_step (dataPlaneNetworkPolicyReconciler.Reconcile ns) w (Ok tt) w' -> cleared l w -> cleared [] w'.
Proof using Type*.
  intros Hr Hc. apply runs_in_bind_Ok in Hr as ([]&w1&Hscheme&Hr). apply runs_in_bind_Ok in Hr as ([]&w2&Hclient&Hr).
  apply runs_in_request in Hr as (x&w3&Hs&Hr). destruct x as [r|e]; [|by destruct Hr].
  eapply prune_each_cleared; [exact Hr|]. eapply list_cleared; [exact Hs|].
  eapply run_cleared; [|exact Hclient|]; [emits_auto; done|].
  eapply run_cleared; [|exact Hscheme|done]. unfold orphanDataPlaneSweeper.kubernetesScheme. emits_auto; done.
Qed.

(** What Kubernetes' prompt termination adds to a teardown. *)
Lemma torn_down_cleared w :
  torn_down w -> attended ns w -> policies_keyed w -> cleared (map_to_list (w_policies w)).*2 w.
Proof using Type.
  intros Htorn Ha Hk. split; [done| |done|].
  - destruct (w_running w) eqn:Hr; [|done]. destruct (Ha Hr) as [d Hd]. destruct Htorn as [Hnone _].
    rewrite Hnone in Hd. discriminate Hd.
  - intros k p Hp _. apply list_elem_of_fmap. exists (k, p). split; [done|]. by apply elem_of_map_to_list.
Qed.

(** Teardown, then prune. *)
Lemma pruned_cleared iv w1 w2 w3 :
  seed_ok (w_seed w1) -> runs_in world_step (run_op iv OpTeardown ns) w1 (Ok tt) w2 ->
  attended ns w2 -> policies_keyed w2 ->
  runs_in world_step (dataPlaneNetworkPolicyReconciler.Reconcile ns) w2 (Ok tt) w3 -> cleared [] w3.
Proof using Type*.
  intros Hok Htear Ha Hk Hprune. eapply prune_cleared; [exact Hprune|].
  apply torn_down_cleared; [by eapply Teardown_torn_down|exact Ha|exact Hk].
Qed.
End cleared.

(** ** The phases of an operation *)

Section phases.
Context `{Libraries} `{Serialization}.
Context (ns : string) `{WorldStep} `{!DocumentedWorld ns}.
Context (c : Client) (iv : ImageVector) (ex : Extension) (cluster : Cluster).
Hypothesis Hns : ex_Namespace ex = ns.
Hypothesis Hcluster : cl_Name cluster = ns.

Lemma recorded_inv {A} op (body : IO A) w r w' :
  runs_in world_step (start ← lift (do_call Now); deferred (recordOperation ns op start) body) w r w' ->
  exists w1 w2 start, world_step w Now start w1 /\ runs_in world_step body w1 r w2 /\
    runs_in world_step (recordOperation ns op start (errOf r)) w2 tt w'.
Proof using Type.
  intros (start&w1&Hs&Hr). change (runs_in world_step (deferred (recordOperation ns op start) body) w1 r w') in Hr.
  apply runs_in_pbind in Hr as (r0&w2&Hb&Hr).
  apply runs_in_pbind in Hr as ([]&w3&Hrec&[-> ->]). exists w1, w2, start. done.
Qed.

Lemma quiet_ok l w w' : leads ns cluster l w w' -> world_ok cluster w -> world_ok cluster w'.
Proof using Type. intros Hl Hok. apply (Hl Hok). Qed.

(** The Cluster that an operation reads. *)
Lemma cluster_read w cl w' :
  world_ok cluster w -> world_step w (GetCluster ns) (inl cl) w' -> cl = cluster /\ world_ok cluster w'.
Proof using Type*.
  intros Hok Hget. split; [|by eapply quiet_ok; [eapply (quiet_step ns cluster), Hget|]].
  apply (world_step_documented ns) in Hget as (u1&u2&Hbefore&[_ Hcl]&_).
  apply envs_silent, (silent_leads ns cluster) in Hbefore. apply quiet_ok in Hbefore; [|done].
  pose proof (ok_cluster _ _ Hbefore) as Hc. rewrite Hcl, Hc; [done|]. by rewrite Hc.
Qed.

(** *** A deletion *)

(** Up to the teardown nothing has happened; then come the policies; then the
    rest, which does not bring the controller back. *)
Lemma Delete_inv w w' :
  world_ok cluster w -> runs_in world_step (Delete (theActuator c iv) ex) w (Ok tt) w' ->
  exists w1 w2 w3, world_ok cluster w1 /\
    runs_in world_step (netpolControllerDeployer.Teardown ns) w1 (Ok tt) w2 /\
    (if shootAlive (cl_Shoot cluster)
     then runs_in world_step (dataPlaneNetworkPolicyReconciler.Reconcile ns) w2 (Ok tt) w3 else w3 = w2) /\
    (forall I : world -> Prop, (forall w call r w', world_step w call r w' -> I w -> I w') -> I w -> I w2) /\
    (forall I : world -> Prop,
       (forall w call r w', reviving call = false -> world_step w call r w' -> I w -> I w') ->
       (I w2 -> I w3) /\ (I w3 -> I w')).
Proof using Type*.
  intros Hok Hr. unfold Delete in Hr. rewrite Hns in Hr.
  apply recorded_inv in Hr as (w0&wz&start&Hnow&Hr&Hrec). unfold DeleteBody in Hr. rewrite Hns in Hr.
  assert (Hok0 : world_ok cluster w0) by (eapply quiet_ok; [by eapply (quiet_step ns cluster), Hnow|done]).
  apply runs_in_request in Hr as (x&wa&Hget&Hr). destruct x as [cl|e]; [|by destruct Hr].
  destruct (cluster_read _ _ _ Hok0 Hget) as [-> Hoka].
  apply runs_in_bind_Ok in Hr as ([]&w1&Hcheck&Hr).
  assert (Hok1 : world_ok cluster w1).
  { destruct (check_quiet ns cluster c iv ex Hns Hcluster (cl_Shoot cluster) wa _ _ Hoka Hcheck) as (l&_&Hl). by eapply quiet_ok. }
  change (nonNil (netpolDeployer (theActuator c iv)) ≫= ?f)
    with (f (netpolControllerDeployer.NewNetpolControllerDeployer iv)) in Hr. cbn beta in Hr.
  apply runs_in_bind_Ok in Hr as ([]&w2&Htear&Hr). apply runs_in_wrapf_Ok in Htear.
  apply runs_in_bind_Ok in Hr as ([]&w3&Hprune&Hr).
  assert (Hpruning : if shootAlive (cl_Shoot cluster)
    then runs_in world_step (dataPlaneNetworkPolicyReconciler.Reconcile ns) w2 (Ok tt) w3 else w3 = w2).
  { destruct (shootAlive (cl_Shoot cluster)); [|by destruct Hprune as [-> _]].
    change (nonNil (netpolReconciler (theActuator c iv)) ≫= ?f)
      with (f dataPlaneNetworkPolicyReconciler.NewDataPlaneNetworkPolicyReconciler) in Hprune.
    by apply runs_in_wrapf_Ok in Hprune. }
  exists w1, w2, w3. split_and!; [done|done|done| |].
  - intros I HI Hw. eapply (keeps_always world_step I); [done|exact Htear|].
    eapply (keeps_always world_step I); [done|exact Hcheck|]. eapply HI; [exact Hget|]. by eapply HI.
  - intros I HI. assert (Hkeep : forall A (p : io A) u a u',
      emits (fun e => reviving (ecall e) = false) p -> runs_in world_step p u a u' -> I u -> I u').
    { intros A p u a u' Hp Hu. eapply (keeps_calls world_step I); [|exact Hp|exact Hu].
      intros u1 call x u2 Hc Hs. exact (HI _ _ _ _ Hc Hs). }
    split; intros Hw.
    + destruct (shootAlive (cl_Shoot cluster)); [|by subst w3]. eapply Hkeep; [|exact Hpruning|done].
      apply prune_revives_nothing.
    + eapply Hkeep; [|exact Hrec|]; [unfold recordOperation; emits_auto; done|].
      eapply Hkeep; [|exact Hr|done]. unfold DeployerDelete, deleteManagedResource, deleteSecrets. emits_auto; done.
Qed.

(** *** A Reconcile without the feature *)

Definition seed_write (c : call) : bool :=
  match c with
  | ReconcileShootAccessSecret _ _ _ | SeedCreateOrUpdateDeployment _ _ _ | SeedPatchDeployment _ _
  | SeedDelete _ _ _ => true
  | _ => false
  end.

Lemma step_seed w call r w' : seed_write call = false -> world_step w call r w' -> w_seed w' = w_seed w.
Proof using Type*.
  intros Hc Hs. apply (world_step_documented ns) in Hs as (w1&w2&Hbefore&Heff&Hafter).
  apply envs_silent in Hbefore as [<- _]. apply envs_silent in Hafter as [-> _]. apply effect_seed in Heff.
  destruct call; try discriminate Hc; try exact Heff; apply Heff.
Qed.

(** Nothing has happened to the controller before the teardown. *)
Lemma Reconcile_disabled_inv sh cfg w w' :
  cl_Shoot cluster = Some sh -> shootDeleting (Some sh) = false -> HibernationIsEnabled sh = false ->
  egConfigOf (theActuator c iv) (sh_KubernetesVersion sh) (ex_ProviderConfig ex) = mret cfg ->
  ManageDataPlaneNetworkPolicies cfg = false ->
  world_ok cluster w -> runs_in world_step (Reconcile (theActuator c iv) ex) w (Ok tt) w' ->
  exists w1 w2 w3, w_seed w1 = w_seed w /\
    runs_in world_step (netpolControllerDeployer.Teardown ns) w1 (Ok tt) w2 /\
    runs_in world_step (dataPlaneNetworkPolicyReconciler.Reconcile ns) w2 (Ok tt) w3 /\
    (forall I : world -> Prop, (forall w call r w', world_step w call r w' -> I w -> I w') -> I w -> I w2) /\
    (forall I : world -> Prop,
       (forall w call r w', reviving call = false -> world_step w call r w' -> I w -> I w') -> I w3 -> I w').
Proof using Type*.
  intros Hsh Hdel Hhib Hcfg Hoff Hok Hr. unfold Reconcile in Hr. rewrite Hns in Hr.
  apply recorded_inv in Hr as (w0&wz&start&Hnow&Hr&Hrec). unfold ReconcileBody in Hr. rewrite Hns in Hr.
  assert (Hok0 : world_ok cluster w0) by (eapply quiet_ok; [by eapply (quiet_step ns cluster), Hnow|done]).
  apply runs_in_request in Hr as (x&wa&Hget&Hr). destruct x as [cl|e]; [|by destruct Hr].
  destruct (cluster_read _ _ _ Hok0 Hget) as [-> Hoka]. rewrite Hsh in Hr.
  change (nonNil (Some sh) ≫= ?f) with (f sh) in Hr. cbn beta in Hr.
  rewrite decide_False in Hr by exact (bool_decide_eq_false_1 _ Hdel). rewrite Hhib, Hcfg in Hr.
  change (mret cfg ≫= ?f) with (f cfg) in Hr. cbn beta in Hr.
  apply runs_in_bind_Ok in Hr as (tls&wb&Hsecrets&Hr). apply runs_in_bind_Ok in Hr as ([]&wc&Hdeploy&Hr).
  change (nonNil (orphanSweeper (theActuator c iv)) ≫= ?f)
    with (f orphanDataPlaneSweeper.NewOrphanDataPlaneSweeper) in Hr. cbn beta in Hr.
  apply runs_in_bind_Ok in Hr as (swept&w1&Hsweep&Hr).
  change (nonNil (netpolDeployer (theActuator c iv)) ≫= ?f)
    with (f (netpolControllerDeployer.NewNetpolControllerDeployer iv)) in Hr. cbn beta in Hr. rewrite Hoff in Hr.
  apply runs_in_bind_Ok in Hr as ([]&w2&Htear&Hr). apply runs_in_wrapf_Ok in Htear, Hr.
  exists w1, w2, wz. split_and!; [|exact Htear|exact Hr| |].
  - assert (Hkeep : forall A (p : io A) u a u', emits (fun e => seed_write (ecall e) = false) p ->
      runs_in world_step p u a u' -> w_seed u = w_seed w -> w_seed u' = w_seed w).
    { intros A p u a u' Hp Hu. eapply (keeps_calls world_step (fun u => w_seed u = w_seed w)); [|exact Hp|exact Hu].
      intros u1 call y u2 Hc Hs Hu1. rewrite <- Hu1. exact (step_seed u1 call y u2 Hc Hs). }
    eapply Hkeep; [|exact Hsweep|]; [production_calls; done|]. eapply Hkeep; [|exact Hdeploy|]; [production_calls; done|].
    eapply Hkeep; [|exact Hsecrets|]; [production_calls; done|].
    trans (w_seed w0); [exact (step_seed w0 (GetCluster ns) (inl cluster) wa eq_refl Hget)|].
    exact (step_seed w Now start w0 eq_refl Hnow).
  - intros I HI Hw. eapply (keeps_always world_step I); [exact HI|exact Htear|].
    eapply (keeps_always world_step I); [exact HI|exact Hsweep|].
    eapply (keeps_always world_step I); [exact HI|exact Hdeploy|].
    eapply (keeps_always world_step I); [exact HI|exact Hsecrets|]. eapply HI; [exact Hget|]. by eapply HI.
  - intros I HI. eapply (keeps_calls world_step I (fun e => reviving (ecall e) = false)); [|  |exact Hrec].
    + intros u1 call y u2 Hc Hs. exact (HI _ _ _ _ Hc Hs).
    + unfold recordOperation. emits_auto; done.
Qed.
End phases.

(** ** Leaving nothing behind *)

Section leftovers.
Context `{Libraries} `{Serialization}.
Context (ns : string) `{WorldStep} `{!DocumentedWorld ns}.
Context (c : Client) (iv : ImageVector) (ex : Extension).

(** Properties that every step and the environment preserve hold all along. *)
Lemma history_keeps (I : world -> Prop) h w w' :
  (forall w call r w', world_step w call r w' -> I w -> I w') ->
  (forall w w', env ns w w' -> I w -> I w') ->
  (forall w cluster, I w -> I (w <| w_cluster := cluster |>)) ->
  history ns c iv ex h w w' -> I w -> I w'.
Proof using Type*.
  intros Hstep Henv Hset. revert w. induction h as [|[[v cluster] r] h IH]; intros w.
  - intros Hr. induction Hr as [w|w1 w2 w3 He _ IHr]; [done|]. intros Hw. by eapply IHr, Henv.
  - intros (_&w1&Hr&Hh) Hw. apply (IH w1); [done|].
    eapply (keeps_always world_step I); [exact Hstep|exact Hr|by apply Hset].
Qed.

Lemma env_attended w w' : env ns w w' -> attended ns w -> attended ns w'.
Proof using Type.
  intros Henv Ha. destruct Henv as [w m k data Hm Hdel Hdata|w m k Hm Happ Hdel|w m Hm Hdel Happ|w d Hdep Hrep|w|w p Hrun _|w m Hkeyed Hold];
    try exact Ha; intros Hw; [by exists d|discriminate Hw].
Qed.

Lemma env_keyed w w' : env ns w w' -> policies_keyed w -> policies_keyed w'.
Proof using Type.
  intros Henv Hk. destruct Henv as [w m k data Hm Hdel Hdata|w m k Hm Happ Hdel|w m Hm Hdel Happ|w d Hdep Hrep|w|w p Hrun _|w m Hkeyed Hold];
    try exact Hk; [|exact Hkeyed].
  intros k q. simpl. rewrite lookup_insert. case_decide as Hkq; [by intros [= <-]|apply Hk].
Qed.

Lemma effect_keyed w call r w' : documented_effect w call r w' -> policies_keyed w -> policies_keyed w'.
Proof using Type.
  intros He Hk. destruct (reviving call) eqn:Hrev.
  - destruct call; try discriminate Hrev; try (destruct He as (s&_&->); exact Hk).
    destruct He as [->|(p&Hp&->)]; [done|]. intros k q. simpl. rewrite lookup_insert.
    case_decide as Hkq; [by intros [= <-]; rewrite <- Hkq|apply Hk].
  - apply effect_fewer in He as [_ Hsub]; [|done]. intros k p Hp. eapply Hk, lookup_weaken; done.
Qed.

Lemma step_keyed w call r w' : world_step w call r w' -> policies_keyed w -> policies_keyed w'.
Proof using Type*.
  intros Hs Hk. apply (world_step_documented ns) in Hs as (w1&w2&Hbefore&Heff&Hafter).
  assert (Henvs : forall u u', rtc (env ns) u u' -> policies_keyed u -> policies_keyed u').
  { induction 1 as [u|u1 u2 u3 He _ IH]; [done|]. intros Hu. by eapply IH, env_keyed. }
  eapply Henvs; [done|]. eapply effect_keyed; [done|]. by eapply Henvs.
Qed.
End leftovers.

(** C4: a deletion leaves nothing behind.  Whatever happened to an Extension
    before - failed and repeated operations, changes of its configuration,
    hibernation - after a successful Delete its seed namespace holds neither its
    ManagedResource nor its generated secrets nor the NetworkPolicy controller
    nor the controller's access secret.  If it was never migrated or
    force-deleted, none of the shipped objects is left in the shoot.  And no
    managed policy is left in a shoot that lives on, provided pods stop with
    their Deployment. *)
Theorem extension_leaves_nothing_behind `{Libraries} `{Serialization} ns `{WorldStep} `{!DocumentedWorld ns}
    c iv ex h cluster w w' :
  ex_Namespace ex = ns -> seed_ok (w_seed w) ->
  history ns c iv ex (h ++ [(VDelete, cluster, Ok tt)]) w w' ->
  w_resources w' !! resourceKey ns = None /\ generatedIn w' (secretsKey ns) = ∅ /\ torn_down ns w' /\
  (Forall (fun '(v, _, _) => owning v = true) h -> tracked ns w -> w_objects w' = ∅) /\
  (PromptTermination ns -> attended ns w -> policies_keyed w -> shootAlive (cl_Shoot cluster) = true ->
   forall k p, w_policies w' !! k = Some p -> ~ managed p).
Proof.
  intros Hns Hok Hh. pose proof Hh as Hh'. apply history_snoc in Hh as (w1&w2&Hh1&Hname&Hr&Henv).
  destruct (history_refines ns c iv ex Hns _ _ _ Hok Hh1) as (_&Hok1&_).
  destruct (run_verb_view ns c iv ex Hns VDelete cluster _ _ _ Hname Hok1 Hr) as ((l&Hl&Hp)&Hok2&_).
  destruct (envs_view ns _ _ Henv Hok2) as (Hp'&_&_).
  destruct Hl as (p&->&_&->).
  assert (Hend : view ns w' = mkState Absent None ∅).
  { apply uninstalled in Hp. rewrite Hp in Hp'. by apply performs_nothing in Hp'. }
  destruct (Delete_inv ns c iv ex cluster Hns Hname (w1 <| w_cluster := cluster |>) w2)
    as (u1&u2&u3&Hu1&Htear&Hprune&Hkeeps&Hrest); [by split|exact Hr|].
  apply (Teardown_torn_down ns iv) in Htear as Htorn; [|by apply Hu1].
  assert (Hnone : w_resources w' !! resourceKey ns = None).
  { apply (f_equal shipping) in Hend. simpl in Hend. by destruct (w_resources w' !! resourceKey ns). }
  split_and!; [done|by apply (f_equal generated) in Hend| | |].
  - apply envs_silent in Henv as [Hseed _]. unfold torn_down. rewrite Hseed. fold (torn_down ns w2).
    destruct (Hrest (torn_down ns) (step_torn_down ns)) as [H23 H3]. auto.
  - intros Hall Ht. assert (Hall' : Forall (fun '(v, _, _) => owning v = true) (h ++ [(VDelete, cluster, Ok tt)])).
    { apply Forall_app_2; [exact Hall|]. apply Forall_singleton. reflexivity. }
    pose proof (history_tracked ns c iv ex _ _ _ Hall' Hh' Ht) as Ht'. clear Ht. rename Ht' into Ht.
    unfold tracked in Ht. by rewrite Hnone in Ht.
  - intros Hprompt Hatt Hkeyed Halive k q Hq Hm. rewrite Halive in Hprune.
    assert (Hc : cleared ns [] w').
    { eapply envs_cleared; [exact Henv|]. destruct (Hrest (cleared ns []) (step_cleared ns [])) as [_ H3]. apply H3.
      apply (pruned_cleared ns iv u1 u2 u3 (ok_seed _ _ Hu1) Htear); [| |exact Hprune].
      - apply Hkeeps; [exact (prompt ns)|].
        exact (history_keeps ns c iv ex _ h _ _ (prompt ns) (env_attended ns) (fun w _ Hw => Hw) Hh1 Hatt).
      - apply Hkeeps; [exact (step_keyed ns)|].
        exact (history_keeps ns c iv ex _ h _ _ (step_keyed ns) (env_keyed ns) (fun w _ Hw => Hw) Hh1 Hkeyed). }
    apply (not_elem_of_nil q). exact (cleared_policies _ _ _ Hc k q Hq Hm).
Qed.

(** C10: switching the feature off converges to no managed policies.  Where pods
    stop with their Deployment, a successful Reconcile of an awake, living shoot
    whose configuration does not ask for data-plane NetworkPolicies leaves
    neither the controller, nor its access secret, nor a managed policy -
    whatever the controller, while it ran, and the users did before and
    meanwhile. *)
Theorem disabling_clears_policies `{Libraries} `{Serialization} ns `{WorldStep} `{!DocumentedWorld ns}
    `{!PromptTermination ns} c iv ex cluster sh cfg w w' :
  ex_Namespace ex = ns -> cl_Name cluster = ns -> w_cluster w = cluster -> seed_ok (w_seed w) ->
  attended ns w -> policies_keyed w ->
  cl_Shoot cluster = Some sh -> shootDeleting (Some sh) = false -> HibernationIsEnabled sh = false ->
  egConfigOf (theActuator c iv) (sh_KubernetesVersion sh) (ex_ProviderConfig ex) = mret cfg ->
  ManageDataPlaneNetworkPolicies cfg = false ->
  runs_in world_step (run_verb c iv ex VReconcile) w (Ok tt) w' ->
  torn_down ns w' /\ (forall k p, w_policies w' !! k = Some p -> ~ managed p).
Proof.
  intros Hns Hname Hw Hok Hatt Hkeyed Hsh Hdel Hhib Hcfg Hoff Hr.
  destruct (Reconcile_disabled_inv ns c iv ex cluster Hns Hname sh cfg w w' Hsh Hdel Hhib Hcfg Hoff)
    as (w1&w2&w3&Hseed&Htear&Hprune&Hkeeps&Hrest); [by split|exact Hr|].
  assert (Hc : cleared ns [] w').
  { apply Hrest; [exact (step_cleared ns [])|]. rewrite <- Hseed in Hok.
    apply (pruned_cleared ns iv w1 w2 w3 Hok Htear); [| |exact Hprune].
    - exact (Hkeeps _ (prompt ns) Hatt).
    - exact (Hkeeps _ (step_keyed ns) Hkeyed). }
  split; [exact (cleared_seed _ _ _ Hc)|]. intros k p Hp Hm. apply (not_elem_of_nil p).
  exact (cleared_policies _ _ _ Hc k p Hp Hm).
Qed.
