(* ===== verification/ExtensionProgress.v ===== *)
(** * Operations come to their end

    No operation fails by itself.  Where every call is answered, no user Gateway
    is in the way and the configuration can be built, an operation succeeds and
    has performed its whole script. *)

From S2P Require Import Prelude GoStd Errors Effects KubeObjects Constants Config External.
From S2P Require Import Interfaces.
From S2P Require Import Secrets Manifests Deployer Codec GatewayGuard OrphanSweep.
From S2P Require Import DataPlanePolicies DataplaneNetpol.
From S2P Require Import NetpolDeployer Actuator ActuatorSpecs ActuatorLemmas ActuatorProps.
From S2P Require Import NetpolLifecycle.
From S2P Require Import Scripts ExtensionWorld ExtensionSpec ExtensionActions ExtensionLifecycle.

(** ** Calls that are answered *)

Section healthy.
Context `{Libraries}.

Definition answered {A} (r : A + error) : Prop := match r with inl _ => True | inr _ => False end.

(** The call succeeds, or there is nothing to do it to. *)
Definition answered_or_missing {A} (r : A + error) : Prop :=
  match r with inl _ => True | inr e => IsNotFound e = true end.

(** All that the extension asks the secrets-manager for. *)
Definition complete (data : gmap string (gmap string string)) : Prop :=
  exists ca server client hmac,
    data !! CASecretName = Some ca /\ data !! XDSServerCertSecretName = Some server /\
    data !! EnvoyClientCertSecretName = Some client /\ data !! HMACSecretName = Some hmac /\
    Forall (fun '(secret, key) => dataOf secret key <> "")
      [(ca, DataKeyCertificateCA); (server, DataKeyCertificate); (server, DataKeyPrivateKey);
       (client, DataKeyCertificate); (client, DataKeyPrivateKey); (hmac, HMACSecretKey)].

(** A good day in [cluster], whose users have no Gateways. *)
Definition healthy (cluster : Cluster) (c : call) : ans c -> Prop :=
  match c with
  | Now | CounterInc _ _ | GaugeSetSince _ _ _ | PollWait _ => fun _ => True
  | GetCluster _ => fun r => r = inl cluster
  | GenerateAllSecrets _ _ => fun r => exists data, r = inl data /\ complete data
  | External.ListGateways _ => fun r => r = inl []
  | SecretsManagerForCluster _ _ _ | SerializedObjects _ | InjectGenericKubeconfig _ _ _ => answered
  | ListObjects _ _ | ListNetworkPolicies _ | ReconcileShootAccessSecret _ _ _ => answered
  | SMCleanup _ | CreateForShoot _ _ _ _ _ | DeleteManagedResource _ _ _ | WaitUntilManagedResourceDeleted _ _ _
  | SeedCreateOrUpdateDeployment _ _ _ | SeedPatchDeployment _ _ | RegisterScheme _ | NewClientForShoot _
  | RemoveFinalizers _ _ | DeleteObject _ _ _ | CreateOrUpdateNetworkPolicy _ _ _ => answered
  | SeedGetDeployment _ _ | SetKeepObjects _ _ _ | SeedDelete _ _ _ | DeleteGateway _ _
  | DeleteNetworkPolicy _ _ | GetGatewayClass _ => answered_or_missing
  end.

(** ** Programs that succeed *)

Section succeeds.
Context {W : Type} (step : W -> forall c, ans c -> W -> Prop) (cluster : Cluster).
Hypothesis Hhealthy : forall w c r w', step w c r w' -> healthy cluster c r.

Definition succeeds {A} (m : IO A) (Q : A -> Prop) : Prop :=
  ensures step (fun _ => True) m (fun a _ => Q a) (fun _ => False).

Lemma succeeds_mret {A} (a : A) (Q : A -> Prop) : Q a -> succeeds (mret a) Q.
Proof using Type. by intros HQ w r w' _ [-> ->]. Qed.

Lemma succeeds_bind {A B} (m : IO A) (f : A -> IO B) P (Q : B -> Prop) :
  succeeds m P -> (forall a, P a -> succeeds (f a) Q) -> succeeds (m ≫= f) Q.
Proof using Type.
  intros Hm Hf. eapply ensures_bind; [exact Hm|]. intros a w r w' Ha. by apply (Hf a Ha).
Qed.

(** ... of which the result does not matter. *)
Lemma succeeds_then {A B} (m : IO A) (f : A -> IO B) (Q : B -> Prop) :
  succeeds m (fun _ => True) -> (forall a, succeeds (f a) Q) -> succeeds (m ≫= f) Q.
Proof using Type. intros Hm Hf. eapply succeeds_bind; [exact Hm|]. auto. Qed.

Lemma succeeds_wrapf {A} pre (m : IO A) Q : succeeds m Q -> succeeds (wrapf pre m) Q.
Proof using Type. apply ensures_wrapf. Qed.

Lemma succeeds_attempt {A} (m : IO A) Q :
  succeeds m Q -> succeeds (attempt m) (fun r => exists a, r = inl a /\ Q a).
Proof using Type.
  intros Hm w r w' _ (x&w1&H1&H2)%runs_in_pbind. specialize (Hm _ _ _ I H1).
  destruct x as [a|e|p]; [|done..]. destruct H2 as [-> ->]. by exists a.
Qed.

(** Whatever its result, as long as it has one. *)
Lemma succeeds_try {A} (m : IO A) : no_panic m -> succeeds (attempt m) (fun _ => True).
Proof using Type.
  intros Hm w r w' _ (x&w1&H1&H2)%runs_in_pbind. destruct (runs_in_runs _ _ _ _ _ H1) as [t Ht].
  destruct x as [a|e|p]; [by destruct H2 as [-> ->]..|]. by apply Hm in Ht.
Qed.

Lemma succeeds_lift {A} (p : io A) : succeeds (lift p) (fun _ => True).
Proof using Type. by intros w r w' _ (x&w1&H1&[-> ->])%runs_in_pbind. Qed.

Lemma succeeds_request c {A} (res : ans c -> A + error) (Q : A -> Prop) :
  (forall r, healthy cluster c r -> match res r with inl a => Q a | inr _ => False end) ->
  succeeds (Call c (fun r => Ret (of_result (res r)))) Q.
Proof using Type*.
  intros Hc w r w' _ (x&w1&Hs&[-> ->]). specialize (Hc _ (Hhealthy _ _ _ _ Hs)). by destruct (res x).
Qed.

Lemma succeeds_ignoring c (res : ans c -> unit + error) :
  (forall r, healthy cluster c r -> answered_or_missing (res r)) ->
  succeeds (ignoreNotFound (Call c (fun r => Ret (of_result (res r))))) (fun _ => True).
Proof using Type*.
  intros Hc w r w' _ (x&w1&Hs&Hr). specialize (Hc _ (Hhealthy _ _ _ _ Hs)).
  destruct (res x) as [[]|e]; cbn in Hr, Hc; [|rewrite Hc in Hr]; by destruct Hr as [-> ->].
Qed.

Lemma succeeds_for_each {A} (l : list A) (f : A -> IO unit) :
  (forall x, succeeds (f x) (fun _ => True)) -> succeeds (for_each l f) (fun _ => True).
Proof using Type.
  intros Hf. induction l as [|x l IH]; [by apply succeeds_mret|]. apply succeeds_then; [apply Hf|]. by intros _.
Qed.

Lemma succeeds_use {A B} (x : A) (f : A -> IO B) Q : succeeds (f x) Q -> succeeds (nonNil (Some x) ≫= f) Q.
Proof using Type. done. Qed.

(** A poll whose first try succeeds. *)
Lemma succeeds_poll {S} ticks interval (condition : S -> io (outcome (bool * S))) s Q :
  succeeds (condition s) (fun '(done, s') => done = true /\ Q s') ->
  succeeds (PollUntilContextCancel ticks interval condition s) (fun '(done, s') => done = true /\ Q s').
Proof using Type.
  intros Hc. destruct ticks; simpl; (eapply succeeds_bind; [exact Hc|]); intros [b s'] [-> HQ]; by apply succeeds_mret.
Qed.

Lemma succeeds_recorded name op (body : IO unit) :
  succeeds body (fun _ => True) -> succeeds (recorded name op body) (fun _ => True).
Proof using Type.
  intros Hb. apply succeeds_then; [apply succeeds_lift|]. intros start w r w' _ (x&w1&H1&H2)%runs_in_pbind.
  specialize (Hb _ _ _ I H1). apply runs_in_pbind in H2 as (u&w2&_&[-> ->]). by destruct x.
Qed.
End succeeds.
End healthy.

(** One step through a program that succeeds, up to the attempts. *)
Ltac succeed_step :=
  lazymatch goal with
  | |- succeeds _ (mbind _ (nonNil (Some _))) _ => apply succeeds_use
  | |- succeeds _ (mbind _ (attempt _)) _ => fail
  | |- succeeds _ (mbind _ _) _ => apply succeeds_then; [|intros ?]
  | |- succeeds _ (wrapf _ _) _ => apply succeeds_wrapf
  | |- succeeds _ (lift _) _ => apply succeeds_lift
  | |- succeeds _ (mret _) _ => apply succeeds_mret; exact I
  | |- succeeds _ (Ret (Ok ?x)) _ => apply (succeeds_mret _ x); exact I
  | |- succeeds _ (for_each _ _) _ => apply succeeds_for_each; intros ?
  | |- succeeds _ (ignoreNotFound (Call ?c _)) _ =>
      eapply (succeeds_ignoring _ _ ltac:(eassumption) c (fun r => r)); intros ? ?; assumption
  | |- succeeds _ (Call ?c _) _ =>
      eapply (succeeds_request _ _ ltac:(eassumption) c (fun r => r)); intros [?|?] ?; [exact I|contradiction]
  end.

Section operations.
Context `{Libraries} {W : Type} (step : W -> forall c, ans c -> W -> Prop) (ns : string) (cluster : Cluster).
Hypothesis Hhealthy : forall w c r w', step w c r w' -> healthy cluster c r.
Context (c : Client) (iv : ImageVector) (ex : Extension).
Hypothesis Hns : ex_Namespace ex = ns.

#[local] Existing Instance theActuator_spec.

Lemma Teardown_succeeds : succeeds step (netpolControllerDeployer.Teardown ns) (fun _ => True).
Proof using Hhealthy.
  unfold netpolControllerDeployer.Teardown. succeed_step. destruct x as [kind name]. repeat succeed_step.
Qed.

Lemma prune_succeeds : succeeds step (dataPlaneNetworkPolicyReconciler.Reconcile ns) (fun _ => True).
Proof using Hhealthy.
  unfold dataPlaneNetworkPolicyReconciler.Reconcile, orphanDataPlaneSweeper.kubernetesScheme,
    dataPlaneNetworkPolicyReconciler.prunePolicy. repeat succeed_step.
Qed.

Lemma ScaleDown_succeeds : succeeds step (netpolControllerDeployer.ScaleDown ns) (fun _ => True).
Proof using Hhealthy.
  intros w r w' _ (x&w1&Hs&Hr). apply Hhealthy in Hs. cbn in Hs, Hr.
  destruct x as [d|e]; cbn in Hs, Hr; [|rewrite Hs in Hr; by destruct Hr as [-> ->]].
  revert Hr. assert (Hm : succeeds step (wrapf "failed to scale down netpol-controller Deployment: "
    (request (SeedPatchDeployment d (netpolControllerDeployer.scaledToZero d)))) (fun _ => True)) by repeat succeed_step.
  exact (Hm w1 r w' I).
Qed.

Lemma Ensure_succeeds d :
  netpolControllerDeployer.deployment iv ns = Ok d ->
  succeeds step (netpolControllerDeployer.Ensure iv cluster ns) (fun _ => True).
Proof using Hhealthy.
  intros Hd. unfold netpolControllerDeployer.Ensure. succeed_step; [repeat succeed_step|].
  rewrite Hd. repeat succeed_step.
Qed.

Lemma fetch_succeeds : succeeds step (realGatewayLister.fetchGatewayList ns) (fun l => l = []).
Proof using Hhealthy.
  unfold realGatewayLister.fetchGatewayList, realGatewayLister.shootClient, realGatewayLister.newGatewayScheme.
  succeed_step; [repeat succeed_step|]. eapply (succeeds_bind step); [apply (succeeds_attempt step _ (fun l => l = []))|].
  - apply (succeeds_request step cluster Hhealthy (External.ListGateways []) (fun r => r)). intros r Hr. cbn in Hr. by rewrite Hr.
  - intros r (l&->&->). by apply succeeds_mret.
Qed.

Lemma wait_succeeds ticks : succeeds step (realGatewayLister.WaitUntilGatewaysDeleted ticks ns) (fun _ => True).
Proof using Hhealthy.
  unfold realGatewayLister.WaitUntilGatewaysDeleted. eapply (succeeds_bind step).
  - apply (succeeds_poll step _ _ _ _ (fun _ => True)). unfold realGatewayLister.gatewaysGone.
    eapply (succeeds_bind step); [apply succeeds_attempt, fetch_succeeds|]. intros r (l&->&->). by apply succeeds_mret.
  - intros [gone lastErr] [-> _]. by apply succeeds_mret.
Qed.

Lemma drain_succeeds : succeeds step (drainUserGatewaysForShootDeletion (theActuator c iv) ns) (fun _ => True).
Proof using Hhealthy.
  unfold drainUserGatewaysForShootDeletion. apply succeeds_use.
  apply succeeds_then; [apply succeeds_try, NewGatewayLister_spec|]. intros _.
  apply succeeds_then; [apply succeeds_try, NewGatewayLister_spec|]. intros _.
  eapply (succeeds_bind step); [apply succeeds_attempt, wait_succeeds|]. intros r (u&->&_).
  apply succeeds_then; [by apply succeeds_mret|]. intros _.
  apply succeeds_then; [apply succeeds_try, NewGatewayLister_spec|]. intros _. by apply succeeds_mret.
Qed.

Lemma check_succeeds shoot : succeeds step (checkNoUserGateways (theActuator c iv) shoot ns) (fun _ => True).
Proof using Hhealthy.
  unfold checkNoUserGateways. destruct (shootDeleting shoot); [apply drain_succeeds|]. apply succeeds_use.
  eapply (succeeds_bind step _ _ (fun names => names = [])).
  - apply succeeds_wrapf. eapply (succeeds_bind step); [apply fetch_succeeds|]. intros l ->. by apply succeeds_mret.
  - intros names ->. by apply succeeds_mret.
Qed.

Lemma reconcileSecrets_succeeds cl : succeeds step (reconcileSecrets cl ns) (fun tls => bundleComplete tls = true).
Proof using Hhealthy.
  unfold reconcileSecrets. succeed_step; [repeat succeed_step|].
  eapply (succeeds_bind step _ _ complete).
  { apply succeeds_wrapf, (succeeds_request step cluster Hhealthy (GenerateAllSecrets a SecretConfigs) (fun r => r)).
    intros r (data&->&Hdata). exact Hdata. }
  intros data (ca&server&client&hmac&->&->&->&->&Hall).
  assert (Hcomplete : forall b, CertPEM b = dataOf server DataKeyCertificate -> KeyPEM b = dataOf server DataKeyPrivateKey ->
    CAPEM b = dataOf ca DataKeyCertificateCA -> ClientCertPEM b = dataOf client DataKeyCertificate ->
    ClientKeyPEM b = dataOf client DataKeyPrivateKey -> HMACBytes b = dataOf hmac HMACSecretKey -> bundleComplete b = true).
  { intros b H1 H2 H3 H4 H5 H6. unfold bundleComplete. rewrite H1, H2, H3, H4, H5, H6. decompose_Forall_hyps.
    unfold present. rewrite !andb_true_iff, !bool_decide_eq_true. done. }
  match goal with |- context [bundleComplete ?b] => assert (Hb : bundleComplete b = true) by (by apply Hcomplete) end.
  rewrite Hb. cbn [negb]. succeed_step; [repeat succeed_step|]. by apply succeeds_mret.
Qed.

(** *** The operations *)

(** The configuration is valid, the images it needs are known and the codec
    encodes the APIs it is built for. *)
Definition buildable (sh : Shoot) : Prop :=
  (exists cfg, egConfigOf (theActuator c iv) (sh_KubernetesVersion sh) (ex_ProviderConfig ex) = mret cfg) /\
  (exists img, iv ImageName = inl img) /\ (exists img, iv ExtensionImageName = inl img) /\
  codec_encodes shootSchemeAPIs shootCodecVersions.

Definition ready (v : verb) : Prop :=
  match v with
  | VReconcile | VRestore => exists sh, cl_Shoot cluster = Some sh /\
      (shootDeleting (Some sh) = false -> HibernationIsEnabled sh = false -> buildable sh)
  | VDelete | VForceDelete | VMigrate => True
  end.

Lemma get_cluster_succeeds {A} pre (f : Cluster -> IO A) Q :
  succeeds step (f cluster) Q -> succeeds step (wrapf pre (request (GetCluster ns)) ≫= f) Q.
Proof using Hhealthy.
  intros Hf. eapply (succeeds_bind step _ _ (fun cl => cl = cluster)); [|by intros cl ->].
  apply succeeds_wrapf, (succeeds_request step cluster Hhealthy (GetCluster ns) (fun r => r)). intros r Hr. cbn in Hr. by rewrite Hr.
Qed.

Lemma install_succeeds sh : buildable sh ->
  succeeds step
    (egConfig ← egConfigOf (theActuator c iv) (sh_KubernetesVersion sh) (ex_ProviderConfig ex);
     tlsBundle ← wrapf "failed to reconcile envoy-gateway TLS secrets: " (reconcileSecrets cluster ns);
     wrapf "failed to deploy envoy-gateway: " (Deploy egConfig iv ns tlsBundle) ;;
     attempt (orphanDataPlaneSweeper.Sweep ns) ;;
     if ManageDataPlaneNetworkPolicies egConfig then
       wrapf "failed to ensure data-plane NetworkPolicy controller: " (netpolControllerDeployer.Ensure iv cluster ns)
     else
       wrapf "failed to tear down data-plane NetworkPolicy controller: " (netpolControllerDeployer.Teardown ns) ;;
       wrapf "failed to prune data-plane NetworkPolicies after disabling the feature: "
         (dataPlaneNetworkPolicyReconciler.Reconcile ns)) (fun _ => True).
Proof using Hhealthy.
  intros ([cfg ->]&[img Himg]&[img' Himg']&Hcodec). change (succeeds step (mret cfg ≫= ?f) ?Q) with (succeeds step (f cfg) Q). cbn beta.
  eapply (succeeds_bind step); [apply succeeds_wrapf, reconcileSecrets_succeeds|]. intros tls Htls.
  destruct (buildResources_Ok Hcodec cfg iv tls img Himg) as [m Hm]. apply succeeds_then.
  { unfold Deploy. rewrite Hm. repeat succeed_step. }
  intros _. apply succeeds_then; [apply succeeds_try, (sweep_no_panic (s := orphanDataPlaneSweeper.NewOrphanDataPlaneSweeper))|].
  intros _. destruct (ManageDataPlaneNetworkPolicies cfg).
  - apply succeeds_wrapf. eapply Ensure_succeeds. unfold netpolControllerDeployer.deployment. rewrite Himg'. reflexivity.
  - apply succeeds_then; [apply succeeds_wrapf, Teardown_succeeds|]. intros _. apply succeeds_wrapf, prune_succeeds.
Qed.

Lemma ReconcileBody_succeeds :
  ready VReconcile -> succeeds step (ReconcileBody (theActuator c iv) ex) (fun _ => True).
Proof using Hhealthy Hns.
  intros (sh&Hsh&Hready). unfold ReconcileBody. rewrite Hns. apply get_cluster_succeeds. rewrite Hsh. apply succeeds_use.
  case_decide as Hd; [apply drain_succeeds|].
  destruct (HibernationIsEnabled sh) eqn:Hh.
  - apply succeeds_use, succeeds_wrapf, ScaleDown_succeeds.
  - apply install_succeeds, Hready; [by apply bool_decide_eq_false_2|done].
Qed.

Lemma leaving_succeeds pre1 pre2 :
  succeeds step (wrapf pre1 (netpolControllerDeployer.Teardown ns) ;; wrapf pre2 (DeleteKeepingObjects ns)) (fun _ => True).
Proof using Hhealthy.
  apply succeeds_then; [apply succeeds_wrapf, Teardown_succeeds|]. intros _.
  unfold DeleteKeepingObjects, deleteManagedResource. repeat succeed_step.
Qed.

Lemma DeleteBody_succeeds : succeeds step (DeleteBody (theActuator c iv) ex) (fun _ => True).
Proof using Hhealthy Hns.
  unfold DeleteBody. rewrite Hns. apply get_cluster_succeeds. apply succeeds_then; [apply check_succeeds|]. intros _.
  apply succeeds_use, succeeds_then; [apply succeeds_wrapf, Teardown_succeeds|]. intros _.
  apply succeeds_then; [|intros _; unfold DeployerDelete, deleteManagedResource, deleteSecrets; repeat succeed_step].
  destruct (shootAlive (cl_Shoot cluster)); [|by apply succeeds_mret].
  apply succeeds_use, succeeds_wrapf, prune_succeeds.
Qed.

Lemma run_verb_succeeds v : ready v -> succeeds step (run_verb c iv ex v) (fun _ => True).
Proof using Hhealthy Hns.
  intros Hready. destruct v; simpl;
    [unfold Reconcile|unfold RestoreOp, Reconcile|unfold Delete|unfold ForceDelete|unfold Migrate];
    rewrite Hns; apply succeeds_recorded.
  - by apply ReconcileBody_succeeds.
  - apply succeeds_recorded. by apply ReconcileBody_succeeds.
  - apply DeleteBody_succeeds.
  - apply leaving_succeeds.
  - apply leaving_succeeds.
Qed.
End operations.

(** ** In the world of an Extension *)

Definition healthy_step `{Libraries} `{WorldStep} (cluster : Cluster) (w : world) (c : call) (r : ans c) (w' : world) : Prop :=
  world_step w c r w' /\ healthy cluster c r.

(** C8: operations come to their end.  Where every call is answered and users
    have no Gateways in the shoot, each operation of an Extension whose
    configuration can be built succeeds and performs its whole script: a
    Reconcile or Restore installs what the configuration describes, or scales
    the controller down, or leaves a deleted shoot alone; a Delete, ForceDelete
    or Migrate removes what it is to remove. *)
Theorem healthy_operations_succeed `{Libraries} `{Serialization} ns `{WorldStep} `{!DocumentedWorld ns}
    c iv ex v cluster w r w' :
  ex_Namespace ex = ns -> cl_Name cluster = ns -> w_cluster w = cluster -> seed_ok (w_seed w) ->
  ready cluster c iv ex v -> runs_in (healthy_step cluster) (run_verb c iv ex v) w r w' ->
  r = Ok tt /\
  exists p, plans v cluster p /\ performs (script p) (view ns w) (view ns w') /\
    forall m policies, p = Install m policies ->
      exists sh, cl_Shoot cluster = Some sh /\ builds (theActuator c iv) ex sh m policies.
Proof.
  intros Hns Hname Hw Hok Hready Hr.
  assert (r = Ok tt) as ->.
  { pose proof (run_verb_succeeds (healthy_step cluster) ns cluster (fun _ _ _ _ Hs => proj2 Hs) c iv ex Hns v Hready w r w' I Hr) as Hres.
    by destruct r as [[]| |]. }
  split; [done|]. apply (runs_in_mono _ world_step) in Hr; [|by intros ???? [Hs _]].
  assert (Hr' : runs_in world_step (run_verb c iv ex v) (w <| w_cluster := cluster |>) (Ok tt) w').
  { rewrite <- Hw. destruct w. exact Hr. }
  destruct (run_verb_view ns c iv ex Hns v cluster _ _ _ Hname Hok Hr') as ((l&(p&Hp&Hb&->)&Hl)&_&_).
  exists p. split_and!; [done|done|]. intros m policies ->. apply (Hb m policies eq_refl). simpl. set_solver.
Qed.
