(* ===== verification/ExtensionAdmission.v ===== *)
(** * From admission to reconciliation

    The webhook and the actuator each check the configuration of a Shoot.  On a
    good day what the webhook decides is what a Reconcile of the Extension comes
    to: the Shoots it lets through are installed, and for the others nothing is
    done at all. *)

From S2P Require Import Prelude GoStd Errors Effects KubeObjects Constants Config External.
From S2P Require Import Interfaces Manifests Deployer Codec Actuator ActuatorSpecs ActuatorLemmas.
From S2P Require Import ActuatorProps ErrorClasses Validator.
From S2P Require Import NetpolLifecycle Scripts ExtensionWorld ExtensionSpec ExtensionActions.
From S2P Require Import ExtensionLifecycle ExtensionProgress.

(** The Extension that Gardener makes for a Shoot, whose validation allows one
    entry of a type: it carries the configuration of the entry.  A configuration
    that is present is not the empty text. *)
Definition carries (shoot : Shoot) (ex : Extension) : Prop :=
  exists entry, entries shoot = [entry] /\ ex_ProviderConfig ex = ext_ProviderConfig entry /\
    ex_ProviderConfig ex <> Some ""%string.

Section configuration.
Context `{Libraries}.

Lemma carries_configuration shoot ex :
  carries shoot ex -> configuration shoot = default ""%string (ex_ProviderConfig ex).
Proof.
  intros (entry&Hentries&->&_). unfold configuration. rewrite Hentries. simpl. by destruct (ext_ProviderConfig entry).
Qed.

(** The webhook lets a Shoot through iff the actuator can use the Extension's
    configuration. *)
Lemma validateShoot_configures c iv ex shoot version :
  enabled shoot -> sh_Purpose shoot = Some ShootPurposeEvaluation -> carries shoot ex ->
  (exists ws, validateShoot (client_UniversalDecoder c) shoot = inl ws) <->
  (exists cfg, egConfigOf (theActuator c iv) version (ex_ProviderConfig ex) = mret cfg).
Proof.
  intros Hen Hp Hcarries. rewrite validateShoot_accepts by done. rewrite (carries_configuration _ _ Hcarries).
  destruct Hcarries as (entry&_&_&Hne). destruct (ex_ProviderConfig ex) as [raw|].
  - pose proof (egConfigOf_accepts (client_UniversalDecoder c) (theActuator c iv) version raw eq_refl) as ->.
    simpl. naive_solver.
  - split; intros _; [by eexists|by left].
Qed.

(** What it cannot use it reports as a configuration error. *)
Lemma egConfigOf_error c iv version raw :
  let decode := client_UniversalDecoder c in
  ~ (exists cfg, egConfigOf (theActuator c iv) version raw = mret cfg) ->
  exists e, egConfigOf (theActuator c iv) version raw = throw e /\
    ((forall text e', raw = Some text -> decode text = inr e' -> benign e') ->
     classifyError (Some e) = ReasonInvalidProviderConfig).
Proof.
  intros decode Hno. destruct raw as [text|]; [|destruct Hno; by eexists]. unfold egConfigOf in *.
  change (nonNil (decoder (theActuator c iv)) ≫= ?f) with (f decode) in *. cbn beta in *.
  destruct (decode text) as [cfg|e'] eqn:Hd.
  - cbn in *. pose proof (applyConfig_not_panic cfg (withVersion version DefaultConfig)) as Hnp.
    destruct (applyConfig cfg _) as [cfg'|e|w] eqn:Ha; [destruct Hno; by eexists| |by destruct (Hnp w)].
    exists e. split; [done|]. intros _. by eapply classifyError_typed.
  - eexists. split; [reflexivity|]. intros Hb.
    rewrite classifyError_wrapped; [reflexivity|vm_compute; reflexivity|by eapply Hb].
Qed.
End configuration.

(** ** Executions that leave the world alone *)

Section idle.
Context `{Libraries} `{Serialization} (ns : string) `{WorldStep} `{!DocumentedWorld ns}.

(** The call changes nothing. *)
Definition idle_call (c : call) : bool :=
  is_telemetry c || match c with GetCluster _ => true | _ => false end.

Lemma idle_step w c r w' : idle_call c = true -> world_step w c r w' -> rtc (env ns) w w'.
Proof using Type*.
  intros Hc Hs. apply (world_step_documented ns) in Hs as (w1&w2&Hbefore&Heff&Hafter).
  assert (w2 = w1) as ->; [|by etrans].
  destruct c; try discriminate Hc; cbn in Heff; [..|by destruct Heff];
    destruct Heff as (s&->&->); by destruct w1.
Qed.

Lemma idle_execution {A} (p : io A) w a w' :
  emits (fun e => idle_call (ecall e) = true) p -> runs_in world_step p w a w' -> rtc (env ns) w w'.
Proof using Type*.
  intros Hp Hr. eapply (preserves_calls world_step); [apply _| |exact Hp|exact Hr]. intros ????. apply idle_step.
Qed.
End idle.

(** An operation is its body between telemetry. *)
Lemma recorded_execution {W} (step : W -> forall c, ans c -> W -> Prop) (R : relation W) name op (body : IO unit) w r w' :
  PreOrder R -> (forall w c x w', is_telemetry c = true -> step w c x w' -> R w w') ->
  runs_in step (recorded name op body) w r w' ->
  exists w1 w2, R w w1 /\ runs_in step body w1 r w2 /\ R w2 w'.
Proof.
  intros HR Hstep Hr. apply runs_in_pbind in Hr as (start&w1&(x&w0&Hs&[-> ->])&Hr). cbn beta iota in Hr. unfold deferred in Hr.
  apply runs_in_pbind in Hr as (r1&w2&Hb&Hr).
  apply runs_in_pbind in Hr as (u&w3&Ht&Hr). destruct Hr as [-> ->].
  exists w0, w2. split; [by eapply (Hstep _ Now)|]. split; [done|].
  eapply (preserves_calls step R (fun e => is_telemetry (ecall e) = true)); [done| | |exact Ht].
  - intros ????. exact (Hstep _ _ _ _).
  - unfold recordOperation. emits_auto; done.
Qed.

(** ** What the webhook decides *)

Section decided.
Context `{Libraries} `{Serialization} (ns : string) `{WorldStep} `{!DocumentedWorld ns}.
Context (c : Client) (iv : ImageVector) (ex : Extension) (cluster : Cluster) (sh : Shoot).
Hypothesis Hshoot : cl_Shoot cluster = Some sh.
Hypothesis Halive : shootDeleting (Some sh) = false.
Hypothesis Hawake : HibernationIsEnabled sh = false.

#[local] Abbreviation configured :=
  (egConfigOf (theActuator c iv) (sh_KubernetesVersion sh) (ex_ProviderConfig ex)).

(** Without a configuration a Reconcile comes to nothing. *)
Lemma unconfigured_idle e w r w' :
  configured = throw e ->
  runs_in (healthy_step cluster) (Reconcile (theActuator c iv) ex) w r w' -> r = Err e /\ rtc (env ns) w w'.
Proof using Type*.
  intros He Hr. apply (recorded_execution _ (rtc (env ns))) in Hr as (w1&w2&Hbefore&Hr&Hafter); [|apply _|].
  2: { intros u call x u' Hc [Hs _]. eapply (idle_step ns); [|exact Hs]. unfold idle_call. by rewrite Hc. }
  unfold ReconcileBody in Hr. apply runs_in_request in Hr as (x&w3&[Hs Hx]&Hr). cbn in Hx. subst x.
  apply (idle_step ns) in Hs; [|done]. rewrite Hshoot in Hr.
  change (nonNil (Some sh) ≫= ?f) with (f sh) in Hr. cbn beta in Hr.
  rewrite decide_False in Hr by (by apply bool_decide_eq_false in Halive).
  rewrite Hawake, He in Hr. destruct Hr as [-> ->]. split; [done|]. etrans; [exact Hbefore|]. by etrans.
Qed.
End decided.

(** C11: what the webhook decides is what a Reconcile comes to.  Take a living,
    awake Shoot of the right purpose that enables the extension, the Extension
    Gardener makes for it, and a good day: every call is answered, users have no
    Gateways, the images are known and the codec encodes.  The webhook admits
    the Shoot iff Reconcile succeeds.  If it does not admit it, Reconcile fails
    without having changed anything in the seed or the shoot, and the error is
    counted as one of the configuration (unless the decoder's text imitates
    another phase). *)
Theorem admission_decides_reconciliation `{Libraries} `{Serialization} ns `{WorldStep} `{!DocumentedWorld ns}
    (c : Client) (iv : ImageVector) ex cluster sh w r w' :
  ex_Namespace ex = ns -> cl_Shoot cluster = Some sh ->
  shootDeleting (Some sh) = false -> HibernationIsEnabled sh = false ->
  enabled sh -> sh_Purpose sh = Some ShootPurposeEvaluation -> carries sh ex ->
  (exists img, iv ImageName = inl img) -> (exists img, iv ExtensionImageName = inl img) ->
  codec_encodes shootSchemeAPIs shootCodecVersions ->
  runs_in (healthy_step cluster) (Reconcile (theActuator c iv) ex) w r w' ->
  ((exists ws, validateShoot (client_UniversalDecoder c) sh = inl ws) <-> r = Ok tt) /\
  (r <> Ok tt ->
     rtc (env ns) w w' /\
     exists e, r = Err e /\
       ((forall text e', ex_ProviderConfig ex = Some text -> client_UniversalDecoder c text = inr e' -> benign e') ->
        classifyError (Some e) = ReasonInvalidProviderConfig)).
Proof.
  intros Hns Hsh Halive Hawake Hen Hp Hcarries Himg Himg' Hcodec Hr.
  rewrite (validateShoot_configures c iv ex sh (sh_KubernetesVersion sh)) by done.
  assert (Hok : (exists cfg, egConfigOf (theActuator c iv) (sh_KubernetesVersion sh) (ex_ProviderConfig ex) = mret cfg) ->
                r = Ok tt).
  { intros Hcfg. assert (Hready : ready cluster c iv ex VReconcile) by (by exists sh; split).
    pose proof (run_verb_succeeds (healthy_step cluster) ns cluster (fun _ _ _ _ Hs => proj2 Hs) c iv ex Hns
      VReconcile Hready w r w' I Hr) as Hres. by destruct r as [[]| |]. }
  destruct (egConfigOf_pure c iv (sh_KubernetesVersion sh) (ex_ProviderConfig ex)) as ([cfg|e|why]&Hcfg&Hnp);
    [|clear Hnp|by destruct (Hnp why)].
  - rewrite Hok by (by exists cfg). split; [split; [done|by exists cfg]|done].
  - destruct (egConfigOf_error c iv (sh_KubernetesVersion sh) (ex_ProviderConfig ex)) as (e'&He&Hclass).
    { intros [cfg Hcfg']. rewrite Hcfg in Hcfg'. discriminate Hcfg'. }
    destruct (unconfigured_idle ns c iv ex cluster sh Hsh Halive Hawake e' w r w' He Hr) as [-> Henv].
    split; [|intros _; split; [exact Henv|by exists e']].
    rewrite Hcfg. split; [intros [cfg Hcfg']; discriminate Hcfg'|done].
Qed.
