(* ===== verification/ExtensionNeighbours.v ===== *)
(** * Neighbours on the seed

    The Extensions of many shoots share one seed.  [local] is the part of it
    that one Extension sees; the calls the actuator makes for it are [confined]
    to that part, what they do is determined by it, and they leave the parts of
    the other Extensions alone. *)

From S2P Require Import Prelude GoStd Errors Effects KubeObjects Constants Config External.
From S2P Require Import Interfaces.
From S2P Require Import Secrets Manifests Deployer GatewayGuard OrphanSweep DataPlanePolicies.
From S2P Require Import DataplaneNetpol NetpolDeployer Actuator ActuatorSpecs ActuatorLemmas.
From S2P Require Import ActuatorProps.
From S2P Require Import NetpolLifecycle Scripts ExtensionWorld ExtensionSpec ExtensionActions.
From S2P Require Import ExtensionLifecycle.

(** ** One entry of a map *)

Section only.
Context `{Countable K} {V : Type}.
Implicit Types m : gmap K V.

Definition only (k : K) m : gmap K V := match m !! k with Some v => {[k := v]} | None => ∅ end.

Lemma lookup_only k m : only k m !! k = m !! k.
Proof. unfold only. by destruct (m !! k) eqn:E; rewrite ?lookup_singleton_eq. Qed.

Lemma lookup_only_Some k m j v : only k m !! j = Some v -> j = k /\ m !! k = Some v.
Proof.
  unfold only. destruct (m !! k) as [v'|] eqn:E; [|by rewrite lookup_empty].
  intros [-> ->]%lookup_singleton_Some. done.
Qed.

(** It depends on the entry alone. *)
Lemma only_ext k m1 m2 : m1 !! k = m2 !! k -> only k m1 = only k m2.
Proof. unfold only. by intros ->. Qed.

Lemma only_insert k v m : only k (<[k := v]> m) = <[k := v]> (only k m).
Proof. unfold only. rewrite lookup_insert_eq. destruct (m !! k); by rewrite ?insert_empty, ?insert_singleton_eq. Qed.

Lemma only_insert_ne k j v m : j <> k -> only k (<[j := v]> m) = only k m.
Proof. intros Hne. apply only_ext. by rewrite lookup_insert_ne. Qed.

Lemma only_delete k m : only k (delete k m) = delete k (only k m).
Proof. unfold only. rewrite lookup_delete_eq. destruct (m !! k); by rewrite ?delete_empty, ?delete_singleton_eq. Qed.

Lemma only_delete_ne k j m : j <> k -> only k (delete j m) = only k m.
Proof. intros Hne. apply only_ext. by rewrite lookup_delete_ne. Qed.
End only.

Section local.
Context `{Libraries} `{Serialization}.
Variable ns : string.

(** ** What one Extension sees *)

Definition ours (managers : gmap nat (string * string * gset string)) : gmap nat (string * string * gset string) :=
  filter (fun x => x.2.1 = secretsKey ns) managers.

Definition local_seed (s : seed) : seed :=
  mkSeed (only (key ns) (deployments s)) (secrets s ∩ {[(ns, accessSecretName)]}).

Definition local (w : world) : world :=
  mkWorld (local_seed (w_seed w)) (only (resourceKey ns) (w_resources w)) (only (secretsKey ns) (w_generated w))
    (ours (w_managers w)) (w_cluster w) (w_objects w) (w_policies w) (w_running w).

Lemma abs_local s : NetpolLifecycle.abs (local_seed s) ns = NetpolLifecycle.abs s ns.
Proof. unfold NetpolLifecycle.abs, local_seed. simpl. by rewrite lookup_only. Qed.

Lemma generatedIn_local w : generatedIn (local w) (secretsKey ns) = generatedIn w (secretsKey ns).
Proof. unfold generatedIn. simpl. by rewrite lookup_only. Qed.

(** The view of the life cycle is a view of the local part. *)
Lemma view_local w : view ns (local w) = view ns w.
Proof. unfold view. rewrite generatedIn_local. simpl. by rewrite abs_local, lookup_only. Qed.

Lemma local_seed_ok s : seed_ok s -> seed_ok (local_seed s).
Proof.
  intros [Hk Hs]. split.
  - intros k d [-> Hd]%lookup_only_Some. by apply Hk.
  - intros n [d [Hn Hd]%lookup_only_Some]. injection Hn as ->. simpl.
    apply elem_of_intersection. split; [apply Hs; by exists d|by apply elem_of_singleton].
Qed.

Lemma ours_Some managers h x : ours managers !! h = Some x <-> managers !! h = Some x /\ x.1 = secretsKey ns.
Proof. unfold ours. by rewrite map_lookup_filter_Some. Qed.

Lemma ours_insert managers h made :
  ours (<[h := (ns, ExtensionType, made)]> managers) = <[h := (ns, ExtensionType, made)]> (ours managers).
Proof. unfold ours. by rewrite map_filter_insert_True. Qed.

Lemma ours_insert_ne managers h x :
  x.1 <> secretsKey ns -> (forall y, managers !! h = Some y -> y.1 <> secretsKey ns) ->
  ours (<[h := x]> managers) = ours managers.
Proof. intros Hx Hy. unfold ours. rewrite map_filter_insert_False by done. apply map_filter_delete_not. intros y Hm. by apply Hy. Qed.

Lemma local_set_resource m w :
  local (set_resource (resourceKey ns) m w) = set_resource (resourceKey ns) m (local w).
Proof. unfold local, set_resource, update. simpl. by rewrite only_insert. Qed.

(** ** The environment is local *)

Lemma local_resource w m : w_resources w !! resourceKey ns = Some m -> w_resources (local w) !! resourceKey ns = Some m.
Proof. simpl. by rewrite lookup_only. Qed.

Lemma env_local w w' : env ns w w' -> env ns (local w) (local w').
Proof.
  intros Henv. destruct Henv as [w m k data Hm Hdel Hk|w m k Hm Hk Hdel|w m Hm Hdel Happ|w d Hd Hr|w|w p Hr Hp|w m Hk Hm].
  - rewrite local_set_resource. exact (env_apply ns (local w) m k data (local_resource _ _ Hm) Hdel Hk).
  - rewrite local_set_resource. exact (env_prune ns (local w) m k (local_resource _ _ Hm) Hk Hdel).
  - assert (local (w <| w_resources := delete (resourceKey ns) (w_resources w) |>)
      = (local w) <| w_resources := delete (resourceKey ns) (w_resources (local w)) |>) as ->.
    { unfold local, update. simpl. by rewrite only_delete. }
    exact (env_release ns (local w) m (local_resource _ _ Hm) Hdel Happ).
  - apply (env_start ns (local w) d); [simpl; by rewrite lookup_only|done].
  - apply (env_stop ns (local w)).
  - exact (env_policy_put ns (local w) p Hr Hp).
  - exact (env_users ns (local w) m Hk Hm).
Qed.

Lemma envs_local w w' : rtc (env ns) w w' -> rtc (env ns) (local w) (local w').
Proof. induction 1 as [w|w1 w2 w3 He _ IH]; [done|]. eapply rtc_l; [by apply env_local|done]. Qed.

(** ** Confined calls *)

(** The call names nothing of another Extension, its handles are ours, and what
    it patches is what is stored. *)
Definition confined (u : world) (c : call) : Prop :=
  match c with
  | SecretsManagerForCluster cluster identity _ => cl_Name cluster = ns /\ identity = ExtensionType
  | GenerateAllSecrets h _ | SMCleanup h => exists made, w_managers u !! h = Some (ns, ExtensionType, made)
  | CreateForShoot n name _ _ _ | SetKeepObjects n name _ | DeleteManagedResource n name _
  | WaitUntilManagedResourceDeleted n name _ => (n, name) = resourceKey ns
  | ReconcileShootAccessSecret name n _ => n = ns /\ name = NetpolControllerShootAccessSecretName
  | SeedCreateOrUpdateDeployment n name _ | SeedGetDeployment n name => (n, name) = key ns
  | SeedPatchDeployment original modified =>
      (dep_Namespace modified, dep_Name modified) = key ns /\ deployments (w_seed u) !! key ns = Some original
  | SeedDelete KDeployment n name => (n, name) = key ns
  | SeedDelete KSecret n name => (n, name) = (ns, accessSecretName)
  | _ => True
  end.

Lemma local_put_deployment d s :
  local_seed (put_deployment (key ns) d s) = put_deployment (key ns) d (local_seed s).
Proof. unfold local_seed, put_deployment. simpl. by rewrite only_insert. Qed.

Lemma local_drop_deployment s : local_seed (drop_deployment (key ns) s) = drop_deployment (key ns) (local_seed s).
Proof. unfold local_seed, drop_deployment. simpl. by rewrite only_delete. Qed.

Lemma local_put_secret s :
  local_seed (put_secret (ns, accessSecretName) s) = put_secret (ns, accessSecretName) (local_seed s).
Proof. unfold local_seed, put_secret. simpl. f_equal. set_solver. Qed.

Lemma local_drop_secret s :
  local_seed (drop_secret (ns, accessSecretName) s) = drop_secret (ns, accessSecretName) (local_seed s).
Proof. unfold local_seed, drop_secret. simpl. f_equal. set_solver. Qed.

Lemma secret_local s : (ns, accessSecretName) ∉ secrets s -> (ns, accessSecretName) ∉ secrets (local_seed s).
Proof. simpl. set_solver. Qed.

Lemma write_local {A} s s1 s1' ok (r : A + error) s' :
  local_seed s1 = s1' -> write A s s1 ok r s' -> write A (local_seed s) s1' ok r (local_seed s').
Proof.
  intros <-. unfold write. destruct r as [a|e]; [by intros [-> ?]|intros [->| ->]; [by left|by right]].
Qed.

(** What a confined call does to the seed is determined by the local part. *)
Lemma seed_effect_local u s c r s' :
  w_seed u = local_seed s -> confined u c -> seed_documented s c r s' ->
  seed_documented (local_seed s) c r (local_seed s').
Proof.
  intros Hu Hc Hs. destruct c; try (by cbn in Hs |- *; subst s'); cbn [confined] in Hc; cbn [seed_documented] in Hs |- *.
  - destruct Hc as [-> ->]. cbn zeta in *. eapply write_local; [|exact Hs]. apply local_put_secret.
  - destruct Hs as [-> Hr]. by split.
  - rewrite Hc in *. eapply write_local; [|exact Hs]. rewrite local_put_deployment. simpl. by rewrite lookup_only.
  - rewrite Hc in *. destruct Hs as [-> Hr]. split; [done|]. simpl. by rewrite lookup_only.
  - destruct Hc as [Hk Hd]. cbn zeta in *. rewrite Hk in *. rewrite Hu in Hd. simpl in Hd |- *. rewrite lookup_only in *.
    destruct r as [[]|e]; intros _; specialize (Hs Hd); [subst s'; apply local_put_deployment|].
    destruct Hs as [->| ->]; [by left|right; apply local_put_deployment].
  - destruct kind; cbn [seed_documented] in Hs |- *; try (by subst s'); rewrite Hc in *.
    + destruct r as [[]|e]; [subst s'; apply local_drop_deployment|]. destruct (IsNotFound e).
      * destruct Hs as [-> Hno]. split; [done|]. simpl. by rewrite lookup_only.
      * destruct Hs as [->| ->]; [by left|right; apply local_drop_deployment].
    + destruct r as [[]|e]; [subst s'; apply local_drop_secret|]. destruct (IsNotFound e).
      * destruct Hs as [-> Hno]. split; [done|]. by apply secret_local.
      * destruct Hs as [->| ->]; [by left|right; apply local_drop_secret].
Qed.

Lemma outcomes_local {A} made failed (made' failed' : world -> Prop) (r : A + error) w' :
  (forall u, made u -> made' (local u)) -> (forall u, failed u -> failed' (local u)) ->
  outcomes made failed r w' -> outcomes made' failed' r (local w').
Proof. intros Hm Hf. destruct r; simpl; auto. Qed.

Lemma on_existing_local {V} (found : option V) w made made' r w' :
  (forall v, local (made v) = made' v) -> on_existing found w made r w' -> on_existing found (local w) made' r (local w').
Proof.
  intros Hm. unfold on_existing. destruct r as [[]|e].
  - intros [(v&Hv&->)|[-> Hv]]; [left; by exists v|by right].
  - destruct (IsNotFound e); [by intros [-> Hv]|]. intros [->|(v&Hv&->)]; [by left|right; by exists v].
Qed.

Lemma local_set_generated g managers w :
  local ((w <| w_generated := <[secretsKey ns := g]> (w_generated w) |>) <| w_managers := managers |>) =
  ((local w) <| w_generated := <[secretsKey ns := g]> (w_generated (local w)) |>) <| w_managers := ours managers |>.
Proof. unfold local, update. simpl. by rewrite only_insert. Qed.

Lemma shipped_local keep data w :
  local (shipped ns ManagedResourceName keep data w) = shipped ns ManagedResourceName keep data (local w).
Proof.
  unfold shipped. change (ns, ManagedResourceName) with (resourceKey ns). rewrite local_set_resource.
  simpl. by rewrite lookup_only.
Qed.

Lemma marked_local w : local (marked ns ManagedResourceName w) = marked ns ManagedResourceName (local w).
Proof.
  unfold marked. change (ns, ManagedResourceName) with (resourceKey ns). simpl. rewrite lookup_only.
  destruct (w_resources w !! resourceKey ns); [apply local_set_resource|done].
Qed.

(** What a confined call does is determined by the local part. *)
Lemma effect_local w c r w' :
  confined (local w) c -> documented_effect w c r w' -> documented_effect (local w) c r (local w').
Proof.
  intros Hc He.
  assert (Hseed : (exists s, seed_documented (w_seed w) c r s /\ w' = w <| w_seed := s |>) ->
    exists s, seed_documented (w_seed (local w)) c r s /\ local w' = (local w) <| w_seed := s |>).
  { intros (s&Hs&->). exists (local_seed s). split; [exact (seed_effect_local (local w) _ _ _ _ eq_refl Hc Hs)|reflexivity]. }
  destruct c; cbn [documented_effect] in He |- *; try (by apply Hseed); clear Hseed; cbn [confined] in Hc.
  - destruct He as [-> Hr]. by split.
  - destruct Hc as [Hname ->]. destruct r as [h|e]; [|by subst w'].
    destruct He as [Hh ->]. rewrite Hname. split.
    + apply map_lookup_filter_None_2. by left.
    + unfold local, update. simpl. by rewrite ours_insert.
  - destruct Hc as [made Hm]. rewrite Hm. apply ours_Some in Hm as [Hm _]. rewrite Hm in He.
    destruct He as (new&Hnew&Hr&->). exists new. split; [done|]. split; [done|].
    change (ns, ExtensionType) with (secretsKey ns). rewrite generatedIn_local, local_set_generated.
    by rewrite ours_insert.
  - destruct Hc as [made Hm]. rewrite Hm. apply ours_Some in Hm as [Hm _]. rewrite Hm in He.
    destruct He as (left&Hin&Hout&Hr&->). exists left. change (ns, ExtensionType) with (secretsKey ns) in *.
    rewrite generatedIn_local. split_and!; [done..|]. exact (local_set_generated left (w_managers w) w).
  - destruct He as [-> Hr]. by split.
  - injection Hc as -> ->. revert He. apply outcomes_local.
    + intros u ->. apply shipped_local.
    + intros u [->|[->|(m&Hm&->)]]; [by left|right; left; apply shipped_local|right; right].
      exists m. change (ns, ManagedResourceName) with (resourceKey ns) in *.
      split; [by apply local_resource|apply local_set_resource].
  - injection Hc as -> ->. change (ns, ManagedResourceName) with (resourceKey ns) in *. simpl. rewrite lookup_only.
    revert He. apply on_existing_local. intros m. apply local_set_resource.
  - injection Hc as -> ->. revert He. apply outcomes_local.
    + intros u ->. apply marked_local.
    + intros u [->| ->]; [by left|right; apply marked_local].
  - injection Hc as -> ->. change (ns, ManagedResourceName) with (resourceKey ns) in *. destruct He as [-> Hr].
    split; [done|]. destruct r; [|done]. simpl. by rewrite lookup_only.
  - destruct He as [-> Hr]. by split.
  - revert He. by apply on_existing_local.
  - destruct He as [->|(p&Hp&->)]; [by left|right; by exists p].
Qed.
End local.

(** ** Neighbours are left alone *)

(** What the seed holds for the Extension in [n] is as it was. *)
Record untouched `{Libraries} (n : string) (w w' : world) : Prop := {
  untouched_seed : local_seed n (w_seed w') = local_seed n (w_seed w);
  untouched_resource : only (resourceKey n) (w_resources w') = only (resourceKey n) (w_resources w);
  untouched_secrets : only (secretsKey n) (w_generated w') = only (secretsKey n) (w_generated w);
  untouched_managers : ours n (w_managers w') = ours n (w_managers w);
}.

#[export] Instance untouched_preorder `{Libraries} n : PreOrder (untouched n).
Proof. split; [by intros w|]. intros w1 w2 w3 [Hs Hr Hg Hm] [Hs' Hr' Hg' Hm']. split; congruence. Qed.

Section neighbours.
Context `{Libraries} `{Serialization}.
Variables ns n : string.
Hypothesis Hne : n <> ns.

(** Nothing the seed holds has changed. *)
Lemma untouched_same w w' :
  w_seed w' = w_seed w -> w_resources w' = w_resources w -> w_generated w' = w_generated w ->
  w_managers w' = w_managers w -> untouched n w w'.
Proof using Type. intros Hs Hr Hg Hm. by split; rewrite ?Hs, ?Hr, ?Hg, ?Hm. Qed.

Lemma untouched_set_resource m w w1 :
  w_seed w1 = w_seed w -> w_resources w1 = w_resources w -> w_generated w1 = w_generated w ->
  w_managers w1 = w_managers w -> untouched n w (set_resource (resourceKey ns) m w1).
Proof using Hne.
  intros Hs Hr Hg Hm. split; simpl; rewrite ?Hs, ?Hr, ?Hg, ?Hm; try done.
  apply only_insert_ne. unfold resourceKey. congruence.
Qed.

Lemma untouched_env w w' : env ns w w' -> untouched n w w'.
Proof using Hne.
  intros Henv. destruct Henv; try (by apply untouched_same); try (by apply untouched_set_resource).
  split; try done. simpl. apply only_delete_ne. unfold resourceKey. congruence.
Qed.

Lemma untouched_envs w w' : rtc (env ns) w w' -> untouched n w w'.
Proof using Hne. induction 1 as [w|w1 w2 w3 He _ IH]; [done|]. etrans; [by apply untouched_env|done]. Qed.

Lemma local_seed_put_deployment d s : local_seed n (put_deployment (key ns) d s) = local_seed n s.
Proof using Hne. unfold local_seed. simpl. rewrite only_insert_ne; [done|]. unfold key. congruence. Qed.

Lemma local_seed_drop_deployment s : local_seed n (drop_deployment (key ns) s) = local_seed n s.
Proof using Hne. unfold local_seed. simpl. rewrite only_delete_ne; [done|]. unfold key. congruence. Qed.

Lemma local_seed_put_secret s : local_seed n (put_secret (ns, accessSecretName) s) = local_seed n s.
Proof using Hne.
  unfold local_seed. simpl. f_equal. apply set_eq. intros k. rewrite !elem_of_intersection, elem_of_union, !elem_of_singleton.
  split; [|by intros [? ?]; split; [right|]]. intros [[->|?] Hk]; [|done]. injection Hk as Hk. by destruct Hne.
Qed.

Lemma local_seed_drop_secret s : local_seed n (drop_secret (ns, accessSecretName) s) = local_seed n s.
Proof using Hne.
  unfold local_seed. simpl. f_equal. apply set_eq. intros k. rewrite !elem_of_intersection, elem_of_difference, !elem_of_singleton.
  split; [by intros [[? ?] ?]|]. intros [Hin ->]. split; [|done]. split; [done|]. intros Hk. injection Hk as Hk. by destruct Hne.
Qed.

Lemma write_untouched {A} s s1 ok (r : A + error) s' :
  local_seed n s1 = local_seed n s -> write A s s1 ok r s' -> local_seed n s' = local_seed n s.
Proof using Type. intros Hs. destruct r; [by intros [-> _]|by intros [->| ->]]. Qed.

Lemma seed_effect_untouched u s c r s' :
  w_seed u = local_seed ns s -> confined ns u c -> seed_documented s c r s' -> local_seed n s' = local_seed n s.
Proof using Hne.
  intros Hu Hc Hs. destruct c; try (by cbn in Hs; subst s'); cbn [confined] in Hc; cbn [seed_documented] in Hs.
  - destruct Hc as [-> ->]. eapply write_untouched; [|exact Hs]. apply local_seed_put_secret.
  - by destruct Hs as [-> _].
  - rewrite Hc in *. eapply write_untouched; [|exact Hs]. apply local_seed_put_deployment.
  - by destruct Hs as [-> _].
  - destruct Hc as [Hk Hd]. cbn zeta in *. rewrite Hk in *. rewrite Hu in Hd. simpl in Hd. rewrite lookup_only in Hd.
    destruct r as [[]|e]; specialize (Hs Hd); [subst s'; apply local_seed_put_deployment|].
    destruct Hs as [->| ->]; [done|apply local_seed_put_deployment].
  - destruct kind; cbn [seed_documented] in Hs; try (by subst s'); rewrite Hc in *.
    + destruct r as [[]|e]; [subst s'; apply local_seed_drop_deployment|]. destruct (IsNotFound e).
      * by destruct Hs as [-> _].
      * destruct Hs as [->| ->]; [done|apply local_seed_drop_deployment].
    + destruct r as [[]|e]; [subst s'; apply local_seed_drop_secret|]. destruct (IsNotFound e).
      * by destruct Hs as [-> _].
      * destruct Hs as [->| ->]; [done|apply local_seed_drop_secret].
Qed.

Lemma untouched_generated w g h made made0 :
  w_managers w !! h = Some (ns, ExtensionType, made0) ->
  untouched n w ((w <| w_generated := <[secretsKey ns := g]> (w_generated w) |>)
                   <| w_managers := <[h := (ns, ExtensionType, made)]> (w_managers w) |>).
Proof using Hne.
  intros Hm. split; try done; simpl.
  - apply only_insert_ne. unfold secretsKey. congruence.
  - apply ours_insert_ne; [by unfold secretsKey; simpl; congruence|]. intros y. rewrite Hm. intros [= <-].
    unfold secretsKey. simpl. congruence.
Qed.

Lemma untouched_outcomes {A} made failed w (r : A + error) w' :
  (forall u, made u -> untouched n w u) -> (forall u, failed u -> untouched n w u) ->
  outcomes made failed r w' -> untouched n w w'.
Proof using Type. destruct r; simpl; auto. Qed.

Lemma untouched_on_existing {V} (found : option V) w made r w' :
  (forall v, untouched n w (made v)) -> on_existing found w made r w' -> untouched n w w'.
Proof using Type.
  intros Hm. unfold on_existing. destruct r as [[]|e]; [|destruct (IsNotFound e)].
  - by intros [(v&_&->)|[-> _]].
  - by intros [-> _].
  - by intros [->|(v&_&->)].
Qed.

(** A confined call leaves the neighbours alone. *)
Lemma effect_untouched w c r w' :
  confined ns (local ns w) c -> documented_effect w c r w' -> untouched n w w'.
Proof using Hne.
  intros Hc He.
  assert (Hseed : (exists s, seed_documented (w_seed w) c r s /\ w' = w <| w_seed := s |>) -> untouched n w w').
  { intros (s&Hs&->). split; try done. simpl. exact (seed_effect_untouched (local ns w) _ _ _ _ eq_refl Hc Hs). }
  destruct c; cbn [documented_effect] in He; try (by apply Hseed); clear Hseed; cbn [confined] in Hc.
  - by destruct He as [-> _].
  - destruct Hc as [Hname ->]. destruct r as [h|e]; [|by subst w'].
    destruct He as [Hh ->]. rewrite Hname. split; try done. simpl.
    apply ours_insert_ne; [by unfold secretsKey; simpl; congruence|]. intros y. by rewrite Hh.
  - destruct Hc as [made Hm%ours_Some]. destruct Hm as [Hm _]. rewrite Hm in He. destruct He as (new&_&_&->).
    by eapply (untouched_generated w _ sm).
  - destruct Hc as [made Hm%ours_Some]. destruct Hm as [Hm _]. rewrite Hm in He. destruct He as (left&_&_&_&->).
    split; try done. simpl. apply only_insert_ne. unfold secretsKey. congruence.
  - by destruct He as [-> _].
  - injection Hc as -> ->. revert He. unfold shipped. apply untouched_outcomes.
    + intros u ->. by apply untouched_set_resource.
    + intros u [->|[->|(m&_&->)]]; [done|by apply untouched_set_resource..].
  - injection Hc as -> ->. revert He. apply untouched_on_existing. intros m. by apply untouched_set_resource.
  - injection Hc as -> ->. assert (Hmark : untouched n w (marked ns ManagedResourceName w)).
    { unfold marked. destruct (w_resources w !! _); [by apply untouched_set_resource|done]. }
    revert He. apply untouched_outcomes; [by intros u ->|by intros u [->| ->]].
  - by destruct He as [-> _].
  - by destruct He as [-> _].
  - revert He. apply untouched_on_existing. intros p. by apply untouched_same.
  - destruct He as [->|(p&_&->)]; [done|by apply untouched_same].
Qed.
End neighbours.
