(* ===== verification/ExtensionConfined.v ===== *)
(** * The actuator keeps to its own part of the seed

    Every call that an operation makes for an Extension, in every execution
    against the Extension's own part of the world, is confined to that part. *)

From S2P Require Import Prelude GoStd Errors Effects KubeObjects Constants Config External.
From S2P Require Import Interfaces.
From S2P Require Import Secrets Manifests Deployer GatewayGuard OrphanSweep DataPlanePolicies.
From S2P Require Import DataplaneNetpol NetpolDeployer Actuator ActuatorSpecs ActuatorLemmas.
From S2P Require Import ActuatorProps.
From S2P Require Import NetpolLifecycle Scripts ExtensionWorld ExtensionSpec ExtensionActions.
From S2P Require Import ExtensionLifecycle.
From S2P Require Import ExtensionNeighbours.

Section confined.
Context `{Libraries} `{Serialization}.
Variable ns : string.

(** The world of an Extension that is alone on its seed. *)
Definition alone : WorldStep := fun u c r u' =>
  exists u1 u2, rtc (env ns) u u1 /\ documented_effect u1 c r u2 /\ rtc (env ns) u2 u'.

Lemma alone_documented : @DocumentedWorld _ _ ns alone.
Proof. by intros u c r u'. Qed.

Lemma alone_before u u1 c r u' : rtc (env ns) u u1 -> alone u1 c r u' -> alone u c r u'.
Proof. intros Hu (u2&u3&Hbefore&Heff&Hafter). exists u2, u3. split; [by etrans|done]. Qed.

Lemma confined_envs u u' c : rtc (env ns) u u' -> confined ns u c -> confined ns u' c.
Proof.
  intros Henv. pose proof (envs_managers ns _ _ Henv) as Hm. apply envs_silent in Henv as [Hs _].
  destruct c; simpl; rewrite ?Hm, ?Hs; done.
Qed.

(** ** Programs whose calls are confined *)

Fixpoint behaves {A} (p : prog ans A) (u : world) : Prop :=
  match p with
  | Ret _ => True
  | Call c k => confined ns u c /\ forall r u', alone u c r u' -> behaves (k r) u'
  end.

Lemma behaves_envs {A} (p : prog ans A) u u' : rtc (env ns) u u' -> behaves p u -> behaves p u'.
Proof.
  intros Henv. destruct p as [a|c k]; [done|]. intros [Hc Hk]. split; [by eapply confined_envs|].
  intros r u2 Hs. by eapply Hk, alone_before.
Qed.

Lemma behaves_pbind {A B} (p : prog ans A) (f : A -> prog ans B) u :
  behaves p u -> (forall a u', runs_in alone p u a u' -> behaves (f a) u') -> behaves (pbind p f) u.
Proof.
  revert u. induction p as [a|c k IH]; intros u Hp Hf; simpl in *; [by apply Hf|].
  destruct Hp as [Hc Hk]. split; [done|]. intros r u' Hs. apply IH; [by apply Hk|]. intros a u2 Hr. apply Hf. by exists r, u'.
Qed.

Lemma behaves_bind {A B} (m : IO A) (f : A -> IO B) u :
  behaves m u -> (forall a u', runs_in alone m u (Ok a) u' -> behaves (f a) u') -> behaves (m ≫= f) u.
Proof. intros Hm Hf. apply behaves_pbind; [done|]. intros [a|e|w] u' Hr; [by apply Hf|done..]. Qed.

(** Where the results before do not matter. *)
Lemma behaves_then {A B} (m : IO A) (f : A -> IO B) u :
  behaves m u -> (forall a u', behaves (f a) u') -> behaves (m ≫= f) u.
Proof. intros Hm Hf. apply behaves_bind; auto. Qed.

Lemma behaves_wrapf {A} pre (m : IO A) u : behaves m u -> behaves (wrapf pre m) u.
Proof. intros Hm. apply behaves_pbind; [done|]. by intros [a|e|w] u' _. Qed.

(** Calls that are confined in every world. *)
Definition always_confined (e : event ans) : Prop := forall u, confined ns u (ecall e).

Lemma answerable (c : call) : ans c.
Proof.
  destruct c; simpl; first [exact tt|exact 0%Z|exact false|right; exact (errorString "")].
Qed.

Lemma runs_some {A} (p : prog ans A) : exists t a, runs p t a.
Proof.
  induction p as [a|c k IH]; [by exists [], a|]. destruct (IH (answerable c)) as (t&a&Hr).
  by exists (ev c (answerable c) :: t), a, (answerable c), t.
Qed.

Lemma behaves_calls {A} (p : prog ans A) u : emits always_confined p -> behaves p u.
Proof.
  revert u. induction p as [a|c k IH]; intros u Hp; simpl; [done|].
  assert (Hrun : forall r t a, runs (k r) t a -> always_confined (ev c r) /\ Forall always_confined t).
  { intros r t a Hr. assert (Hall : Forall always_confined (ev c r :: t)) by (eapply Hp; by exists r, t).
    by inversion Hall. }
  split.
  - destruct (runs_some (k (answerable c))) as (t&a&Hr). by destruct (Hrun _ _ _ Hr) as [Hc _]; apply Hc.
  - intros r u' _. apply IH. intros t a Hr. by destruct (Hrun _ _ _ Hr).
Qed.

(** ** The parts *)

Lemma Teardown_confined : emits always_confined (netpolControllerDeployer.Teardown ns).
Proof.
  unfold netpolControllerDeployer.Teardown, netpolControllerDeployer.objs. cbn [for_each]. emits_auto; by intros u.
Qed.

Lemma Ensure_confined iv cl : emits always_confined (netpolControllerDeployer.Ensure iv cl ns).
Proof. unfold netpolControllerDeployer.Ensure. emits_auto; by intros u. Qed.

Lemma prune_confined : emits always_confined (dataPlaneNetworkPolicyReconciler.Reconcile ns).
Proof.
  unfold dataPlaneNetworkPolicyReconciler.Reconcile, orphanDataPlaneSweeper.kubernetesScheme,
    dataPlaneNetworkPolicyReconciler.prunePolicy. emits_auto; by intros u.
Qed.

Lemma sweep_confined : emits always_confined (orphanDataPlaneSweeper.Sweep ns).
Proof.
  unfold orphanDataPlaneSweeper.Sweep, orphanDataPlaneSweeper.kubernetesScheme,
    orphanDataPlaneSweeper.sweepOrphans, orphanDataPlaneSweeper.sweepObject. emits_auto; by intros u.
Qed.

Lemma fetch_confined : emits always_confined (realGatewayLister.fetchGatewayList ns).
Proof.
  unfold realGatewayLister.fetchGatewayList, realGatewayLister.shootClient, realGatewayLister.newGatewayScheme.
  emits_auto; by intros u.
Qed.

Lemma drain_confined c iv : emits always_confined (drainUserGatewaysForShootDeletion (theActuator c iv) ns).
Proof.
  unfold drainUserGatewaysForShootDeletion. apply emits_use. cbn [Interfaces.ListGateways Interfaces.DeleteGateways
    Interfaces.WaitUntilGatewaysDeleted Interfaces.ClearGatewayClassFinalizer realGatewayLister.NewGatewayLister].
  unfold realGatewayLister.ListGateways, realGatewayLister.DeleteGateways, realGatewayLister.WaitUntilGatewaysDeleted,
    realGatewayLister.ClearGatewayClassFinalizer, realGatewayLister.shootClient, realGatewayLister.newGatewayScheme.
  emits_auto; try (by intros u); try apply fetch_confined.
  apply emits_poll; [by intros r u|]. intros s. unfold realGatewayLister.gatewaysGone.
  emits_auto; try (by intros u). apply fetch_confined.
Qed.

Lemma check_confined c iv shoot : emits always_confined (checkNoUserGateways (theActuator c iv) shoot ns).
Proof.
  unfold checkNoUserGateways. destruct (shootDeleting shoot); [apply drain_confined|]. apply emits_use.
  apply emits_bind; [|intros [|name names]; emits_auto; by intros u].
  apply emits_wrapf. unfold Interfaces.ListGateways, realGatewayLister.NewGatewayLister, realGatewayLister.ListGateways.
  apply emits_bind; [apply fetch_confined|]. intros l. emits_auto.
Qed.

Lemma Deploy_confined cfg iv tls : emits always_confined (Deploy cfg iv ns tls).
Proof. unfold Deploy. emits_auto; by intros u. Qed.

Lemma deleteManagedResource_confined : emits always_confined (deleteManagedResource ns).
Proof. unfold deleteManagedResource. emits_auto; by intros u. Qed.

Lemma DeleteKeepingObjects_confined : emits always_confined (DeleteKeepingObjects ns).
Proof. unfold DeleteKeepingObjects, deleteManagedResource. emits_auto; by intros u. Qed.

(** Patching what was read. *)
Lemma ScaleDown_behaves u : seed_ok (w_seed u) -> behaves (netpolControllerDeployer.ScaleDown ns) u.
Proof.
  intros Hok. split; [done|]. intros r u' (u1&u2&Hbefore&(s&[-> Hget]&->)&Hafter).
  destruct r as [d|e]; cbn; [|by destruct (IsNotFound e)].
  apply envs_silent in Hbefore as [Hs _]. apply envs_silent in Hafter as [Hs' _]. rewrite Hs in Hget.
  split; [|by intros [?|?] u3 _]. simpl in Hs'. rewrite Hs', Hs. split; [|done].
  exact (ok_keyed _ Hok _ _ Hget).
Qed.

(** *** The secrets-manager *)

Lemma manager_envs u u' h : rtc (env ns) u u' -> w_managers u' !! h = w_managers u !! h.
Proof. intros Henv. by rewrite (envs_managers ns _ _ Henv). Qed.

(** A secrets-manager that was constructed is ours. *)
Lemma construct_behaves {A} pre cl configs (f : nat -> IO A) u :
  cl_Name cl = ns ->
  (forall h u', w_managers u' !! h = Some (ns, ExtensionType, ∅) -> behaves (f h) u') ->
  behaves (wrapf pre (request (SecretsManagerForCluster cl ExtensionType configs)) ≫= f) u.
Proof.
  intros Hname Hf. split; [done|]. intros r u' (u1&u2&_&Heff&Hafter). destruct r as [h|e]; [|done]. apply Hf.
  rewrite (manager_envs _ _ _ Hafter). destruct Heff as [_ ->]. rewrite Hname. simpl. by rewrite lookup_insert_eq.
Qed.

Lemma reconcileSecrets_behaves cl u : cl_Name cl = ns -> behaves (reconcileSecrets cl ns) u.
Proof.
  intros Hname. apply construct_behaves; [done|]. clear u. intros h u Hm. split; [by eexists|].
  intros r u' (u1&u2&Hbefore&Heff&Hafter). destruct r as [data|e]; [|done].
  assert (Hours : exists made, w_managers u' !! h = Some (ns, ExtensionType, made)).
  { rewrite <- (manager_envs _ _ _ Hbefore) in Hm. cbn in Heff. rewrite Hm in Heff. destruct Heff as (new&_&_&->).
    rewrite (manager_envs _ _ _ Hafter). simpl. rewrite lookup_insert_eq. by eexists. }
  cbn. repeat case_goal; try done. split; [done|]. by intros [?|?].
Qed.

Lemma deleteSecrets_behaves cl u : cl_Name cl = ns -> behaves (deleteSecrets cl) u.
Proof. intros Hname. apply construct_behaves; [done|]. clear u. intros h u Hm. split; [by eexists|done]. Qed.

(** ** The operations *)

Context (c : Client) (iv : ImageVector) (ex : Extension).
Hypothesis Hns : ex_Namespace ex = ns.

Lemma recorded_behaves op (body : IO unit) u :
  (forall u', rtc (env ns) u u' -> behaves body u') -> behaves (recorded ns op body) u.
Proof using Type.
  intros Hb. unfold recorded. split; [done|]. intros start u' (u1&u2&Hbefore&(s&->&->)&Hafter).
  cbn [pbind]. apply behaves_pbind.
  - apply Hb. etrans; [exact Hbefore|]. destruct u1. exact Hafter.
  - intros r u3 _. apply behaves_calls, emits_pbind; [|by intros []; apply emits_Ret].
    unfold recordOperation. emits_auto; by intros v.
Qed.

(** The Cluster is that of the shoot. *)
Lemma get_cluster_behaves {A} pre (f : Cluster -> IO A) u :
  cl_Name (w_cluster u) = ns ->
  (forall cl u', cl_Name cl = ns -> rtc (env ns) u u' -> behaves (f cl) u') ->
  behaves (wrapf pre (request (GetCluster ns)) ≫= f) u.
Proof using Type.
  intros Hname Hf. split; [done|]. intros r u' (u1&u2&Hbefore&[-> Hr]&Hafter). destruct r as [cl|e]; [|done].
  pose proof (proj2 (envs_silent _ _ _ Hbefore)) as Hst. rewrite (steady_cluster _ _ _ Hst) in Hr.
  apply Hf; [by rewrite Hr|]. by etrans.
Qed.

Lemma ReconcileBody_behaves u :
  seed_ok (w_seed u) -> cl_Name (w_cluster u) = ns -> behaves (ReconcileBody (theActuator c iv) ex) u.
Proof using Hns.
  intros Hok Hname. unfold ReconcileBody. rewrite Hns. apply get_cluster_behaves; [done|]. intros cl u' Hcl Henv.
  destruct (cl_Shoot cl) as [sh|]; [|done]. change (nonNil (Some sh) ≫= ?f) with (f sh). cbn beta.
  case_goal; [apply behaves_calls, drain_confined|]. destruct (HibernationIsEnabled sh).
  { apply behaves_wrapf, ScaleDown_behaves. by rewrite (proj1 (envs_silent _ _ _ Henv)). }
  apply behaves_then.
  { destruct (egConfigOf_pure c iv (sh_KubernetesVersion sh) (ex_ProviderConfig ex)) as (o&->&_). done. }
  intros cfg u1. apply behaves_then; [by apply behaves_wrapf, reconcileSecrets_behaves|]. intros tls u2.
  apply behaves_then; [apply behaves_wrapf, behaves_calls, Deploy_confined|]. intros [] u3. apply behaves_calls.
  apply emits_use, emits_bind; [apply emits_attempt, sweep_confined|]. intros swept. apply emits_use.
  destruct (ManageDataPlaneNetworkPolicies cfg); [apply emits_wrapf, Ensure_confined|].
  apply emits_bind; [apply emits_wrapf, Teardown_confined|]. intros []. apply emits_use, emits_wrapf, prune_confined.
Qed.

Lemma DeleteBody_behaves u :
  cl_Name (w_cluster u) = ns -> behaves (DeleteBody (theActuator c iv) ex) u.
Proof using Hns.
  intros Hname. unfold DeleteBody. rewrite Hns. apply get_cluster_behaves; [done|]. intros cl u' Hcl _.
  apply behaves_then; [apply behaves_calls, check_confined|]. intros [] u1.
  change (behaves (wrapf "failed to tear down data-plane NetworkPolicy controller: " (netpolControllerDeployer.Teardown ns) ;;
    (if shootAlive (cl_Shoot cl)
     then wrapf "failed to remove data-plane NetworkPolicies: " (dataPlaneNetworkPolicyReconciler.Reconcile ns)
     else mret tt) ;;
    wrapf "failed to delete envoy-gateway: " (DeployerDelete ns) ;;
    wrapf "failed to delete envoy-gateway secrets: " (deleteSecrets cl)) u1).
  apply behaves_then; [apply behaves_wrapf, behaves_calls, Teardown_confined|]. intros [] u2.
  apply behaves_then.
  { apply behaves_calls. destruct (shootAlive _); [apply emits_wrapf, prune_confined|apply emits_mret]. }
  intros [] u3. apply behaves_then; [apply behaves_wrapf, behaves_calls, deleteManagedResource_confined|].
  intros [] u4. by apply behaves_wrapf, deleteSecrets_behaves.
Qed.

Lemma leaving_behaves pre1 pre2 u :
  behaves (wrapf pre1 (netpolControllerDeployer.Teardown ns) ;; wrapf pre2 (DeleteKeepingObjects ns)) u.
Proof using Type.
  apply behaves_calls, emits_bind; [apply emits_wrapf, Teardown_confined|].
  intros []. apply emits_wrapf, DeleteKeepingObjects_confined.
Qed.

(** Every operation. *)
Lemma run_verb_behaves v u :
  seed_ok (w_seed u) -> cl_Name (w_cluster u) = ns -> behaves (run_verb c iv ex v) u.
Proof using Hns.
  intros Hok Hname.
  assert (Hfits : forall u', rtc (env ns) u u' -> seed_ok (w_seed u') /\ cl_Name (w_cluster u') = ns).
  { intros u' [Hs Hst]%envs_silent. by rewrite Hs, (steady_cluster _ _ _ Hst). }
  destruct v; cbn [run_verb]; [unfold Reconcile|unfold RestoreOp, Reconcile|unfold Delete|unfold ForceDelete|unfold Migrate];
    rewrite Hns; apply recorded_behaves; intros u1 Hu1.
  - destruct (Hfits u1 Hu1). by apply ReconcileBody_behaves.
  - apply recorded_behaves. intros u2 Hu2. destruct (Hfits u2) as [? ?]; [by etrans|]. by apply ReconcileBody_behaves.
  - destruct (Hfits u1 Hu1). by apply DeleteBody_behaves.
  - apply leaving_behaves.
  - apply leaving_behaves.
Qed.
End confined.
