(* ===== verification/ExtensionSystem.v ===== *)
(** * Many Extensions at once

    The manager reconciles the Extensions of many shoots at the same time, one
    worker for each, against one seed.  A [system] is the seed, the shoots and
    the workers; its turns are single calls of the workers, the beginnings and
    ends of operations and whatever else goes on.  Whatever the interleaving,
    each Extension fares as if it were alone on the seed. *)

From stdpp Require Import functions.
From S2P Require Import Prelude GoStd Errors Effects KubeObjects Constants Config External.
From S2P Require Import Interfaces Actuator.
From S2P Require Import NetpolLifecycle Scripts ExtensionWorld ExtensionSpec ExtensionActions.
From S2P Require Import ExtensionLifecycle.
From S2P Require Import ExtensionNeighbours ExtensionConfined.

(** ** The state *)

(** What the Extensions share: the seed, and the secrets-managers of the process. *)
Record shared := mkShared {
  sh_seed : seed;
  sh_resources : gmap (string * string) resource;
  sh_generated : gmap (string * string) (gset string);
  sh_managers : gmap nat (string * string * gset string);
}.

(** What each has for itself: its Cluster and its shoot. *)
Record own := mkOwn {
  own_cluster : Cluster;
  own_objects : gmap string string;
  own_policies : gmap NamespacedName NetworkPolicy;
  own_running : bool;
}.

Definition join (g : shared) (o : own) : world :=
  mkWorld (sh_seed g) (sh_resources g) (sh_generated g) (sh_managers g) (own_cluster o) (own_objects o)
    (own_policies o) (own_running o).
Definition shared_of (w : world) : shared := mkShared (w_seed w) (w_resources w) (w_generated w) (w_managers w).
Definition own_of (w : world) : own := mkOwn (w_cluster w) (w_objects w) (w_policies w) (w_running w).

Lemma join_split w : join (shared_of w) (own_of w) = w.
Proof. by destruct w. Qed.

(** A worker: idle, or in the middle of an operation. *)
Inductive worker := Idle | Busy (v : verb) (cluster : Cluster) (rest : IO unit).

(** The shoots and their workers by namespace, with the operations that have ended. *)
Record system := mkSystem {
  sys_shared : shared;
  sys_own : string -> own;
  sys_worker : string -> worker;
  sys_log : string -> list (verb * Cluster * outcome unit);
}.

(** The world as the Extension in [n] meets it. *)
Definition world_at (s : system) (n : string) : world := join (sys_shared s) (sys_own s n).

(** The world in which the Extension in [n] finds itself becomes [w]. *)
Definition becomes (s : system) (n : string) (w : world) (x : worker) (l : list (verb * Cluster * outcome unit)) : system :=
  mkSystem (shared_of w) (<[n := own_of w]> (sys_own s)) (<[n := x]> (sys_worker s)) (<[n := l]> (sys_log s)).

(** The Cluster is looked up anew for every operation. *)
Definition set_cluster (cluster : Cluster) (w : world) : world := w <| w_cluster := cluster |>.

Section system.
Context `{Libraries} `{Serialization}.
Context (c : Client) (iv : ImageVector) (ex : string -> Extension).

#[local] Unset Elimination Schemes.
Inductive turn : system -> system -> Prop :=
  | turn_begin (s : system) (n : string) (v : verb) (cluster : Cluster) :
      sys_worker s n = Idle -> cl_Name cluster = n ->
      turn s (becomes s n (set_cluster cluster (world_at s n)) (Busy v cluster (run_verb c iv (ex n) v)) (sys_log s n))
  | turn_call s n v cluster (call : call) (k : ans call -> IO unit) (r : ans call) (w : world) :
      sys_worker s n = Busy v cluster (Call call k) -> documented_effect (world_at s n) call r w ->
      turn s (becomes s n w (Busy v cluster (k r)) (sys_log s n))
  | turn_env s n w :
      env n (world_at s n) w -> turn s (becomes s n w (sys_worker s n) (sys_log s n))
  | turn_end s n v cluster r :
      sys_worker s n = Busy v cluster (Ret r) ->
      turn s (becomes s n (world_at s n) Idle (sys_log s n ++ [(v, cluster, r)])).

#[local] Set Elimination Schemes.

(** ** Locality of the turns *)

(** The Extension in [n] as it is alone. *)
Definition alone_at (s : system) (n : string) : world := local n (world_at s n).

Lemma world_at_becomes s n w x l : world_at (becomes s n w x l) n = w.
Proof using Type. unfold world_at, becomes. simpl. rewrite fn_lookup_insert. apply join_split. Qed.

Lemma alone_at_becomes_ne s n m w x l :
  m <> n -> untouched m (world_at s n) w -> alone_at (becomes s n w x l) m = alone_at s m.
Proof using Type.
  intros Hne [Hs Hr Hg Hm]. unfold alone_at, local, world_at, becomes in *. simpl in *.
  rewrite fn_lookup_insert_ne by done. by rewrite Hs, Hr, Hg, Hm.
Qed.

(** ** What holds all along *)

#[local] Abbreviation history_of n := (@history _ n (alone n) c iv (ex n)).

(** What the worker has done since its operation began, and what it may still
    do, is an execution of the operation alone. *)
Definition sound (w0 : string -> world) (s : system) (n : string) : Prop :=
  match sys_worker s n with
  | Idle => history_of n (sys_log s n) (w0 n) (alone_at s n)
  | Busy v cluster p =>
      cl_Name cluster = n /\ behaves n p (alone_at s n) /\
      exists u0 : world, history_of n (sys_log s n) (w0 n) u0 /\
        forall r u', runs_in (alone n) p (alone_at s n) r u' ->
          exists u1, runs_in (alone n) (run_verb c iv (ex n) v) (set_cluster cluster u0) r u1 /\ rtc (env n) u1 u'
  end.

(** Starting earlier, with the environment's steps in between. *)
Lemma runs_before {A} n (p : io A) u u1 a u' :
  rtc (env n) u u1 -> runs_in (alone n) p u1 a u' -> exists u2, runs_in (alone n) p u a u2 /\ rtc (env n) u2 u'.
Proof using Type.
  intros Henv Hr. destruct p as [b|call k]; simpl in *.
  - destruct Hr as [-> ->]. by exists u.
  - destruct Hr as (r&u2&Hs&Hr). exists u'. split; [|done]. exists r, u2. split; [by eapply alone_before|done].
Qed.

(** The environment does not look at the Cluster. *)
Lemma env_cluster n cluster u u' :
  env n u u' -> env n (set_cluster cluster u) (set_cluster cluster u').
Proof using Type.
  intros Henv. destruct Henv as [w m k data Hm Hdel Hk|w m k Hm Hk Hdel|w m Hm Hdel Happ|w d Hd Hr|w|w p Hr Hp|w m Hk Hm].
  - exact (env_apply n (set_cluster cluster w) m k data Hm Hdel Hk).
  - exact (env_prune n (set_cluster cluster w) m k Hm Hk Hdel).
  - exact (env_release n (set_cluster cluster w) m Hm Hdel Happ).
  - exact (env_start n (set_cluster cluster w) d Hd Hr).
  - exact (env_stop n (set_cluster cluster w)).
  - exact (env_policy_put n (set_cluster cluster w) p Hr Hp).
  - exact (env_users n (set_cluster cluster w) m Hk Hm).
Qed.

Lemma envs_cluster n cluster u u' :
  rtc (env n) u u' -> rtc (env n) (set_cluster cluster u) (set_cluster cluster u').
Proof using Type. induction 1 as [w|w1 w2 w3 He _ IH]; [done|]. eapply rtc_l; [by apply env_cluster|done]. Qed.

Lemma history_extend n h v cluster r w u0 u1 u' :
  history_of n h w u0 -> cl_Name cluster = n ->
  runs_in (alone n) (run_verb c iv (ex n) v) (set_cluster cluster u0) r u1 -> rtc (env n) u1 u' ->
  history_of n (h ++ [(v, cluster, r)]) w u'.
Proof using Type.
  intros Hh Hname Hr Henv. revert w Hh. induction h as [|[[v1 cluster1] r1] h IH]; intros w Hh.
  - apply (envs_cluster n cluster) in Hh. destruct (runs_before _ _ _ _ _ _ Hh Hr) as (u2&Hr2&Henv2).
    split; [done|]. exists u2. split; [exact Hr2|]. change (rtc (env n) u2 u'). by etrans.
  - destruct Hh as (Hname1&w1&Hr1&Hh). split; [done|]. exists w1. split; [exact Hr1|by apply IH].
Qed.

(** The turns of an Extension keep it sound. *)
Section own_turn.
Context (n : string) (w0 : string -> world).
Hypothesis Hns : ex_Namespace (ex n) = n.
Hypothesis Hok : seed_ok (w_seed (w0 n)).

Lemma begin_sound s v cluster :
  sys_worker s n = Idle -> cl_Name cluster = n -> sound w0 s n ->
  sound w0 (becomes s n (set_cluster cluster (world_at s n)) (Busy v cluster (run_verb c iv (ex n) v)) (sys_log s n)) n.
Proof using Hns Hok.
  unfold sound. intros Hidle Hname Hs. rewrite Hidle in Hs.
  simpl. rewrite !fn_lookup_insert. unfold alone_at. rewrite world_at_becomes. split; [done|].
  assert (Hseed : seed_ok (w_seed (alone_at s n))).
  { exact (proj1 (proj2 (@history_refines _ _ n (alone n) (alone_documented n) c iv (ex n) Hns _ _ _ Hok Hs))). }
  split; [by apply (run_verb_behaves n c iv (ex n) Hns)|].
  exists (alone_at s n). split; [exact Hs|]. intros r u' Hr. by exists u'.
Qed.

Lemma call_sound s v cluster call k r w :
  sys_worker s n = Busy v cluster (Call call k) -> documented_effect (world_at s n) call r w -> sound w0 s n ->
  sound w0 (becomes s n w (Busy v cluster (k r)) (sys_log s n)) n.
Proof using Type.
  unfold sound. intros Hbusy Heff Hs. rewrite Hbusy in Hs. destruct Hs as (Hname&[Hc Hk]&u0&Hh&Hp).
  simpl. rewrite !fn_lookup_insert. unfold alone_at. rewrite world_at_becomes. split; [done|].
  assert (Hstep : alone n (alone_at s n) call r (local n w)).
  { exists (alone_at s n), (local n w). split; [done|]. split; [by apply effect_local|done]. }
  split; [by apply Hk|]. exists u0. split; [done|]. intros r' u' Hr. apply Hp. by exists r, (local n w).
Qed.

Lemma env_sound s w :
  env n (world_at s n) w -> sound w0 s n -> sound w0 (becomes s n w (sys_worker s n) (sys_log s n)) n.
Proof using Type.
  unfold sound. intros Henv Hs. apply env_local, rtc_once in Henv. fold (alone_at s n) in Henv.
  simpl. rewrite !fn_lookup_insert. unfold alone_at. rewrite world_at_becomes.
  destruct (sys_worker s n) as [|v cluster p].
  - by apply (history_envs n c iv (ex n) _ _ _ _ Hs).
  - destruct Hs as (Hname&Hp&u0&Hh&Hrun). split; [done|]. split; [by eapply behaves_envs|].
    exists u0. split; [done|]. intros r u' Hr. destruct (runs_before _ _ _ _ _ _ Henv Hr) as (u2&Hr2&Henv2).
    destruct (Hrun _ _ Hr2) as (u1&Hr1&Henv1). exists u1. split; [done|by etrans].
Qed.

Lemma end_sound s v cluster r :
  sys_worker s n = Busy v cluster (Ret r) -> sound w0 s n ->
  sound w0 (becomes s n (world_at s n) Idle (sys_log s n ++ [(v, cluster, r)])) n.
Proof using Type.
  unfold sound. intros Hbusy Hs. rewrite Hbusy in Hs. destruct Hs as (Hname&_&u0&Hh&Hrun).
  simpl. rewrite !fn_lookup_insert. unfold alone_at. rewrite world_at_becomes.
  destruct (Hrun r (alone_at s n)) as (u1&Hr&Henv); [done|]. by eapply history_extend.
Qed.
End own_turn.

(** The Extension that takes the turn leaves the others alone. *)
Definition turn_of (s s' : system) (n : string) : Prop :=
  exists w x l, s' = becomes s n w x l /\ forall m, m <> n -> untouched m (world_at s n) w.

Lemma turn_untouched w0 s s' :
  turn s s' -> (forall n, sound w0 s n) -> exists n, turn_of s s' n /\ (ex_Namespace (ex n) = n -> seed_ok (w_seed (w0 n)) -> sound w0 s' n).
Proof using Type.
  intros Ht Hs. destruct Ht as [s n v cluster Hidle Hname|s n v cluster call k r w Hbusy Heff|s n w Henv|s n v cluster r Hbusy];
    exists n; (split; [eexists _, _, _; split; [reflexivity|]; intros m Hne|intros Hns Hok]).
  - done.
  - by apply begin_sound.
  - specialize (Hs n). unfold sound in Hs. rewrite Hbusy in Hs. destruct Hs as (_&[Hc _]&_).
    by eapply (effect_untouched n m).
  - by eapply call_sound.
  - by apply (untouched_env n m).
  - by apply env_sound.
  - done.
  - by apply end_sound.
Qed.

Lemma turns_sound w0 s s' :
  (forall n, ex_Namespace (ex n) = n) -> (forall n, seed_ok (w_seed (w0 n))) ->
  rtc turn s s' -> (forall n, sound w0 s n) -> forall n, sound w0 s' n.
Proof using Type.
  intros Hns Hok. induction 1 as [s|s s1 s' Ht _ IH]; [done|]. intros Hs. apply IH. intros m.
  destruct (turn_untouched w0 s s1 Ht Hs) as (n&(w&x&l&->&Hothers)&Hown).
  destruct (decide (m = n)) as [->|Hne]; [by apply Hown|].
  specialize (Hs m). unfold sound in *. rewrite alone_at_becomes_ne by auto. simpl. by rewrite !fn_lookup_insert_ne by done.
Qed.
End system.

(** C6: Extensions do not interfere.  The Extensions of any number of shoots
    share one seed, each with a worker of its own, and their operations
    interleave call by call, with whatever gardener-resource-manager, the
    controllers and the users do in between, and whichever calls fail.  What the
    idle Extension of a shoot has been through is then a history it could have
    been through alone on the seed, so that all that holds of an Extension alone
    holds here; in particular its operations have performed the scripts of their
    plans. *)
Theorem extensions_do_not_interfere `{Libraries} `{Serialization} (c : Client) (iv : ImageVector)
    (ex : string -> Extension) s s' :
  (forall n, ex_Namespace (ex n) = n) -> seed_ok (sh_seed (sys_shared s)) ->
  (forall n, sys_worker s n = Idle /\ sys_log s n = []) -> rtc (turn c iv ex) s s' ->
  forall n, sys_worker s' n = Idle ->
    @history _ n (alone n) c iv (ex n) (sys_log s' n) (alone_at s n) (alone_at s' n) /\
    history_spec (theActuator c iv) (ex n) (sys_log s' n) (view n (world_at s n)) (view n (world_at s' n)).
Proof.
  intros Hns Hok Hstart Hturns n Hidle.
  assert (Hlocal : forall n, seed_ok (w_seed (alone_at s n))) by (intros m; by apply local_seed_ok).
  assert (Hsound : forall m, sound c iv ex (alone_at s) s m).
  { intros m. unfold sound. destruct (Hstart m) as [-> ->]. constructor. }
  pose proof (turns_sound c iv ex (alone_at s) s s' Hns Hlocal Hturns Hsound n) as Hn. unfold sound in Hn. rewrite Hidle in Hn.
  split; [exact Hn|].
  destruct (@history_refines _ _ n (alone n) (alone_documented n) c iv (ex n) (Hns n) _ _ _ (Hlocal n) Hn) as (Hspec&_&_).
  unfold alone_at in Hspec. by rewrite !view_local in Hspec.
Qed.
