(* ===== verification/ExtensionMigration.v ===== *)
(** * Handing a shoot over

    A migration takes an Extension from one seed to another while the shoot
    lives on: what the old seed has deployed into the shoot survives it leaving,
    and the new seed arriving. *)

From S2P Require Import Prelude GoStd Errors Effects KubeObjects Constants Config External.
From S2P Require Import Interfaces.
From S2P Require Import Secrets Manifests Deployer GatewayGuard OrphanSweep DataPlanePolicies.
From S2P Require Import DataplaneNetpol.
From S2P Require Import NetpolDeployer Actuator ActuatorSpecs ActuatorLemmas NetpolLifecycle.
From S2P Require Import Scripts ExtensionWorld ExtensionSpec ExtensionActions ExtensionLifecycle.
From S2P Require Import ExtensionProps.

(** ** Calls that are not about the ManagedResource *)

Definition neutral (c : call) : bool :=
  match c with
  | CreateForShoot _ _ _ _ _ | SetKeepObjects _ _ _ | DeleteManagedResource _ _ _ => false
  | _ => true
  end.

Lemma neutral_effect `{Libraries} `{Serialization} w call r w' :
  neutral call = true -> documented_effect w call r w' ->
  w_resources w' = w_resources w /\ w_objects w' = w_objects w.
Proof.
  intros Hc He. destruct call; try discriminate Hc; try (destruct He as (s&_&->); done); cbn [documented_effect] in He;
    unfold on_existing in He; repeat first [progress deex | case_hyp | progress subst | progress destruct_or? He]; done.
Qed.

Section handover.
Context `{Libraries} `{Serialization}.
Context (ns : string) `{WorldStep} `{!DocumentedWorld ns}.
(** Statements about the ManagedResource and the objects that hold on, whatever
    the environment does. *)
Record stable (I : world -> Prop) : Prop := {
  stable_env w w' : env ns w w' -> I w -> I w';
  stable_same w w' : w_resources w' = w_resources w -> w_objects w' = w_objects w -> I w -> I w';
}.

Lemma stable_envs I w w' : stable I -> rtc (env ns) w w' -> I w -> I w'.
Proof using Type. intros HI. induction 1 as [w|w1 w2 w3 He _ IH]; [done|]. intros Hw. by eapply IH, (stable_env _ HI). Qed.

Lemma stable_step I w call r w' : stable I -> neutral call = true -> world_step w call r w' -> I w -> I w'.
Proof using Type*.
  intros HI Hc Hs Hw. apply (world_step_documented ns) in Hs as (w1&w2&Hbefore&Heff&Hafter).
  eapply stable_envs; [done..|]. apply neutral_effect in Heff as [Hr Ho]; [|done].
  eapply (stable_same _ HI); [done..|]. by eapply stable_envs.
Qed.

Lemma neutral_ensures {A} (I E : world -> Prop) (m : IO A) :
  stable I -> (forall w, I w -> E w) -> emits (fun e => neutral (ecall e) = true) m ->
  ensures world_step I m (fun _ => I) E.
Proof using Type*.
  intros HI HE. apply ensures_keeps; [|done]. intros w call r w' Hc Hs. exact (stable_step I w call r w' HI Hc Hs).
Qed.

(** A request about the ManagedResource, by its effect. *)
Lemma ensures_effect {A} (I E : world -> Prop) call (res : ans call -> A + error) (Q : A -> world -> Prop) :
  stable I -> (forall a, stable (Q a)) -> stable E ->
  (forall w r w', I w -> documented_effect w call r w' ->
     match res r with inl a => Q a w' | inr _ => E w' end) ->
  ensures world_step I (Call call (fun r => Ret (of_result (res r)))) Q E.
Proof using Type*.
  intros HI HQ HE Heff w r w' Hw (x&w1&Hs&[-> ->]).
  apply (world_step_documented ns) in Hs as (u1&u2&Hbefore&Hd&Hafter).
  specialize (Heff u1 x u2 (stable_envs _ _ _ HI Hbefore Hw) Hd).
  destruct (res x) as [a|e]; [exact (stable_envs _ _ _ (HQ a) Hafter Heff)|exact (stable_envs _ _ _ HE Hafter Heff)].
Qed.

Lemma recorded_ensures (I E : world -> Prop) op (body : IO unit) :
  stable I -> stable E -> ensures world_step I body (fun _ => E) E ->
  ensures world_step I (recorded ns op body) (fun _ => E) E.
Proof using Type*.
  intros HI HE Hb w r w' Hw Hr. apply recorded_inv in Hr as (w1&w2&start&Hnow&Hr&Hrec).
  assert (HE' : E w').
  { refine (keeps_calls world_step E (fun e => neutral (ecall e) = true) _ _ _ _ _ _ Hrec _).
    - intros u call x u' Hc Hs. exact (stable_step E u call x u' HE Hc Hs).
    - unfold recordOperation. emits_auto; done.
    - refine (ensures_any world_step I E body w1 r w2 Hb _ Hr).
      exact (stable_step I w Now start w1 HI eq_refl Hnow Hw). }
  by destruct r.
Qed.

Context (c : Client) (iv : ImageVector) (ex : Extension).
Hypothesis Hns : ex_Namespace ex = ns.

(** ** Leaving the old seed *)

Section leaving.
Context (deployed objects : gmap string string).

(** Everything deployed that was in the shoot still is; the ManagedResource, if
    there still is one, satisfies [P]. *)
Record holding (P : resource -> Prop) (w : world) : Prop := {
  holding_resource : forall m, w_resources w !! resourceKey ns = Some m -> manifests m = deployed /\ P m;
  holding_objects : forall k d, deployed !! k = Some d -> objects !! k = Some d -> w_objects w !! k = Some d;
}.

Definition handing (m : resource) : Prop := deleting m = true -> keepObjects m = true.
Definition kept (m : resource) : Prop := keepObjects m = true.

(** What does not depend on the objects that gardener-resource-manager has
    applied, and lets them be. *)
Lemma holding_stable (P : resource -> Prop) :
  (forall m a, P m -> P (m <| applied := a |>)) -> (forall m, P m -> handing m) -> stable (holding P).
Proof using Type.
  intros Hrec Hhand. split.
  - intros w w' Henv [Hr Ho].
    destruct Henv as [w m k data Hm Hdel Hk|w m k Hm Hk Hdel|w m Hm Hdel Happ|w d Hd Hr'|w|w p Hr' Hp|w m Hk Hm];
      try (split; [exact Hr|exact Ho]).
    + destruct (Hr m Hm) as [Hmf HP]. split; simpl.
      * rewrite lookup_insert_eq. intros m' [= <-]. split; [exact Hmf|exact (Hrec m _ HP)].
      * intros k' d Hd Hobj. rewrite lookup_insert. case_decide as Heq; [subst k'; congruence|by apply Ho].
    + destruct (Hr m Hm) as [Hmf HP]. split; simpl.
      * rewrite lookup_insert_eq. intros m' [= <-]. split; [exact Hmf|exact (Hrec m _ HP)].
      * intros k' d Hd Hobj. rewrite lookup_delete_ne; [by apply Ho|]. intros ->. destruct (deleting m) eqn:E; [|congruence].
        specialize (Hhand m HP E). congruence.
    + split; [|exact Ho]. simpl. intros m'. by rewrite lookup_delete_eq.
  - intros w w' Hres Hobj [Hr Ho]. split; [by rewrite Hres|by rewrite Hobj].
Qed.

Lemma handing_stable : stable (holding handing).
Proof using Type. by apply holding_stable. Qed.

Lemma kept_stable : stable (holding kept).
Proof using Type. by apply holding_stable; [|intros m Hm _]. Qed.

Lemma kept_handing w : holding kept w -> holding handing w.
Proof using Type. intros [Hr Ho]. split; [|exact Ho]. intros m Hm. destruct (Hr m Hm) as [? HP]. split; [done|by intros _]. Qed.

(** A change of the ManagedResource's flags. *)
Lemma holding_set (P Q : resource -> Prop) f w m :
  w_resources w !! resourceKey ns = Some m -> manifests (f m) = manifests m -> (P m -> Q (f m)) ->
  holding P w -> holding Q (set_resource (resourceKey ns) (f m) w).
Proof using Type.
  intros Hm Hmf HPQ [Hr Ho]. destruct (Hr m Hm) as [Hd HP]. split; [|exact Ho].
  simpl. rewrite lookup_insert_eq. intros m' [= <-]. split; [congruence|by apply HPQ].
Qed.

Lemma keep_ensures :
  ensures world_step (holding handing) (ignoreNotFound (request (SetKeepObjects ns ManagedResourceName true)))
    (fun _ => holding kept) (holding handing).
Proof using Type*.
  intros w r w' Hw (x&w1&Hs&Hr). apply (world_step_documented ns) in Hs as (u1&u2&Hbefore&Hd&Hafter).
  apply (stable_envs _ _ _ handing_stable Hbefore) in Hw. cbn in Hd. unfold on_existing in Hd.
  change (ns, ManagedResourceName) with (resourceKey ns) in Hd.
  assert (Hset : forall m, w_resources u1 !! resourceKey ns = Some m ->
    holding kept (set_resource (resourceKey ns) (m <| keepObjects := true |>) u1)).
  { intros m Hm. by apply (holding_set handing kept (fun m => m <| keepObjects := true |>)). }
  assert (Hdone : holding kept u2 -> holding kept w1) by exact (stable_envs _ _ _ kept_stable Hafter).
  assert (Hfail : holding handing u2 -> holding handing w1) by exact (stable_envs _ _ _ handing_stable Hafter).
  assert (Hmissing : w_resources u1 !! resourceKey ns = None -> holding kept u1).
  { intros Hnone. split; [|by apply Hw]. intros m Hm. congruence. }
  destruct x as [[]|e]; cbn in Hr; [destruct Hr as [-> ->]; destruct Hd as [(m&Hm&->)|[-> Hnone]]; auto|].
  destruct (IsNotFound e); destruct Hr as [-> ->].
  - apply Hdone. destruct Hd as [-> Hnone]. by apply Hmissing.
  - apply Hfail. destruct Hd as [->|(m&Hm&->)]; [done|]. by apply kept_handing, Hset.
Qed.

Lemma mark_ensures :
  ensures world_step (holding kept) (request (DeleteManagedResource ns ManagedResourceName true))
    (fun _ => holding kept) (holding kept).
Proof using Type*.
  apply (ensures_effect (holding kept) (holding kept) (DeleteManagedResource ns ManagedResourceName true) (fun r => r)
    (fun _ => holding kept)); [apply kept_stable| |apply kept_stable|].
  { intros _. apply kept_stable. }
  intros w r w' Hw Hd. cbn in Hd. unfold outcomes in Hd.
  assert (Hmark : holding kept (marked ns ManagedResourceName w)).
  { unfold marked. change (ns, ManagedResourceName) with (resourceKey ns).
    destruct (w_resources w !! resourceKey ns) as [m|] eqn:Hm; [|exact Hw].
    by apply (holding_set kept kept (fun m => m <| deleting := true |>)). }
  destruct r as [[]|e]; [by subst w'|]. by destruct Hd as [->| ->].
Qed.

Lemma leaving_ensures v :
  v = VMigrate \/ v = VForceDelete ->
  ensures world_step (holding handing) (run_verb c iv ex v) (fun _ => holding handing) (holding handing).
Proof using Type*.
  assert (Hbody : forall pre1 pre2, ensures world_step (holding handing)
    (wrapf pre1 (netpolControllerDeployer.Teardown ns) ;; wrapf pre2 (DeleteKeepingObjects ns))
    (fun _ => holding handing) (holding handing)).
  { intros pre1 pre2. eapply ensures_bind; [apply neutral_ensures; [apply handing_stable|done|]|].
    { unfold netpolControllerDeployer.Teardown. emits_auto; done. }
    intros []. apply ensures_wrapf. eapply ensures_bind; [apply ensures_wrapf, keep_ensures|]. intros [].
    eapply ensures_weaken; [intros w Hw; exact Hw|intros a; apply kept_handing|apply kept_handing|].
    eapply ensures_bind; [apply ensures_wrapf, mark_ensures|]. intros [].
    apply neutral_ensures; [apply kept_stable|done|emits_auto; done]. }
  intros Hv. destruct Hv as [->| ->]; simpl; [unfold Migrate|unfold ForceDelete]; rewrite Hns;
    (apply recorded_ensures; [apply handing_stable|apply handing_stable|apply Hbody]).
Qed.
End leaving.

(** ** Arriving on the new seed *)

Section arriving.
Context (objects : gset string).

(** Nothing has been shipped from this seed yet, or it has taken away nothing. *)
Record settling (P : option resource -> Prop) (w : world) : Prop := {
  settling_resource : P (w_resources w !! resourceKey ns);
  settling_objects : objects ⊆ dom (w_objects w);
}.

Definition unshipped (x : option resource) : Prop := x = None.

(** All that gardener-resource-manager has applied is still wanted. *)
Definition adding (x : option resource) : Prop :=
  forall m, x = Some m -> deleting m = false /\ applied m ⊆ dom (manifests m).

Lemma unshipped_stable : stable (settling unshipped).
Proof using Type.
  split.
  - intros w w' Henv [Hr Ho]. unfold unshipped in Hr. destruct Henv; try congruence; by split.
  - intros w w' Hres Hobj [Hr Ho]. split; [by rewrite Hres|by rewrite Hobj].
Qed.

Lemma adding_stable : stable (settling adding).
Proof using Type.
  split.
  - intros w w' Henv [Hr Ho].
    destruct Henv as [w m k data Hm Hdel Hk|w m k Hm Hk Hdel|w m Hm Hdel Happ|w d Hd Hr'|w|w p Hr' Hp|w m Hk Hm];
      try (split; [exact Hr|exact Ho]); destruct (Hr m Hm) as [Hdel' Happl].
    + split; simpl; [|rewrite dom_insert_L; etrans; [exact Ho|apply union_subseteq_r]].
      rewrite lookup_insert_eq. intros m' [= <-]. split; [exact Hdel|].
      apply union_subseteq. split; [by apply singleton_subseteq_l, (elem_of_dom_2 _ _ _ Hk)|exact Happl].
    + rewrite Hdel' in Hdel. apply not_elem_of_dom in Hdel. by apply Happl in Hk.
    + congruence.
  - intros w w' Hres Hobj [Hr Ho]. split; [by rewrite Hres|by rewrite Hobj].
Qed.

Lemma unshipped_adding w : settling unshipped w -> settling adding w.
Proof using Type. intros [Hr Ho]. split; [|exact Ho]. intros m Hm. unfold unshipped in Hr. congruence. Qed.

Lemma ship_ensures data :
  ensures world_step (settling unshipped) (request (CreateForShoot ns ManagedResourceName ManagedResourceName false data))
    (fun _ => settling adding) (settling adding).
Proof using Type*.
  apply (ensures_effect (settling unshipped) (settling adding)
    (CreateForShoot ns ManagedResourceName ManagedResourceName false data) (fun r => r) (fun _ => settling adding));
    [apply unshipped_stable| |apply adding_stable|].
  { intros _. apply adding_stable. }
  intros w r w' Hw Hd. cbn in Hd. unfold outcomes in Hd. change (ns, ManagedResourceName) with (resourceKey ns) in Hd.
  assert (Hship : settling adding (shipped ns ManagedResourceName false data w)).
  { destruct Hw as [Hr Ho]. unfold unshipped in Hr. split; [|exact Ho]. unfold shipped.
    change (ns, ManagedResourceName) with (resourceKey ns). rewrite Hr. simpl. rewrite lookup_insert_eq.
    intros m [= <-]. split; [done|apply empty_subseteq]. }
  destruct r as [[]|e]; [by subst w'|]. destruct Hd as [->|[->|(m&Hm&_)]].
  - by apply unshipped_adding.
  - done.
  - apply settling_resource in Hw. unfold unshipped in Hw. congruence.
Qed.

Lemma unshipped_keeps {A} (m : IO A) :
  emits (fun e => neutral (ecall e) = true) m ->
  ensures world_step (settling unshipped) m (fun _ => settling unshipped) (settling adding).
Proof using Type*. intros Hm. apply neutral_ensures; [apply unshipped_stable|apply unshipped_adding|done]. Qed.

Lemma adding_keeps {A} (m : IO A) :
  emits (fun e => neutral (ecall e) = true) m ->
  ensures world_step (settling adding) m (fun _ => settling adding) (settling adding).
Proof using Type*. intros Hm. apply neutral_ensures; [apply adding_stable|done|done]. Qed.

Lemma unshipped_ends (m : IO unit) :
  emits (fun e => neutral (ecall e) = true) m ->
  ensures world_step (settling unshipped) m (fun _ => settling adding) (settling adding).
Proof using Type*.
  intros Hm. apply (ensures_weaken world_step (settling unshipped) _ m (fun _ => settling unshipped) _ (settling adding) _);
    [done|intros []; apply unshipped_adding|done|by apply unshipped_keeps].
Qed.

Lemma ReconcileBody_ensures :
  ensures world_step (settling unshipped) (ReconcileBody (theActuator c iv) ex) (fun _ => settling adding) (settling adding).
Proof using Type*.
  unfold ReconcileBody. rewrite Hns.
  eapply ensures_bind; [apply unshipped_keeps; emits_auto; done|]. intros cluster.
  eapply ensures_bind; [apply unshipped_keeps; destruct (cl_Shoot cluster); emits_auto; done|]. intros shoot.
  case_decide; [apply unshipped_ends; production_calls; done|].
  destruct (HibernationIsEnabled shoot); [apply unshipped_ends; production_calls; done|].
  eapply ensures_bind; [apply unshipped_keeps; production_calls; done|]. intros cfg.
  eapply ensures_bind; [apply unshipped_keeps; production_calls; done|]. intros tls.
  eapply ensures_bind.
  { apply ensures_wrapf. unfold Deploy. eapply ensures_bind; [apply unshipped_keeps|].
    - cbn [imageVector theActuator productionActuator]. destruct (buildResources cfg iv tls); emits_auto; done.
    - intros m. eapply ensures_bind; [apply unshipped_keeps; emits_auto; done|]. intros data.
      apply ensures_wrapf, ship_ensures. }
  intros []. apply adding_keeps. production_calls; done.
Qed.

Lemma Restore_ensures :
  ensures world_step (settling unshipped) (run_verb c iv ex VRestore) (fun _ => settling adding) (settling adding).
Proof using Type*.
  simpl. unfold RestoreOp, Reconcile. rewrite Hns.
  apply recorded_ensures; [apply unshipped_stable|apply adding_stable|].
  apply recorded_ensures; [apply unshipped_stable|apply adding_stable|]. apply ReconcileBody_ensures.
Qed.
End arriving.
End handover.

(** C7: a migration hands the shoot over.  While the old seed lets go of the
    Extension - however often a Migrate or ForceDelete is tried, and wherever
    each one fails - the objects in the shoot that its ManagedResource has
    deployed stay, with the contents they were deployed with; and when another
    seed, which has shipped nothing yet, then restores the Extension, whatever
    the result, every shipped object that it found in the shoot is still there. *)
Theorem migration_handover `{Libraries} `{Serialization} ns `{WorldStep} `{!DocumentedWorld ns}
    c iv ex c' iv' ex' h m w w1 w2 r w3 :
  ex_Namespace ex = ns -> ex_Namespace ex' = ns ->
  w_resources w !! resourceKey ns = Some m -> (deleting m = true -> keepObjects m = true) ->
  Forall (fun '(v, _, _) => v = VMigrate \/ v = VForceDelete) h -> history ns c iv ex h w w1 ->
  w_resources w2 !! resourceKey ns = None -> w_objects w2 = w_objects w1 ->
  runs_in world_step (run_verb c' iv' ex' VRestore) w2 r w3 ->
  (forall k data, manifests m !! k = Some data -> w_objects w !! k = Some data -> w_objects w1 !! k = Some data) /\
  (forall k, is_Some (w_objects w1 !! k) -> is_Some (w_objects w3 !! k)).
Proof.
  intros Hns Hns' Hm Hkeep Hall Hh Hnone Hobj Hr. split.
  - assert (Hstart : holding ns (manifests m) (w_objects w) handing w).
    { split; [|done]. intros m' Hm'. rewrite Hm in Hm'. injection Hm' as <-. by split. }
    apply (holding_objects ns (manifests m) (w_objects w) handing w1).
    revert Hstart. generalize (manifests m) (w_objects w). intros deployed objects Hw. clear Hm.
    revert w Hh Hw. induction Hall as [|[[v cluster] r0] h Hv _ IH]; intros w Hh Hw.
    + exact (stable_envs ns _ _ _ (handing_stable ns deployed objects) Hh Hw).
    + destruct Hh as (_&w0&Hr0&Hh). apply (IH w0 Hh).
      assert (Hw' : holding ns deployed objects handing (w <| w_cluster := cluster |>)) by (split; apply Hw).
      exact (ensures_any world_step _ _ _ _ _ _ (leaving_ensures ns c iv ex Hns deployed objects v Hv) Hw' Hr0).
  - intros k. rewrite <- !elem_of_dom. apply (settling_objects ns (dom (w_objects w1)) adding w3).
    refine (ensures_any world_step _ _ _ _ _ _ (Restore_ensures ns c' iv' ex' Hns' (dom (w_objects w1))) _ Hr).
    split; [exact Hnone|by rewrite Hobj].
Qed.
