(* ===== verification/ExtensionDemo.v ===== *)
(** * A concrete world

    A deterministic world of one Extension in which every call succeeds:
    gardener-resource-manager does all its work when an operation begins or
    waits for it, and the NetworkPolicy controller writes its policies whenever
    it runs.  In the [prompt_world] it stops with its Deployment, in the
    [lingering_world] it does not. *)

From S2P Require Import Prelude GoStd Errors Effects KubeObjects Constants Config External.
From S2P Require Import Interfaces.
From S2P Require Import Actuator Landscape NetpolDeployer NetpolLifecycle.
From S2P Require Import DataPlanePolicies Scripts ExtensionWorld ExtensionSpec ExtensionActions.
From S2P Require Import ExtensionLifecycle.

#[export] Instance demoSerialization : Serialization := fun data => data.

(** ** Reactions *)

Definition demoNs : string := "shoot--demo".

Section reactions.
#[local] Abbreviation shipping_key := (resourceKey demoNs).

Definition apply_one (w : world) (k : string) : world :=
  match w_resources w !! shipping_key with
  | Some m =>
      if deleting m then w
      else match manifests m !! k with
           | Some data => set_resource shipping_key (m <| applied := {[k]} ∪ applied m |>)
                            (w <| w_objects := <[k := data]> (w_objects w) |>)
           | None => w
           end
  | None => w
  end.

Definition unwanted (m : resource) (k : string) : bool :=
  if deleting m then negb (keepObjects m) else bool_decide (manifests m !! k = None).

Definition prune_one (w : world) (k : string) : world :=
  match w_resources w !! shipping_key with
  | Some m =>
      if bool_decide (k ∈ applied m) && unwanted m k
      then set_resource shipping_key (m <| applied := applied m ∖ {[k]} |>)
             (w <| w_objects := delete k (w_objects w) |>)
      else w
  | None => w
  end.

Definition release (w : world) : world :=
  match w_resources w !! shipping_key with
  | Some m =>
      if deleting m && (keepObjects m || bool_decide (applied m = ∅))
      then w <| w_resources := delete shipping_key (w_resources w) |> else w
  | None => w
  end.

(** The Deployment asks for a pod. *)
Definition wanted (w : world) : bool :=
  match deployments (w_seed w) !! key demoNs with
  | Some d => negb (bool_decide (ds_Replicas (dep_Spec d) = Some 0%Z))
  | None => false
  end.

Definition start_pod (w : world) : world := if wanted w then w <| w_running := true |> else w.
Definition stop_pod (w : world) : world := if wanted w then w else w <| w_running := false |>.

Definition put_one (w : world) (p : NetworkPolicy) : world :=
  if w_running w && label_selects ManagedDataPlanePolicyListOptions (np_Namespace p) (np_Labels p)
  then w <| w_policies := <[np_key p := p]> (w_policies w) |> else w.

(** What the controller would write for one managed Gateway in "apps". *)
Definition put_policies (w : world) : world := foldl put_one w (dataPlanePolicies "apps").

Definition apply_all (w : world) : world :=
  match w_resources w !! shipping_key with
  | Some m => foldl apply_one w (map_to_list (manifests m)).*1
  | None => w
  end.

Definition prune_all (w : world) : world :=
  match w_resources w !! shipping_key with
  | Some m => foldl prune_one w (elements (applied m))
  | None => w
  end.

(** gardener-resource-manager's work. *)
Definition settle_objects (w : world) : world := release (prune_all (apply_all w)).

Definition promptly (w : world) : world := put_policies (stop_pod (start_pod w)).
Definition lingering (w : world) : world := put_policies (start_pod w).

(** *** They are reactions of the environment *)

#[local] Hint Resolve rtc_refl : core.

Lemma apply_one_env w k : rtc (env demoNs) w (apply_one w k).
Proof.
  unfold apply_one. destruct (w_resources w !! shipping_key) as [m|] eqn:Hm; [|done]. destruct (deleting m) eqn:Hd; [done|].
  destruct (manifests m !! k) as [data|] eqn:Hk; [|done]. by apply rtc_once, env_apply.
Qed.

Lemma prune_one_env w k : rtc (env demoNs) w (prune_one w k).
Proof.
  unfold prune_one, unwanted. destruct (w_resources w !! shipping_key) as [m|] eqn:Hm; [|done].
  case_bool_decide as Hk; [|done]. destruct (deleting m) eqn:Hd; simpl.
  - destruct (keepObjects m) eqn:Hkeep; [done|]. apply rtc_once, (env_prune _ _ m); [done..|]. by rewrite Hd.
  - case_bool_decide as Hno; [|done]. apply rtc_once, (env_prune _ _ m); [done..|]. by rewrite Hd.
Qed.

Lemma release_env w : rtc (env demoNs) w (release w).
Proof.
  unfold release. destruct (w_resources w !! shipping_key) as [m|] eqn:Hm; [|done].
  destruct (deleting m) eqn:Hd; [|done]. destruct (keepObjects m) eqn:Hk; simpl.
  - apply rtc_once, (env_release _ _ m); [done..|by left].
  - case_bool_decide as Ha; [|done]. apply rtc_once, (env_release _ _ m); [done..|by right].
Qed.

Lemma start_pod_env w : rtc (env demoNs) w (start_pod w).
Proof.
  unfold start_pod, wanted. destruct (deployments (w_seed w) !! key demoNs) as [d|] eqn:Hd; [|done].
  case_bool_decide as Hr; [done|]. by apply rtc_once, (env_start _ _ d).
Qed.

Lemma stop_pod_env w : rtc (env demoNs) w (stop_pod w).
Proof. unfold stop_pod. destruct (wanted w); [done|]. apply rtc_once, env_stop. Qed.

Lemma put_one_env w p : rtc (env demoNs) w (put_one w p).
Proof.
  unfold put_one. destruct (w_running w) eqn:Hr; [|done].
  destruct (label_selects _ _ _) eqn:Hp; [|done]. by apply rtc_once, env_policy_put.
Qed.

Lemma foldl_env {A} (f : world -> A -> world) l w :
  (forall w a, rtc (env demoNs) w (f w a)) -> rtc (env demoNs) w (foldl f w l).
Proof. intros Hf. revert w. induction l as [|a l IH]; intros w; simpl; [done|]. etrans; [apply Hf|apply IH]. Qed.

Lemma settle_objects_env w : rtc (env demoNs) w (settle_objects w).
Proof.
  unfold settle_objects. etrans; [|apply release_env]. etrans.
  - instantiate (1 := apply_all w). unfold apply_all. destruct (_ !! _); [apply foldl_env, apply_one_env|done].
  - unfold prune_all. destruct (_ !! _); [apply foldl_env, prune_one_env|done].
Qed.

Lemma put_policies_env w : rtc (env demoNs) w (put_policies w).
Proof. apply foldl_env, put_one_env. Qed.

Lemma promptly_env w : rtc (env demoNs) w (promptly w).
Proof.
  unfold promptly. etrans; [apply start_pod_env|]. etrans; [apply stop_pod_env|].
  apply put_policies_env.
Qed.

Lemma lingering_env w : rtc (env demoNs) w (lingering w).
Proof. unfold lingering. etrans; [apply start_pod_env|]. apply put_policies_env. Qed.
End reactions.

(** ** Answers *)

Definition notFound : error := apiError ReasonNotFound "not found".

(** Changes what is there, or finds nothing. *)
Definition existing {V} (found : option V) (w : world) (made : V -> world) : (unit + error) * world :=
  match found with
  | Some v => (inl tt, made v)
  | None => (inr notFound, w)
  end.

Definition selected (opts : list ListOption) (w : world) : list NetworkPolicy :=
  filter (fun p => label_selects opts (np_Namespace p) (np_Labels p) = true) (map_to_list (w_policies w)).*2.

Definition set_seed (s : seed) (w : world) : world := w <| w_seed := s |>.

Definition attend (w : world) (c : call) : ans c * world :=
  match c as c return ans c * world with
  | GetCluster name => (inl (w_cluster w), w)
  | SecretsManagerForCluster cluster identity _ =>
      let h := fresh (dom (w_managers w)) in
      (inl h, w <| w_managers := <[h := (cl_Name cluster, identity, ∅)]> (w_managers w) |>)
  | GenerateAllSecrets h configs =>
      (inl demoSecrets,
       match w_managers w !! h with
       | Some (n, identity, made) =>
           (w <| w_generated := <[(n, identity) := generatedIn w (n, identity) ∪ secretNames configs]> (w_generated w) |>)
             <| w_managers := <[h := (n, identity, made ∪ secretNames configs)]> (w_managers w) |>
       | None => w
       end)
  | SMCleanup h =>
      (inl tt,
       match w_managers w !! h with
       | Some (n, identity, made) =>
           w <| w_generated := <[(n, identity) := generatedIn w (n, identity) ∩ made]> (w_generated w) |>
       | None => w
       end)
  | SerializedObjects resources => (inl resources, w)
  | CreateForShoot n name _ keep data => (inl tt, shipped n name keep data w)
  | SetKeepObjects n name keep =>
      existing (w_resources w !! (n, name)) w (fun m => set_resource (n, name) (m <| keepObjects := keep |>) w)
  | DeleteManagedResource n name _ => (inl tt, marked n name w)
  | WaitUntilManagedResourceDeleted n name _ =>
      (match w_resources w !! (n, name) with None => inl tt | Some _ => inr (apiError ReasonUnknown "timed out") end, w)
  | ListNetworkPolicies opts => (inl (selected opts w), w)
  | DeleteNetworkPolicy n name =>
      existing (w_policies w !! mkKey n name) w
        (fun _ => w <| w_policies := delete (mkKey n name) (w_policies w) |>)
  | ReconcileShootAccessSecret name n _ =>
      (inl (SecretNamePrefixShootAccess +:+ name),
       set_seed (put_secret (n, SecretNamePrefixShootAccess +:+ name) (w_seed w)) w)
  | InjectGenericKubeconfig d _ _ => (inl d, w)
  | SeedCreateOrUpdateDeployment n name mutate =>
      (inl tt, set_seed (put_deployment (n, name)
         (mutate (default (emptyDeployment n name) (deployments (w_seed w) !! (n, name)))) (w_seed w)) w)
  | SeedGetDeployment n name =>
      (match deployments (w_seed w) !! (n, name) with Some d => inl d | None => inr notFound end, w)
  | SeedPatchDeployment _ d => (inl tt, set_seed (put_deployment (dep_Namespace d, dep_Name d) d (w_seed w)) w)
  | SeedDelete KDeployment n name => (inl tt, set_seed (drop_deployment (n, name) (w_seed w)) w)
  | SeedDelete KSecret n name => (inl tt, set_seed (drop_secret (n, name) (w_seed w)) w)
  | c => (answer aliveShoot [] [] c, w)
  end.

Lemma unchanged w : w = w <| w_seed := w_seed w |>.
Proof. by destruct w. Qed.

Lemma attend_documented w c : documented_effect w c (attend w c).1 (attend w c).2.
Proof.
  destruct c; try (by exists (w_seed w); destruct w); cbn [attend documented_effect fst snd]; try done.
  - split; [|done]. apply not_elem_of_dom, is_fresh.
  - destruct (w_managers w !! sm) as [[[n identity] made]|]; [by exists (secretNames configs)|done].
  - destruct (w_managers w !! sm) as [[[n identity] made]|]; [|done]. eexists. split; [done|].
    split; [apply intersection_subseteq_l|]. split; [apply intersection_subseteq_r|done].
  - destruct (w_resources w !! (ns, name)) as [m|] eqn:Hm; cbn; [by left; exists m|done].
  - by destruct (w_resources w !! (ns, name)).
  - by eexists.
  - by eexists.
  - exists (w_seed w). split; [|apply unchanged]. cbn. by destruct (deployments (w_seed w) !! (ns, name)).
  - by eexists.
  - destruct kind; try (by exists (w_seed w); destruct w); by eexists.
  - split; [done|]. intros p. unfold selected. rewrite list_elem_of_filter, list_elem_of_fmap. split.
    + intros [Hp ([k p']&->&Hin)]. split; [|done]. exists k. by apply elem_of_map_to_list in Hin.
    + intros [[k Hk] Hp]. split; [done|]. exists (k, p). split; [done|]. by apply elem_of_map_to_list.
  - destruct (w_policies w !! mkKey ns name) as [p|] eqn:Hp; cbn; [by left; exists p|done].
  - by left.
Qed.

(** ** The worlds *)

(** Calls before which gardener-resource-manager finds the time. *)
Definition leisurely (c : call) : bool :=
  match c with Now | WaitUntilManagedResourceDeleted _ _ _ => true | _ => false end.

(** Every call is answered and then reacted to. *)
Definition serve (react : world -> world) (w : world) (c : call) : ans c * world :=
  let '(r, w') := attend (if leisurely c then settle_objects w else w) c in (r, react w').

Definition reacting (react : world -> world) : WorldStep := fun w c r w' => serve react w c = (r, w').

Lemma reacting_documented react :
  (forall w, rtc (env demoNs) w (react w)) -> @DocumentedWorld _ _ demoNs (reacting react).
Proof.
  intros Hreact w c r w' Hs. unfold world_step, reacting, serve in Hs. revert Hs.
  set (w0 := if leisurely c then settle_objects w else w). pose proof (attend_documented w0 c) as Hd.
  destruct (attend w0 c) as [r1 w1]. intros [= <- <-]. exists w0, w1.
  split; [unfold w0; destruct (leisurely c); [apply settle_objects_env|apply rtc_refl]|]. by split.
Qed.

Definition prompt_world : WorldStep := reacting promptly.
Definition lingering_world : WorldStep := reacting lingering.

#[export] Instance prompt_documented : @DocumentedWorld _ _ demoNs prompt_world.
Proof. apply reacting_documented, promptly_env. Qed.

#[export] Instance lingering_documented : @DocumentedWorld _ _ demoNs lingering_world.
Proof. apply reacting_documented, lingering_env. Qed.

Lemma foldl_keeps {A B} (f : world -> A -> world) (g : world -> B) l w :
  (forall w a, g (f w a) = g w) -> g (foldl f w l) = g w.
Proof. intros Hf. revert w. induction l as [|a l IH]; intros w; simpl; [done|]. by rewrite IH, Hf. Qed.

#[export] Instance prompt_terminates : @PromptTermination demoNs prompt_world.
Proof.
  intros w c r w' Hs _. unfold world_step, prompt_world, reacting, serve in Hs.
  destruct (attend _ c) as [r1 w1]. injection Hs as _ <-. unfold attended, promptly, put_policies.
  assert (Hput : forall w p, w_running (put_one w p) = w_running w /\ w_seed (put_one w p) = w_seed w).
  { intros u p. unfold put_one. by destruct (_ && _). }
  rewrite (foldl_keeps put_one w_running) by (intros; apply Hput).
  rewrite (foldl_keeps put_one w_seed) by (intros; apply Hput).
  unfold stop_pod. destruct (wanted (start_pod w1)) eqn:Hw; [|done].
  intros _. unfold wanted in Hw. destruct (deployments _ !! key demoNs) as [d|] eqn:Hd; [by exists d|done].
Qed.

(** ** Executions *)

Lemma reacting_runs react {A} (p : io A) w a :
  (exec (serve react) p w).1 = a -> runs_in (@world_step (reacting react)) p w a (exec (serve react) p w).2.
Proof. intros <-. apply exec_runs_in, surjective_pairing. Qed.

Definition demoClient : Client := mkClient demoDecode.

(** The world after operations on [cluster]s, each of which succeeds. *)
Definition operate (react : world -> world) (ex : Extension) (v : verb) (cluster : Cluster) (w : world) : outcome unit * world :=
  exec (serve react) (run_verb demoClient demoImages ex v) (w <| w_cluster := cluster |>).

Fixpoint operated (react : world -> world) (ex : Extension) (l : list (verb * Cluster)) (w : world) : world :=
  match l with
  | [] => w
  | (v, cluster) :: l => operated react ex l (operate react ex v cluster w).2
  end.

Fixpoint results (react : world -> world) (ex : Extension) (l : list (verb * Cluster)) (w : world) :
    list (verb * Cluster * outcome unit) :=
  match l with
  | [] => []
  | (v, cluster) :: l =>
      (v, cluster, (operate react ex v cluster w).1) :: results react ex l (operate react ex v cluster w).2
  end.

Lemma operated_history react ex l w :
  Forall (fun '(_, cluster) => cl_Name cluster = demoNs) l ->
  @history _ demoNs (reacting react) demoClient demoImages ex (results react ex l w) w (operated react ex l w).
Proof.
  intros Hl. revert w. induction Hl as [|[v cluster] l Hname _ IH]; intros w; simpl; [apply rtc_refl|].
  split; [exact Hname|]. eexists. split; [by apply reacting_runs|]. apply IH.
Qed.

Definition aliveCluster : Cluster := mkCluster demoNs (Some aliveShoot).

Definition emptyWorld : world :=
  mkWorld (mkSeed ∅ ∅) ∅ ∅ ∅ aliveCluster ∅ ∅ false.
