(* ===== verification/ExtensionWitnesses.v ===== *)
(** * The life cycle in the concrete world

    The theorems on the life cycle of an Extension, applied to executions in the
    concrete worlds, and the execution in which a controller that outlives its
    Deployment recreates a pruned policy. *)

From S2P Require Import Prelude GoStd Errors Effects KubeObjects Constants Config External.
From S2P Require Import Interfaces.
From S2P Require Import Actuator Landscape DataPlanePolicies NetpolLifecycle Scripts.
From S2P Require Import ExtensionWorld ExtensionSpec.
From S2P Require Import ExtensionActions ExtensionLifecycle ExtensionProps ExtensionMigration.
From S2P Require Import ExtensionProgress ExtensionAdmission ExtensionDemo Manifests Codec.
From S2P Require Import ProcessWitnesses.
From S2P Require Import ErrorClasses Validator.

Lemma emptyWorld_ok : seed_ok (w_seed emptyWorld).
Proof. split; [apply map_Forall_empty|]. intros ns [d Hd]. discriminate Hd. Qed.

Lemma emptyWorld_keyed : policies_keyed emptyWorld.
Proof. intros k p Hp. discriminate Hp. Qed.

(** An executed history, with its results. *)
Lemma executed react ex l h w :
  Forall (fun '(_, cluster) => cl_Name cluster = demoNs) l -> results react ex l w = h ->
  @history _ demoNs (reacting react) demoClient demoImages ex h w (operated react ex l w).
Proof. intros Hl <-. by apply operated_history. Qed.

(** ** Installed, migrated, restored and deleted *)

Definition wholeLife : list (verb * Cluster) :=
  [(VReconcile, aliveCluster); (VMigrate, aliveCluster); (VRestore, aliveCluster); (VDelete, aliveCluster)].

Lemma wholeLife_named : Forall (fun '(_, cluster) => cl_Name cluster = demoNs) wholeLife.
Proof. repeat constructor. Qed.

Lemma extension_lifecycle_refines_witness :
  let h := [(VReconcile, aliveCluster, Ok tt); (VMigrate, aliveCluster, Ok tt); (VRestore, aliveCluster, Ok tt);
            (VDelete, aliveCluster, Ok tt)] in
  let w' := operated promptly configuredExtension wholeLife emptyWorld in
  history_spec (theActuator demoClient demoImages) configuredExtension h (view demoNs emptyWorld) (view demoNs w') /\
  seed_ok (w_seed w') /\ isolated demoNs emptyWorld w'.
Proof.
  intros h w'. refine (@extension_lifecycle_refines _ _ demoNs prompt_world _ demoClient demoImages configuredExtension
    h emptyWorld w' eq_refl emptyWorld_ok _).
  apply executed; [exact wholeLife_named|]. vm_compute. reflexivity.
Defined.

(** ** Deleted *)

Definition installed : world := settle_objects (operated promptly configuredExtension [(VReconcile, aliveCluster)] emptyWorld).
Definition removed : world := operated promptly configuredExtension [(VReconcile, aliveCluster); (VDelete, aliveCluster)] emptyWorld.

Lemma extension_leaves_nothing_behind_witness :
  w_resources removed !! resourceKey demoNs = None /\ generatedIn removed (secretsKey demoNs) = ∅ /\
  torn_down demoNs removed /\ w_objects removed = ∅ /\
  (forall k p, w_policies removed !! k = Some p -> ~ managed p) /\
  bool_decide (w_objects installed = ∅) = false /\ bool_decide (w_policies installed = ∅) = false.
Proof.
  destruct (@extension_leaves_nothing_behind _ _ demoNs prompt_world _ demoClient demoImages configuredExtension
    [(VReconcile, aliveCluster, Ok tt)] aliveCluster emptyWorld removed eq_refl emptyWorld_ok) as (Hr&Hg&Ht&Ho&Hp).
  { apply executed; [repeat constructor|]. vm_compute. reflexivity. }
  split_and!; [exact Hr|exact Hg|exact Ht| | | |].
  - apply Ho; [by repeat constructor|]. reflexivity.
  - apply Hp; [exact prompt_terminates|discriminate|exact emptyWorld_keyed|reflexivity].
  - vm_compute. reflexivity.
  - vm_compute. reflexivity.
Defined.

(** ** Switched off *)

Lemma installed_history :
  @history _ demoNs prompt_world demoClient demoImages configuredExtension [(VReconcile, aliveCluster, Ok tt)]
    emptyWorld installed.
Proof.
  eapply history_envs; [|apply settle_objects_env]. apply executed; [repeat constructor|]. vm_compute. reflexivity.
Qed.

Lemma installed_keeps (I : world -> Prop) :
  (forall w call r w', @world_step prompt_world w call r w' -> I w -> I w') ->
  (forall w w', env demoNs w w' -> I w -> I w') -> (forall w cluster, I w -> I (w <| w_cluster := cluster |>)) ->
  I emptyWorld -> I installed.
Proof.
  intros Hstep Henv Hset. exact (history_keeps demoNs demoClient demoImages configuredExtension I _ _ _ Hstep Henv Hset installed_history).
Qed.

Lemma installed_ok : seed_ok (w_seed installed).
Proof.
  exact (proj1 (proj2 (history_refines demoNs demoClient demoImages configuredExtension eq_refl _ _ _ emptyWorld_ok installed_history))).
Qed.

(** The extension without a configuration, which does not ask for policies. *)
Definition switchedOff : outcome unit * world :=
  exec (serve promptly) (run_verb demoClient demoImages demoExtension VReconcile) installed.

Lemma switchedOff_runs :
  runs_in (@world_step prompt_world) (run_verb demoClient demoImages demoExtension VReconcile) installed
    (Ok tt) switchedOff.2.
Proof.
  unfold switchedOff. apply reacting_runs. vm_compute. reflexivity.
Qed.

Lemma disabling_clears_policies_witness :
  torn_down demoNs switchedOff.2 /\ (forall k p, w_policies switchedOff.2 !! k = Some p -> ~ managed p) /\
  bool_decide (w_policies installed = ∅) = false.
Proof.
  destruct (@disabling_clears_policies _ _ demoNs prompt_world _ prompt_terminates demoClient demoImages demoExtension
    aliveCluster aliveShoot (withVersion "1.33.0" DefaultConfig) installed switchedOff.2) as [Htorn Hpolicies].
  - reflexivity.
  - reflexivity.
  - vm_compute. reflexivity.
  - exact installed_ok.
  - apply (installed_keeps (attended demoNs)); [exact (@prompt _ _ prompt_terminates)|exact (env_attended demoNs)|done|done].
  - apply (installed_keeps policies_keyed); [apply (step_keyed demoNs)|exact (env_keyed demoNs)|done|exact emptyWorld_keyed].
  - reflexivity.
  - reflexivity.
  - reflexivity.
  - reflexivity.
  - reflexivity.
  - exact switchedOff_runs.
  - split_and!; [exact Htorn|exact Hpolicies|vm_compute; reflexivity].
Defined.

(** ** Migrated *)

Definition shipping_of (w : world) : resource := default (mkResource ∅ false false ∅) (w_resources w !! resourceKey demoNs).

Lemma shipping_found w :
  bool_decide (is_Some (w_resources w !! resourceKey demoNs)) = true ->
  w_resources w !! resourceKey demoNs = Some (shipping_of w).
Proof. intros Hm%bool_decide_eq_true. unfold shipping_of. by destruct Hm as [m ->]. Qed.

Definition left : world := operated promptly configuredExtension [(VMigrate, aliveCluster)] installed.
Definition arrived : world := emptyWorld <| w_objects := w_objects left |>.
Definition restored : outcome unit * world :=
  exec (serve promptly) (run_verb demoClient demoImages configuredExtension VRestore) arrived.

Lemma migration_handover_witness :
  (forall k data, manifests (shipping_of installed) !! k = Some data -> w_objects installed !! k = Some data ->
     w_objects left !! k = Some data) /\
  (forall k, is_Some (w_objects left !! k) -> is_Some (w_objects restored.2 !! k)) /\
  bool_decide (manifests (shipping_of installed) = w_objects installed) = true /\
  bool_decide (w_objects left = ∅) = false.
Proof.
  destruct (@migration_handover _ _ demoNs prompt_world _ demoClient demoImages configuredExtension
    demoClient demoImages configuredExtension [(VMigrate, aliveCluster, Ok tt)] (shipping_of installed)
    installed left arrived restored.1 restored.2) as [Hleft Harrived].
  - reflexivity.
  - reflexivity.
  - apply shipping_found. vm_compute. reflexivity.
  - vm_compute. discriminate.
  - repeat constructor.
  - apply executed; [repeat constructor|]. vm_compute. reflexivity.
  - reflexivity.
  - reflexivity.
  - exact (reacting_runs promptly (run_verb demoClient demoImages configuredExtension VRestore) arrived _ eq_refl).
  - refine (conj Hleft (conj Harrived (conj _ _))); vm_compute; reflexivity.
Defined.

(** ** On a good day *)

#[local] Instance ShootExtension_eq_dec : EqDecision ShootExtension.
Proof. solve_decision. Defined.
#[local] Instance Shoot_eq_dec : EqDecision Shoot.
Proof. solve_decision. Defined.
#[local] Instance Cluster_eq_dec : EqDecision Cluster.
Proof. solve_decision. Defined.

Definition healthyb (cluster : Cluster) (c : call) : ans c -> bool :=
  let answeredb {A} (r : A + error) := match r with inl _ => true | inr _ => false end in
  match c with
  | Now | CounterInc _ _ | GaugeSetSince _ _ _ | PollWait _ => fun _ => true
  | GetCluster _ => fun r => match r with inl cl => bool_decide (cl = cluster) | inr _ => false end
  | GenerateAllSecrets _ _ => fun r => match r with inl data => bool_decide (data = demoSecrets) | inr _ => false end
  | External.ListGateways _ => fun r => match r with inl [] => true | _ => false end
  | SecretsManagerForCluster _ _ _ | SerializedObjects _ | InjectGenericKubeconfig _ _ _ => answeredb
  | ListObjects _ _ | ListNetworkPolicies _ | ReconcileShootAccessSecret _ _ _ => answeredb
  | SMCleanup _ | CreateForShoot _ _ _ _ _ | DeleteManagedResource _ _ _ | WaitUntilManagedResourceDeleted _ _ _
  | SeedCreateOrUpdateDeployment _ _ _ | SeedPatchDeployment _ _ | RegisterScheme _ | NewClientForShoot _
  | RemoveFinalizers _ _ | DeleteObject _ _ _ | CreateOrUpdateNetworkPolicy _ _ _ => answeredb
  | SeedGetDeployment _ _ | SetKeepObjects _ _ _ | SeedDelete _ _ _ | DeleteGateway _ _
  | DeleteNetworkPolicy _ _ | GetGatewayClass _ => answeredb
  end.

Lemma demoSecrets_complete : complete demoSecrets.
Proof.
  eexists _, _, _, _. split_and!; [reflexivity..|]. repeat constructor; vm_compute; discriminate.
Qed.

Lemma healthyb_healthy cluster c r : healthyb cluster c r = true -> healthy cluster c r.
Proof.
  destruct c; simpl; try done; destruct r as [x|e]; simpl; try done.
  - by intros ->%bool_decide_eq_true.
  - intros ->%bool_decide_eq_true. exists demoSecrets. split; [done|exact demoSecrets_complete].
  - by destruct x.
Qed.

(** Every call of the execution is healthy. *)
Fixpoint good_day {A} (react : world -> world) (cluster : Cluster) (p : io A) (w : world) : bool :=
  match p with
  | Ret _ => true
  | Call c k => let '(r, w') := serve react w c in healthyb cluster c r && good_day react cluster (k r) w'
  end.

Lemma good_day_runs react cluster {A} (p : io A) w :
  good_day react cluster p w = true ->
  runs_in (@healthy_step _ (reacting react) cluster) p w (exec (serve react) p w).1 (exec (serve react) p w).2.
Proof.
  revert w. induction p as [a|c k IH]; intros w; simpl; [done|].
  destruct (serve react w c) as [r w'] eqn:E. intros [Hh Hk]%andb_true_iff. exists r, w'.
  split; [split; [exact E|by apply healthyb_healthy]|by apply IH].
Qed.

Definition reconciled : outcome unit * world :=
  exec (serve promptly) (run_verb demoClient demoImages configuredExtension VReconcile) emptyWorld.

Lemma healthy_operations_succeed_witness :
  reconciled.1 = Ok tt /\
  exists p, plans VReconcile aliveCluster p /\
    performs (script p) (view demoNs emptyWorld) (view demoNs reconciled.2) /\
    forall m policies, p = Install m policies ->
      exists sh, cl_Shoot aliveCluster = Some sh /\
        builds (theActuator demoClient demoImages) configuredExtension sh m policies.
Proof.
  apply (@healthy_operations_succeed _ _ demoNs prompt_world _ demoClient demoImages configuredExtension VReconcile
    aliveCluster emptyWorld); try reflexivity.
  - exact emptyWorld_ok.
  - exists aliveShoot. split; [reflexivity|]. intros _ _. split_and!; [by eexists|by eexists|by eexists|exact demo_codec].
  - apply good_day_runs. vm_compute. reflexivity.
Defined.

(** *** The webhook's decision *)

Lemma aliveShoot_carries : carries aliveShoot configuredExtension.
Proof. exists (mkShootExtension ExtensionType (Some "policies"%string) None). split_and!; [reflexivity..|discriminate]. Qed.

(** A Shoot with a configuration that does not decode. *)
Definition misconfiguredShoot : Shoot :=
  mkShoot None "1.33.0" None (Some "evaluation"%string) [mkShootExtension ExtensionType (Some "nonsense"%string) None].
Definition misconfiguredExtension : Extension := mkExtension "envoy-gateway" "shoot--demo" (Some "nonsense"%string).
Definition misconfiguredCluster : Cluster := mkCluster demoNs (Some misconfiguredShoot).
Definition misconfiguredWorld : world := emptyWorld <| w_cluster := misconfiguredCluster |>.

Definition failed : outcome unit * world :=
  exec (serve promptly) (run_verb demoClient demoImages misconfiguredExtension VReconcile) misconfiguredWorld.

Lemma misconfiguredShoot_carries : carries misconfiguredShoot misconfiguredExtension.
Proof. exists (mkShootExtension ExtensionType (Some "nonsense"%string) None). split_and!; [reflexivity..|discriminate]. Qed.

Lemma undecodable_benign : benign (apiError ReasonUnknown "couldn't decode").
Proof. split; [reflexivity|]. repeat constructor. Qed.

Lemma admission_decides_reconciliation_witness :
  (exists ws, validateShoot demoDecode aliveShoot = inl ws) /\
  ~ (exists ws, validateShoot demoDecode misconfiguredShoot = inl ws) /\
  exists e, failed.1 = Err e /\ classifyError (Some e) = ReasonInvalidProviderConfig.
Proof.
  destruct (@admission_decides_reconciliation _ _ demoNs prompt_world _ demoClient demoImages configuredExtension
    aliveCluster aliveShoot emptyWorld reconciled.1 reconciled.2) as [Hgood _].
  { reflexivity. } { reflexivity. } { reflexivity. } { reflexivity. } { by apply (bool_decide_unpack _); vm_compute. }
  { reflexivity. } { exact aliveShoot_carries. } { by eexists. } { by eexists. } { exact demo_codec. }
  { apply good_day_runs. vm_compute. reflexivity. }
  destruct (@admission_decides_reconciliation _ _ demoNs prompt_world _ demoClient demoImages misconfiguredExtension
    misconfiguredCluster misconfiguredShoot misconfiguredWorld failed.1 failed.2) as [Hbad Hnothing].
  { reflexivity. } { reflexivity. } { reflexivity. } { reflexivity. } { by apply (bool_decide_unpack _); vm_compute. }
  { reflexivity. } { exact misconfiguredShoot_carries. } { by eexists. } { by eexists. } { exact demo_codec. }
  { apply good_day_runs. vm_compute. reflexivity. }
  assert (Hfailed : failed.1 <> Ok tt) by (vm_compute; discriminate).
  destruct (Hnothing Hfailed) as (_&e&He&Hclass).
  split_and!; [apply Hgood; vm_compute; reflexivity|by intros Hws%Hbad|]. exists e. split; [exact He|].
  apply Hclass. intros text e' [= <-]. vm_compute. intros [= <-]. exact undecodable_benign.
Defined.

(** ** A controller that outlives its Deployment *)

Lemma policy_left w :
  existsb (fun p => label_selects ManagedDataPlanePolicyListOptions (np_Namespace p) (np_Labels p))
    (map_to_list (w_policies w)).*2 = true ->
  exists k p, w_policies w !! k = Some p /\ managed p.
Proof.
  intros (p&Hin%list_elem_of_In&Hp)%existsb_exists. apply list_elem_of_fmap in Hin as ([k q]&->&Hq).
  exists k, q. split; [by apply elem_of_map_to_list in Hq|exact Hp].
Qed.

(** The teardown does not wait for the controller's pod: in a world that behaves
    as documented, but lets the pod outlive its Deployment, the controller
    recreates the policies that Delete prunes.  Delete succeeds, the controller
    is gone and stopped, and a managed policy is left in the living shoot. *)
Theorem lingering_controller_recreates :
  exists (W : WorldStep) (_ : DocumentedWorld demoNs) (w w' : world),
    seed_ok (w_seed w) /\ attended demoNs w /\ policies_keyed w /\
    history demoNs demoClient demoImages configuredExtension
      [(VReconcile, aliveCluster, Ok tt); (VDelete, aliveCluster, Ok tt)] w w' /\
    shootAlive (cl_Shoot aliveCluster) = true /\ torn_down demoNs w' /\ w_running w' = false /\
    exists k p, w_policies w' !! k = Some p /\ managed p.
Proof.
  set (l := [(VReconcile, aliveCluster); (VDelete, aliveCluster)]).
  set (w1 := operated lingering configuredExtension l emptyWorld).
  exists lingering_world, lingering_documented, emptyWorld, (w1 <| w_running := false |>).
  split_and!; [exact emptyWorld_ok|discriminate|exact emptyWorld_keyed| |reflexivity|vm_compute; split; [reflexivity|]|reflexivity|].
  - eapply history_envs; [|apply rtc_once, env_stop]. apply executed; [repeat constructor|]. vm_compute. reflexivity.
  - intros Hin. discriminate Hin.
  - apply (policy_left w1). vm_compute. reflexivity.
Qed.
