(* ===== verification/ExtensionConcurrency.v ===== *)
(** * Two Extensions at once, in the concrete world

    Two shoots on one seed whose Extensions are reconciled at the same time,
    call by call in turns. *)

From stdpp Require Import functions.
From S2P Require Import Prelude GoStd Errors Effects KubeObjects Constants Config External.
From S2P Require Import Interfaces Actuator Landscape NetpolLifecycle ExtensionWorld ExtensionSpec.
From S2P Require Import ExtensionActions.
From S2P Require Import ExtensionLifecycle ExtensionDemo ExtensionNeighbours ExtensionConfined.
From S2P Require Import ExtensionSystem.

Definition otherNs : string := "shoot--other".

Definition demoExtensions (n : string) : Extension := mkExtension "envoy-gateway" n (Some "policies"%string).

Definition clusterOf (n : string) : Cluster := mkCluster n (Some aliveShoot).

Definition twoShoots : system :=
  mkSystem (mkShared (mkSeed ∅ ∅) ∅ ∅ ∅) (fun n => mkOwn (clusterOf n) ∅ ∅ false) (fun _ => Idle) (fun _ => []).

(** ** A schedule *)

Inductive move := Begin (n : string) (v : verb) | Continue (n : string).

(** A worker's next turn, where every call is answered. *)
Definition moved (s : system) (m : move) : system :=
  match m with
  | Begin n v =>
      match sys_worker s n with
      | Idle => becomes s n (set_cluster (clusterOf n) (world_at s n))
                  (Busy v (clusterOf n) (run_verb demoClient demoImages (demoExtensions n) v)) (sys_log s n)
      | _ => s
      end
  | Continue n =>
      match sys_worker s n with
      | Idle => s
      | Busy v cluster (Call call k) =>
          let '(r, w) := attend (world_at s n) call in becomes s n w (Busy v cluster (k r)) (sys_log s n)
      | Busy v cluster (Ret r) => becomes s n (world_at s n) Idle (sys_log s n ++ [(v, cluster, r)])
      end
  end.

Lemma moved_turn s m : rtc (turn demoClient demoImages demoExtensions) s (moved s m).
Proof.
  destruct m as [n v|n]; simpl; destruct (sys_worker s n) as [|v' cluster p] eqn:Hw; try apply rtc_refl.
  - apply rtc_once. by apply turn_begin.
  - destruct p as [r|call k].
    + apply rtc_once. by apply turn_end.
    + pose proof (attend_documented (world_at s n) call) as Heff. destruct (attend _ call) as [r w].
      apply rtc_once. by eapply turn_call.
Qed.

Lemma moves_turns l s : rtc (turn demoClient demoImages demoExtensions) s (foldl moved s l).
Proof. revert s. induction l as [|m l IH]; intros s; simpl; [apply rtc_refl|]. etrans; [apply moved_turn|apply IH]. Qed.

(** Both are reconciled at once, in turns; then the one is force-deleted, which
    gives up waiting for its ManagedResource, while the other is reconciled
    again. *)
Definition alternating (k : nat) : list move := mjoin (replicate k [Continue demoNs; Continue otherNs]).

Definition schedule : list move :=
  [Begin demoNs VReconcile; Begin otherNs VReconcile] ++ alternating 60 ++
  [Begin demoNs VForceDelete; Begin otherNs VReconcile] ++ alternating 60.

Definition settledShoots : system := foldl moved twoShoots schedule.

Lemma extensions_do_not_interfere_witness :
  history_spec (theActuator demoClient demoImages) (demoExtensions otherNs)
    [(VReconcile, clusterOf otherNs, Ok tt); (VReconcile, clusterOf otherNs, Ok tt)]
    (view otherNs (world_at twoShoots otherNs)) (view otherNs (world_at settledShoots otherNs)) /\
  controller (view otherNs (world_at settledShoots otherNs)) = Running /\
  controller (view demoNs (world_at settledShoots demoNs)) = Absent.
Proof.
  split; [|vm_compute; split; reflexivity].
  assert (Hidle : sys_worker settledShoots otherNs = Idle) by (vm_compute; reflexivity).
  assert (Hlog : sys_log settledShoots otherNs =
    [(VReconcile, clusterOf otherNs, Ok tt); (VReconcile, clusterOf otherNs, Ok tt)]) by (vm_compute; reflexivity).
  rewrite <- Hlog.
  destruct (extensions_do_not_interfere demoClient demoImages demoExtensions twoShoots settledShoots) with otherNs as [_ Hspec].
  - reflexivity.
  - split; [intros k d Hk; discriminate Hk|intros n [d Hd]; discriminate Hd].
  - intros n. split; reflexivity.
  - apply moves_turns.
  - exact Hidle.
  - exact Hspec.
Defined.
