(* ===== verification/ExtensionController.v ===== *)
(** * The controller in the world of its Extension

    The world of an Extension lets a running NetworkPolicy controller write
    managed policies as it likes.  The controller of pkg/netpolcontroller, with
    its caches, its queue and its worker, does nothing else. *)

From S2P Require Import Prelude KubeObjects Constants Effects Errors External DataPlanePolicies.
From S2P Require Import NetpolController.
From S2P Require Import ControllerSystem ControllerConvergence ControllerExecution ExtensionWorld.
From S2P Require Import ExtensionDemo.
Import Watches Wiring.

(** What the controller's predicate calls managed, the prune's list options
    select. *)
Lemma isManagedPolicy_managed p : isManagedPolicy (Some p) = true -> managed p.
Proof.
  unfold isManagedPolicy, managed, label. rewrite andb_true_iff, !bool_decide_eq_true. intros [Hby Hhop].
  simpl. rewrite !andb_true_iff, !bool_decide_eq_true. split_and!; [|destruct (np_Labels p !! LabelHop); [done|by destruct Hhop]|done..].
  apply map_Forall_singleton. by destruct (np_Labels p !! LabelManagedBy); [simpl in Hby; subst|].
Qed.

(** A write of the controller's, as the environment sees it. *)
Lemma own_write_env ns s gatewayNs s' w :
  inv s -> own_write s gatewayNs s' -> w_policies w = nps s -> w_running w = true ->
  env ns w (w <| w_policies := nps s' |>).
Proof.
  intros Hi (p&m&e&Hp&->&Hfits&He&Ho) Hw Hrun. simpl.
  assert (Hput : forall o, o ∈ event_objects e -> env ns w (w <| w_policies := <[np_key o := o]> (nps s) |>)).
  { intros o Hin. rewrite <- Hw. apply env_policy_put; [done|]. apply isManagedPolicy_managed.
    rewrite Forall_forall in Ho. destruct (Ho o Hin) as [Hk Hl]. by apply (labelled_object_key gatewayNs p o). }
  destruct e as [[o|]|[o|] [n|]|[o|]|[o|]]; try discriminate He; simpl in He; repeat case_match; simplify_eq.
  - apply Hput. set_solver.
  - apply Hput. set_solver.
  - apply env_users.
    + intros k q [_ Hq]%lookup_delete_Some. by apply (inv_keys _ Hi).
    + intros k q [_ Hq]%lookup_delete_Some _. by rewrite Hw.
Qed.

Section within.
Context `{DocumentedClient} (ns : string).

(** Steps of the controller alone. *)
Definition no_user {A} (_ : A) : Prop := False.

Lemma step_within s s' :
  step no_user no_user s s' -> step keeps_class keeps_labels s s'.
Proof. intros Hs. destruct Hs; try contradiction;
    [by eapply step_deliver_gw|by eapply step_deliver_np|by eapply step_start|by eapply step_call
    |by eapply step_done|by eapply step_failed]. Qed.

Lemma step_env s s' w :
  inv s -> step no_user no_user s s' -> w_policies w = nps s -> w_running w = true ->
  rtc (env ns) w (w <| w_policies := nps s' |>).
Proof using Type*.
  intros Hi Hs Hw Hrun.
  assert (Hsame : nps s' = nps s -> rtc (env ns) w (w <| w_policies := nps s' |>)).
  { intros ->. rewrite <- Hw. destruct w. apply rtc_refl. }
  destruct Hs; try contradiction; try (by apply Hsame).
  destruct (inv_worker _ Hi _ _ ltac:(eassumption)) as (gatewayNs&->&Hshaped).
  match goal with Ha : advance _ _ _ _ |- _ =>
    destruct (advance_shaped _ _ _ _ _ Hi Hshaped Ha) as ([->|Hwrite]&_&_); [by apply Hsame|] end.
  apply rtc_once. exact (own_write_env ns _ gatewayNs _ w Hi Hwrite Hw Hrun).
Qed.
End within.

(** C9: the controller stays within what the world of an Extension lets it do.
    From any state that users can have brought about, whatever the informers
    deliver and whatever the shoot's API server answers to the worker, the
    controller changes the shoot's policies only as the environment of the life
    cycle may while a pod of the controller runs. *)
Theorem controller_within_environment `{DocumentedClient} ns s s' w :
  reachable keeps_class keeps_labels s -> rtc (step no_user no_user) s s' ->
  w_policies w = nps s -> w_running w = true ->
  rtc (env ns) w (w <| w_policies := nps s' |>).
Proof.
  intros Hr%inv_reachable Hsteps. revert w Hr. induction Hsteps as [s|s1 s2 s3 Hs _ IH]; intros w Hi Hw Hrun.
  - rewrite <- Hw. destruct w. apply rtc_refl.
  - assert (Hi2 : inv s2) by (by eapply inv_step, step_within).
    etrans; [exact (step_env ns s1 s2 w Hi Hs Hw Hrun)|]. exact (IH (w <| w_policies := nps s2 |>) Hi2 eq_refl Hrun).
Qed.

(** ** The controller starts, and writes its policies *)

Lemma moves_run_steps ga na l s s' :
  Forall (user_ok ga na) l -> moves_run s l = Some s' -> rtc (step (H := respond_client) ga na) s s'.
Proof.
  intros Hl. revert s. induction Hl as [|m l Hm _ IH]; simpl; intros s Hr.
  - injection Hr as <-. apply rtc_refl.
  - apply bind_Some in Hr as (s1&Hs&Hr). eapply rtc_l; [by eapply move_step_sound|by apply IH].
Qed.

Definition runningWorld : world := emptyWorld <| w_running := true |>.

Lemma controller_within_environment_witness :
  rtc (env demoNs) runningWorld (runningWorld <| w_policies := nps demoSettled |>) /\
  bool_decide (nps demoSettled = ∅) = false.
Proof.
  split; [|vm_compute; reflexivity].
  apply (controller_within_environment (H := respond_client) (H0 := respond_documented) demoNs demoInitial).
  - apply reachable_init, demoInitial_initial. exact I.
  - apply (moves_run_steps _ _ settle); [repeat constructor|vm_compute; reflexivity].
  - reflexivity.
  - reflexivity.
Defined.
