(* ===== verification/Witnesses.v ===== *)
(** * The theorems on the concrete landscape

    Each lemma applies one theorem to an execution of the program against the
    API servers of Landscape.v: its hypotheses hold there, and its conclusion
    says something about that execution. *)

From S2P Require Import Prelude GoStd Errors Effects KubeObjects Constants Config External.
From S2P Require Import Interfaces Secrets Manifests Deployer DeployerProps DataPlanePolicies.
From S2P Require Import GatewayGuard OrphanSweep DataplaneNetpol NetpolDeployer Actuator.
From S2P Require Import ActuatorSpecs Validator ActuatorLemmas ActuatorProps ErrorClasses.
From S2P Require Import FailurePhases.
From S2P Require Import GuardProps SweepProps ManifestProps FunctionalOptions Process Mgr.
From S2P Require Import Heartbeat Controller NetpolManager Commands ProcessProps Landscape.

(** The executions: a living Shoot without Gateways, one with a Gateway, one
    being deleted, one hibernated. *)
Definition quiet := answer aliveShoot [] [].
Definition busy := answer aliveShoot [userGateway] [orphanedService].
Definition deleting := answer deletedShoot [] [].
Definition asleep := answer hibernatedShoot [] [].

(** ** Delete *)

Lemma delete_guard_witness :
  runs (Delete demoActuator demoExtension) (record quiet (Delete demoActuator demoExtension)).1 (Ok tt) /\
  before no_gateways mutating (record quiet (Delete demoActuator demoExtension)).1.
Proof.
  assert (Hr : runs (Delete demoActuator demoExtension)
                 (record quiet (Delete demoActuator demoExtension)).1 (Ok tt)) by by_execution.
  split; [exact Hr|]. apply (delete_guard demoActuator demoExtension _ (Ok tt)); [exact Hr|].
  intros cluster Hc. apply answered_cluster in Hc. rewrite Hc. reflexivity.
Defined.

Lemma guard_outcomes_witness :
  let p := checkNoUserGateways demoActuator (Some aliveShoot) "shoot--demo" in
  runs p (record busy p).1 (Err (gatewaysInUseError ["apps/web"%string])) /\
  exists tl, (record busy p).1 = tl ++ [ev (CounterInc DeleteGuardRejectionsTotal ["shoot--demo"%string]) tt].
Proof.
  intros p.
  assert (Hr : runs p (record busy p).1 (Err (gatewaysInUseError ["apps/web"%string]))) by by_execution.
  split; [exact Hr|].
  apply (guard_outcomes demoActuator (Some aliveShoot) "shoot--demo") in Hr; [|reflexivity].
  destruct Hr as [(e&_&?)|[(n&names&tl&_&Ht&_)|(_&?)]]; [discriminate| |discriminate].
  exists tl. exact Ht.
Defined.

Lemma delete_order_witness :
  let t := (record quiet (Delete demoActuator demoExtension)).1 in
  runs (Delete demoActuator demoExtension) t (Ok tt) /\ before (resource_gone "shoot--demo") cleans_secrets t.
Proof.
  intros t. assert (Hr : runs (Delete demoActuator demoExtension) t (Ok tt)) by by_execution.
  split; [exact Hr|]. apply (delete_order demoActuator demoExtension t (Ok tt) Hr).
Defined.

Lemma drain_never_wedges_witness :
  let p := drainUserGatewaysForShootDeletion demoActuator "shoot--demo" in
  runs p (record deleting p).1 (Ok tt) /\ Forall drain_events (record deleting p).1.
Proof.
  intros p. assert (Hr : runs p (record deleting p).1 (Ok tt)) by by_execution.
  split; [exact Hr|]. apply (drain_never_wedges demoActuator "shoot--demo" _ (Ok tt) Hr).
Defined.

(** ** Reconcile *)

Lemma reconcile_order_witness :
  let t := (record quiet (Reconcile demoActuator demoExtension)).1 in
  runs (Reconcile demoActuator demoExtension) t (Ok tt) /\ before (deployment_gone "shoot--demo") prunes t.
Proof.
  intros t. assert (Hr : runs (Reconcile demoActuator demoExtension) t (Ok tt)) by by_execution.
  split; [exact Hr|]. apply (reconcile_order demoActuator demoExtension t (Ok tt) Hr).
Defined.

Lemma reconcile_deleting_only_drains_witness :
  let t := (record deleting (Reconcile demoActuator demoExtension)).1 in
  runs (Reconcile demoActuator demoExtension) t (Ok tt) /\ Forall drain_events t.
Proof.
  intros t. assert (Hr : runs (Reconcile demoActuator demoExtension) t (Ok tt)) by by_execution.
  split; [exact Hr|]. apply (reconcile_deleting_only_drains demoActuator demoExtension t (Ok tt) Hr).
  intros cluster Hc. apply answered_cluster in Hc. exists deletedShoot. split; [exact Hc|]. exists 1%Z. reflexivity.
Defined.

Lemma reconcile_hibernated_only_scales_witness :
  let t := (record asleep (Reconcile demoActuator demoExtension)).1 in
  runs (Reconcile demoActuator demoExtension) t (Ok tt) /\ Forall seed_only t /\
  exists d m, ev (SeedPatchDeployment d m) (inl tt) ∈ t /\ ds_Replicas (dep_Spec m) = Some 0%Z.
Proof.
  intros t. assert (Hr : runs (Reconcile demoActuator demoExtension) t (Ok tt)) by by_execution.
  split; [exact Hr|].
  destruct (reconcile_hibernated_only_scales demoActuator demoExtension t (Ok tt) Hr) as [Hall Hok].
  - intros cluster Hc. apply answered_cluster in Hc. exists hibernatedShoot. split; [exact Hc|]. split; reflexivity.
  - split; [eapply Forall_impl; [exact Hall|by intros e [He _]]|]. destruct (Hok eq_refl) as [Hpatch|(e&He&_)].
    + destruct Hpatch as (d&m&_&Hm&Hp). exists d, m. split; [exact Hp|apply Hm].
    + exfalso. apply record_answers in He as [c Hc].
      apply (f_equal (fun e => match e with existT (SeedGetDeployment _ _) (inr _) => true | _ => false end)) in Hc.
      destruct c; discriminate.
Defined.

Lemma reconcile_success_witness :
  let t := (record quiet (Reconcile demoActuator configuredExtension)).1 in
  runs (Reconcile demoActuator configuredExtension) t (Ok tt) /\
  exists data, ev (CreateForShoot "shoot--demo" ManagedResourceName ManagedResourceName false data) (inl tt) ∈ t.
Proof.
  intros t. assert (Hr : runs (Reconcile demoActuator configuredExtension) t (Ok tt)) by by_execution.
  split; [exact Hr|].
  destruct (reconcile_success demoActuator configuredExtension t Hr) as (sh&cfg&bundle&res&data&_&_&_&_&Hc&_).
  - intros cluster Hc. apply answered_cluster in Hc. exists aliveShoot. split; [exact Hc|]. split; reflexivity.
  - exists data. exact Hc.
Defined.

Lemma sweep_is_best_effort_witness :
  let t := (record busy (Reconcile demoActuator demoExtension)).1 in
  exists t', t' `sublist_of` t /\ runs (Reconcile (withoutSweeper demoActuator) demoExtension) t' (Ok tt).
Proof.
  intros t. apply (sweep_is_best_effort demoActuator demoExtension t (Ok tt)). by_execution.
Defined.

(** ** ForceDelete and Migrate *)

Lemma leaving_keeps_shoot_objects_witness :
  let t := (record busy (Migrate demoActuator demoExtension)).1 in
  runs (Migrate demoActuator demoExtension) t (Ok tt) /\ before (keeps_objects "shoot--demo") deletes_resource t.
Proof.
  intros t. assert (Hr : runs (Migrate demoActuator demoExtension) t (Ok tt)) by by_execution.
  split; [exact Hr|]. apply (leaving_keeps_shoot_objects demoActuator demoExtension t (Ok tt) (or_introl Hr)).
Defined.

(** ** All operations *)

Lemma panics_exactly_without_shoot_witness :
  exists w, runs (Reconcile demoActuator demoExtension)
    (ev Now 0%Z :: ev (GetCluster "shoot--demo") (inl (mkCluster "shoot--demo" None)) ::
     telemetry "shoot--demo" "reconcile" 0 None) (Panic w).
Proof.
  apply (panics_exactly_without_shoot demoActuator demoExtension). reflexivity.
Defined.

Lemma operations_record_themselves_witness :
  exists start start' tb,
    runs (ReconcileBody demoActuator demoExtension) tb (Ok tt) /\
    (record quiet (RestoreOp demoActuator demoExtension)).1 =
      ev Now start :: (ev Now start' :: tb ++ telemetry "shoot--demo" "reconcile" start' None) ++
      telemetry "shoot--demo" "restore" start None.
Proof.
  apply (operations_record_themselves demoActuator demoExtension
           (record quiet (RestoreOp demoActuator demoExtension)).1 (Ok tt)).
  by_execution.
Defined.

(** The seed cannot store the resources. *)
Definition unstorable (c : call) : ans c :=
  match c as c return ans c with
  | CreateForShoot _ _ _ _ _ => inr (apiError ReasonUnknown "etcdserver: request timed out")
  | c => quiet c
  end.

Lemma timeout_benign : benign (apiError ReasonUnknown "etcdserver: request timed out").
Proof. split; [reflexivity|]. refine (bool_decide_unpack (clean markers _) _). vm_compute. exact I. Qed.

Lemma unstorable_plain c : plain (ev c (unstorable c)).
Proof.
  split; [|by destruct c; constructor].
  intros err He. destruct c; vm_compute in He; try discriminate He. injection He as <-. apply timeout_benign.
Qed.

#[local] Instance demoLibraries_plain : PlainLibraries demoImages.
Proof. constructor; [refine (bool_decide_unpack (clean markers _) _); vm_compute; exact I|done..]. Qed.

Lemma failures_classified_witness :
  let t := (record unstorable (Reconcile demoActuator demoExtension)).1 in
  exists e, runs (Reconcile demoActuator demoExtension) t (Err e) /\
    failed_at "shoot--demo" "reconcile" t e /\ classifyError (Some e) = "managed_resource"%string.
Proof.
  intros t.
  destruct (record unstorable (Reconcile demoActuator demoExtension)).2 as [| e |] eqn:Heq; [discriminate Heq| |discriminate Heq].
  assert (Hr : runs (Reconcile demoActuator demoExtension) t (Err e)) by (apply recorded_runs; exact Heq).
  exists e. split; [exact Hr|]. split.
  - apply (failures_classified demoImages demoActuator demoExtension "reconcile" (Reconcile demoActuator demoExtension) t e).
    + constructor; [reflexivity| |reflexivity..]. exists demoDecode. split; [reflexivity|].
      intros raw err Herr. unfold demoDecode in Herr. destruct (decide _); [discriminate|]. injection Herr as <-.
      split; [reflexivity|]. refine (bool_decide_unpack (clean markers _) _). vm_compute. exact I.
    + split; refine (bool_decide_unpack (clean markers _) _); vm_compute; exact I.
    + left.
    + exact Hr.
    + apply Forall_forall. intros x Hx. apply record_answers in Hx as [c ->]. apply unstorable_plain.
  - vm_compute in Heq. injection Heq as <-. vm_compute. reflexivity.
Defined.

(** ** The Gateway lister and the sweeper *)

Lemma WaitUntilGatewaysDeleted_outcomes_witness :
  let p := realGatewayLister.WaitUntilGatewaysDeleted 3 "shoot--demo" in
  runs p (record busy p).1 (Err realGatewayLister.ErrGatewaysStillDeleting) /\ listings (record busy p).1 <= 4.
Proof.
  intros p.
  assert (Hr : runs p (record busy p).1 (Err realGatewayLister.ErrGatewaysStillDeleting)) by by_execution.
  split; [exact Hr|]. apply (WaitUntilGatewaysDeleted_outcomes 3 "shoot--demo" _ _ Hr).
Defined.

Lemma DeleteGateways_complete_witness :
  let p := realGatewayLister.DeleteGateways "shoot--demo" in
  runs p (record busy p).1 (Ok tt) /\ exists l, ev (External.ListGateways []) (inl l) ∈ (record busy p).1.
Proof.
  intros p. assert (Hr : runs p (record busy p).1 (Ok tt)) by by_execution.
  split; [exact Hr|]. destruct (DeleteGateways_complete "shoot--demo" _ Hr) as (l&Hl&_). exists l. exact Hl.
Defined.

Lemma Sweep_deletes_exactly_orphans_witness :
  let p := orphanDataPlaneSweeper.Sweep "shoot--demo" in
  runs p (record busy p).1 (Ok tt) /\ orphan orphanedService /\ Forall deletes_orphan (record busy p).1.
Proof.
  intros p. assert (Hr : runs p (record busy p).1 (Ok tt)) by by_execution.
  split; [exact Hr|]. split.
  { split; [reflexivity|]. split; [reflexivity|]. exists "web"%string. reflexivity. }
  apply (Sweep_deletes_exactly_orphans "shoot--demo" _ (Ok tt) Hr).
  intros kind l Hl. apply answered_objects in Hl. rewrite Hl. constructor; [reflexivity|constructor].
Defined.

(** ** Deployment and admission *)

Definition demoBundle : TLSBundle := mkTLSBundle "cert" "key" "ca" "client" "clientkey" "hmac".

Definition demoResources : gmap string string :=
  match buildResources DefaultConfig demoImages demoBundle with Ok m => m | _ => ∅ end.

Lemma buildResources_spec_witness :
  buildResources DefaultConfig demoImages demoBundle = Ok demoResources /\
  demoResources !! "envoyproxy-defaults.yaml"%string = Some (envoyProxyDefaultsYAML DefaultConfig).
Proof.
  assert (E : buildResources DefaultConfig demoImages demoBundle = Ok demoResources) by (vm_compute; reflexivity).
  split; [exact E|]. destruct (buildResources_spec _ _ _ _ E) as (_&_&_&Hd&_). exact Hd.
Defined.

Lemma admission_agrees_with_actuator_witness :
  exists c, runs (egConfigOf demoActuator "1.33.0" (Some "policies"%string)) [] (Ok c).
Proof.
  apply (admission_agrees_with_actuator demoDecode aliveShoot demoActuator "1.33.0").
  - apply (bool_decide_unpack _). vm_compute. exact I.
  - reflexivity.
  - discriminate.
  - reflexivity.
  - eexists. vm_compute. reflexivity.
Defined.

(** ** Network policies and manifests *)

Definition demoProxy : Pod :=
  mkPod {[ MetadataNameLabel := "apps"%string ]} "apps"
    {[ LabelManagedBy := EnvoyProxyManagedByValue; LabelName := EnvoyProxyNameValue ]}.
Definition demoControlPlane : Pod :=
  mkPod {[ MetadataNameLabel := Namespace ]} Namespace (podNetworkLabels ∪ commonLabels).

#[local] Existing Instance inclusion_semantics.

Lemma data_plane_policies_admit_exactly_witness :
  egress_allowed (dataPlanePolicies "apps") demoProxy demoControlPlane ProtocolTCP XDSPort = true /\
  egress_allowed (dataPlanePolicies "apps") demoProxy demoProxy ProtocolTCP XDSPort = false /\
  ingress_allowed (dataPlanePolicies "apps") demoControlPlane demoProxy ProtocolTCP 22 = true.
Proof.
  destruct (data_plane_policies_admit_exactly "apps") as (_&_&Hegress&Hothers&_). split_and!.
  - apply Hegress; [repeat split; reflexivity|]. right. right. repeat split; reflexivity.
  - vm_compute. reflexivity.
  - apply (Hothers demoControlPlane). intros [[=] _].
Defined.

Lemma xds_admitted_on_both_sides_witness :
  ingress_allowed [networkPolicy] demoControlPlane demoProxy ProtocolTCP XDSPort = true.
Proof.
  destruct (xds_admitted_on_both_sides demoProxy demoControlPlane) as (_&_&_&Hin&_); [| |exact Hin].
  - split; reflexivity.
  - split; [reflexivity|split; reflexivity].
Defined.

Lemma control_plane_wiring_witness :
  exists d, Manifests.deployment DefaultConfig demoImages = Ok d /\ is_Some (ds_Replicas (dep_Spec d)).
Proof.
  eexists. split; [reflexivity|]. eapply (control_plane_wiring DefaultConfig demoImages). reflexivity.
Defined.

(** ** Process start-up *)

Lemma mgr_New_registers_everything_witness :
  let p := mgr.New [mgr.WithInstallScheme "config"; mgr.WithReadyzCheck "readyz" Ping; mgr.WithAddToScheme "kubernetes"] in
  runs p (record willing p).1 (Ok 7) /\ Forall (fun e => ~ starts e) (record willing p).1 /\
  exists t, (record willing p).1 = ev (AddToScheme "kubernetes") (inl tt) :: ev (InstallScheme "config") tt :: t.
Proof.
  intros p. assert (Hr : runs p (record willing p).1 (Ok 7)) by by_execution.
  split; [exact Hr|]. destruct (mgr_New_registers_everything _ _ (Ok 7) Hr) as [Hidle Hnew].
  split; [exact Hidle|]. destruct (Hnew 7 eq_refl) as (m&config&t1&t2&Happ&Ht&_). injection Happ as <-.
  eexists. exact Ht.
Defined.

Lemma runManager_starts_last_witness :
  let p := managercmd.runManager demoImages demoFlags 0 in
  runs p (record willing p).1 (Ok tt) /\
  exists m x t1, (record willing p).1 = t1 ++ [ev (Start m) x] /\ heartbeat_registered demoFlags m t1.
Proof.
  intros p. assert (Hr : runs p (record willing p).1 (Ok tt)) by by_execution.
  split; [exact Hr|]. destruct (runManager_starts_last demoImages demoFlags 0 _ _ Hr) as [[_ [e He]]|Hs].
  - discriminate.
  - destruct Hs as (m&x&t1&Ht&_&_&Hhb&_). exists m, x, t1. split; [exact Ht|exact Hhb].
Defined.

Lemma netpol_run_starts_last_witness :
  let f := netpolcontroller.mkFlags "shoot--demo" "/kubeconfig" false ":8080" ":8081" "info" "text" in
  let p := netpolcontroller.run 0 0 f in
  runs p (record willing p).1 (Ok tt) /\
  exists mgr x t1 opts, (record willing p).1 = t1 ++ [ev (Start mgr) x] /\ shoot_wired opts mgr t1.
Proof.
  intros f p. assert (Hr : runs p (record willing p).1 (Ok tt)) by by_execution.
  split; [exact Hr|]. destruct (netpol_run_starts_last 0 0 f _ _ Hr) as [(e&_&He)|[[_ [e He]]|Hs]].
  - discriminate.
  - discriminate.
  - destruct Hs as (m&x&t1&opts&Ht&_&_&_&_&_&_&_&Hw&_). exists m, x, t1, opts. split; [exact Ht|exact Hw].
Defined.

Lemma runWebhookServer_starts_last_witness :
  let p := webhookcmd.runWebhookServer demoWebhookFlags 0 in
  runs p (record willing p).1 (Ok tt) /\
  exists m x t1, (record willing p).1 = t1 ++ [ev (Start m) x] /\ webhook_wired demoWebhookFlags 0 m t1.
Proof.
  intros p. assert (Hr : runs p (record willing p).1 (Ok tt)) by by_execution.
  split; [exact Hr|]. destruct (runWebhookServer_starts_last demoWebhookFlags 0 _ _ Hr) as [(e&_&He)|[[_ [e He]]|Hs]].
  - discriminate.
  - discriminate.
  - destruct Hs as (m&x&t1&Ht&_&Hw&_). exists m, x, t1. split; [exact Ht|exact Hw].
Defined.
